(* ===== verification/_CoqProject ===== *)
-Q . S2P
Prelude.v
GoStd.v
Digest.v
GoText.v
DigestSet.v
Regexp.v
Reference.v
ReferenceProps.v
Driver.v
Regulator.v
EventQueue.v
Sinks.v
Broadcaster.v
Paths.v
FileSystem.v
InMemory.v
InMemoryFS.v
FileReader.v
ObjectStore.v
BlobStore.v
Upload.v
UploadSpec.v
Hmac.v
ErrCode.v
TokenAuth.v
Htpasswd.v
Authorization.v
UploadHandler.v
UploadProps.v
TagStore.v
Vacuum.v
MarkSweep.v
MarkSweepSafety.v
Sample.v
SampleGC.v
StorageCatalog.v
Database.v
Tracking.v
Datastore.v
Transactions.v
Repositories.v
StoreOps.v
RepositoryTree.v
RepositoryQueries.v
OnlineGC.v
OnlineGCSafety.v
OnlineGCProps.v
Registry.v
Rows.v
RepositoryProps.v
Api.v
Manifests.v
Listener.v
Handlers.v
CatalogProps.v
ManifestHandlers.v
PushProps.v
PushStore.v
PushPull.v
DeleteProps.v
OnlineGCProgress.v
PullProps.v
UploadDatabase.v
UploadPull.v
SampleOnlineGC.v
SampleUpload.v
SampleRequests.v
SampleUploadDatabase.v
SampleReference.v
SampleListener.v
SampleAuth.v
