(* ===== verification/Prelude.v ===== *)
(** * A verification of the container registry

    The registry stores blobs and manifests of container images.  This
    development models the parts that decide what is stored, where, and what is
    removed, as functions that can be evaluated, and proves what they promise.
    Source files are named relative to src/.

    ** The parts and their files

    - Vocabulary.  This file: outcomes of Go calls ([outcome]: a value, an error
      or a panic), stateful calls ([GoM]), their postconditions ([wp]),
      automation, lemmas on lists.  GoStd.v: what the code uses of the Go
      standard library (strings, paths, sort.Search).  Digest.v: the go-digest
      package as a class [GoDigest] with the laws [GoDigestLaws] that its
      documentation states, and an instance that satisfies them.
    - DigestSet.v models digestset/set.go: a sorted set of digests with lookup
      by abbreviation.  The mutex is left out: every call is atomic.
    - Driver.v models the interface of the storage drivers
      (registry/storage/driver/storagedriver.go), the checks of the base driver
      (base/base.go) and the walk (walk.go).  FileSystem.v is the specification:
      a partial map from paths to contents, and the class [DriverLaws] of what a
      driver promises with respect to it.  InMemory.v models the in-memory
      driver (inmemory/driver.go, inmemory/mfs.go) node by node; InMemoryFS.v
      proves that it satisfies [DriverLaws].
    - Paths.v models the path mapper (registry/storage/paths.go).  ObjectStore.v
      views the storage as a map from path specifications to contents, on top
      of any driver with [DriverLaws].
    - FileReader.v models filereader.go, a reader that is opened late and seeks.
      BlobStore.v models blobstore.go, linkedblobstore.go, io.go; TagStore.v
      models tagstore.go and cachedtagstore.go; Vacuum.v models vacuum.go.
    - MarkSweep.v models the offline garbage collection (garbagecollect.go);
      the enumerations and the manifest service it calls are the class
      [Namespace].  MarkSweepSafety.v proves its properties.
    - Database.v models the tables, constraints and triggers that the migrations
      create (registry/datastore/migrations), and the statements of the stores
      on them; Tracking.v states the invariant of the database and proves that
      every statement preserves it.  Datastore.v models the stores
      (registry/datastore) as sequences of statements in a transaction that any
      fault can abort.
    - OnlineGC.v models the workers of the online garbage collection
      (registry/gc/worker).  OnlineGCSafety.v gives what a run does whatever
      fails; OnlineGCProps.v the states that the system reaches; and
      OnlineGCProgress.v what the workers collect.
    - Sample.v, SampleGC.v, SampleOnlineGC.v hold a concrete registry on the
      in-memory driver, with its database: the inputs on which theorems with
      hypotheses are evaluated, and the counterexamples behind the findings.
    - GoText.v models the numbers and times of the Go library.  Upload.v models
      the blob writer (blobwriter.go, blobwriter_resumable.go) and the uploads of
      linkedblobstore.go; UploadSpec.v gives what each method does to the
      objects of an upload.  Hmac.v models the tokens of uploads
      (registry/handlers/hmac.go); UploadHandler.v the requests
      (registry/handlers/blobupload.go, helpers.go); UploadProps.v proves what a
      sequence of requests does.  The hash functions and the token codec are the
      classes [GoHash] and [GoToken].  SampleUpload.v holds a concrete upload.
    - Transactions.v gives triples for calls of the stores in a transaction.
      Repositories.v models the namespaces and repositories
      (registry/datastore/namespace.go, repository.go): their creation by path,
      the paginated and the recursive queries.  RepositoryTree.v,
      RepositoryQueries.v and RepositoryProps.v prove what these calls do.  The
      order of texts in the database is the class [Collation].
    - StoreOps.v lists the writes of the stores and what an invariant has to
      satisfy to be kept by all of them; Registry.v gives the databases that the
      calls and the workers reach, with the invariants of the repositories and
      of the rows of manifests; Rows.v what the lookups of manifests return.
    - ErrCode.v models the codes of errors (registry/api/errcode,
      registry/api/v2/errors.go), Api.v a request: its errors, its statements
      outside of transactions, its transactions, and the steps of others in
      between.
    - StorageCatalog.v models the catalog of the storage (catalog.go).
      Manifests.v models the manifest formats (manifests.go, manifest/), the
      validators (registry/storage/validation) and the manifest store
      (manifeststore.go).  What the standard library decodes from JSON is the
      class [ManifestCodec].
    - Handlers.v models the requests for the catalog, tags and blobs
      (registry/handlers/catalog.go, tags.go, blob.go), ManifestHandlers.v those
      for manifests (manifests.go).  CatalogProps.v proves what a client sees
      that follows the pages; PushProps.v, PushStore.v and PushPull.v what a push
      does; DeleteProps.v what the deletion of a manifest does; PullProps.v that
      what was pushed can be pulled after the collector ran.  SampleRequests.v
      holds requests on a concrete registry.
    - UploadDatabase.v models the requests of uploads with the database
      (registry/handlers/blobupload.go: dbPutBlobUploadComplete, dbMountBlob), and
      UploadPull.v proves that what is uploaded is pulled.
      SampleUploadDatabase.v holds such an upload.
    - Regexp.v gives regular expressions with their matches; Reference.v models
      the references (reference/), ReferenceProps.v proves what is parsed and
      printed.  SampleReference.v holds concrete references.
    - Regulator.v models the limit on calls of a driver (base/regulator.go),
      EventQueue.v and Broadcaster.v the queue and the broadcaster of events
      (notifications/sinks.go): step relations of goroutines, locks and channels.
      Sinks.v models the other sinks (sinks.go, http.go), Listener.v the services
      that notify and the events (listener.go, bridge.go, event.go).
      SampleListener.v holds a concrete service.
    - TokenAuth.v models the tokens of requests (registry/auth/token), with
      signatures and certificates as the class [TokenCrypto]; Htpasswd.v the file
      of passwords (registry/auth/htpasswd); Authorization.v what a request has to
      be authorized for, and which storage serves it
      (registry/handlers/app.go, registry/api/v2/routes.go).  SampleAuth.v holds a
      concrete token.

    ** State and operations

    A method that changes its receiver is a function from the state to an
    outcome and a state, and carries the name of the method, prefixed by its
    type where two would clash.  An error does not undo what was done before it.
    Logging, metrics, tracing and contexts are left out.  Times are integers in
    nanoseconds, and an operation that reads the clock takes the time as an
    argument.  Integers are unbounded where the code cannot reach their bounds,
    and wrapped at 64 bits in the back-off of the workers and in the times of
    tokens, where it can.

    ** What is proved

    - Layout: no two objects share a path, the mapper agrees with the documented
      layout, digests are recovered from paths, invalid digests have no path.
    - Storage: the in-memory driver refines the map from paths to contents over
      any sequence of calls, for paths that do not repeat a component in the way
      that it mishandles; writes are read back; refused writes change nothing.
    - Blobs and tags: round trips of put and get, tag and resolve; deleting and
      mounting; the bound on blobs that are read into memory.
    - Digest sets: refinement of finite sets, lookup, short codes.
    - Offline collection: exactly what is unreachable is removed; tags keep what
      their manifests reference, and of lists what their manifests reference, one
      level deep; a collection that cannot read fails and removes nothing.
    - Online collection: the invariant of the database in every reachable state;
      a run of a worker that nothing interrupts removes nothing that is
      referenced, whatever fails; runs without faults terminate in a state
      without garbage.
    - Uploads: what is sent in any number of requests is stored under its digest;
      with the database, it is what is pulled; wrong digests, stale and forged
      tokens are refused without effect outside the upload; canceled uploads are
      gone; the file reader is a cursor on the content.  The writers of the driver
      write through ([WriterLaws] of FileSystem.v).
    - Repositories: they form the tree of their paths in every reachable state;
      creation by path is idempotent and adds only what is missing; the recursive
      queries end with what is above and below.
    - Rows: what the stores write can be read back, by digest, by tag and by
      listing, in every reachable state.
    - Requests, with the metadata in the database alone: pages of the catalog and
      of tags yield every entry once; the first push of an image with plain
      references stores exactly the image or, if blobs are missing, nothing; an
      image that was pushed is pulled as it was after any runs of the workers;
      deleting a manifest is refused while a list has it.
    - References: the parser accepts exactly the grammar, and what is printed is
      parsed again.
    - Notifications: the queue and the broadcaster deliver blocks once and in order
      in every interleaving, and all of them before they close, unless a write
      without events has stopped the queue; the retrying sink ends with a delivery or when
      it is closed; the services that notify do what the services do, and write
      one event for each success.
    - Regulator: the calls that it regulates never exceed the limit, and no
      wake-up is lost.
    - Authorization: a request reaches its handler only with a token that is
      signed by a trusted key, valid now, and grants every access that the request
      needs; a user is accepted only with a password of the
      file, while the file can be parsed.

    ** Fuel

    Loops of the code that are not structural take fuel, and the fuel is shown
    to be enough: the batches of Vacuum.v and the short codes of DigestSet.v get
    the length of their input, the search of GoStd.v the size of its range, the
    path functions the length of the path, the recursive queries of
    Repositories.v the number of repositories, a client of CatalogProps.v the
    number of entries.

    ** Not modelled

    The cloud drivers and the file system driver (third-party services and the
    operating system), the HTTP server and client, configuration, signatures,
    certificates and password hashes, the decoding of JSON, concurrency inside
    a component (each call is atomic; interleavings are modelled between
    transactions and worker runs, and in the regulator, the queue and the
    broadcaster), and the deletion of repositories in the database.  PROJECT.json lists every part with its status. *)

From stdpp Require Export base list gmap strings.
From Stdlib Require Ascii.
Export Stdlib.Strings.Ascii (ascii(..)).
Export (notations) Stdlib.Strings.Ascii.

(** ** Outcomes of a Go call

    A Go function that can fail returns a value and an [error]; the error path
    is the constructor [Fail].  A run-time panic (an out-of-range slice, a
    failed type assertion) is neither, and is the constructor [Panic]. *)
Inductive outcome (E A : Type) : Type :=
  | Ret (a : A)
  | Fail (e : E)
  | Panic.
Arguments Ret {E A} a.
Arguments Fail {E A} e.
Arguments Panic {E A}.

Definition obind {E A B : Type} (m : outcome E A) (k : A → outcome E B) : outcome E B :=
  match m with
  | Ret a => k a
  | Fail e => Fail e
  | Panic => Panic
  end.

(** Replace the error of a failed call, as a handler that wraps it does. *)
Definition omap_err {E F A : Type} (f : E → F) (m : outcome E A) : outcome F A :=
  match m with
  | Ret a => Ret a
  | Fail e => Fail (f e)
  | Panic => Panic
  end.

Declare Scope go_scope.
Delimit Scope go_scope with go.
Notation "'let*' x := m 'in' k" := (obind m (λ x, k))
  (at level 10, x name, m at level 200, k at level 200) : go_scope.
Notation "'let*' ' pat := m 'in' k" := (obind m (λ x, match x with pat => k end))
  (at level 10, pat strict pattern, m at level 200, k at level 200) : go_scope.

(** ** Stateful calls

    A method that reads or writes the state [S] of its receiver.  A failed call
    still has a final state: what it did before it failed stays done. *)
Definition GoM (S E A : Type) : Type := S → outcome E A * S.

#[export] Instance gom_ret {S E} : MRet (GoM S E) := λ A a s, (Ret a, s).
#[export] Instance gom_bind {S E} : MBind (GoM S E) := λ A B k m s,
  match m s with
  | (Ret a, s') => k a s'
  | (Fail e, s') => (Fail e, s')
  | (Panic, s') => (Panic, s')
  end.
Definition fail {S E A} (e : E) : GoM S E A := λ s, (Fail e, s).
Definition panic {S E A} : GoM S E A := λ s, (Panic, s).
Definition gets {S E A} (f : S → A) : GoM S E A := λ s, (Ret (f s), s).
Definition modify {S E} (f : S → S) : GoM S E unit := λ s, (Ret tt, f s).
Definition lift {S E A} (o : outcome E A) : GoM S E A := λ s, (o, s).
(** The value and the error of a call, for a caller that inspects the error. *)
Definition attempt {S E A} (m : GoM S E A) : GoM S E (E + A) := λ s,
  match m s with
  | (Ret a, s') => (Ret (inr a), s')
  | (Fail e, s') => (Ret (inl e), s')
  | (Panic, s') => (Panic, s')
  end.
(** A call on one half of a larger state. *)
Definition on_fst {S T E A} (m : GoM S E A) : GoM (S * T) E A := λ st,
  let '(o, s) := m st.1 in (o, (s, st.2)).
Definition on_snd {S T E A} (m : GoM T E A) : GoM (S * T) E A := λ st,
  let '(o, t) := m st.2 in (o, (st.1, t)).
(** Change the error of a call that failed. *)
Definition wrap_err {S E F A} (f : E → F) (m : GoM S E A) : GoM S F A := λ s,
  let '(o, s') := m s in (omap_err f o, s').

Lemma bind_Ret {S E A B} (m : GoM S E A) (k : A → GoM S E B) s a s' :
  m s = (Ret a, s') → (m ≫= k) s = k a s'.
Proof. intros H. unfold mbind, gom_bind. by rewrite H. Qed.
Lemma bind_Fail {S E A B} (m : GoM S E A) (k : A → GoM S E B) s e s' :
  m s = (Fail e, s') → (m ≫= k) s = (Fail e, s').
Proof. intros H. unfold mbind, gom_bind. by rewrite H. Qed.
Lemma bind_Panic {S E A B} (m : GoM S E A) (k : A → GoM S E B) s s' :
  m s = (Panic, s') → (m ≫= k) s = (Panic, s').
Proof. intros H. unfold mbind, gom_bind. by rewrite H. Qed.

(** *** Postconditions

    [wp m s Q]: the outcome and the final state of [m] from [s] satisfy [Q]. *)
Definition wp {S E A} (m : GoM S E A) (s : S) (Q : outcome E A → S → Prop) : Prop := Q (m s).1 (m s).2.

(** The postcondition of the first call of a sequence. *)
Definition wp_then {S E A B} (k : A → GoM S E B) (Q : outcome E B → S → Prop) (o : outcome E A) (s : S) : Prop :=
  match o with
  | Ret a => wp (k a) s Q
  | Fail e => Q (Fail e) s
  | Panic => Q Panic s
  end.

Lemma wp_bind {S E A B} (m : GoM S E A) (k : A → GoM S E B) s Q :
  wp m s (wp_then k Q) → wp (m ≫= k) s Q.
Proof. unfold wp, wp_then, mbind, gom_bind. by destruct (m s) as [[] ]. Qed.
Lemma wp_mono {S E A} (m : GoM S E A) s (P Q : outcome E A → S → Prop) :
  wp m s P → (∀ o s', P o s' → Q o s') → wp m s Q.
Proof. unfold wp. auto. Qed.
Lemma wp_attempt {S E A} (m : GoM S E A) s Q :
  wp m s (λ o s', match o with
                  | Ret a => Q (Ret (inr a)) s'
                  | Fail e => Q (Ret (inl e)) s'
                  | Panic => Q Panic s'
                  end) → wp (attempt m) s Q.
Proof. unfold wp, attempt. by destruct (m s) as [[] ]. Qed.
Lemma wp_wrap_err {S E F A} (f : E → F) (m : GoM S E A) s Q :
  wp m s (λ o s', Q (omap_err f o) s') → wp (wrap_err f m) s Q.
Proof. unfold wp, wrap_err. by destruct (m s) as [[] ]. Qed.

(** ** Automation *)

Create HintDb registry.
Create Rewrite HintDb registry.

(** Case analysis on the scrutinee of every [match] or [if] of the goal. *)
Ltac go_split := repeat (case_match; simplify_eq/=; try done).

(** Turn boolean tests in the context into propositions. *)
Ltac breflect :=
  repeat match goal with
  | H : (_ && _) = true |- _ => apply andb_true_iff in H; destruct H
  | H : (_ || _) = false |- _ => apply orb_false_iff in H; destruct H
  | H : negb _ = true |- _ => apply negb_true_iff in H
  | H : negb _ = false |- _ => apply negb_false_iff in H
  | H : bool_decide _ = true |- _ => apply bool_decide_eq_true_1 in H
  | H : bool_decide _ = false |- _ => apply bool_decide_eq_false_1 in H
  end.

Lemma obind_Ret_inv {E A B} (m : outcome E A) (k : A → outcome E B) b :
  obind m k = Ret b → ∃ a, m = Ret a ∧ k a = Ret b.
Proof. destruct m; naive_solver. Qed.

(** ** Lists *)

Lemma filter_none {A} (P : A → Prop) `{∀ x, Decision (P x)} (l : list A) :
  Forall (λ x, ¬ P x) l → filter P l = [].
Proof. induction 1 as [|x l Hx _ IH]; [done|]. by rewrite filter_cons_False. Qed.

Lemma head_filter_Some {A} (P : A → Prop) `{∀ x, Decision (P x)} (l : list A) x :
  head (filter P l) = Some x → x ∈ l ∧ P x.
Proof. intros Hx%head_Some_elem_of. apply list_elem_of_filter in Hx. tauto. Qed.
Lemma head_filter_None {A} (P : A → Prop) `{∀ x, Decision (P x)} (l : list A) :
  head (filter P l) = None ↔ ∀ x, x ∈ l → ¬ P x.
Proof.
  split.
  - intros Hn%head_None x Hx HP. assert (x ∈ filter P l) as Hin by by apply list_elem_of_filter.
    rewrite Hn in Hin. by apply not_elem_of_nil in Hin.
  - intros Hn. apply head_None, filter_none, Forall_forall. naive_solver.
Qed.
Lemma elem_of_concat {A} (x : A) (ls : list (list A)) : x ∈ concat ls ↔ ∃ l, x ∈ l ∧ l ∈ ls.
Proof. induction ls as [|l ls IH]; cbn [concat]; [set_solver|]. rewrite elem_of_app, IH. set_solver. Qed.

(** ** State machines *)

(** What every step keeps holds in every state that is reached. *)
Lemma rtc_invariant {A} (R : relation A) (I : A → Prop) x y :
  (∀ a b, I a → R a b → I b) → I x → rtc R x y → I y.
Proof. intros Hstep Hx Hr. induction Hr as [x|x y z Hxy _ IH]; [done|]. by eapply IH, Hstep. Qed.
