(* ===== verification/GoStd.v ===== *)
(** * The Go standard library functions the registry relies on

    Go strings are byte sequences; they are [string] here, one [ascii] per
    byte.  The file models the functions of the packages [strings] and [path]
    that the modelled sources call, with the facts the components share:
    splitting and joining are inverse, [path.Clean] is the identity on paths
    that are already canonical, and the byte-wise string order is total. *)

From stdpp Require Import sorting.
From S2P Require Import Prelude.

Definition slash : ascii := "/"%char.

(** ** String basics *)

Lemma str_app_cons c s t : String c s +:+ t = String c (s +:+ t).
Proof. done. Qed.
Lemma str_app_nil_l s : "" +:+ s = s.
Proof. done. Qed.
Lemma str_app_nil_r s : s +:+ "" = s.
Proof. induction s as [|c s IH]; [done|]. by rewrite str_app_cons, IH. Qed.
Lemma str_app_assoc s t u : s +:+ (t +:+ u) = (s +:+ t) +:+ u.
Proof. induction s as [|c s IH]; [done|]. by rewrite !str_app_cons, IH. Qed.
(** Bring concatenations into one right-nested form. *)
Ltac str_norm := repeat (rewrite str_app_cons || rewrite str_app_nil_l || rewrite <-str_app_assoc).
Lemma str_length_app s t : String.length (s +:+ t) = String.length s + String.length t.
Proof. induction s as [|c s IH]; [done|]. rewrite str_app_cons. simpl. by rewrite IH. Qed.
Lemma str_length_nil s : String.length s = 0 → s = "".
Proof. by destruct s. Qed.
Lemma str_app_eq_nil s t : s +:+ t = "" → s = "" ∧ t = "".
Proof. by destruct s. Qed.

#[export] Hint Rewrite str_app_cons str_app_nil_l str_app_nil_r str_length_app : registry.

(** [s[:n]] and [s[n:]], for [n] in range. *)
Fixpoint str_take (n : nat) (s : string) : string :=
  match n, s with
  | S n, String c s => String c (str_take n s)
  | _, _ => ""
  end.
Fixpoint str_drop (n : nat) (s : string) : string :=
  match n, s with
  | S n, String _ s => str_drop n s
  | _, _ => s
  end.

Lemma str_take_drop n s : str_take n s +:+ str_drop n s = s.
Proof. revert s; induction n as [|n IH]; intros [|c s]; simpl; try done. by rewrite str_app_cons, IH. Qed.
Lemma str_length_take n s : String.length (str_take n s) = Nat.min n (String.length s).
Proof. revert s; induction n as [|n IH]; intros [|c s]; simpl; auto. Qed.
Lemma str_length_drop n s : String.length (str_drop n s) = String.length s - n.
Proof. revert s; induction n as [|n IH]; intros [|c s]; simpl; auto. Qed.
Lemma str_drop_drop n m s : str_drop n (str_drop m s) = str_drop (m + n) s.
Proof. revert s. induction m as [|m IH]; intros s; [done|]. destruct s; [by destruct n|]. apply IH. Qed.
Lemma str_drop_ge n s : String.length s ≤ n → str_drop n s = "".
Proof. intros H. apply str_length_nil. rewrite str_length_drop. lia. Qed.
Lemma str_take_ge n s : String.length s ≤ n → str_take n s = s.
Proof. revert s; induction n as [|n IH]; intros [|c s]; simpl; intros; auto with lia. by rewrite IH by lia. Qed.
Lemma str_take_app s t : str_take (String.length s) (s +:+ t) = s.
Proof. induction s as [|c s IH]; [by destruct t|]. rewrite str_app_cons. simpl. by rewrite IH. Qed.
Lemma str_take_app_le n s t : n ≤ String.length s → str_take n (s +:+ t) = str_take n s.
Proof.
  revert s. induction n as [|n IH]; intros s Hn; [by destruct s, t|].
  destruct s as [|c s]; [simpl in Hn; lia|]. rewrite str_app_cons. cbn [str_take].
  simpl in Hn. rewrite IH by lia. done.
Qed.
Lemma str_drop_app s t : str_drop (String.length s) (s +:+ t) = t.
Proof. induction s as [|c s IH]; [done|]. by rewrite str_app_cons. Qed.

(** Occurrence of a byte, and strings of bytes that all satisfy a test. *)
Fixpoint str_all (f : ascii → bool) (s : string) : bool :=
  match s with
  | "" => true
  | String c s => f c && str_all f s
  end.
Definition no_byte (c : ascii) (s : string) : bool := str_all (λ a, bool_decide (a ≠ c)) s.

Lemma str_all_app f s t : str_all f (s +:+ t) = str_all f s && str_all f t.
Proof. induction s as [|c s IH]; [done|]. rewrite str_app_cons. simpl. by rewrite IH, andb_assoc. Qed.
Lemma str_all_take f n s : str_all f s = true → str_all f (str_take n s) = true.
Proof.
  revert s; induction n as [|n IH]; intros [|c s]; simpl; try done.
  rewrite !andb_true_iff. naive_solver.
Qed.
Lemma str_all_impl (f g : ascii → bool) s :
  (∀ c, f c = true → g c = true) → str_all f s = true → str_all g s = true.
Proof. intros Hfg. induction s as [|c s IH]; simpl; [done|]. rewrite !andb_true_iff. naive_solver. Qed.

(** ** Package strings *)

(** [strings.HasPrefix(s, prefix)]. *)
Fixpoint HasPrefix (s prefix : string) {struct prefix} : bool :=
  match prefix, s with
  | "", _ => true
  | String a p, String b s => bool_decide (a = b) && HasPrefix s p
  | String _ _, "" => false
  end.

Lemma HasPrefix_spec s p : HasPrefix s p = true ↔ ∃ t, s = p +:+ t.
Proof.
  revert s; induction p as [|a p IH]; intros [|b s]; simpl.
  - split; [by exists ""|done].
  - split; [by exists (String b s)|done].
  - split; [done|]. by intros [t Ht].
  - rewrite andb_true_iff, bool_decide_eq_true, IH. split.
    + intros [-> [t ->]]. by exists t.
    + intros [t Ht]. rewrite str_app_cons in Ht. simplify_eq. eauto.
Qed.
Lemma HasPrefix_app p t : HasPrefix (p +:+ t) p = true.
Proof. apply HasPrefix_spec. eauto. Qed.
Lemma HasPrefix_refl p : HasPrefix p p = true.
Proof. apply HasPrefix_spec. exists "". by rewrite str_app_nil_r. Qed.
Lemma HasPrefix_length s p : HasPrefix s p = true → String.length p ≤ String.length s.
Proof. intros [t ->]%HasPrefix_spec. rewrite str_length_app. lia. Qed.
Lemma HasPrefix_take s n : HasPrefix s (str_take n s) = true.
Proof. apply HasPrefix_spec. exists (str_drop n s). by rewrite str_take_drop. Qed.
Lemma HasPrefix_same_length s p :
  HasPrefix s p = true → String.length p = String.length s → s = p.
Proof.
  intros [t ->]%HasPrefix_spec. rewrite str_length_app. intros Hl.
  assert (t = "") as -> by (apply str_length_nil; lia). by rewrite str_app_nil_r.
Qed.
Lemma HasPrefix_trans s t u : HasPrefix s t = true → HasPrefix t u = true → HasPrefix s u = true.
Proof.
  rewrite !HasPrefix_spec. intros [x ->] [y ->]. exists (y +:+ x). by rewrite str_app_assoc.
Qed.
Lemma HasPrefix_take_iff s p :
  HasPrefix s p = true ↔ str_take (String.length p) s = p.
Proof.
  split.
  - intros [t ->]%HasPrefix_spec. apply str_take_app.
  - intros <-. apply HasPrefix_take.
Qed.

(** [strings.TrimPrefix] and [strings.TrimSuffix]. *)
Definition TrimPrefix (s prefix : string) : string :=
  if HasPrefix s prefix then str_drop (String.length prefix) s else s.
Definition HasSuffix (s suffix : string) : bool :=
  bool_decide (String.length suffix ≤ String.length s)
  && bool_decide (str_drop (String.length s - String.length suffix) s = suffix).
Definition TrimSuffix (s suffix : string) : string :=
  if HasSuffix s suffix then str_take (String.length s - String.length suffix) s else s.

Lemma TrimPrefix_app p t : TrimPrefix (p +:+ t) p = t.
Proof. unfold TrimPrefix. by rewrite HasPrefix_app, str_drop_app. Qed.
Lemma TrimSuffix_app s t : TrimSuffix (s +:+ t) t = s.
Proof.
  unfold TrimSuffix, HasSuffix. rewrite str_length_app.
  replace (String.length s + String.length t - String.length t) with (String.length s) by lia.
  rewrite str_drop_app, str_take_app.
  by rewrite !bool_decide_true by (done || lia).
Qed.

Lemma HasSuffix_spec s t : HasSuffix s t = true → ∃ u, s = u +:+ t.
Proof.
  unfold HasSuffix. intros Hs. breflect. exists (str_take (String.length s - String.length t) s).
  rewrite <-(str_take_drop (String.length s - String.length t) s) at 1. congruence.
Qed.

(** [strings.Trim(s, "/")]. *)
Fixpoint TrimLeft (s : string) : string :=
  match s with
  | String c s' => if bool_decide (c = slash) then TrimLeft s' else s
  | "" => ""
  end.
Fixpoint TrimRight (s : string) : string :=
  match s with
  | "" => ""
  | String c s' =>
      match TrimRight s' with
      | "" => if bool_decide (c = slash) then "" else String c ""
      | t => String c t
      end
  end.
Definition Trim (s : string) : string := TrimRight (TrimLeft s).

(** [strings.Index(s, "/")], [None] for the -1 of an absent byte. *)
Fixpoint IndexSlash (s : string) : option nat :=
  match s with
  | "" => None
  | String c s' => if bool_decide (c = slash) then Some 0 else S <$> IndexSlash s'
  end.

(** [strings.Split(s, sep)] for a one-byte separator, and [strings.Join]. *)
Fixpoint Split (sep : ascii) (s : string) : list string :=
  match s with
  | "" => [""]
  | String c s' =>
      if bool_decide (c = sep) then "" :: Split sep s'
      else match Split sep s' with
           | w :: ws => String c w :: ws
           | [] => [String c ""]
           end
  end.
Definition Join (ws : list string) (sep : string) : string := String.concat sep ws.

Lemma Split_ne_nil sep s : Split sep s ≠ [].
Proof. destruct s; simpl; [done|]. by repeat case_match. Qed.

(** Splitting and joining are inverse. *)
Lemma Join_cons w ws sep :
  ws ≠ [] → Join (w :: ws) sep = w +:+ sep +:+ Join ws sep.
Proof. by destruct ws. Qed.
Lemma Join_Split sep s : Join (Split sep s) (String sep "") = s.
Proof.
  induction s as [|c s IH]; simpl; [done|].
  pose proof (Split_ne_nil sep s) as Hne. case_bool_decide as Hc.
  - subst c. rewrite Join_cons by done. by rewrite IH.
  - destruct (Split sep s) as [|w ws]; [done|]. destruct ws as [|w' ws].
    + change (w = s) in IH. by subst.
    + rewrite Join_cons in IH |- * by done. by rewrite str_app_cons, IH.
Qed.

Lemma Split_no_byte sep s : no_byte sep s = true → Split sep s = [s].
Proof.
  unfold no_byte. induction s as [|c s IH]; simpl; [done|].
  intros [Hc Hs]%andb_true_iff. apply bool_decide_eq_true_1 in Hc.
  by rewrite bool_decide_false, IH.
Qed.
Lemma Split_app sep w s :
  no_byte sep w = true → Split sep (w +:+ String sep s) = w :: Split sep s.
Proof.
  unfold no_byte. induction w as [|c w IH]; simpl.
  - intros _. by rewrite bool_decide_true.
  - intros [Hc Hw]%andb_true_iff. apply bool_decide_eq_true_1 in Hc.
    by rewrite bool_decide_false, IH.
Qed.
Lemma Split_Join sep ws :
  ws ≠ [] → Forall (λ w, no_byte sep w = true) ws → Split sep (Join ws (String sep "")) = ws.
Proof.
  induction ws as [|w ws IH]; [done|]. intros _ [Hw Hws]%Forall_cons.
  destruct ws as [|w' ws]; [by apply Split_no_byte|].
  rewrite Join_cons by done. change (String sep "" +:+ ?x) with (String sep x).
  rewrite Split_app by done. by rewrite IH.
Qed.

(** ** Package path *)

(** [path.Split]: the directory part, up to and including the last slash, and
    the file part. *)
Fixpoint path_Split (s : string) : string * string :=
  match s with
  | "" => ("", "")
  | String c s' =>
      match path_Split s' with
      | ("", f) => if bool_decide (c = slash) then (String slash "", f) else ("", String c f)
      | (d, f) => (String c d, f)
      end
  end.

Lemma path_Split_no_slash f : no_byte slash f = true → path_Split f = ("", f).
Proof.
  unfold no_byte. induction f as [|c f IH]; simpl; [done|].
  intros [Hc Hf]%andb_true_iff. apply bool_decide_eq_true_1 in Hc.
  by rewrite IH, bool_decide_false.
Qed.
Lemma path_Split_app d f :
  no_byte slash f = true → path_Split (d +:+ String slash f) = (d +:+ "/", f).
Proof.
  intros Hf. induction d as [|c d IH].
  - rewrite str_app_nil_l. simpl. by rewrite path_Split_no_slash.
  - rewrite !str_app_cons. simpl. rewrite IH. by destruct d.
Qed.

(** [path.Clean].  The source of the package rewrites the path in place; its
    documented meaning is the one below: the path is read component by
    component, empty components and [.] are dropped, [..] removes the
    component before it (and is dropped at the root of a rooted path), and the
    empty result is [.].  The components kept so far are in reverse order. *)
Definition clean_step (rooted : bool) (acc : list string) (w : string) : list string :=
  if bool_decide (w = "") || bool_decide (w = ".") then acc
  else if bool_decide (w = "..") then
    match acc with
    | top :: rest => if bool_decide (top = "..") then w :: acc else rest
    | [] => if rooted then [] else [w]
    end
  else w :: acc.
Definition Clean (p : string) : string :=
  let rooted := HasPrefix p "/" in
  let ws := rev (foldl (clean_step rooted) [] (Split slash p)) in
  let body := Join ws "/" in
  if rooted then "/" +:+ body
  else if bool_decide (body = "") then "." else body.

(** [path.Join]: leading empty elements are skipped. *)
Fixpoint path_Join (elem : list string) : string :=
  match elem with
  | [] => ""
  | e :: rest => if bool_decide (e = "") then path_Join rest else Clean (Join elem "/")
  end.

(** [path.Dir] and [path.Base]. *)
Definition path_Dir (p : string) : string := Clean (path_Split p).1.
Definition path_Base (p : string) : string :=
  if bool_decide (p = "") then "."
  else let q := (path_Split (TrimRight p)).2 in
       if bool_decide (q = "") then "/" else q.

(** ** Canonical absolute paths *)

(** A component that [path.Clean] keeps and that is one component. *)
Definition good_comp (w : string) : bool :=
  bool_decide (w ≠ "") && bool_decide (w ≠ ".") && bool_decide (w ≠ "..") && no_byte slash w.

(** [/w1/w2/.../wn]; the root directory is the empty list. *)
Fixpoint abspath (ws : list string) : string :=
  match ws with
  | [] => ""
  | w :: ws => String slash (w +:+ abspath ws)
  end.

Lemma good_comp_no_slash w : good_comp w = true → no_byte slash w = true.
Proof. unfold good_comp. by intros [_ ?]%andb_true_iff. Qed.
Lemma good_comp_ne w : good_comp w = true → w ≠ "" ∧ w ≠ "." ∧ w ≠ "..".
Proof. unfold good_comp. intros ?. breflect. done. Qed.

#[export] Hint Resolve good_comp_no_slash : registry.

Lemma abspath_app ws vs : abspath (ws ++ vs) = abspath ws +:+ abspath vs.
Proof. induction ws as [|w ws IH]; simpl; [done|]. by rewrite IH, str_app_cons, str_app_assoc. Qed.
Lemma abspath_snoc ws w : abspath (ws ++ [w]) = abspath ws +:+ String slash w.
Proof. rewrite abspath_app. simpl. by rewrite str_app_nil_r. Qed.
Lemma abspath_Join w ws : abspath (w :: ws) = "/" +:+ Join (w :: ws) "/".
Proof.
  revert w. induction ws as [|v ws IH]; intros w.
  - simpl. by rewrite str_app_nil_r.
  - rewrite Join_cons by done. rewrite <-IH. done.
Qed.
Lemma Split_abspath w ws :
  Forall (λ w, no_byte slash w = true) (w :: ws) →
  Split slash (abspath (w :: ws)) = "" :: w :: ws.
Proof.
  intros Hws. rewrite abspath_Join.
  change ("/" +:+ ?x) with ("" +:+ String slash x). rewrite Split_app by done.
  by rewrite Split_Join.
Qed.

Lemma clean_step_good r acc w : good_comp w = true → clean_step r acc w = w :: acc.
Proof.
  intros (H1 & H2 & H3)%good_comp_ne. unfold clean_step.
  by rewrite !bool_decide_false.
Qed.
Lemma clean_fold_good r acc ws :
  Forall (λ w, good_comp w = true) ws → foldl (clean_step r) acc ws = rev ws ++ acc.
Proof.
  revert acc. induction ws as [|w ws IH]; intros acc; [done|].
  intros [Hw Hws]%Forall_cons. simpl. rewrite clean_step_good, IH by done.
  by rewrite <-app_assoc.
Qed.

(** Cleaning removes nothing from a canonical path. *)
Lemma Clean_abspath w ws :
  Forall (λ w, good_comp w = true) (w :: ws) → Clean (abspath (w :: ws)) = abspath (w :: ws).
Proof.
  intros Hws. unfold Clean.
  rewrite Split_abspath by (eapply Forall_impl; eauto using good_comp_no_slash).
  change (HasPrefix (abspath (w :: ws)) "/") with true.
  change (foldl ?f [] ("" :: w :: ws)) with (foldl f [] (w :: ws)).
  rewrite clean_fold_good, app_nil_r, rev_involutive by done.
  by rewrite abspath_Join.
Qed.

(** ** Package sort *)

(** [sort.Search(n, f)]: the binary search of the package, [i] and [j] being
    its two bounds.  The fuel bounds the iterations; [n] is enough, since each
    one shrinks [j - i]. *)
Fixpoint search_go (fuel : nat) (f : nat → bool) (i j : nat) : nat :=
  match fuel with
  | 0 => i
  | S fuel =>
      if i <? j then
        let h := (i + j) / 2 in
        if f h then search_go fuel f i h else search_go fuel f (h + 1) j
      else i
  end.
Definition Search (n : nat) (f : nat → bool) : nat := search_go n f 0 n.

Lemma search_go_spec fuel f n i j :
  j - i ≤ fuel → i ≤ j → j ≤ n →
  (∀ h k, h ≤ k → k < n → f h = true → f k = true) →
  (∀ k, k < i → f k = false) →
  (∀ k, j ≤ k → k < n → f k = true) →
  let r := search_go fuel f i j in
  r ≤ n ∧ (∀ k, k < r → f k = false) ∧ (∀ k, r ≤ k → k < n → f k = true).
Proof.
  revert i j. induction fuel as [|fuel IH]; intros i j Hf Hij Hjn Hmono Hlo Hhi;
    cbn [search_go]; cbv zeta.
  - assert (i = j) as -> by lia. split_and!; [lia|done|done].
  - destruct (Nat.ltb_spec i j) as [Hlt|Hge].
    + assert (i ≤ (i + j) / 2 < j) as [Hh1 Hh2].
      { split; [apply Nat.div_le_lower_bound; lia|apply Nat.Div0.div_lt_upper_bound; lia]. }
      destruct (f ((i + j) / 2)) eqn:Hfh; apply IH; try done; try lia.
      * intros k Hk1 Hk2. eapply Hmono; eauto.
      * intros k Hk. destruct (f k) eqn:Hfk; [|done].
        rewrite <-Hfh. symmetry. eapply Hmono; [| |exact Hfk]; lia.
    + assert (i = j) as -> by lia. split_and!; [lia|done|done].
Qed.

(** For a test that is monotone on the range, the search returns the least
    index that passes it, and [n] when there is none. *)
Lemma Search_spec n f :
  (∀ h k, h ≤ k → k < n → f h = true → f k = true) →
  Search n f ≤ n ∧ (∀ k, k < Search n f → f k = false) ∧
  (∀ k, Search n f ≤ k → k < n → f k = true).
Proof. intros Hmono. apply search_go_spec; auto with lia. Qed.

(** ** The byte-wise order of strings *)

Definition str_le (s t : string) : bool := String.leb s t.

Lemma str_le_refl s : str_le s s = true.
Proof. apply Is_true_true. by change (String.le s s). Qed.
Lemma str_le_trans s t u : str_le s t = true → str_le t u = true → str_le s u = true.
Proof. rewrite <-!Is_true_true. apply (transitivity (R := String.le)). Qed.
Lemma str_le_antisym s t : str_le s t = true → str_le t s = true → s = t.
Proof. apply String.leb_antisym. Qed.
Lemma str_le_total s t : str_le s t = false → str_le t s = true.
Proof. unfold str_le. destruct (String.leb_total s t); congruence. Qed.

Lemma str_le_cons a b s t :
  str_le (String a s) (String b t) =
  match Ascii.compare a b with Lt => true | Gt => false | Eq => str_le s t end.
Proof. unfold str_le, String.leb. simpl. by destruct (Ascii.compare a b). Qed.
Lemma str_le_nil s : str_le "" s = true.
Proof. by destruct s. Qed.
Lemma ascii_compare_refl a : Ascii.compare a a = Eq.
Proof. unfold Ascii.compare. apply N.compare_refl. Qed.
Lemma str_le_app p s : str_le p (p +:+ s) = true.
Proof.
  induction p as [|c p IH]; [apply str_le_nil|].
  rewrite str_app_cons, str_le_cons. by rewrite ascii_compare_refl.
Qed.
Lemma str_le_app_cancel p s t : str_le (p +:+ s) (p +:+ t) = str_le s t.
Proof.
  induction p as [|c p IH]; [done|].
  by rewrite !str_app_cons, str_le_cons, ascii_compare_refl.
Qed.

(** The strings that extend a prefix are an interval of the order. *)
Lemma str_le_prefix_interval p s t u :
  str_le s t = true → str_le t u = true →
  HasPrefix s p = true → HasPrefix u p = true → HasPrefix t p = true.
Proof.
  revert s t u. induction p as [|a p IH]; intros s t u Hst Htu Hs Hu; [by destruct t|].
  destruct s as [|b s], u as [|c u]; try done. simpl in Hs, Hu. breflect. subst b c.
  destruct t as [|d t]; [done|]. rewrite str_le_cons in Hst, Htu. simpl.
  rewrite (Ascii.compare_antisym a d) in Hst.
  destruct (Ascii.compare d a) eqn:Hda; simpl in Hst; try done.
  apply Ascii.compare_eq_iff in Hda as ->.
  rewrite bool_decide_true by done. simpl. by apply (IH s t u).
Qed.

(** ** Joining paths *)

(** The canonical rooted path with the given components. *)
Definition rootpath (ws : list string) : string :=
  match ws with [] => "/" | _ => abspath ws end.

(** The components of a rooted path that [path.Clean] sees, empty ones left
    out. *)
Definition comps (p : string) : list string := filter (λ w, w ≠ "") (Split slash p).

Definition clean_comp (w : string) : bool := bool_decide (w = "") || good_comp w.

Lemma clean_fold_comps r acc ws :
  Forall (λ w, clean_comp w = true) ws →
  foldl (clean_step r) acc ws = rev (filter (λ w, w ≠ "") ws) ++ acc.
Proof.
  revert acc. induction ws as [|w ws IH]; intros acc; [done|].
  intros [Hw Hws]%Forall_cons. simpl. unfold clean_comp in Hw.
  case_bool_decide as Hw0; simpl in Hw.
  - subst w. by rewrite IH.
  - rewrite clean_step_good, IH by done. rewrite (filter_cons_True _ w) by done.
    simpl. by rewrite <-app_assoc.
Qed.

Lemma Clean_rooted p :
  HasPrefix p "/" = true → Forall (λ w, clean_comp w = true) (Split slash p) →
  Clean p = rootpath (comps p).
Proof.
  intros Hp Hws. unfold Clean. rewrite Hp, clean_fold_comps, app_nil_r, rev_involutive by done.
  fold (comps p). unfold rootpath. destruct (comps p) as [|w ws]; [done|].
  by rewrite abspath_Join.
Qed.

Lemma Split_app_gen sep s t :
  Split sep (s +:+ String sep t) = Split sep s ++ Split sep t.
Proof.
  induction s as [|c s IH].
  - rewrite str_app_nil_l. simpl. by rewrite bool_decide_true.
  - rewrite str_app_cons. cbn [Split]. case_bool_decide; [by rewrite IH|].
    rewrite IH. pose proof (Split_ne_nil sep s). by destruct (Split sep s).
Qed.
Lemma Split_Join_gen sep ws :
  ws ≠ [] → Split sep (Join ws (String sep "")) = concat (Split sep <$> ws).
Proof.
  induction ws as [|w ws IH]; [done|]. intros _. destruct ws as [|w' ws].
  - simpl. by rewrite app_nil_r.
  - rewrite Join_cons by done. change (String sep "" +:+ ?x) with (String sep x).
    rewrite Split_app_gen, IH by done. done.
Qed.

(** Joining rooted elements concatenates their components. *)
Lemma path_Join_rooted e es :
  HasPrefix e "/" = true →
  Forall (λ w, clean_comp w = true) (concat (Split slash <$> e :: es)) →
  path_Join (e :: es) = rootpath (concat (comps <$> e :: es)).
Proof.
  intros He Hws. cbn [path_Join]. rewrite bool_decide_false by (by intros ->).
  assert (HasPrefix (Join (e :: es) "/") "/" = true) as Hp.
  { apply HasPrefix_spec in He as [t ->]. destruct es as [|e' es]; [by apply HasPrefix_app|].
    rewrite Join_cons, <-str_app_assoc by done. apply HasPrefix_app. }
  rewrite Clean_rooted by (rewrite ?Split_Join_gen; done).
  f_equal. unfold comps at 1. rewrite Split_Join_gen by done.
  generalize (e :: es). intros l. induction l as [|x l IH]; [done|].
  rewrite !fmap_cons. cbn [concat]. by rewrite filter_app, IH.
Qed.

Lemma filter_good ws : Forall (λ w, good_comp w = true) ws → filter (λ w, w ≠ "") ws = ws.
Proof.
  induction 1 as [|x l Hx _ IH]; [done|].
  rewrite filter_cons_True, IH; [done|]. by apply good_comp_ne.
Qed.
Lemma comps_good p ws :
  Split slash p = ws → Forall (λ w, good_comp w = true) ws → comps p = ws.
Proof.
  unfold comps. intros ->. apply filter_good.
Qed.
Lemma comps_one w : good_comp w = true → comps w = [w].
Proof. intros Hw. apply comps_good; [|by constructor]. apply Split_no_byte. auto with registry. Qed.
Lemma Split_one w : good_comp w = true → Split slash w = [w].
Proof. intros Hw. apply Split_no_byte. auto with registry. Qed.
Lemma comps_abspath ws : Forall (λ w, good_comp w = true) ws → comps (abspath ws) = ws.
Proof.
  intros Hws. destruct ws as [|w ws]; [done|]. unfold comps.
  rewrite Split_abspath by (eapply Forall_impl; eauto with registry).
  rewrite filter_cons_False by (intros ?; done). by apply filter_good.
Qed.
Lemma Split_rootpath ws :
  Forall (λ w, good_comp w = true) ws →
  Forall (λ w, clean_comp w = true) (Split slash (rootpath ws)).
Proof.
  intros Hws. destruct ws as [|w ws]; [by repeat constructor|].
  change (rootpath (w :: ws)) with (abspath (w :: ws)).
  rewrite Split_abspath by (eapply Forall_impl; eauto with registry).
  constructor; [done|]. eapply Forall_impl; [done|]. intros x Hx. unfold clean_comp.
  simpl. by rewrite Hx, orb_true_r.
Qed.
Lemma good_clean_comp w : good_comp w = true → clean_comp w = true.
Proof. unfold clean_comp. intros ->. apply orb_true_r. Qed.

#[export] Hint Resolve good_clean_comp comps_one Split_one : registry.

(** The form used by most callers: a canonical directory followed by
    canonical components. *)
Lemma path_Join_comps ws vs :
  Forall (λ w, good_comp w = true) (ws ++ vs) →
  path_Join (rootpath ws :: vs) = rootpath (ws ++ vs).
Proof.
  intros [Hws Hvs]%Forall_app.
  assert (concat (Split slash <$> vs) = vs ∧ concat (comps <$> vs) = vs) as [Hs Hc].
  { clear -Hvs. induction Hvs as [|v vs Hv _ [IH1 IH2]]; [done|].
    rewrite !fmap_cons. cbn [concat]. by rewrite Split_one, comps_one, IH1, IH2. }
  rewrite path_Join_rooted; rewrite ?fmap_cons; cbn [concat].
  - rewrite Hc. f_equal. f_equal. destruct ws as [|w ws]; [done|]. by apply comps_abspath.
  - by destruct ws.
  - rewrite Hs. apply Forall_app. split; [by apply Split_rootpath|].
    eapply Forall_impl; eauto with registry.
Qed.

Lemma HasPrefix_slash_good w t : good_comp w = true → HasPrefix (w +:+ t) "/" = false.
Proof.
  intros Hw. destruct w as [|c w]; [by destruct (good_comp_ne _ Hw)|].
  apply good_comp_no_slash in Hw. unfold no_byte in Hw. simpl in Hw. breflect.
  rewrite str_app_cons. simpl. by rewrite bool_decide_false.
Qed.

(** A relative path of canonical components is already clean. *)
Lemma path_Join_relative w ws :
  Forall (λ w, good_comp w = true) (w :: ws) → path_Join (w :: ws) = Join (w :: ws) "/".
Proof.
  intros Hws. pose proof Hws as [Hw _]%Forall_cons. destruct (good_comp_ne w Hw) as [Hne _].
  cbn [path_Join]. rewrite bool_decide_false by done. unfold Clean.
  rewrite Split_Join by (done || by (eapply Forall_impl; eauto with registry)).
  rewrite clean_fold_good, app_nil_r, rev_involutive by done.
  assert (HasPrefix (Join (w :: ws) "/") "/" = false) as ->.
  { destruct ws as [|v ws].
    - rewrite <-(str_app_nil_r (Join _ _)). by apply HasPrefix_slash_good.
    - rewrite Join_cons by done. by apply HasPrefix_slash_good. }
  rewrite bool_decide_false; [done|]. destruct ws; [done|]. rewrite Join_cons by done.
  by intros [? _]%str_app_eq_nil.
Qed.

(** ** Trimming canonical paths *)

Lemma TrimRight_slash s : TrimRight (s +:+ "/") = TrimRight s.
Proof. induction s as [|c s IH]; [done|]. rewrite str_app_cons. cbn [TrimRight]. by rewrite IH. Qed.
Lemma TrimRight_no_slash w : no_byte slash w = true → TrimRight w = w.
Proof.
  unfold no_byte. induction w as [|c w IH]; [done|]. cbn [str_all TrimRight].
  intros [Hc Hw]%andb_true_iff. apply bool_decide_eq_true_1 in Hc. rewrite (IH Hw).
  destruct w; [|done]. by rewrite bool_decide_false.
Qed.
Lemma TrimRight_app s t : TrimRight t ≠ "" → TrimRight (s +:+ t) = s +:+ TrimRight t.
Proof.
  intros Ht. induction s as [|c s IH]; [done|]. rewrite !str_app_cons. cbn [TrimRight]. rewrite IH.
  destruct (s +:+ TrimRight t) eqn:He; [|done]. by apply str_app_eq_nil in He as [_ ?].
Qed.
Lemma TrimLeft_good w t : good_comp w = true → TrimLeft (w +:+ t) = w +:+ t.
Proof.
  intros Hw. destruct w as [|c w]; [done|]. rewrite str_app_cons. cbn [TrimLeft].
  apply good_comp_no_slash in Hw. unfold no_byte in Hw. cbn [str_all] in Hw. breflect.
  by rewrite bool_decide_false.
Qed.

Lemma Join_one w sep : Join [w] sep = w.
Proof. done. Qed.
(** A non-empty join starts with its first component ... *)
Lemma Join_head w ws : ∃ t, Join (w :: ws) "/" = w +:+ t.
Proof.
  destruct ws as [|v ws]; [exists ""; by rewrite str_app_nil_r|].
  rewrite Join_cons by done. by eexists.
Qed.
Lemma TrimRight_Join ws :
  Forall (λ w, good_comp w = true) ws → TrimRight (Join ws "/") = Join ws "/".
Proof.
  induction 1 as [|w ws Hw Hws IH]; [done|].
  destruct ws as [|v ws]; [by apply TrimRight_no_slash, good_comp_no_slash|].
  rewrite Join_cons by done. rewrite str_app_assoc, TrimRight_app; rewrite IH; [done|].
  destruct (Join_head v ws) as [t ->]. apply Forall_cons in Hws as [Hv _].
  intros [? _]%str_app_eq_nil. by apply good_comp_ne in Hv as [? _].
Qed.
Lemma Trim_Join ws :
  Forall (λ w, good_comp w = true) ws → Trim (Join ws "/") = Join ws "/".
Proof.
  intros Hws. unfold Trim. destruct Hws as [|w ws Hw Hws]; [done|].
  destruct (Join_head w ws) as [t Ht]. rewrite Ht, TrimLeft_good, <-Ht by done.
  apply TrimRight_Join. by constructor.
Qed.
Lemma Trim_cons_slash s : Trim (String slash s) = Trim s.
Proof. done. Qed.
Lemma Trim_app_slash s : s ≠ "" → Trim (s +:+ "/") = Trim s.
Proof.
  unfold Trim. intros _. induction s as [|c s IH]; [done|].
  rewrite str_app_cons. cbn [TrimLeft]. case_bool_decide; [done|].
  rewrite <-str_app_cons. apply TrimRight_slash.
Qed.
Lemma abspath_Join_gen ws : ws ≠ [] → abspath ws = String slash (Join ws "/").
Proof. destruct ws; [done|]. intros _. apply abspath_Join. Qed.
Lemma Trim_abspath ws :
  Forall (λ w, good_comp w = true) ws → Trim (abspath ws) = Join ws "/".
Proof.
  intros Hws. destruct ws as [|w ws]; [done|].
  rewrite abspath_Join_gen by done. rewrite Trim_cons_slash. by apply Trim_Join.
Qed.
Lemma Trim_abspath_slash ws :
  Forall (λ w, good_comp w = true) ws → Trim (abspath ws +:+ "/") = Join ws "/".
Proof.
  intros Hws. destruct ws as [|w ws]; [done|].
  rewrite Trim_app_slash by done. by apply Trim_abspath.
Qed.

(** Splitting a canonical path at its last component. *)
Lemma path_Split_snoc ws w :
  good_comp w = true → path_Split (abspath (ws ++ [w])) = (abspath ws +:+ "/", w).
Proof. intros Hw. rewrite abspath_snoc. by apply path_Split_app, good_comp_no_slash. Qed.
Lemma path_Split_trailing ws : path_Split (abspath ws +:+ "/") = (abspath ws +:+ "/", "").
Proof. change "/" with (String slash "") at 1. by rewrite path_Split_app. Qed.
Lemma Split_abspath_slash ws :
  Forall (λ w, good_comp w = true) ws → ws ≠ [] → Split slash (abspath ws +:+ "/") = "" :: ws ++ [""].
Proof.
  intros Hws Hne. change "/" with (String slash ""). rewrite Split_app_gen. destruct ws as [|w ws]; [done|].
  rewrite Split_abspath; [done|]. eapply Forall_impl; eauto using good_comp_no_slash.
Qed.
Lemma Clean_abspath_slash ws :
  Forall (λ w, good_comp w = true) ws → Clean (abspath ws +:+ "/") = rootpath ws.
Proof.
  intros Hws. destruct ws as [|w ws]; [done|].
  assert (Forall (λ w, clean_comp w = true) ((w :: ws) ++ [""])) as Hc.
  { apply Forall_app; split; [|by repeat constructor]. eapply Forall_impl; eauto using good_clean_comp. }
  rewrite Clean_rooted; [|done|by rewrite Split_abspath_slash by done; constructor].
  unfold comps. rewrite Split_abspath_slash by done. f_equal.
  rewrite filter_cons_False by (intros ?; done).
  rewrite filter_app, (filter_cons_False _ ""), filter_nil, app_nil_r by (intros ?; done).
  by apply filter_good.
Qed.

(** The base name of a canonical path, with or without a trailing slash. *)
Lemma path_Base_snoc ws w : good_comp w = true → path_Base (abspath (ws ++ [w]) +:+ "/") = w.
Proof.
  intros Hw. unfold path_Base. rewrite TrimRight_slash, abspath_snoc.
  rewrite bool_decide_false by (by intros [[_ ?]%str_app_eq_nil _]%str_app_eq_nil).
  assert (TrimRight (String slash w) = String slash w) as Ht.
  { cbn [TrimRight]. rewrite TrimRight_no_slash by auto with registry. by destruct w. }
  rewrite TrimRight_app; rewrite Ht; [|done]. rewrite path_Split_app by auto with registry.
  cbn [snd]. rewrite bool_decide_false; [done|]. by apply good_comp_ne.
Qed.
Lemma path_Base_abspath ws w : good_comp w = true → path_Base (abspath (ws ++ [w])) = w.
Proof.
  intros Hw. rewrite <-(path_Base_snoc ws w) at 2 by done. unfold path_Base. rewrite TrimRight_slash.
  assert (abspath (ws ++ [w]) ≠ "") by (by destruct ws).
  rewrite (bool_decide_false (abspath (ws ++ [w]) = "")), (bool_decide_false (_ +:+ "/" = "")); [done| |done].
  by intros [? _]%str_app_eq_nil.
Qed.
Lemma path_Dir_abspath ws w :
  Forall (λ w, good_comp w = true) (ws ++ [w]) → ws ≠ [] → path_Dir (abspath (ws ++ [w])) = abspath ws.
Proof.
  intros [Hws [Hw _]%Forall_cons]%Forall_app Hne. unfold path_Dir. rewrite path_Split_snoc by done. cbn [fst].
  rewrite Clean_abspath_slash by done. by destruct ws.
Qed.

(** [sort.Strings]. *)
Definition str_leP (s t : string) : Prop := str_le s t = true.
#[export] Instance str_leP_dec s t : Decision (str_leP s t) := decide (_ = _).
#[export] Instance str_leP_total : Total str_leP.
Proof.
  intros s t. unfold str_leP. destruct (str_le s t) eqn:Hst; [by left|]. right. by apply str_le_total.
Qed.
#[export] Instance str_leP_trans : Transitive str_leP.
Proof. intros s t u. apply str_le_trans. Qed.
Definition sort_Strings (l : list string) : list string := merge_sort str_leP l.

Lemma sort_Strings_Permutation l : sort_Strings l ≡ₚ l.
Proof. apply merge_sort_Permutation. Qed.
Lemma sort_Strings_Sorted l : Sorted str_leP (sort_Strings l).
Proof. apply Sorted_merge_sort, _. Qed.

(** ** Walking down a joined path *)

Lemma IndexSlash_no_slash w : no_byte slash w = true → IndexSlash w = None.
Proof.
  unfold no_byte. induction w as [|c w IH]; [done|]. cbn [str_all IndexSlash]. intros ?; breflect.
  by rewrite bool_decide_false, IH.
Qed.
Lemma IndexSlash_app w t : no_byte slash w = true → IndexSlash (w +:+ String slash t) = Some (String.length w).
Proof.
  unfold no_byte. induction w as [|c w IH]; [by rewrite str_app_nil_l|].
  rewrite str_app_cons. cbn [str_all IndexSlash String.length]. intros ?; breflect.
  by rewrite bool_decide_false, IH.
Qed.
Lemma Join_cons2 k k' ks : Join (k :: k' :: ks) "/" = k +:+ String slash (Join (k' :: ks) "/").
Proof. by rewrite Join_cons. Qed.
Lemma Join_ne k ks : good_comp k = true → Join (k :: ks) "/" ≠ "".
Proof.
  intros Hk. destruct (Join_head k ks) as [t ->]. intros [? _]%str_app_eq_nil.
  by apply good_comp_ne in Hk as [? _].
Qed.
Lemma Join_length ks : Forall (λ w, good_comp w = true) ks → length ks ≤ String.length (Join ks "/").
Proof.
  induction 1 as [|k ks Hk Hks IH]; [simpl; lia|].
  assert (1 ≤ String.length k) as Hl.
  { destruct k; [by apply good_comp_ne in Hk as [? _]|simpl; lia]. }
  destruct ks as [|k' ks]; [simpl; lia|].
  rewrite Join_cons2, str_length_app. cbn [length String.length] in *. lia.
Qed.
Lemma TrimLeft_length s : String.length (TrimLeft s) ≤ String.length s.
Proof. induction s as [|c s IH]; [done|]. simpl. case_bool_decide; simpl; lia. Qed.
Lemma TrimRight_length s : String.length (TrimRight s) ≤ String.length s.
Proof.
  induction s as [|c s IH]; [done|]. cbn [TrimRight String.length].
  destruct (TrimRight s); [case_bool_decide|]; cbn [String.length] in *; lia.
Qed.
Lemma Trim_length s : String.length (Trim s) ≤ String.length s.
Proof. unfold Trim. pose proof (TrimRight_length (TrimLeft s)). pose proof (TrimLeft_length s). lia. Qed.
