(* ===== verification/Digest.v ===== *)
(** * Content digests

    The registry uses the package github.com/opencontainers/go-digest, which
    is not part of its sources: the operations it calls are the fields of the
    class [GoDigest], and what the registry relies on are the laws of
    [GoDigestLaws], each a sentence of the package's documentation.  The
    instance [go_digest] shows that the laws can hold; it is used by the
    examples that evaluate the development on concrete inputs. *)

From S2P Require Import Prelude GoStd.

(** The package's error values. *)
Inductive digest_err :=
  | ErrDigestInvalidFormat
  | ErrDigestInvalidLength
  | ErrDigestUnsupported.

#[export] Instance digest_err_eq_dec : EqDecision digest_err.
Proof. solve_decision. Defined.

(** A [digest.Digest] and a [digest.Algorithm] are strings. *)
Abbreviation digest := string (only parsing).

Class GoDigest := {
  digest_Validate : digest → option digest_err;
  digest_Algorithm : digest → string;
  digest_Hex : digest → string;
  digest_Parse : string → digest * option digest_err;
  digest_NewDigestFromHex : string → string → digest;
  digest_FromBytes : string → digest;
}.

(** The bytes of an algorithm name and of an encoded digest. *)
Definition is_between (lo hi c : ascii) : bool :=
  (Ascii.nat_of_ascii lo <=? Ascii.nat_of_ascii c) && (Ascii.nat_of_ascii c <=? Ascii.nat_of_ascii hi).
Definition is_digit (c : ascii) : bool := is_between "0" "9" c.
Definition is_lower (c : ascii) : bool := is_between "a" "z" c.
Definition is_upper (c : ascii) : bool := is_between "A" "Z" c.
Definition alg_sep (c : ascii) : bool :=
  bool_decide (c = "+"%char) || bool_decide (c = "."%char) ||
  bool_decide (c = "_"%char) || bool_decide (c = "-"%char).
Definition alg_char (c : ascii) : bool := is_digit c || is_lower c || alg_sep c.
Definition alnum_char (c : ascii) : bool := is_digit c || is_lower c.
Definition hex_char (c : ascii) : bool := is_digit c || is_between "a" "f" c.

Class GoDigestLaws {GD : GoDigest} : Prop := {
  (** A digest that is not malformed is [algorithm:hex]. *)
  digest_parts d : digest_Validate d ≠ Some ErrDigestInvalidFormat →
    d = digest_Algorithm d +:+ ":" +:+ digest_Hex d;
  (** Its algorithm is a non-empty name over the algorithm alphabet. *)
  digest_alg_chars d : digest_Validate d ≠ Some ErrDigestInvalidFormat →
    str_all alg_char (digest_Algorithm d) = true ∧ digest_Algorithm d ≠ "";
  (** A valid digest is encoded in lower-case hexadecimal, two digits or more,
      and its algorithm, one of the supported ones, is alphanumeric. *)
  digest_hex_chars d : digest_Validate d = None →
    str_all hex_char (digest_Hex d) = true ∧ 2 ≤ String.length (digest_Hex d);
  digest_alg_supported d : digest_Validate d = None →
    str_all alnum_char (digest_Algorithm d) = true;
  (** [Parse] returns its argument with the verdict of [Validate]. *)
  digest_Parse_spec s : digest_Parse s = (s, digest_Validate s);
  (** A string without a colon is not a digest. *)
  digest_no_colon s : no_byte ":" s = true →
    digest_Validate s = Some ErrDigestInvalidFormat;
  digest_NewDigestFromHex_spec a h : digest_NewDigestFromHex a h = a +:+ ":" +:+ h;
  (** The digest of a content is a valid digest. *)
  digest_FromBytes_valid b : digest_Validate (digest_FromBytes b) = None;
}.

Section laws.
Context {GD : GoDigest} {GDL : GoDigestLaws}.

Lemma alg_char_not_colon c : alg_char c = true → bool_decide (c ≠ ":"%char) = true.
Proof. intros Hc. apply bool_decide_eq_true_2. by intros ->. Qed.
Lemma hex_char_not_colon c : hex_char c = true → bool_decide (c ≠ ":"%char) = true.
Proof. intros Hc. apply bool_decide_eq_true_2. by intros ->. Qed.
Lemma hex_char_not_slash c : hex_char c = true → bool_decide (c ≠ slash) = true.
Proof. intros Hc. apply bool_decide_eq_true_2. by intros ->. Qed.

Lemma valid_format d : digest_Validate d = None → digest_Validate d ≠ Some ErrDigestInvalidFormat.
Proof. congruence. Qed.

Lemma digest_Hex_no_slash d : digest_Validate d = None → no_byte slash (digest_Hex d) = true.
Proof. intros [H _]%digest_hex_chars. revert H. apply str_all_impl, hex_char_not_slash. Qed.
Lemma hex_invalid_format s :
  str_all hex_char s = true → digest_Validate s = Some ErrDigestInvalidFormat.
Proof. intros H. apply digest_no_colon. revert H. apply str_all_impl, hex_char_not_colon. Qed.

(** Two digests with the same parts are equal. *)
Lemma digest_parts_inj d e :
  digest_Validate d = None → digest_Validate e = None →
  digest_Algorithm d = digest_Algorithm e → digest_Hex d = digest_Hex e → d = e.
Proof.
  intros Hd He Ha Hh. rewrite (digest_parts d), (digest_parts e) by auto using valid_format.
  by rewrite Ha, Hh.
Qed.

(** The colon separates the parts unambiguously. *)
Lemma colon_split_inj a b s t :
  no_byte ":" a = true → no_byte ":" b = true →
  a +:+ ":" +:+ s = b +:+ ":" +:+ t → a = b ∧ s = t.
Proof.
  intros Ha Hb Heq. assert (Split ":" (a +:+ ":" +:+ s) = Split ":" (b +:+ ":" +:+ t)) as Hs by congruence.
  change (":" +:+ ?x) with (String ":" x) in Hs, Heq.
  rewrite !Split_app in Hs by done. injection Hs as -> _. split; [done|].
  apply (inj (String.append b)) in Heq. by simplify_eq.
Qed.

Lemma digest_Algorithm_no_colon d :
  digest_Validate d ≠ Some ErrDigestInvalidFormat → no_byte ":" (digest_Algorithm d) = true.
Proof.
  intros [H _]%digest_alg_chars. revert H. apply str_all_impl, alg_char_not_colon.
Qed.

(** The parts of a digest written as [algorithm:hex]. *)
Lemma digest_parts_of a h :
  no_byte ":" a = true → digest_Validate (a +:+ ":" +:+ h) ≠ Some ErrDigestInvalidFormat →
  digest_Algorithm (a +:+ ":" +:+ h) = a ∧ digest_Hex (a +:+ ":" +:+ h) = h.
Proof.
  intros Ha Hv. pose proof (digest_parts _ Hv) as Hp.
  symmetry in Hp. apply colon_split_inj in Hp; auto using digest_Algorithm_no_colon.
Qed.
End laws.

(** ** A concrete instance *)

Fixpoint cut_colon (s : string) : option (string * string) :=
  match s with
  | "" => None
  | String c s' =>
      if bool_decide (c = ":"%char) then Some ("", s')
      else match cut_colon s' with
           | Some (a, h) => Some (String c a, h)
           | None => None
           end
  end.
Definition sample_Algorithm (d : digest) : string :=
  match cut_colon d with Some (a, _) => a | None => "" end.
Definition sample_Hex (d : digest) : string :=
  match cut_colon d with Some (_, h) => h | None => "" end.
Definition sample_size (alg : string) : option nat :=
  if bool_decide (alg = "sha256") then Some 64
  else if bool_decide (alg = "sha384") then Some 96
  else if bool_decide (alg = "sha512") then Some 128
  else None.
Definition sample_Validate (d : digest) : option digest_err :=
  match cut_colon d with
  | None => Some ErrDigestInvalidFormat
  | Some (a, h) =>
      if negb (str_all alg_char a) || bool_decide (a = "") then Some ErrDigestInvalidFormat
      else match sample_size a with
           | None => Some ErrDigestUnsupported
           | Some n =>
               if negb (bool_decide (String.length h = n)) then Some ErrDigestInvalidLength
               else if negb (str_all hex_char h) then Some ErrDigestInvalidFormat
               else None
           end
  end.

(** A stand-in for a hash function: the first 32 bytes in hexadecimal. *)
Definition hex_digit (n : nat) : ascii :=
  if n <? 10 then Ascii.ascii_of_nat (48 + n) else Ascii.ascii_of_nat (87 + n).
Fixpoint sample_hash (n : nat) (b : string) : string :=
  match n, b with
  | 0, _ => ""
  | S n, "" => String "0" (String "0" (sample_hash n ""))
  | S n, String c b =>
      let k := Ascii.nat_of_ascii c in
      String (hex_digit (k / 16)) (String (hex_digit (k mod 16)) (sample_hash n b))
  end.

#[export] Instance go_digest : GoDigest := {|
  digest_Validate := sample_Validate;
  digest_Algorithm := sample_Algorithm;
  digest_Hex := sample_Hex;
  digest_Parse s := (s, sample_Validate s);
  digest_NewDigestFromHex a h := a +:+ ":" +:+ h;
  digest_FromBytes b := "sha256:" +:+ sample_hash 32 b;
|}.

Lemma cut_colon_Some s a h : cut_colon s = Some (a, h) → s = a +:+ ":" +:+ h.
Proof.
  revert a. induction s as [|c s IH]; simpl; [done|]. intros a.
  case_bool_decide as Hc; [by intros [= <- <-]; subst|].
  destruct (cut_colon s) as [[a' h']|]; [|done]. intros [= <- <-].
  by rewrite str_app_cons, <-(IH a').
Qed.
Lemma cut_colon_None s : no_byte ":" s = true → cut_colon s = None.
Proof.
  unfold no_byte. induction s as [|c s IH]; simpl; [done|]. intros ?; breflect.
  by rewrite bool_decide_false, IH.
Qed.
Lemma sample_size_alnum a n : sample_size a = Some n → str_all alnum_char a = true ∧ 2 ≤ n.
Proof.
  unfold sample_size. repeat case_bool_decide; intros; simplify_eq; split; try done; lia.
Qed.

Lemma hex_digit_char n : n < 16 → hex_char (hex_digit n) = true.
Proof. intros Hn. do 16 (destruct n as [|n]; [done|]). lia. Qed.
Lemma sample_hash_hex n b :
  str_all hex_char (sample_hash n b) = true ∧ String.length (sample_hash n b) = 2 * n.
Proof.
  revert b. induction n as [|n IH]; intros b; [done|]. destruct b as [|c b].
  - destruct (IH "") as [H1 H2]. cbn [sample_hash str_all String.length]. rewrite H1, H2. split; [done|lia].
  - destruct (IH b) as [H1 H2]. pose proof (Ascii.nat_ascii_bounded c) as Hc.
    cbn [sample_hash str_all String.length]. rewrite H1, H2, !hex_digit_char; [split; [done|lia]|..].
    + apply Nat.mod_upper_bound. lia.
    + apply Nat.Div0.div_lt_upper_bound. lia.
Qed.

Lemma sample_FromBytes_valid b : sample_Validate ("sha256:" +:+ sample_hash 32 b) = None.
Proof.
  destruct (sample_hash_hex 32 b) as [Hc Hl]. generalize dependent (sample_hash 32 b). intros h Hc Hl.
  unfold sample_Validate. change (cut_colon ("sha256:" +:+ h)) with (Some ("sha256", h)). cbn beta iota.
  change (negb (str_all alg_char "sha256") || bool_decide ("sha256" = "")) with false.
  change (sample_size "sha256") with (Some 64). cbn beta iota. rewrite bool_decide_true by done. by rewrite Hc.
Qed.

#[export] Instance go_digest_laws : GoDigestLaws.
Proof.
  split; cbn -[sample_hash]; unfold sample_Validate, sample_Algorithm, sample_Hex.
  - intros d. destruct (cut_colon d) as [[a h]|] eqn:Hc; [|done]. intros _. by apply cut_colon_Some.
  - intros d. destruct (cut_colon d) as [[a h]|] eqn:Hc; [|done].
    destruct (negb _ || _) eqn:Ht; [done|]. intros _. by breflect.
  - intros d. destruct (cut_colon d) as [[a h]|] eqn:Hc; [|done].
    destruct (negb _ || _) eqn:Ht; [done|]. destruct (sample_size a) as [n|] eqn:Hn; [|done].
    do 2 (case_match; [done|]). intros _. breflect. split; [done|].
    apply sample_size_alnum in Hn. lia.
  - intros d. destruct (cut_colon d) as [[a h]|] eqn:Hc; [|done].
    destruct (negb _ || _) eqn:Ht; [done|]. destruct (sample_size a) as [n|] eqn:Hn; [|done].
    intros _. by apply sample_size_alnum in Hn as [? _].
  - done.
  - intros s Hs. by rewrite cut_colon_None.
  - done.
  - intros b. apply sample_FromBytes_valid.
Qed.
