(* ===== verification/GoText.v ===== *)
(** * Numbers and times as text

    The conversions of the standard library that the upload code uses:
    [strconv.ParseInt] with base 0, which reads the offset of a stored hash
    state from its file name, and [Time.Format] and [time.Parse] with the layout
    RFC 3339, which write and read the time an upload was started.  A time is
    the number of nanoseconds since the Unix epoch. *)

From stdpp Require Import pretty.
From S2P Require Import Prelude GoStd Digest.

Module GoText.

(** ** strconv *)

Inductive num_err := ErrSyntax | ErrRange.

Definition byte (c : ascii) : Z := Z.of_nat (Ascii.nat_of_ascii c).
(** [lower]: the lower-case letter of a letter. *)
Definition lower (c : ascii) : Z := Z.lor (byte c) 32.

Definition digit_value (c : ascii) : option Z :=
  if is_digit c then Some (byte c - 48)%Z
  else if ((97 <=? lower c) && (lower c <=? 122))%Z then Some (lower c - 97 + 10)%Z
  else None.

Definition maxUint64 : Z := (2 ^ 64 - 1)%Z.

(** The loop of [ParseUint]: the value, and whether there are underscores. *)
Fixpoint parse_digits (base : Z) (s : string) (n : Z) (underscores : bool) : outcome num_err (Z * bool) :=
  match s with
  | "" => Ret (n, underscores)
  | String c s =>
      if bool_decide (c = "_"%char) then parse_digits base s n true
      else match digit_value c with
           | None => Fail ErrSyntax
           | Some d =>
               if (base <=? d)%Z then Fail ErrSyntax
               else if (maxUint64 <? n * base + d)%Z then Fail ErrRange
               else parse_digits base s (n * base + d)%Z underscores
           end
  end.

(** [underscoreOK]: an underscore is between digits or after a prefix.  The
    state is the class of the last byte. *)
Inductive uclass := UStart | UDigit | UUnderscore | UOther.
Fixpoint underscore_loop (hex : bool) (i : uclass) (s : string) : bool :=
  match s with
  | "" => match i with UUnderscore => false | _ => true end
  | String c s =>
      if is_digit c || (hex && ((97 <=? lower c) && (lower c <=? 102))%Z) then underscore_loop hex UDigit s
      else if bool_decide (c = "_"%char)
           then match i with UDigit => underscore_loop hex UUnderscore s | _ => false end
      else match i with UUnderscore => false | _ => underscore_loop hex UOther s end
  end.
Definition has_prefix_letter (s : string) (l : ascii) : bool :=
  match s with
  | String z (String c _) => bool_decide (z = "0"%char) && (lower c =? byte l)%Z
  | _ => false
  end.
Definition underscoreOK (s : string) : bool :=
  let s := if HasPrefix s "-" || HasPrefix s "+" then str_drop 1 s else s in
  if has_prefix_letter s "b" || has_prefix_letter s "o" || has_prefix_letter s "x"
  then underscore_loop (has_prefix_letter s "x") UDigit (str_drop 2 s)
  else underscore_loop false UStart s.

(** [ParseUint s 0 64]: a value is also returned with a range error. *)
Definition ParseUint (s : string) : Z * option num_err :=
  if bool_decide (s = "") then (0%Z, Some ErrSyntax)
  else
    let '(base, ds) :=
      if negb (HasPrefix s "0") then (10%Z, s)
      else if (2 <? String.length s) && has_prefix_letter s "b" then (2%Z, str_drop 2 s)
      else if (2 <? String.length s) && has_prefix_letter s "o" then (8%Z, str_drop 2 s)
      else if (2 <? String.length s) && has_prefix_letter s "x" then (16%Z, str_drop 2 s)
      else (8%Z, str_drop 1 s) in
    match parse_digits base ds 0 false with
    | Ret (n, underscores) => if underscores && negb (underscoreOK s) then (0%Z, Some ErrSyntax) else (n, None)
    | Fail ErrRange => (maxUint64, Some ErrRange)
    | _ => (0%Z, Some ErrSyntax)
    end.
Definition ParseInt (s : string) : Z * option num_err :=
  if bool_decide (s = "") then (0%Z, Some ErrSyntax)
  else
    let neg := HasPrefix s "-" in
    let '(un, err) := ParseUint (if neg || HasPrefix s "+" then str_drop 1 s else s) in
    match err with
    | Some ErrSyntax => (0%Z, Some ErrSyntax)
    | _ =>
        let cutoff := (2 ^ 63)%Z in
        if negb neg && (cutoff <=? un)%Z then ((cutoff - 1)%Z, Some ErrRange)
        else if neg && (cutoff <? un)%Z then ((- cutoff)%Z, Some ErrRange)
        else ((if neg then - un else un)%Z, None)
    end.

(** ** Calendar dates *)

Definition is_leap (year : Z) : bool :=
  ((year mod 4 =? 0) && (negb (year mod 100 =? 0) || (year mod 400 =? 0)))%Z.
Definition daysBefore : list Z := [0; 31; 59; 90; 120; 151; 181; 212; 243; 273; 304; 334; 365]%Z.
Definition days_before (month : Z) : Z := nth (Z.to_nat month) daysBefore 0%Z.

(** The month and day of a day of the year. *)
Definition month_of (leap : bool) (yday : Z) : Z * Z :=
  (if leap && (yday =? 31 + 29 - 1) then (2, 29)
   else
     let day := if leap && (31 + 29 - 1 <? yday) then yday - 1 else yday in
     let month := day / 31 in
     let last := days_before (month + 1) in
     if last <=? day then (month + 2, day - last + 1)
     else (month + 1, day - days_before month + 1))%Z.
Definition yday_of (leap : bool) (month day : Z) : Z :=
  (days_before (month - 1) + (if leap && (3 <=? month) then 1 else 0) + (day - 1))%Z.

(** [absDate]: the year, month and day of a day number.  Days are counted from
    the first of January of the year 1. *)
Definition absDate (d : Z) : Z * Z * Z :=
  (let n := d / 146097 in
   let y := 400 * n in
   let d := d - 146097 * n in
   let n := d / 36524 in
   let n := n - Z.shiftr n 2 in
   let y := y + 100 * n in
   let d := d - 36524 * n in
   let n := d / 1461 in
   let y := y + 4 * n in
   let d := d - 1461 * n in
   let n := d / 365 in
   let n := n - Z.shiftr n 2 in
   let y := y + n in
   let yday := d - 365 * n in
   let year := y + 1 in
   let '(month, day) := month_of (is_leap year) yday in
   (year, month, day))%Z.

(** [Date]: the day number of a date. *)
Definition days_of (year month day : Z) : Z :=
  (let y := year - 1 in
   let n := y / 400 in
   let y := y - 400 * n in
   let d := 146097 * n in
   let n := y / 100 in
   let y := y - 100 * n in
   let d := d + 36524 * n in
   let n := y / 4 in
   let y := y - 4 * n in
   let d := d + 1461 * n in
   let d := d + 365 * y in
   d + yday_of (is_leap year) month day)%Z.
Definition daysIn (month year : Z) : Z :=
  if (month =? 2)%Z && is_leap year then 29%Z else (days_before month - days_before (month - 1))%Z.

(** ** RFC 3339 *)

Definition second : Z := (10 ^ 9)%Z.
(** The day number of the Unix epoch. *)
Definition epoch : Z := 719162%Z.

(** [appendInt]: decimal, padded with zeros. *)
Definition appendInt (x : Z) (width : nat) : string :=
  let digits := pretty (Z.abs x) in
  (if (x <? 0)%Z then "-" else "") +:+ String.concat "" (replicate (width - String.length digits) "0") +:+ digits.

(** [Format RFC3339] of a time in UTC. *)
Definition Format (t : Z) : string :=
  let secs := (t / second)%Z in
  let '(year, month, day) := absDate (secs / 86400 + epoch)%Z in
  let s := (secs mod 86400)%Z in
  appendInt year 4 +:+ "-" +:+ appendInt month 2 +:+ "-" +:+ appendInt day 2 +:+ "T" +:+
  appendInt (s / 3600) 2 +:+ ":" +:+ appendInt (s mod 3600 / 60) 2 +:+ ":" +:+ appendInt (s mod 60) 2 +:+ "Z".

Fixpoint digits_value (s : string) (n : Z) : option Z :=
  match s with
  | "" => Some n
  | String c s => if is_digit c then digits_value s (10 * n + (byte c - 48))%Z else None
  end.
(** [atoi] of the package time. *)
Definition atoi (s : string) : option Z :=
  if HasPrefix s "-" then Z.opp <$> digits_value (str_drop 1 s) 0
  else digits_value (if HasPrefix s "+" then str_drop 1 s else s) 0.

Definition getnum (fixed : bool) (s : string) : option (Z * string) :=
  match s with
  | "" => None
  | String a s1 =>
      if negb (is_digit a) then None
      else match s1 with
           | String b s2 =>
               if is_digit b then Some ((byte a - 48) * 10 + (byte b - 48), s2)%Z
               else if fixed then None else Some ((byte a - 48)%Z, s1)
           | "" => if fixed then None else Some ((byte a - 48)%Z, s1)
           end
  end.
Definition literal (c : ascii) (s : string) : option string :=
  match s with String a s' => if bool_decide (a = c) then Some s' else None | "" => None end.
Definition below (n : Z) (x : Z) : option unit := if (x <? n)%Z then Some tt else None.

Definition parse_year (s : string) : option (Z * string) :=
  match s with
  | String a _ =>
      if (String.length s <? 4) || negb (is_digit a) then None
      else y ← atoi (str_take 4 s); Some (y, str_drop 4 s)
  | "" => None
  end.
Fixpoint span_digits (s : string) : string * string :=
  match s with
  | String c s' => if is_digit c then let '(d, r) := span_digits s' in (String c d, r) else ("", s)
  | "" => ("", "")
  end.
(** The fraction of a second, which the layout does not have. *)
Definition parse_fraction (s : string) : option (Z * string) :=
  match s with
  | String "." (String c _ as s') =>
      if is_digit c then
        let '(d, rest) := span_digits s' in
        ns ← digits_value d 0;
        _ ← below (10 ^ 9) ns;
        Some (ns * 10 ^ Z.of_nat (9 - String.length d), rest)%Z
      else Some (0%Z, s)
  | _ => Some (0%Z, s)
  end.
Definition parse_zone (s : string) : option (Z * string) :=
  match s with
  | String "Z" s => Some (0%Z, s)
  | String sign s =>
      if String.length s <? 5 then None
      else
        s' ← literal ":" (str_drop 2 s);
        hr ← atoi (str_take 2 s);
        mm ← atoi (str_take 2 s');
        let offset := ((hr * 60 + mm) * 60)%Z in
        if bool_decide (sign = "+"%char) then Some (offset, str_drop 2 s')
        else if bool_decide (sign = "-"%char) then Some (- offset, str_drop 2 s')%Z
        else None
  | "" => None
  end.

(** [Parse RFC3339]; every error is [None]. *)
Definition Parse (s : string) : option Z :=
  '(year, s) ← parse_year s;
  s ← literal "-" s;
  '(month, s) ← getnum true s;
  _ ← (if (month <=? 0)%Z || (12 <? month)%Z then None else Some tt);
  s ← literal "-" s;
  '(day, s) ← getnum true s;
  s ← literal "T" s;
  '(hour, s) ← getnum false s;
  _ ← below 24 hour;
  s ← literal ":" s;
  '(min, s) ← getnum true s;
  _ ← below 60 min;
  s ← literal ":" s;
  '(sec, s) ← getnum true s;
  _ ← below 60 sec;
  '(nsec, s) ← parse_fraction s;
  '(zone, s) ← parse_zone s;
  if negb (bool_decide (s = "")) then None
  else if (day <? 1)%Z || (daysIn month year <? day)%Z then None
  else
    let days := (days_of year month day - epoch)%Z in
    Some (((days * 86400 + hour * 3600 + min * 60 + sec) - zone) * second + nsec)%Z.

(** ** A number is read back from its text *)

Lemma pretty_N_char_digit n : (n < 10)%N →
  is_digit (pretty_N_char n) = true ∧ byte (pretty_N_char n) = (48 + Z.of_N n)%Z ∧
  ((0 < n)%N → (49 <= byte (pretty_N_char n))%Z).
Proof.
  intros Hn. rewrite <-(N2Nat.id n) in *. generalize dependent (N.to_nat n). clear n. intros n Hn.
  do 10 (destruct n as [|n]; [split_and!; try reflexivity; intros; first [lia|by vm_compute]|]). lia.
Qed.

(** The digits of a positive number do not start with a zero. *)
Lemma pretty_N_go_head n acc : (0 < n)%N →
  ∃ c s, pretty_N_go n acc = String c s ∧ is_digit c = true ∧ (49 <= byte c)%Z.
Proof.
  revert acc. induction (N.lt_wf_0 n) as [n _ IH]; intros acc Hn. rewrite pretty_N_go_step by done.
  destruct (decide (n < 10)%N) as [Hs|Hs].
  - rewrite N.div_small, N.mod_small, pretty_N_go_0 by done.
    destruct (pretty_N_char_digit n Hs) as (H1 & _ & H2). do 2 eexists. split_and!; [reflexivity|done|by apply H2].
  - apply IH; [by apply N.div_lt|]. apply N.div_str_pos. lia.
Qed.
Lemma parse_pretty n acc : (Z.of_N n <= maxUint64)%Z →
  parse_digits 10 (pretty_N_go n acc) 0 false = parse_digits 10 acc (Z.of_N n) false.
Proof.
  revert acc. induction (N.lt_wf_0 n) as [n _ IH]; intros acc Hle.
  destruct (decide (0 < n)%N) as [Hn|Hn]; [|assert (n = 0%N) as -> by lia; by rewrite pretty_N_go_0].
  assert (Z.of_N n = Z.of_N (n `div` 10) * 10 + Z.of_N (n `mod` 10))%Z as Hdiv
    by (rewrite (N.div_mod n 10) at 1 by done; lia).
  destruct (pretty_N_char_digit (n `mod` 10)) as (H1 & H2 & _); [by apply N.mod_lt|].
  assert (n `mod` 10 < 10)%N by (by apply N.mod_lt). assert (n `div` 10 < n)%N by (by apply N.div_lt).
  rewrite pretty_N_go_step by done. 
  generalize dependent (n `div` 10)%N. intros q Hdiv Hq. rewrite IH by (done || lia). cbn [parse_digits].
  rewrite bool_decide_false by (by intros Hu; rewrite Hu in H1). unfold digit_value. rewrite H1, H2.
  replace (48 + Z.of_N (n `mod` 10) - 48)%Z with (Z.of_N (n `mod` 10)) by lia.
  rewrite (proj2 (Z.leb_gt _ _)), (proj2 (Z.ltb_ge _ _)) by lia. by rewrite <-Hdiv.
Qed.

Lemma digit_not c d s : is_digit c = true → is_digit d = false → HasPrefix (String c s) (String d "") = false.
Proof. intros Hc Hd. cbn. rewrite bool_decide_false by congruence. done. Qed.

(** An offset is read back from its decimal text. *)
Lemma ParseInt_pretty z : (0 <= z < 2 ^ 63)%Z → ParseInt (pretty z) = (z, None).
Proof.
  intros Hz. destruct z as [|p|p]; [done| |lia].
  assert (Z.of_N (N.pos p) <= maxUint64)%Z as Hm by (unfold maxUint64; lia).
  destruct (pretty_N_go_head (N.pos p) "") as (c & s & Hs & Hc & Hc9); [lia|].
  pose proof (parse_pretty (N.pos p) "" Hm) as Hp. cbn [parse_digits] in Hp.
  change (pretty (Z.pos p)) with (pretty_N_go (N.pos p) ""). rewrite Hs in *.
  assert (ParseUint (String c s) = (Z.pos p, None)) as Hu.
  { unfold ParseUint. rewrite bool_decide_false by done.
    assert (HasPrefix (String c s) "0" = false) as ->.
    { assert (c ≠ "0"%char) by (intros ->; by apply Hc9). cbn. by rewrite bool_decide_false by congruence. }
    cbn [negb]. rewrite Hp. done. }
  unfold ParseInt. rewrite bool_decide_false by done. rewrite !digit_not by done. cbn [orb]. rewrite Hu.
  cbn [negb andb]. rewrite (proj2 (Z.leb_gt _ _)) by lia. done.
Qed.

(** ** A time is read back from its text, to the second *)

(** The days of a year. *)
Definition yday_ok (leap : bool) (yday : nat) : bool :=
  let '(m, d) := month_of leap (Z.of_nat yday) in
  let last := if (m =? 2)%Z && leap then 29%Z else (days_before m - days_before (m - 1))%Z in
  ((yday_of leap m d =? Z.of_nat yday) && (1 <=? m) && (m <=? 12) && (1 <=? d) && (d <=? last) && (d <=? 31))%Z.
Lemma years_ok : forallb (yday_ok false) (seq 0 365) && forallb (yday_ok true) (seq 0 366) = true.
Proof. vm_compute. reflexivity. Qed.

Lemma forallb_seq f n x : forallb f (seq 0 n) = true → (0 <= x < Z.of_nat n)%Z → f (Z.to_nat x) = true.
Proof. rewrite forallb_forall. intros H Hx. apply H, in_seq. lia. Qed.

Lemma month_of_spec year yday m d :
  (0 <= yday < (if is_leap year then 366 else 365))%Z → month_of (is_leap year) yday = (m, d) →
  yday_of (is_leap year) m d = yday ∧ (1 <= m <= 12 ∧ 1 <= d <= daysIn m year ∧ d <= 31)%Z.
Proof.
  intros Hy Hm. destruct (proj1 (andb_true_iff _ _) years_ok) as [H1 H2].
  assert (yday_ok (is_leap year) (Z.to_nat yday) = true) as Hok.
  { destruct (is_leap year); [by apply (forallb_seq _ 366)|by apply (forallb_seq _ 365)]. }
  unfold yday_ok in Hok. rewrite Z2Nat.id, Hm in Hok by lia. unfold daysIn. breflect. lia.
Qed.

(** A quotient that is cut to three. *)
Lemma cut3 a b d : (0 < b → 0 <= d < 5 * b → a = d / b - Z.shiftr (d / b) 2 →
  0 <= a <= 3 ∧ 0 <= d - b * a ∧ (d - b * a < b ∨ a = 3 ∧ d - b * a < 2 * b))%Z.
Proof.
  intros Hb Hd Ha. pose proof (Z.div_mod d b) as Hdm. pose proof (Z.mod_pos_bound d b Hb) as Hm.
  assert (0 <= d / b < 5)%Z as Hq by (split; [apply Z.div_pos|apply Z.div_lt_upper_bound]; lia).
  set (q := (d / b)%Z) in *. assert (a = Z.min q 3) as ->.
  { subst a. assert (q = 0 ∨ q = 1 ∨ q = 2 ∨ q = 3 ∨ q = 4)%Z as [->|[->|[->|[->| ->]]]] by lia; done. }
  destruct (decide (q = 4)%Z) as [Hq4|Hq4]; [rewrite Hq4 in *|rewrite Z.min_l in * by lia]; lia.
Qed.

Lemma leap_last n4 n1 n2 : (0 <= n1 <= 3 → 0 <= n2 <= 24 → (n2 = 24 → n1 = 3) →
  is_leap (400 * n4 + 100 * n1 + 4 * n2 + 3 + 1) = true)%Z.
Proof.
  intros H1 H2 H3. unfold is_leap.
  replace (400 * n4 + 100 * n1 + 4 * n2 + 3 + 1)%Z with (0 + (100 * n4 + 25 * n1 + n2 + 1) * 4)%Z at 1 by lia.
  rewrite Z.mod_add by lia. rewrite Z.mod_0_l by lia. cbn [Z.eqb andb].
  destruct (decide (n2 = 24)%Z) as [->|Hn].
  - rewrite H3 by done. replace (400 * n4 + 100 * 3 + 4 * 24 + 3 + 1)%Z with (0 + (n4 + 1) * 400)%Z by lia.
    rewrite Z.mod_add, Z.mod_0_l by lia. by rewrite orb_true_r.
  - replace (400 * n4 + 100 * n1 + 4 * n2 + 3 + 1)%Z with (4 * (n2 + 1) + (4 * n4 + n1) * 100)%Z at 1 by lia.
    rewrite Z.mod_add, Z.mod_small by lia. apply orb_true_iff. left. apply negb_true_iff, Z.eqb_neq. lia.
Qed.

Lemma days_of_parts n4 n1 n2 n3 m d : (0 <= n1 <= 3 → 0 <= n2 <= 24 → 0 <= n3 <= 3)%Z →
  let y := (400 * n4 + 100 * n1 + 4 * n2 + n3 + 1)%Z in (0 <= n1 <= 3 → 0 <= n2 <= 24 →
  days_of y m d = 146097 * n4 + 36524 * n1 + 1461 * n2 + 365 * n3 + yday_of (is_leap y) m d)%Z.
Proof.
  intros H3 y H1 H2. specialize (H3 H1 H2). unfold days_of. cbv zeta.
  replace ((y - 1) / 400)%Z with n4 by (apply (Z.div_unique _ _ _ (100 * n1 + 4 * n2 + n3)); unfold y; lia).
  replace ((y - 1 - 400 * n4) / 100)%Z with n1 by (apply (Z.div_unique _ _ _ (4 * n2 + n3)); unfold y; lia).
  replace ((y - 1 - 400 * n4 - 100 * n1) / 4)%Z with n2 by (apply (Z.div_unique _ _ _ n3); unfold y; lia).
  replace (y - 1 - 400 * n4 - 100 * n1 - 4 * n2)%Z with n3 by (unfold y; lia). lia.
Qed.

(** The date of a day number names that day. *)
Lemma absDate_spec n y m d : absDate n = (y, m, d) →
  days_of y m d = n ∧ (1 <= m <= 12 ∧ 1 <= d <= daysIn m y ∧ d <= 31)%Z.
Proof.
  unfold absDate. cbv zeta. set (n4 := (n / 146097)%Z). set (d4 := (n - 146097 * n4)%Z).
  set (n1 := (d4 / 36524 - Z.shiftr (d4 / 36524) 2)%Z). set (d1 := (d4 - 36524 * n1)%Z).
  set (n2 := (d1 / 1461)%Z). set (d2 := (d1 - 1461 * n2)%Z).
  set (n3 := (d2 / 365 - Z.shiftr (d2 / 365) 2)%Z). set (yday := (d2 - 365 * n3)%Z).
  set (year := (400 * n4 + 100 * n1 + 4 * n2 + n3 + 1)%Z).
  assert (0 <= d4 < 146097)%Z as H4.
  { pose proof (Z.div_mod n 146097). pose proof (Z.mod_pos_bound n 146097). unfold d4, n4. lia. }
  destruct (cut3 n1 36524 d4) as (Hn1 & Hd1 & Hd1'); [lia..|done|]. fold d1 in Hd1, Hd1'.
  assert (d1 <= 36524)%Z as Hd1'' by (unfold d1 in *; lia).
  assert (0 <= d2 < 1461 ∧ 0 <= n2 <= 24)%Z as [Hd2 Hn2].
  { pose proof (Z.div_mod d1 1461). pose proof (Z.mod_pos_bound d1 1461). unfold d2, n2. lia. }
  destruct (cut3 n3 365 d2) as (Hn3 & Hy & Hy'); [lia..|done|]. fold yday in Hy, Hy'.
  assert (yday <= 365 ∧ (yday = 365 → n3 = 3))%Z as [Hy1 Hy2] by (unfold yday in *; lia).
  destruct (month_of (is_leap year) yday) as [m0 d0] eqn:Hm. intros [= <- <- <-].
  apply month_of_spec in Hm as [Hday Hbounds].
  - split; [|done]. unfold year. rewrite days_of_parts by done. fold year. rewrite Hday. unfold yday, d2, d1, d4. lia.
  - destruct (decide (yday = 365)%Z) as [Hlast|]; [|case_match; lia].
    unfold year. rewrite (Hy2 Hlast), leap_last; [lia|done..|]. intros H24. unfold yday, d2 in Hlast. lia.
Qed.

(** Numbers of a fixed width. *)
Fixpoint fixed (w : nat) (n : N) (acc : string) : string :=
  match w with
  | 0 => acc
  | S w => fixed w (n `div` 10) (String (pretty_N_char (n `mod` 10)) acc)
  end.
Definition zeros (w : nat) : string := String.concat "" (replicate w "0").

Lemma zeros_S w : zeros (S w) = String "0" (zeros w).
Proof. unfold zeros. by destruct w. Qed.
Lemma zeros_snoc w s : zeros w +:+ String "0" s = zeros (S w) +:+ s.
Proof.
  induction w as [|w IH]; [done|]. rewrite (zeros_S (S w)), (zeros_S w) at 1. by rewrite !str_app_cons, IH.
Qed.
Lemma pretty_N_go_app n acc : pretty_N_go n acc = pretty_N_go n "" +:+ acc.
Proof.
  revert acc. induction (N.lt_wf_0 n) as [n _ IH]; intros acc.
  destruct (decide (0 < n)%N) as [Hn|Hn]; [|assert (n = 0%N) as -> by lia; by rewrite !pretty_N_go_0].
  rewrite (pretty_N_go_step n acc), (pretty_N_go_step n "") by done. assert (n `div` 10 < n)%N as Hd by (by apply N.div_lt).
  rewrite (IH _ Hd (String _ acc)), (IH _ Hd (String _ "")). by rewrite <-str_app_assoc.
Qed.
Lemma pad_go w n acc : (n < 10 ^ N.of_nat w)%N →
  zeros (w - String.length (pretty_N_go n "")) +:+ pretty_N_go n acc = fixed w n acc.
Proof.
  revert n acc. induction w as [|w IH]; intros n acc Hn.
  - cbn in Hn. assert (n = 0%N) as -> by lia. by rewrite pretty_N_go_0.
  - cbn [fixed]. destruct (decide (0 < n)%N) as [Hp|Hp].
    + rewrite (pretty_N_go_step n acc), (pretty_N_go_step n "") by done.
      rewrite (pretty_N_go_app _ (String _ "")), str_length_app. cbn [String.length].
      rewrite Nat.add_1_r. cbn [Nat.sub]. rewrite IH; [done|]. apply N.Div0.div_lt_upper_bound.
      rewrite Nat2N.inj_succ, N.pow_succ_r' in Hn. lia.
    + assert (n = 0%N) as -> by lia. rewrite <-IH; [|by apply N.neq_0_lt_0, N.pow_nonzero].
      change (0 `div` 10)%N with 0%N. change (pretty_N_char (0 `mod` 10)) with "0"%char. rewrite !pretty_N_go_0.
      cbn [String.length]. rewrite !Nat.sub_0_r. by rewrite zeros_snoc.
Qed.
Lemma appendInt_fixed n w : (n < 10 ^ N.of_nat (S w))%N → appendInt (Z.of_N n) (S w) = fixed (S w) n "".
Proof.
  intros Hn. unfold appendInt. rewrite (proj2 (Z.ltb_ge _ _)) by lia. rewrite str_app_nil_l.
  destruct n as [|p].
  - change (pretty (Z.abs (Z.of_N 0))) with "0". cbn [String.length Nat.sub]. rewrite Nat.sub_0_r.
    cbn [fixed]. rewrite <-pad_go by (by apply N.neq_0_lt_0, N.pow_nonzero).
    by rewrite pretty_N_go_0, Nat.sub_0_r.
  - rewrite <-(pad_go (S w)) by done. done.
Qed.
Lemma fixed_app w n acc : fixed w n acc = fixed w n "" +:+ acc.
Proof.
  revert n acc. induction w as [|w IH]; intros n acc; [done|]. cbn [fixed].
  rewrite (IH _ (String _ acc)), (IH _ (String _ "")). by rewrite <-str_app_assoc.
Qed.

Ltac n_div_lia := rewrite ?N2Z.inj_mod, ?N2Z.inj_div in *; cbn [Z.of_N] in *; Z.to_euclidean_division_equations; lia.

Lemma getnum_two fx x rest : (0 <= x < 100)%Z → getnum fx (appendInt x 2 +:+ rest) = Some (x, rest).
Proof.
  intros Hx. rewrite <-(Z2N.id x) by lia. assert (Z.to_N x < 100)%N as Hn by lia. generalize dependent (Z.to_N x).
  intros n Hn. rewrite appendInt_fixed, <-fixed_app by done. cbn [fixed getnum].
  destruct (pretty_N_char_digit ((n `div` 10) `mod` 10)) as (H1 & H2 & _); [by apply N.mod_lt|].
  destruct (pretty_N_char_digit (n `mod` 10)) as (H3 & H4 & _); [by apply N.mod_lt|].
  rewrite H1, H3, H2, H4. cbn [negb]. do 2 f_equal. n_div_lia.
Qed.
Lemma parse_year_four x rest : (0 <= x < 10000)%Z → parse_year (appendInt x 4 +:+ rest) = Some (x, rest).
Proof.
  intros Hx. rewrite <-(Z2N.id x) by lia. assert (Z.to_N x < 10000)%N as Hn by lia. generalize dependent (Z.to_N x).
  intros n Hn. rewrite appendInt_fixed, <-fixed_app by done. cbn [fixed].
  assert (∀ k, is_digit (pretty_N_char (k `mod` 10)) = true ∧ (byte (pretty_N_char (k `mod` 10)) = 48 + Z.of_N (k `mod` 10))%Z) as Hd.
  { intros k. destruct (pretty_N_char_digit (k `mod` 10)) as (? & ? & _); [by apply N.mod_lt|done]. }
  unfold parse_year. rewrite (proj1 (Hd _)). cbn [String.length Nat.ltb Nat.leb orb negb str_take str_drop].
  unfold atoi. rewrite !digit_not by (done || apply Hd). cbn [digits_value]. rewrite !(proj1 (Hd _)), !(proj2 (Hd _)).
  cbn [mbind option_bind]. do 2 f_equal. n_div_lia.
Qed.

Lemma literal_here c rest : literal c (String c "" +:+ rest) = Some rest.
Proof. change (String c "" +:+ rest) with (String c rest). unfold literal. by rewrite bool_decide_true. Qed.
Lemma below_lt n x : (x < n)%Z → below n x = Some tt.
Proof. intros H. unfold below. by rewrite (proj2 (Z.ltb_lt _ _)). Qed.
(** The steps of the parser on a formatted time. *)
Ltac parse_steps := repeat (cbn [mbind option_bind];
  first [rewrite literal_here | rewrite getnum_two by lia | rewrite below_lt by lia]).

Lemma clock s : (s / 3600 * 3600 + s mod 3600 / 60 * 60 + s mod 60 = s)%Z.
Proof. Z.to_euclidean_division_equations. lia. Qed.

(** A time whose year has four digits. *)
Definition formattable (t : Z) : bool :=
  let '(y, _, _) := absDate (t / second / 86400 + epoch)%Z in ((0 <=? y) && (y <? 10000))%Z.

(** Reading what was written gives the time to the second. *)
Lemma Parse_Format t : formattable t = true → Parse (Format t) = Some (t / second * second)%Z.
Proof.
  unfold formattable, Format. set (secs := (t / second)%Z). destruct (absDate (secs / 86400 + epoch)) as [[y m] d] eqn:Hd.
  intros Hy. breflect. apply absDate_spec in Hd as (Hdays & Hm & Hdd & Hd31).
  pose proof (Z.mod_pos_bound secs 86400 eq_refl) as Hs. set (s := (secs mod 86400)%Z) in *.
  assert (0 <= s / 3600 < 24)%Z as Hh by (split; [apply Z.div_pos|apply Z.div_lt_upper_bound]; lia).
  pose proof (Z.mod_pos_bound s 3600 eq_refl) as Hs36. pose proof (Z.mod_pos_bound s 60 eq_refl) as Hs60.
  assert (0 <= s mod 3600 / 60 < 60)%Z as Hmi by (split; [apply Z.div_pos|apply Z.div_lt_upper_bound]; lia).
  unfold Parse. rewrite parse_year_four by lia. parse_steps.
  rewrite (proj2 (Z.leb_gt _ _)), (proj2 (Z.ltb_ge _ _)) by lia. cbn [orb]. parse_steps.
  cbn [mbind option_bind parse_fraction parse_zone].
  rewrite bool_decide_true by done. cbn [negb]. rewrite !(proj2 (Z.ltb_ge _ _)) by lia. cbn [orb].
  cbn [mbind option_bind]. f_equal. rewrite Hdays, Z.add_0_r, Z.sub_0_r. f_equal. assert (secs = 86400 * (secs / 86400) + s)%Z by (by apply Z.div_mod).
  pose proof (clock s). lia.
Qed.

End GoText.
