(* ===== verification/DigestSet.v ===== *)
(** * Package digestset: a sorted set of digests with short-code lookup

    Models digestset/set.go.  A [Set] is the slice [entries], kept sorted by
    encoded value and then by algorithm; the mutex makes every method atomic,
    so a method is a function of the slice.  The theorems show that the slice
    implements a finite set of digests, that [Lookup] of an abbreviated digest
    agrees with a scan of the whole set, and that the codes of
    [ShortCodeTable] resolve to the digests they stand for. *)

From Stdlib Require Import Sorted.
From S2P Require Import Prelude GoStd Digest.

Module DigestSet.

(** ** Data *)

Record digestEntry := mkEntry { alg : string; val : string; dgst : digest }.

Abbreviation entries_t := (list digestEntry).

Inductive set_err :=
  | ErrDigestNotFound
  | ErrDigestAmbiguous
  | ErrInvalid (e : digest_err).

(** [d.Less]: the order that the slice is kept in. *)
Definition Less (a b : digestEntry) : bool :=
  if negb (bool_decide (val a = val b)) then negb (str_le (val b) (val a))
  else negb (str_le (alg b) (alg a)).

Section ops.
Context {GD : GoDigest}.

Definition NewSet : entries_t := [].

Definition checkShortMatch (alg hex shortAlg shortHex : string) : bool :=
  if bool_decide (String.length hex = String.length shortHex) then
    if negb (bool_decide (hex = shortHex)) then false
    else negb (negb (bool_decide (shortAlg = "")) && negb (bool_decide (alg = shortAlg)))
  else if negb (HasPrefix hex shortHex) then false
  else negb (negb (bool_decide (shortAlg = "")) && negb (bool_decide (alg = shortAlg))).

(** The two search predicates: by value alone, and by value and algorithm. *)
Definition searchVal (es : entries_t) (d : string) (i : nat) : bool :=
  match es !! i with
  | Some e => str_le d (val e)
  | None => true
  end.
Definition searchKey (es : entries_t) (v a : string) (i : nat) : bool :=
  match es !! i with
  | Some e => if bool_decide (val e = v) then str_le a (alg e) else str_le v (val e)
  | None => true
  end.

Definition Lookup (es : entries_t) (d : string) : outcome set_err digest :=
  if bool_decide (length es = 0) then Fail ErrDigestNotFound
  else
    let '(parsed, err) := digest_Parse d in
    let '(a, hex, idx) :=
      if bool_decide (err = Some ErrDigestInvalidFormat)
      then ("", d, Search (length es) (searchVal es d))
      else (digest_Algorithm parsed, digest_Hex parsed,
            Search (length es) (searchKey es (digest_Hex parsed) (digest_Algorithm parsed))) in
    match es !! idx with
    | None => Fail ErrDigestNotFound
    | Some e =>
        if negb (checkShortMatch (alg e) (val e) a hex) then Fail ErrDigestNotFound
        else if bool_decide (alg e = a) && bool_decide (val e = hex) then Ret (dgst e)
        else match es !! (idx + 1) with
             | Some e' =>
                 if checkShortMatch (alg e') (val e') a hex then Fail ErrDigestAmbiguous
                 else Ret (dgst e)
             | None => Ret (dgst e)
             end
    end.

Definition Add (es : entries_t) (d : digest) : outcome set_err entries_t :=
  match digest_Validate d with
  | Some err => Fail (ErrInvalid err)
  | None =>
      let entry := mkEntry (digest_Algorithm d) (digest_Hex d) d in
      let idx := Search (length es) (searchKey es (val entry) (alg entry)) in
      match es !! idx with
      | None => Ret (es ++ [entry])
      | Some e =>
          if bool_decide (dgst e = d) then Ret es
          else Ret (take idx es ++ entry :: drop idx es)
      end
  end.

Definition Remove (es : entries_t) (d : digest) : outcome set_err entries_t :=
  match digest_Validate d with
  | Some err => Fail (ErrInvalid err)
  | None =>
      let idx := Search (length es) (searchKey es (digest_Hex d) (digest_Algorithm d)) in
      match es !! idx with
      | None => Ret es
      | Some e =>
          if negb (bool_decide (dgst e = d)) then Ret es
          else Ret (take idx es ++ drop (idx + 1) es)
      end
  end.

Definition All (es : entries_t) : list digest := dgst <$> es.

(** The [j] loop of [ShortCodeTable]: how far the entries that follow share
    the prefix [short].  [rest] are the entries from index [j] on. *)
Fixpoint scanShort (rest : entries_t) (j resetIdx : nat) (short : string) (extended : bool) : nat * bool :=
  match rest with
  | [] => (resetIdx, extended)
  | e :: rest =>
      if checkShortMatch (alg e) (val e) "" short
      then scanShort rest (j + 1) (if resetIdx <? j then j else resetIdx) short true
      else (resetIdx, extended)
  end.

(** The [for extended] loop for the entry [e] at index [i]; [rest] are the
    entries after it.  [None] stands for a loop that the fuel does not cover. *)
Fixpoint extendLoop (fuel : nat) (e : digestEntry) (rest : entries_t) (i l resetIdx : nat)
    : option (string * nat * nat) :=
  match fuel with
  | 0 => None
  | S fuel =>
      if String.length (val e) <=? l then Some (dgst e, l, resetIdx)
      else
        let short := str_take l (val e) in
        let '(resetIdx, extended) := scanShort rest (i + 1) resetIdx short false in
        if extended then extendLoop fuel e rest i (l + 1) resetIdx
        else Some (short, l, resetIdx)
  end.

(** The outer loop, over the entries from index [i] on. *)
Fixpoint tableLoop (rest : entries_t) (length i l resetIdx : nat) (m : gmap digest string)
    : option (gmap digest string) :=
  match rest with
  | [] => Some m
  | e :: rest =>
      match extendLoop (S (String.length (val e))) e rest i l resetIdx with
      | None => None
      | Some (short, l, resetIdx) =>
          let m := <[dgst e := short]> m in
          let l := if resetIdx <=? i then length else l in
          tableLoop rest length (i + 1) l resetIdx m
      end
  end.

Definition ShortCodeTable (es : entries_t) (length : nat) : option (gmap digest string) :=
  tableLoop es length 0 length 0 ∅.

End ops.

(** ** The order of the slice *)

Definition key_le (k1 k2 : string * string) : bool :=
  if bool_decide (k2.1 = k1.1) then str_le k1.2 k2.2 else str_le k1.1 k2.1.
Definition key (e : digestEntry) : string * string := (val e, alg e).

Lemma key_le_refl k : key_le k k = true.
Proof. unfold key_le. rewrite bool_decide_true by done. apply str_le_refl. Qed.
Lemma key_le_total k1 k2 : key_le k1 k2 = false → key_le k2 k1 = true.
Proof.
  unfold key_le. destruct k1 as [v1 a1], k2 as [v2 a2]; simpl.
  repeat case_bool_decide; subst; try done; apply str_le_total.
Qed.
Lemma key_le_antisym k1 k2 : key_le k1 k2 = true → key_le k2 k1 = true → k1 = k2.
Proof.
  unfold key_le. destruct k1 as [v1 a1], k2 as [v2 a2]; simpl.
  repeat case_bool_decide; subst; try done; intros;
    [f_equal; by apply str_le_antisym|by destruct (str_le_antisym v1 v2)].
Qed.
Lemma key_le_val k1 k2 : key_le k1 k2 = true → str_le k1.1 k2.1 = true.
Proof. unfold key_le. case_bool_decide as Hv; [|done]. rewrite Hv. intros _. apply str_le_refl. Qed.
Lemma key_le_trans k1 k2 k3 : key_le k1 k2 = true → key_le k2 k3 = true → key_le k1 k3 = true.
Proof.
  intros H12 H23. pose proof (key_le_val _ _ H12) as V12. pose proof (key_le_val _ _ H23) as V23.
  pose proof (str_le_trans _ _ _ V12 V23) as V13. unfold key_le in *.
  destruct k1 as [v1 a1], k2 as [v2 a2], k3 as [v3 a3]; simpl in *.
  repeat case_bool_decide; subst; try done; eauto using str_le_trans.
  by destruct (str_le_antisym v1 v2).
Qed.
Lemma Less_key a b : Less a b = negb (key_le (key b) (key a)).
Proof. unfold Less, key_le, key; simpl. repeat case_bool_decide; simpl; congruence. Qed.
Lemma Less_le a b : Less a b = true → key_le (key a) (key b) = true.
Proof. rewrite Less_key. intros H%negb_true_iff. by apply key_le_total. Qed.
Lemma key_le_Less k a b : key_le k (key a) = true → Less a b = true → key_le k (key b) = true.
Proof. intros H ?%Less_le. by apply (key_le_trans _ (key a)). Qed.
Lemma Less_trans a b c : Less a b = true → Less b c = true → Less a c = true.
Proof.
  rewrite !Less_key, !negb_true_iff. intros H1 H2.
  destruct (key_le (key c) (key a)) eqn:H3; [|done].
  rewrite <-H2. symmetry. eapply key_le_trans; [exact H3|]. by apply key_le_total.
Qed.
Lemma Less_irrefl a : Less a a = false.
Proof. by rewrite Less_key, key_le_refl. Qed.
Lemma Less_val a b : Less a b = true → str_le (val a) (val b) = true.
Proof. intros H%Less_le. by apply key_le_val in H. Qed.

(** ** Invariant *)

Definition sorted (es : entries_t) : Prop := StronglySorted (λ a b, Less a b = true) es.

Lemma sorted_lookup es i j a b :
  sorted es → i < j → es !! i = Some a → es !! j = Some b → Less a b = true.
Proof.
  intros Hs. revert i j. induction Hs as [|e es Hs IH Hall]; intros i j Hij Hi Hj; [done|].
  destruct j as [|j]; [lia|]. destruct i as [|i]; simplify_eq/=.
  - rewrite Forall_lookup in Hall. eauto.
  - apply (IH i j); [lia|done..].
Qed.

Section invariant.
Context {GD : GoDigest}.

Definition wf_entry (e : digestEntry) : Prop :=
  digest_Validate (dgst e) = None ∧ alg e = digest_Algorithm (dgst e) ∧ val e = digest_Hex (dgst e).
Definition wf (es : entries_t) : Prop := sorted es ∧ Forall wf_entry es.

Lemma searchKey_lookup es v a i e : es !! i = Some e → searchKey es v a i = key_le (v, a) (key e).
Proof. unfold searchKey, key_le. by intros ->. Qed.
Lemma searchKey_mono es v a h k :
  sorted es → h ≤ k → k < length es → searchKey es v a h = true → searchKey es v a k = true.
Proof.
  intros Hs Hhk Hk. destruct (decide (h = k)) as [->|Hne]; [done|].
  destruct (lookup_lt_is_Some_2 es h) as [e He]; [lia|].
  destruct (lookup_lt_is_Some_2 es k) as [f Hf]; [lia|].
  rewrite (searchKey_lookup _ _ _ _ _ He), (searchKey_lookup _ _ _ _ _ Hf). intros Hle.
  eapply key_le_Less; [done|]. apply (sorted_lookup es h k); [done|lia|done..].
Qed.

(** The insertion point of a key: everything before it is smaller, everything
    from it on is not. *)
Lemma search_split es v a :
  sorted es →
  let idx := Search (length es) (searchKey es v a) in
  idx ≤ length es ∧
  Forall (λ e, key_le (v, a) (key e) = false) (take idx es) ∧
  Forall (λ e, key_le (v, a) (key e) = true) (drop idx es).
Proof.
  intros Hs. destruct (Search_spec (length es) (searchKey es v a)) as (Hn & Hlo & Hhi).
  { eauto using searchKey_mono. }
  split; [done|]. split; apply Forall_lookup; intros k e He.
  - apply lookup_take_Some in He as [He Hk]. by rewrite <-(searchKey_lookup _ _ _ _ _ He), Hlo.
  - rewrite lookup_drop in He. rewrite <-(searchKey_lookup _ _ _ _ _ He).
    apply Hhi; [lia|]. by apply lookup_lt_Some in He.
Qed.

Lemma sorted_app es1 es2 :
  sorted (es1 ++ es2) ↔
  sorted es1 ∧ sorted es2 ∧ (∀ a b, a ∈ es1 → b ∈ es2 → Less a b = true).
Proof.
  unfold sorted. induction es1 as [|e es1 IH]; simpl.
  - split; [|naive_solver]. intros H. split_and!; [constructor|done|]. by intros a b ?%elem_of_nil.
  - split.
    + intros [[H1 [H2 H3]]%IH Hall]%StronglySorted_inv. rewrite Forall_app in Hall.
      destruct Hall as [Ha1 Ha2]. split_and!; [by constructor|done|].
      rewrite Forall_forall in Ha2. intros a b [->|?]%elem_of_cons ?; auto.
    + intros ([H1 Hall]%StronglySorted_inv & H2 & H3). constructor.
      * apply IH. split_and!; [done..|]. intros; apply H3; set_solver.
      * apply Forall_app. split; [done|]. apply Forall_forall. intros; apply H3; set_solver.
Qed.

(** ** Add and Remove *)

Context {GDL : GoDigestLaws}.

Lemma wf_entry_key_inj e f : wf_entry e → wf_entry f → key e = key f → dgst e = dgst f.
Proof.
  intros (Ve & Ae & He) (Vf & Af & Hf) [= Hv Ha].
  apply digest_parts_inj; [done..|congruence|congruence].
Qed.

(** In a well-formed slice a valid digest can only be at its insertion point. *)
Lemma search_found es d :
  wf es → digest_Validate d = None →
  let idx := Search (length es) (searchKey es (digest_Hex d) (digest_Algorithm d)) in
  d ∈ All es ↔ ∃ e, es !! idx = Some e ∧ dgst e = d.
Proof.
  intros [Hs Hwf] Hd idx. split.
  - intros (e & -> & He)%list_elem_of_fmap. apply list_elem_of_lookup in He as [i Hi].
    rewrite Forall_lookup in Hwf. destruct (Hwf _ _ Hi) as (_ & Ha & Hv).
    destruct (search_split es (digest_Hex (dgst e)) (digest_Algorithm (dgst e)) Hs) as (Hn & Hlo & Hhi).
    fold idx in Hn, Hlo, Hhi. rewrite <-Ha, <-Hv in Hlo, Hhi.
    destruct (decide (i < idx)) as [Hlt|Hge].
    { rewrite Forall_lookup in Hlo. specialize (Hlo i e).
      rewrite lookup_take_lt in Hlo by done. specialize (Hlo Hi).
      by rewrite key_le_refl in Hlo. }
    destruct (decide (i = idx)) as [->|Hne]; [by exists e|].
    destruct (lookup_lt_is_Some_2 es idx) as [f Hf]; [apply lookup_lt_Some in Hi; lia|].
    rewrite Forall_lookup in Hhi. specialize (Hhi 0 f).
    rewrite lookup_drop, Nat.add_0_r in Hhi. specialize (Hhi Hf).
    pose proof (sorted_lookup es idx i f e Hs ltac:(lia) Hf Hi) as Hfe.
    rewrite Less_key in Hfe. unfold key in Hfe at 1. by rewrite Hhi in Hfe.
  - intros (e & He & <-). apply list_elem_of_fmap. exists e. split; [done|].
    by eapply list_elem_of_lookup_2.
Qed.

(** Inserting an absent entry between the smaller and the larger ones. *)
Lemma insert_wf es idx entry :
  wf es → wf_entry entry → dgst entry ∉ All es →
  Forall (λ e, key_le (key entry) (key e) = false) (take idx es) →
  Forall (λ e, key_le (key entry) (key e) = true) (drop idx es) →
  wf (take idx es ++ entry :: drop idx es).
Proof.
  intros [Hs Hwf] Hwe Hnew Hlo Hhi. rewrite Forall_forall in Hlo, Hhi. split.
  - pose proof Hs as Hs'. rewrite <-(take_drop idx es) in Hs'.
    apply sorted_app in Hs' as (H1 & H2 & H3). apply sorted_app. split_and!; [done| |].
    + constructor; [done|]. apply Forall_forall. intros f Hf.
      rewrite Less_key, negb_true_iff. destruct (key_le (key f) (key entry)) eqn:Hk; [|done].
      exfalso. assert (key f = key entry) as Hkey by (apply key_le_antisym; auto).
      assert (f ∈ es) as Hfes by (rewrite <-(take_drop idx es); set_solver).
      apply Hnew, list_elem_of_fmap. exists f. split; [|done].
      rewrite Forall_forall in Hwf. symmetry. by apply wf_entry_key_inj; auto.
    + intros a b Ha [->|Hb]%elem_of_cons; [|by apply H3].
      by rewrite Less_key, negb_true_iff, Hlo.
  - apply Forall_app. split; [by apply Forall_take|]. constructor; [done|]. by apply Forall_drop.
Qed.

Lemma All_insert es idx entry x :
  x ∈ All (take idx es ++ entry :: drop idx es) ↔ x = dgst entry ∨ x ∈ All es.
Proof.
  assert (x ∈ All es ↔ x ∈ All (take idx es ++ drop idx es)) as -> by by rewrite take_drop.
  unfold All. rewrite !fmap_app. set_solver.
Qed.

Lemma Add_spec es d :
  wf es → digest_Validate d = None →
  ∃ es', Add es d = Ret es' ∧ wf es' ∧ ∀ x, x ∈ All es' ↔ x = d ∨ x ∈ All es.
Proof.
  intros Hwf Hd. pose proof (search_found es d Hwf Hd) as Hfound.
  destruct (search_split es (digest_Hex d) (digest_Algorithm d) (proj1 Hwf)) as (Hn & Hlo & Hhi).
  unfold Add. rewrite Hd. simpl. simpl in Hfound.
  set (idx := Search _ _) in *. set (entry := mkEntry _ _ d).
  assert (d ∉ All es → wf (take idx es ++ entry :: drop idx es)) as Hins.
  { intros ?. by apply insert_wf. }
  assert (∀ x, x ∈ All (take idx es ++ entry :: drop idx es) ↔ x = d ∨ x ∈ All es) as HAll.
  { intros x. by rewrite All_insert. }
  destruct (es !! idx) as [e|] eqn:He; [case_bool_decide as Hed|].
  - exists es. split_and!; [done..|]. intros x. split; [auto|].
    intros [->|?]; [|done]. apply Hfound; eauto.
  - eexists. split_and!; [done| |done]. apply Hins. rewrite Hfound. naive_solver.
  - apply lookup_ge_None in He.
    rewrite (take_ge es idx He), (drop_ge es idx He) in Hins, HAll.
    eexists. split_and!; [done| |done]. apply Hins. rewrite Hfound. naive_solver.
Qed.

Lemma Remove_spec es d :
  wf es → digest_Validate d = None →
  ∃ es', Remove es d = Ret es' ∧ wf es' ∧ ∀ x, x ∈ All es' ↔ x ≠ d ∧ x ∈ All es.
Proof.
  intros Hwf Hd. pose proof (search_found es d Hwf Hd) as Hfound.
  unfold Remove. rewrite Hd. simpl in *. set (idx := Search _ _) in *.
  destruct (es !! idx) as [e|] eqn:He; [case_bool_decide as Hed; simpl|].
  - exists (take idx es ++ drop (idx + 1) es). split; [done|].
    replace (idx + 1) with (S idx) by lia. destruct Hwf as [Hs Hwf].
    pose proof (take_drop_middle es idx e He) as Hmid. rewrite <-Hmid in Hs, Hwf.
    apply sorted_app in Hs as (H1 & H2 & H3). apply StronglySorted_inv in H2 as [H2 H4].
    rewrite Forall_app, Forall_cons in Hwf. split.
    { split; [|apply Forall_app; naive_solver]. apply sorted_app. split_and!; [done..|]. set_solver. }
    intros x. rewrite <-Hmid at 3. unfold All. rewrite !fmap_app, fmap_cons, !elem_of_app, elem_of_cons.
    assert ((d ∉ (dgst <$> take idx es)) ∧ (d ∉ (dgst <$> drop (S idx) es))) as [Hl Hr]; [|naive_solver].
    rewrite Forall_forall in H4.
    destruct Hwf as (Hw1 & Hwe & Hw2). rewrite Forall_forall in Hw1, Hw2.
    assert (∀ f, wf_entry f → dgst f = d → key f = key e) as Hk.
    { intros f (_ & Ha & Hv) Hfd. destruct Hwe as (_ & Hea & Hev). unfold key. congruence. }
    split; intros (f & Hf & Hin)%list_elem_of_fmap.
    + pose proof (H3 f e Hin ltac:(set_solver)) as Hless.
      rewrite Less_key, (Hk f), key_le_refl in Hless by auto. done.
    + pose proof (H4 f Hin) as Hless. rewrite Less_key, (Hk f), key_le_refl in Hless by auto. done.
  - exists es. split_and!; [done..|]. intros x. split; [|naive_solver].
    intros Hx. split; [|done]. intros ->. naive_solver.
  - exists es. split_and!; [done..|]. intros x. split; [|naive_solver].
    intros Hx. split; [|done]. intros ->. naive_solver.
Qed.

(** ** Lookup of an abbreviation *)

(** The reference: scan the whole set for the values that extend [s]. *)
Definition lookup_ref (es : entries_t) (s : string) : outcome set_err digest :=
  match filter (λ e, HasPrefix (val e) s = true) es with
  | [] => Fail ErrDigestNotFound
  | [e] => Ret (dgst e)
  | _ => Fail ErrDigestAmbiguous
  end.

Lemma checkShortMatch_any a v s : checkShortMatch a v "" s = HasPrefix v s.
Proof.
  unfold checkShortMatch. rewrite (bool_decide_true ("" = "")) by done. simpl.
  case_bool_decide as Hl; [|by destruct (HasPrefix v s)].
  case_bool_decide as Hv; simpl; [subst; by rewrite HasPrefix_refl|].
  destruct (HasPrefix v s) eqn:Hp; [|done]. by apply HasPrefix_same_length in Hp.
Qed.

Lemma checkShortMatch_same a h : checkShortMatch a h a h = true.
Proof.
  unfold checkShortMatch.
  rewrite (bool_decide_true (String.length h = _)), (bool_decide_true (h = h)), (bool_decide_true (a = a)) by done.
  simpl. by rewrite andb_false_r.
Qed.

Lemma searchVal_lookup es d i e : es !! i = Some e → searchVal es d i = str_le d (val e).
Proof. unfold searchVal. by intros ->. Qed.
Lemma searchVal_mono es d h k :
  sorted es → h ≤ k → k < length es → searchVal es d h = true → searchVal es d k = true.
Proof.
  intros Hs Hhk Hk. destruct (decide (h = k)) as [->|Hne]; [done|].
  destruct (lookup_lt_is_Some_2 es h) as [e He]; [lia|].
  destruct (lookup_lt_is_Some_2 es k) as [f Hf]; [lia|].
  rewrite (searchVal_lookup _ _ _ _ He), (searchVal_lookup _ _ _ _ Hf). intros Hle.
  eapply str_le_trans; [done|]. apply Less_val. apply (sorted_lookup es h k); [done|lia|done..].
Qed.

Lemma filter_prefix_small es s :
  Forall (λ e, str_le s (val e) = false) es → filter (λ e, HasPrefix (val e) s = true) es = [].
Proof.
  intros Hall. apply filter_none. eapply Forall_impl; [done|].
  simpl. intros e He [t Ht]%HasPrefix_spec. by rewrite Ht, str_le_app in He.
Qed.
(** When the first value that is not smaller does not extend [s], none does. *)
Lemma filter_prefix_stop e es s :
  sorted (e :: es) → str_le s (val e) = true → HasPrefix (val e) s = false →
  filter (λ e, HasPrefix (val e) s = true) (e :: es) = [].
Proof.
  intros [_ Hall]%StronglySorted_inv Hle Hp. rewrite filter_cons_False by congruence.
  apply filter_none. eapply Forall_impl; [done|]. intros f Hf%Less_val Hpf.
  by rewrite (str_le_prefix_interval s s (val e) (val f)) in Hp by auto using HasPrefix_refl.
Qed.

Lemma Lookup_lookup_ref es s :
  sorted es → (digest_Parse s).2 = Some ErrDigestInvalidFormat →
  Forall (λ e, alg e ≠ "") es → Lookup es s = lookup_ref es s.
Proof.
  intros Hs Hfmt Halg. unfold Lookup, lookup_ref.
  case_bool_decide as Hl; [by destruct es|].
  destruct (digest_Parse s) as [p err]; simplify_eq/=.
  destruct (Search_spec (length es) (searchVal es s)) as (Hn & Hlo & Hhi).
  { eauto using searchVal_mono. }
  set (idx := Search _ _) in *.
  assert (filter (λ e, HasPrefix (val e) s = true) es
          = filter (λ e, HasPrefix (val e) s = true) (drop idx es)) as ->.
  { rewrite <-(take_drop idx es) at 1. rewrite filter_app, filter_prefix_small; [done|].
    apply Forall_lookup. intros k e [He Hk]%lookup_take_Some.
    by rewrite <-(searchVal_lookup _ _ _ _ He), Hlo. }
  destruct (es !! idx) as [e|] eqn:He; [|by apply lookup_ge_None in He; rewrite drop_ge, filter_nil].
  pose proof (drop_S es e idx He) as Hdrop. rewrite checkShortMatch_any.
  assert (str_le s (val e) = true) as Hle.
  { rewrite <-(searchVal_lookup es s idx e He). apply Hhi; [lia|]. by apply lookup_lt_Some in He. }
  assert (sorted (e :: drop (S idx) es)) as Hsd.
  { rewrite <-Hdrop. rewrite <-(take_drop idx es) in Hs. by apply sorted_app in Hs as (_ & ? & _). }
  rewrite Hdrop. destruct (HasPrefix (val e) s) eqn:Hp; simpl; [|by rewrite filter_prefix_stop].
  rewrite filter_cons_True by done.
  rewrite (bool_decide_false (alg e = "")) by (rewrite Forall_lookup in Halg; eauto). simpl.
  replace (idx + 1) with (S idx) by lia.
  apply StronglySorted_inv in Hsd as [Hsd Hall].
  destruct (es !! S idx) as [f|] eqn:Hf; [|by apply lookup_ge_None in Hf; rewrite drop_ge, filter_nil].
  rewrite (drop_S es f (S idx) Hf) in Hsd, Hall |- *. apply Forall_cons in Hall as [Hef%Less_val _].
  rewrite checkShortMatch_any. destruct (HasPrefix (val f) s) eqn:Hpf; simpl.
  - by rewrite filter_cons_True.
  - rewrite filter_prefix_stop; eauto using str_le_trans.
Qed.

Lemma Lookup_member es d : wf es → d ∈ All es → Lookup es d = Ret d.
Proof.
  intros Hwf Hd. assert (digest_Validate d = None) as Hv.
  { destruct Hwf as [_ Hwf]. rewrite Forall_forall in Hwf.
    apply list_elem_of_fmap in Hd as (e & -> & He). by apply Hwf. }
  destruct (proj1 (search_found es d Hwf Hv) Hd) as (e & He & Hed).
  unfold Lookup. rewrite bool_decide_false by (by intros ?%length_zero_iff_nil; subst).
  rewrite digest_Parse_spec, Hv. simpl. rewrite He.
  destruct Hwf as [_ Hwf]. rewrite Forall_lookup in Hwf.
  destruct (Hwf _ _ He) as (_ & Ha & Hx). rewrite Ha, Hx, Hed.
  by rewrite checkShortMatch_same, !bool_decide_true.
Qed.

Lemma wf_dgst_inj es i j e f :
  wf es → es !! i = Some e → es !! j = Some f → dgst e = dgst f → i = j.
Proof.
  intros [Hs Hwf] Hi Hj Hd. rewrite Forall_lookup in Hwf.
  destruct (Hwf _ _ Hi) as (_ & Ae & Ve), (Hwf _ _ Hj) as (_ & Af & Vf).
  assert (key e = key f) as Hk by (unfold key; congruence).
  destruct (Nat.lt_trichotomy i j) as [Hij|[?|Hij]]; [|done|];
    [pose proof (sorted_lookup es i j e f Hs Hij Hi Hj) as Hl
    |pose proof (sorted_lookup es j i f e Hs Hij Hj Hi) as Hl];
    by rewrite Less_key, Hk, key_le_refl in Hl.
Qed.

Lemma wf_alg_nonempty es : wf es → Forall (λ e, alg e ≠ "") es.
Proof.
  intros [_ Hwf]. eapply Forall_impl; [done|]. intros e (Hv & -> & _).
  by apply digest_alg_chars, valid_format.
Qed.

End invariant.

(** ** Short codes *)

Section short_codes.
Context {GD : GoDigest} {GDL : GoDigestLaws}.
Context (es : entries_t) (Hwf : wf es).
(** All encodings have the same length, as they have when the digests of the
    set use one algorithm. *)
Context (N : nat) (Hlen : ∀ i e, es !! i = Some e → String.length (val e) = N).

Definition share (l : nat) (e f : digestEntry) : Prop := str_take l (val e) = str_take l (val f).

Lemma str_take_take n m s : str_take n (str_take m s) = str_take (Nat.min n m) s.
Proof.
  revert n s. induction m as [|m IH]; intros [|n] [|c s]; simpl; try done. by rewrite IH.
Qed.
Lemma share_mono l l' e f : l' ≤ l → share l e f → share l' e f.
Proof.
  unfold share. intros Hl Hs. apply (f_equal (str_take l')) in Hs.
  by rewrite !str_take_take, !Nat.min_l in Hs by done.
Qed.
Lemma share_prefix l i j e f :
  es !! i = Some e → es !! j = Some f → l ≤ N →
  HasPrefix (val f) (str_take l (val e)) = true ↔ share l e f.
Proof.
  intros He Hf Hl. rewrite HasPrefix_take_iff, str_length_take, (Hlen i e He), Nat.min_l by done.
  unfold share. naive_solver.
Qed.
Lemma share_between l i j k a b c :
  i ≤ j → j ≤ k → l ≤ N → es !! i = Some a → es !! j = Some b → es !! k = Some c →
  share l a c → share l a b.
Proof.
  intros Hij Hjk Hl Ha Hb Hc Hac.
  destruct (decide (i = j)) as [->|]; [by simplify_eq|].
  destruct (decide (j = k)) as [->|]; [by simplify_eq|].
  destruct Hwf as [Hs _]. apply (share_prefix l i j); [done..|].
  eapply (str_le_prefix_interval _ (val a) (val b) (val c)).
  - apply Less_val, (sorted_lookup es i j); [done|lia|done..].
  - apply Less_val, (sorted_lookup es j k); [done|lia|done..].
  - apply HasPrefix_take.
  - by apply (share_prefix l i k).
Qed.

(** The scan stops at the first entry that does not extend [short]. *)
Lemma scanShort_spec rest j r short ext :
  rest = drop j es →
  ∃ m, j ≤ m ∧
    (∀ k f, j ≤ k → k < m → es !! k = Some f → HasPrefix (val f) short = true) ∧
    (∀ f, es !! m = Some f → HasPrefix (val f) short = false) ∧ m ≤ Nat.max j (length es) ∧
    scanShort rest j r short ext
    = (if j <? m then Nat.max r (m - 1) else r, ext || (j <? m)).
Proof.
  revert j r ext. induction rest as [|e rest IH]; intros j r ext Hrest; simpl.
  - exists j. rewrite Nat.ltb_irrefl, orb_false_r. split_and!; [done|lia| |lia|done].
    intros f Hf. assert (drop j es !! 0 = Some f) as Hd by by rewrite lookup_drop, Nat.add_0_r.
    by rewrite <-Hrest in Hd.
  - assert (es !! j = Some e) as He.
    { rewrite <-(Nat.add_0_r j), <-lookup_drop, <-Hrest. done. }
    rewrite checkShortMatch_any. destruct (HasPrefix (val e) short) eqn:Hp.
    + destruct (IH (j + 1) (if r <? j then j else r) true) as (m & Hjm & Hin & Hout & Hm & ->).
      { rewrite (drop_S es e j He) in Hrest. rewrite Nat.add_1_r. by simplify_eq. }
      exists m. split_and!; [lia| |done|apply lookup_lt_Some in He; lia|].
      * intros k f Hk Hkm Hf. destruct (decide (k = j)) as [->|]; [congruence|]. apply (Hin k f); auto; lia.
      * rewrite orb_true_l. rewrite (proj2 (Nat.ltb_lt j m)), orb_true_r by lia. f_equal.
        destruct (Nat.ltb_spec (j + 1) m), (Nat.ltb_spec r j); lia.
    + exists j. rewrite Nat.ltb_irrefl, orb_false_r. split_and!; [done|lia| |lia|done].
      intros f Hf. congruence.
Qed.

(** What one run of the [for extended] loop at index [i] establishes: the
    code is the whole digest or a prefix that the next entry does not share,
    and [resetIdx] covers the entries that share the starting prefix. *)
Lemma extendLoop_spec fuel i e l r :
  es !! i = Some e → S (N - l) ≤ fuel →
  ∃ short l' r', extendLoop fuel e (drop (S i) es) i l r = Some (short, l', r') ∧
    l ≤ l' ∧ r ≤ r' ∧
    ((short = dgst e ∧ N ≤ l') ∨
     (short = str_take l' (val e) ∧ l' < N ∧ ∀ f, es !! S i = Some f → ¬ share l' e f)) ∧
    (∀ k f, i < k → es !! k = Some f → l < N → share l e f → k ≤ r') ∧
    (r' = r ∨ l < N ∧ i < r' ∧ ∃ f, es !! r' = Some f ∧ share l e f).
Proof.
  intros He. revert l r. induction fuel as [|fuel IH]; intros l r Hfuel; [lia|].
  cbn [extendLoop]. rewrite (Hlen _ _ He). destruct (Nat.leb_spec N l) as [HNl|HNl].
  { exists (dgst e), l, r. split_and!; auto; lia. }
  rewrite Nat.add_1_r.
  destruct (scanShort_spec (drop (S i) es) (S i) r (str_take l (val e)) false eq_refl)
    as (m & Him & Hin & Hout & Hm & ->). rewrite orb_false_l.
  assert (∀ k f, i < k → es !! k = Some f → share l e f → k < m) as Hcov.
  { intros k f Hk Hf Hsh. destruct (decide (k < m)) as [|Hkm]; [done|]. exfalso.
    destruct (lookup_lt_is_Some_2 es m) as [g Hg]; [apply lookup_lt_Some in Hf; lia|].
    specialize (Hout _ Hg). apply (not_true_iff_false (HasPrefix _ _)) in Hout. apply Hout.
    apply (share_prefix l i m); [done..|lia|].
    apply (share_between l i m k e g f); auto with lia. }
  destruct (Nat.ltb_spec (S i) m) as [Hext|Hext].
  - destruct (lookup_lt_is_Some_2 es (m - 1)) as [g Hg]; [lia|].
    assert (share l e g) as Heg.
    { apply (share_prefix l i (m - 1)); [done..|lia|]. apply (Hin (m - 1)); auto with lia. }
    destruct (IH (l + 1) (Nat.max r (m - 1))) as (short & l' & r' & -> & Hl & Hr & Hshort & _ & Hr2); [lia|].
    exists short, l', r'. split_and!; [done|lia|lia|done| |].
    + intros k f Hk Hf _ Hsh. specialize (Hcov k f Hk Hf Hsh). lia.
    + destruct Hr2 as [->|(_ & Hir & f & Hf & Hsh)].
      * destruct (Nat.max_spec r (m - 1)) as [[_ ->]|[_ ->]]; [right|by left].
        split_and!; [lia|lia|]. by exists g.
      * right. split_and!; [lia|done|]. exists f. split; [done|]. apply (share_mono (l + 1)); [lia|done].
  - exists (str_take l (val e)), l, r. split_and!; [done..| | |by left].
    + right. split_and!; [done..|]. intros f Hf Hsh. specialize (Hcov (S i) f ltac:(lia) Hf Hsh). lia.
    + intros k f Hk Hf _ Hsh. specialize (Hcov k f Hk Hf Hsh). lia.
Qed.

(** A code for the entry at index [i]: the whole digest, or a prefix of its
    value that no other value shares. *)
Definition good_code (i : nat) (e : digestEntry) (code : string) : Prop :=
  code = dgst e ∨
  ∃ l, l < N ∧ code = str_take l (val e) ∧
       ∀ j f, es !! j = Some f → j ≠ i → ¬ share l e f.

(** The invariant of the outer loop at index [i], for a minimum length
    [len]. *)
Definition table_inv (len i l r : nat) : Prop :=
  len ≤ l ∧
  (∀ e f, es !! i = Some e → 0 < i → es !! (i - 1) = Some f → l < N → ¬ share l f e) ∧
  ((l = len ∧ r ≤ i) ∨
   (len < N ∧ i ≤ r ∧ ∀ e, es !! i = Some e →
      (∃ g, es !! r = Some g ∧ share len e g) ∧
      (∀ k f, i ≤ k → es !! k = Some f → share len e f → k ≤ r))).

Lemma good_code_step len i l r e l' :
  table_inv len i l r → es !! i = Some e → l ≤ l' → l' < N →
  (∀ f, es !! S i = Some f → ¬ share l' e f) → good_code i e (str_take l' (val e)).
Proof.
  intros (_ & HA & _) He Hl HN Hnext. right. exists l'. split_and!; [done..|].
  intros j f Hf Hji Hsh. destruct (decide (j < i)) as [Hlt|Hge].
  - destruct (lookup_lt_is_Some_2 es (i - 1)) as [g Hg]; [apply lookup_lt_Some in He; lia|].
    apply (HA e g); [done|lia|done|lia|]. apply (share_mono l'); [done|].
    assert (share l' f g) as Hfg.
    { apply (share_between l' j (i - 1) i f g e); auto with lia. by unfold share in *. }
    unfold share in *. congruence.
  - destruct (lookup_lt_is_Some_2 es (S i)) as [g Hg]; [apply lookup_lt_Some in Hf; lia|].
    apply (Hnext g Hg). apply (share_between l' i (S i) j e g f); auto with lia.
Qed.

(** After an iteration, either the length is reset and the next entry starts a
    new group, or [resetIdx] still covers the group of the next entry. *)
Lemma table_inv_step len i l r e short l' r' :
  table_inv len i l r → es !! i = Some e → l ≤ l' → r ≤ r' →
  ((short = dgst e ∧ N ≤ l') ∨
   (short = str_take l' (val e) ∧ l' < N ∧ ∀ f, es !! S i = Some f → ¬ share l' e f)) →
  (∀ k f, i < k → es !! k = Some f → l < N → share l e f → k ≤ r') →
  (r' = r ∨ l < N ∧ i < r' ∧ ∃ f, es !! r' = Some f ∧ share l e f) →
  table_inv len (S i) (if r' <=? i then len else l') r'.
Proof.
  intros (Hlen0 & HA & HB) He Hl Hr Hshort Hcov Hr2.
  split; [destruct (r' <=? i); lia|]. split.
  - intros f g Hf _. replace (S i - 1) with i by lia. rewrite He. intros [= <-].
    destruct (Nat.leb_spec r' i) as [Hri|Hri]; intros HN Hsh.
    + destruct HB as [[-> Hri']|(_ & Hir & HB)].
      * specialize (Hcov (S i) f ltac:(lia) Hf HN Hsh). lia.
      * destruct (HB e He) as [_ Hc]. specialize (Hc (S i) f ltac:(lia) Hf Hsh). lia.
    + destruct Hshort as [[_ ?]|(_ & _ & Hn)]; [lia|]. by apply (Hn f).
  - destruct (Nat.leb_spec r' i) as [Hri|Hri]; [left; lia|]. right.
    assert (len < N ∧ (∃ g, es !! r' = Some g ∧ share len e g) ∧
            (∀ k h, i < k → es !! k = Some h → share len e h → k ≤ r')) as (HN & (g & Hg & Heg) & Hc).
    { destruct HB as [[-> Hri']|(HN & Hir & HB)].
      - destruct Hr2 as [->|(HN & _ & g & Hg & Heg)]; [lia|]. split_and!; [done|by exists g|eauto].
      - destruct (HB e He) as [Hex Hc]. assert (r' = r) as ->.
        { destruct Hr2 as [->|(_ & _ & g & Hg & Heg)]; [done|].
          assert (r' ≤ r); [|lia]. apply (Hc r' g); [lia|done|]. by apply (share_mono l). }
        split_and!; [done..|]. intros k h Hk Hh Hsh. apply (Hc k h); auto; lia. }
    split_and!; [done|lia|]. intros f Hf.
    assert (share len e f) as Hef by (apply (share_between len i (S i) r' e f g); auto with lia).
    split; [exists g; split; [done|]; unfold share in *; congruence|].
    intros k h Hk Hh Hfh. apply (Hc k h); [lia|done|]. unfold share in *; congruence.
Qed.

Lemma tableLoop_spec rest len i l r m :
  rest = drop i es → table_inv len i l r →
  (∀ k e, k < i → es !! k = Some e → ∃ code, m !! dgst e = Some code ∧ good_code k e code) →
  ∃ m', tableLoop rest len i l r m = Some m' ∧
    ∀ k e, es !! k = Some e → ∃ code, m' !! dgst e = Some code ∧ good_code k e code.
Proof.
  revert i l r m. induction rest as [|e rest IH]; intros i l r m Hrest Hinv Hm.
  - exists m. split; [done|]. intros k e He. apply (Hm k e); [|done].
    apply lookup_lt_Some in He. symmetry in Hrest. apply (f_equal length) in Hrest.
    rewrite length_drop in Hrest. simpl in Hrest. lia.
  - assert (es !! i = Some e) as He.
    { rewrite <-(Nat.add_0_r i), <-lookup_drop, <-Hrest. done. }
    assert (rest = drop (S i) es) as Hrest'.
    { rewrite (drop_S es e i He) in Hrest. by simplify_eq. }
    cbn [tableLoop]. rewrite Hrest'.
    destruct (extendLoop_spec (S (String.length (val e))) i e l r He) as (short & l' & r' & -> & H).
    { rewrite (Hlen i e He). lia. }
    destruct H as (Hl & Hr & Hshort & Hcov & Hr2).
    rewrite <-Hrest'. apply IH; rewrite ?Nat.add_1_r; [done|by eapply table_inv_step|].
    intros k f Hk Hf. destruct (decide (k = i)) as [->|Hne].
    + simplify_eq. exists short. rewrite lookup_insert_eq. split; [done|].
      destruct Hshort as [[-> _]|(-> & HN & Hn)]; [by left|by eapply good_code_step].
    + destruct (Hm k f) as (code & Hcode & Hgood); [lia|done|]. exists code. split; [|done].
      rewrite lookup_insert_ne; [done|]. intros Hd. apply Hne. by eapply wf_dgst_inj.
Qed.

Lemma good_code_Lookup k e code : es !! k = Some e → good_code k e code → Lookup es code = Ret (dgst e).
Proof.
  intros He [->|(l & HN & -> & Hother)].
  { apply Lookup_member; [done|]. apply list_elem_of_fmap. exists e. split; [done|].
    by eapply list_elem_of_lookup_2. }
  assert (wf_entry e) as (Hv & Ha & Hx) by (destruct Hwf as [_ H]; rewrite Forall_lookup in H; eauto).
  rewrite Lookup_lookup_ref; [|apply Hwf| |by apply wf_alg_nonempty].
  2:{ rewrite digest_Parse_spec. simpl. apply hex_invalid_format, str_all_take. rewrite Hx.
      by apply digest_hex_chars. }
  unfold lookup_ref. rewrite <-(take_drop_middle es k e He).
  assert (∀ j f, es !! j = Some f → j ≠ k → ¬ HasPrefix (val f) (str_take l (val e)) = true) as Hno.
  { intros j f Hf Hj. rewrite (share_prefix l k j e f) by (done || lia). eauto. }
  rewrite filter_app, filter_cons_True by apply HasPrefix_take.
  rewrite !filter_none; [done|..]; apply Forall_lookup; intros j f Hf.
  - rewrite lookup_drop in Hf. eapply Hno; [done|lia].
  - apply lookup_take_Some in Hf as [Hf ?]. eapply Hno; [done|lia].
Qed.

Lemma ShortCodeTable_good len :
  ∃ m, ShortCodeTable es len = Some m ∧
    ∀ d, d ∈ All es → ∃ code, m !! d = Some code ∧ Lookup es code = Ret d.
Proof.
  destruct (tableLoop_spec es len 0 len 0 ∅) as (m & Hm & Hcodes); [done| |lia|].
  { split_and!; [done|lia|left; lia]. }
  exists m. split; [done|]. intros d (e & -> & [k Hk]%list_elem_of_lookup)%list_elem_of_fmap.
  destruct (Hcodes k e Hk) as (code & Hc & Hgood). exists code. split; [done|].
  by eapply good_code_Lookup.
Qed.

End short_codes.

(** ** Histories of a set *)

Inductive op := OpAdd (d : digest) | OpRemove (d : digest).

Section histories.
Context {GD : GoDigest}.

(** A call that returns an error leaves the set as it was. *)
Definition apply_op (es : entries_t) (o : op) : entries_t :=
  match o with
  | OpAdd d => match Add es d with Ret es' => es' | _ => es end
  | OpRemove d => match Remove es d with Ret es' => es' | _ => es end
  end.
Definition run (ops : list op) : entries_t := foldl apply_op NewSet ops.

(** The abstract set of valid digests that the same calls build. *)
Definition spec_op (X : gset digest) (o : op) : gset digest :=
  match o with
  | OpAdd d => if bool_decide (digest_Validate d = None) then {[d]} ∪ X else X
  | OpRemove d => X ∖ {[d]}
  end.
Definition spec_run (ops : list op) : gset digest := foldl spec_op ∅ ops.

Context {GDL : GoDigestLaws}.

Lemma apply_op_refines es X o :
  wf es → list_to_set (All es) = X →
  wf (apply_op es o) ∧ list_to_set (All (apply_op es o)) = spec_op X o.
Proof.
  intros Hwf HX. destruct o as [d|d]; simpl.
  - case_bool_decide as Hd.
    + destruct (Add_spec es d Hwf Hd) as (es' & -> & Hwf' & Hin). split; [done|].
      apply set_eq. intros x. rewrite <-HX, elem_of_list_to_set, Hin. set_solver.
    + unfold Add. by destruct (digest_Validate d).
  - destruct (digest_Validate d) eqn:Hd.
    + unfold Remove. rewrite Hd. split; [done|].
      assert (d ∉ X); [|set_solver]. rewrite <-HX, elem_of_list_to_set.
      intros (e & -> & He)%list_elem_of_fmap. destruct Hwf as [_ Hwf].
      rewrite Forall_forall in Hwf. destruct (Hwf e He) as [? _]. congruence.
    + destruct (Remove_spec es d Hwf Hd) as (es' & -> & Hwf' & Hin). split; [done|].
      apply set_eq. intros x. rewrite <-HX, elem_of_list_to_set, Hin. set_solver.
Qed.

Lemma run_wf ops : wf (run ops) ∧ list_to_set (All (run ops)) = spec_run ops.
Proof.
  unfold run, spec_run.
  assert (wf NewSet ∧ list_to_set (All NewSet) = (∅ : gset digest)) as H.
  { split; [split; constructor|done]. }
  revert H. generalize NewSet (∅ : gset digest).
  induction ops as [|o ops IH]; intros es X [Hwf HX]; simpl; [done|].
  apply IH. by apply apply_op_refines.
Qed.

Lemma wf_NoDup es : wf es → NoDup (All es).
Proof.
  intros Hwf. apply NoDup_alt. intros i j d. unfold All. rewrite !list_lookup_fmap.
  intros (e & He & ->)%fmap_Some (f & Hf & Hd)%fmap_Some. by apply (wf_dgst_inj es i j e f).
Qed.

End histories.

(** ** Properties *)

(** C33: every sequence of [Add] and [Remove] calls on a new [Set] leaves the
    slice sorted, without duplicates, and holding exactly the digests of the
    finite set that the calls describe: an invalid digest changes nothing,
    [Add] inserts and [Remove] deletes. *)
Theorem digestset_refines_finite_set {GD : GoDigest} {GDL : GoDigestLaws} (ops : list op) :
  sorted (run ops) ∧ NoDup (All (run ops)) ∧ list_to_set (All (run ops)) = spec_run ops.
Proof.
  destruct (run_wf ops) as [Hwf HX]. split_and!; [apply Hwf|by apply wf_NoDup|done].
Qed.

(** On a set built by any calls, [Lookup] of a string without an algorithm
    (the common abbreviated form) gives what a scan of the whole set gives: the
    digest when exactly one encoding extends the string, [ErrDigestAmbiguous]
    when several do and [ErrDigestNotFound] when none does.  The binary search
    and the look at one neighbour lose nothing. *)
Theorem lookup_abbreviation {GD : GoDigest} {GDL : GoDigestLaws} (ops : list op) (s : string) :
  no_byte ":" s = true → Lookup (run ops) s = lookup_ref (run ops) s.
Proof.
  intros Hs. destruct (run_wf ops) as [Hwf _].
  apply Lookup_lookup_ref; [apply Hwf| |by apply wf_alg_nonempty].
  rewrite digest_Parse_spec. by apply digest_no_colon.
Qed.

(** [ShortCodeTable] terminates on every set whose encodings have one
    length and gives every digest of the set a code that [Lookup] resolves to
    that digest, whatever the minimum length asked for. *)
Theorem short_codes_resolve {GD : GoDigest} {GDL : GoDigestLaws} (ops : list op) (len n : nat) :
  (∀ e, e ∈ run ops → String.length (val e) = n) →
  ∃ m, ShortCodeTable (run ops) len = Some m ∧
    ∀ d, d ∈ spec_run ops → ∃ code, m !! d = Some code ∧ Lookup (run ops) code = Ret d.
Proof.
  intros Hn. destruct (run_wf ops) as [Hwf HX].
  destruct (ShortCodeTable_good (run ops) Hwf n) with (len := len) as (m & Hm & Hcodes).
  { intros i e He. apply Hn. by eapply list_elem_of_lookup_2. }
  exists m. split; [done|]. intros d Hd. apply Hcodes.
  by rewrite <-HX, elem_of_list_to_set in Hd.
Qed.

(** *** Witnesses *)

Fixpoint zeros (n : nat) : string := match n with 0 => "" | S n => String "0" (zeros n) end.
Definition d256 (p : string) : digest := "sha256:" +:+ p +:+ zeros (64 - String.length p).
Definition d512 (p : string) : digest := "sha512:" +:+ p +:+ zeros (128 - String.length p).
Definition sample_ops : list op :=
  [OpAdd (d256 "12ab"); OpAdd (d256 "12ac"); OpAdd (d256 "9f"); OpAdd "nonsense";
   OpAdd (d256 "9f"); OpAdd (d256 "55"); OpRemove (d256 "55")].

Lemma digestset_refines_finite_set_witness :
  sorted (run sample_ops) ∧ NoDup (All (run sample_ops)) ∧
  list_to_set (All (run sample_ops)) = spec_run sample_ops.
Proof. apply (digestset_refines_finite_set sample_ops). Defined.

Lemma lookup_abbreviation_witness :
  Lookup (run sample_ops) "12a" = Fail ErrDigestAmbiguous ∧
  Lookup (run sample_ops) "12ab" = Ret (d256 "12ab") ∧
  Lookup (run sample_ops) "12ab" = lookup_ref (run sample_ops) "12ab".
Proof.
  split; [vm_compute; reflexivity|]. split; [vm_compute; reflexivity|].
  apply (lookup_abbreviation sample_ops "12ab"). vm_compute. reflexivity.
Defined.

Lemma short_codes_resolve_witness :
  (∀ e, e ∈ run sample_ops → String.length (val e) = 64) ∧
  ∃ m, ShortCodeTable (run sample_ops) 2 = Some m ∧
    ∀ d, d ∈ spec_run sample_ops → ∃ code, m !! d = Some code ∧ Lookup (run sample_ops) code = Ret d.
Proof.
  assert (∀ e, e ∈ run sample_ops → String.length (val e) = 64) as H.
  { apply Forall_forall. vm_compute. repeat constructor. }
  split; [exact H|]. exact (short_codes_resolve sample_ops 2 64 H).
Defined.

(** A lookup that names the algorithm stops at the first value in order even
    when that value belongs to another algorithm, so it can miss the only
    digest it describes. *)
Lemma lookup_qualified_misses :
  let ops := [OpAdd (d512 "12aa"); OpAdd (d256 "12bb")] in
  d256 "12bb" ∈ All (run ops) ∧ HasPrefix (d256 "12bb") "sha256:12" = true ∧
  Lookup (run ops) "sha256:12" = Fail ErrDigestNotFound.
Proof.
  split; [|split; vm_compute; reflexivity].
  apply list_elem_of_In. vm_compute. right. left. reflexivity.
Qed.

End DigestSet.
