(* ===== verification/Regexp.v ===== *)
(** * Regular expressions

    The part of the package regexp that the reference grammar of the registry
    uses: classes of bytes, concatenation, alternation, greedy repetition and
    capturing groups, matched against a whole string.  Among the ways in which an
    expression matches the package takes the first that a backtracking search
    finds, which tries the left alternative first and repeats as often as it can;
    this search is [run].  An iteration that matches nothing ends a repetition;
    the grammar repeats only expressions that match at least one byte, for which
    all dialects agree. *)

From S2P Require Import Prelude GoStd Digest.

Module Regexp.

Inductive regexp :=
  | Eps
  | Class (f : ascii → bool)
  | Cat (r1 r2 : regexp)
  | Alt (r1 r2 : regexp)
  | Star (r : regexp)
  | Capture (n : nat) (r : regexp).

Definition Opt (r : regexp) : regexp := Alt r Eps.
Definition Plus (r : regexp) : regexp := Cat r (Star r).
(** [r{n,}] and [r{0,n}]. *)
Fixpoint AtLeast (n : nat) (r : regexp) : regexp :=
  match n with 0 => Star r | S n => Cat r (AtLeast n r) end.
Fixpoint AtMost (n : nat) (r : regexp) : regexp :=
  match n with 0 => Eps | S n => Opt (Cat r (AtMost n r)) end.
(** [r{n,m}], with the difference of the bounds. *)
Fixpoint Between (n d : nat) (r : regexp) : regexp :=
  match n with 0 => AtMost d r | S n => Cat r (Between n d r) end.
Definition Literal (c : ascii) : regexp := Class (λ a, bool_decide (a = c)).

(** The groups that matched. *)
Definition captures : Type := list (nat * string).
Definition group (n : nat) (c : captures) : string :=
  match find (λ x, Nat.eqb x.1 n) c with Some x => x.2 | None => "" end.

Definition consumed (s s' : string) : string := str_take (String.length s - String.length s') s.

Section run.
Context {R : Type}.
Abbreviation cont := (string → captures → option R) (only parsing).

(** The repetitions of [m]; [fuel] bounds their number, and is at least the
    length of the string, of which each of them takes at least one byte. *)
Fixpoint repeat (m : cont → cont) (k : cont) (fuel : nat) : cont := λ s c,
  match fuel with
  | 0 => k s c
  | S fuel =>
      match m (λ s' c', if String.length s' <? String.length s then repeat m k fuel s' c' else None) s c with
      | Some x => Some x
      | None => k s c
      end
  end.
Fixpoint run (r : regexp) (k : cont) : cont := λ s c,
  match r with
  | Eps => k s c
  | Class f => match s with String a s' => if f a then k s' c else None | "" => None end
  | Cat r1 r2 => run r1 (run r2 k) s c
  | Alt r1 r2 => match run r1 k s c with Some x => Some x | None => run r2 k s c end
  | Star r => repeat (run r) k (String.length s) s c
  | Capture n r => run r (λ s' c', k s' ((n, consumed s s') :: c')) s c
  end.

End run.

(** [FindStringSubmatch] and [MatchString] of an anchored expression. *)
Definition at_end (s : string) (c : captures) : option captures := if bool_decide (s = "") then Some c else None.
Definition FindStringSubmatch (r : regexp) (s : string) : option captures := run r at_end s [].
Definition MatchString (r : regexp) (s : string) : bool := bool_decide (is_Some (FindStringSubmatch r s)).

(** ** The language of an expression *)

(** [r] matches [s], and adds to the groups [c] those of [c']. *)
Inductive parses : regexp → string → captures → captures → Prop :=
  | parses_Eps c : parses Eps "" c c
  | parses_Class f a c : f a = true → parses (Class f) (String a "") c c
  | parses_Cat r1 r2 s1 s2 c c1 c2 : parses r1 s1 c c1 → parses r2 s2 c1 c2 → parses (Cat r1 r2) (s1 +:+ s2) c c2
  | parses_Alt_l r1 r2 s c c' : parses r1 s c c' → parses (Alt r1 r2) s c c'
  | parses_Alt_r r1 r2 s c c' : parses r2 s c c' → parses (Alt r1 r2) s c c'
  | parses_Star_nil r c : parses (Star r) "" c c
  | parses_Star_cons r s1 s2 c c1 c2 :
      s1 ≠ "" → parses r s1 c c1 → parses (Star r) s2 c1 c2 → parses (Star r) (s1 +:+ s2) c c2
  | parses_Capture n r s c c' : parses r s c c' → parses (Capture n r) s c ((n, s) :: c').
#[export] Hint Constructors parses : core.

(** A string of the language. *)
Definition lang (r : regexp) (s : string) : Prop := ∃ c c', parses r s c c'.

Lemma consumed_app s t : consumed (s +:+ t) t = s.
Proof. unfold consumed. rewrite str_length_app, Nat.add_sub. apply str_take_app. Qed.

(** What the search finds is a match. *)
Lemma repeat_sound {R} r (k : string → captures → option R) fuel :
  (∀ (k : string → captures → option R) s c x, run r k s c = Some x →
     ∃ s1 s2 c', s = s1 +:+ s2 ∧ parses r s1 c c' ∧ k s2 c' = Some x) →
  ∀ s c x, repeat (run r) k fuel s c = Some x → ∃ s1 s2 c', s = s1 +:+ s2 ∧ parses (Star r) s1 c c' ∧ k s2 c' = Some x.
Proof.
  intros Hr. induction fuel as [|fuel IH]; intros s c x; cbn [repeat]; [by exists "", s, c|].
  destruct (run r _ s c) as [y|] eqn:Hrun; [|by exists "", s, c].
  intros [= ->]. apply Hr in Hrun as (s1 & s2 & c1 & -> & Hp & Hk). case (Nat.ltb_spec (String.length s2) (String.length (s1 +:+ s2))) as [Hl|]; [|done].
  apply IH in Hk as (t1 & t2 & c2 & -> & Hp2 & Hk). exists (s1 +:+ t1), t2, c2. split_and!; [by rewrite str_app_assoc| |done].
  eapply parses_Star_cons; [|done..]. intros ->. rewrite str_app_nil_l in Hl. lia.
Qed.
Lemma run_sound {R} r : ∀ (k : string → captures → option R) s c x,
  run r k s c = Some x → ∃ s1 s2 c', s = s1 +:+ s2 ∧ parses r s1 c c' ∧ k s2 c' = Some x.
Proof.
  induction r as [|f|r1 IH1 r2 IH2|r1 IH1 r2 IH2|r IH|n r IH]; intros k s c x; cbn [run].
  - by exists "", s, c.
  - destruct s as [|a s]; [done|]. destruct (f a) eqn:Hf; [|done]. exists (String a ""), s, c. by auto.
  - intros (s1 & s2 & c1 & -> & H1 & (t1 & t2 & c2 & -> & H2 & Hk)%IH2)%IH1.
    exists (s1 +:+ t1), t2, c2. split_and!; [by rewrite str_app_assoc|by eauto|done].
  - destruct (run r1 k s c) as [y|] eqn:H1; [intros [= ->]|].
    + apply IH1 in H1 as (s1 & s2 & c' & ? & ? & ?). exists s1, s2, c'. by eauto.
    + intros (s1 & s2 & c' & ? & ? & ?)%IH2. exists s1, s2, c'. by eauto.
  - by apply repeat_sound.
  - intros (s1 & s2 & c' & -> & Hp & Hk)%IH. rewrite consumed_app in Hk. exists s1, s2, ((n, s1) :: c'). by eauto.
Qed.

(** If there is a match after which the rest succeeds, the search succeeds. *)
Lemma repeat_complete {R} r s1 c c' :
  parses (Star r) s1 c c' →
  (∀ t1 d d', parses r t1 d d' → ∀ (k : string → captures → option R) s2, is_Some (k s2 d') → is_Some (run r k (t1 +:+ s2) d)) →
  ∀ (k : string → captures → option R) s2 fuel, String.length (s1 +:+ s2) ≤ fuel →
  is_Some (k s2 c') → is_Some (repeat (run r) k fuel (s1 +:+ s2) c).
Proof.
  intros Hp Hr. remember (Star r) as q. induction Hp as [| | | | |r' c|r' t1 t2 c c1 c2 Hne Hp1 _ Hp2 IH|]; try done; injection Heqq as ->.
  - intros k s2 [|fuel] _ Hk; cbn [repeat]; [done|]. rewrite str_app_nil_l. by case_match.
  - intros k s2 fuel Hl Hk. rewrite <-str_app_assoc in Hl |- *. assert (0 < String.length t1) as Ht by (destruct t1; [done|cbn; lia]).
    rewrite str_length_app in Hl. destruct fuel as [|fuel]; [lia|]. cbn [repeat].
    match goal with |- is_Some (match run r ?k' _ _ with _ => _ end) => pose proof (Hr t1 c c1 Hp1 k' (t2 +:+ s2)) as Hs end.
    destruct Hs as [x ->]; [|done]. rewrite (proj2 (Nat.ltb_lt _ _)) by (rewrite !str_length_app; lia).
    apply IH; [done|lia|done].
Qed.
Lemma run_complete {R} r : ∀ s1 c c', parses r s1 c c' →
  ∀ (k : string → captures → option R) s2, is_Some (k s2 c') → is_Some (run r k (s1 +:+ s2) c).
Proof.
  induction r as [|f|r1 IH1 r2 IH2|r1 IH1 r2 IH2|r IH|n r IH]; intros s1 c c' Hp k s2 Hk; cbn [run]; inversion Hp; subst.
  - done.
  - rewrite str_app_cons, str_app_nil_l. by case_match; congruence.
  - rewrite <-str_app_assoc. eapply IH1; [done|]. by eapply IH2.
  - destruct (run r1 k _ c) eqn:H1; [done|]. destruct (IH1 s1 c c' ltac:(done) k s2 Hk) as [? ?]. congruence.
  - destruct (run r1 k _ c) eqn:H1; [done|]. by eapply IH2.
  - by eapply repeat_complete.
  - by eapply repeat_complete.
  - eapply IH; [done|]. by rewrite consumed_app.
Qed.

(** A match does not depend on the groups before it. *)
Lemma parses_captures r s c c' : parses r s c c' → ∀ d, ∃ d', parses r s d d'.
Proof.
  induction 1 as [c|f a c Ha|r1 r2 s1 s2 c c1 c2 _ IH1 _ IH2|r1 r2 s c c' _ IH|r1 r2 s c c' _ IH|r c|r s1 s2 c c1 c2 Hne _ IH1 _ IH2|n r s c c' _ IH];
    intros d; try by eauto.
  - destruct (IH1 d) as [d1 ?]. destruct (IH2 d1) as [d2 ?]. by eauto.
  - destruct (IH d). by eauto.
  - destruct (IH d). by eauto.
  - destruct (IH1 d) as [d1 ?]. destruct (IH2 d1) as [d2 ?]. by eauto.
  - destruct (IH d) as [d1 ?]. exists ((n, s) :: d1). by constructor.
Qed.

Lemma FindStringSubmatch_sound r s c : FindStringSubmatch r s = Some c → parses r s [] c.
Proof.
  intros (s1 & s2 & c' & -> & Hp & Hk)%run_sound. unfold at_end in Hk. case_bool_decide; [|done]. injection Hk as <-. subst s2.
  by rewrite str_app_nil_r.
Qed.
Lemma FindStringSubmatch_complete r s : lang r s → is_Some (FindStringSubmatch r s).
Proof.
  intros (c & c' & Hp). destruct (parses_captures _ _ _ _ Hp []) as [d' Hd].
  rewrite <-(str_app_nil_r s). eapply run_complete; [done|]. by eexists.
Qed.
(** [MatchString] decides the language. *)
Lemma MatchString_spec r s : MatchString r s = true ↔ lang r s.
Proof.
  unfold MatchString. rewrite bool_decide_eq_true. split; [|apply FindStringSubmatch_complete].
  intros [c Hc%FindStringSubmatch_sound]. by exists [], c.
Qed.

(** *** Languages of the forms *)

Lemma lang_Eps s : lang Eps s ↔ s = "".
Proof. split; [intros (c & c' & H); by inversion H|intros ->; by exists [], []]. Qed.
Lemma lang_Class f s : lang (Class f) s ↔ ∃ a, s = String a "" ∧ f a = true.
Proof. split; [intros (c & c' & H); inversion H; subst; by eexists|intros (a & -> & Ha); exists [], []; by auto]. Qed.
Lemma lang_Cat r1 r2 s : lang (Cat r1 r2) s ↔ ∃ s1 s2, s = s1 +:+ s2 ∧ lang r1 s1 ∧ lang r2 s2.
Proof.
  split.
  - intros (c & c' & H). inversion H as [| |? ? s1 s2 ? c1 ? H1 H2| | | | |]; subst. exists s1, s2. split_and!; [done|by eexists _, _..].
  - intros (s1 & s2 & -> & (c & c1 & H1) & (d & d' & H2)). destruct (parses_captures _ _ _ _ H2 c1) as [c2 H2'].
    exists c, c2. by eauto.
Qed.
Lemma lang_Alt r1 r2 s : lang (Alt r1 r2) s ↔ lang r1 s ∨ lang r2 s.
Proof.
  split; [intros (c & c' & H); inversion H; subst; [left|right]; by eexists _, _|].
  intros [(c & c' & H)|(c & c' & H)]; exists c, c'; by auto.
Qed.
Lemma lang_Opt r s : lang (Opt r) s ↔ lang r s ∨ s = "".
Proof. unfold Opt. by rewrite lang_Alt, lang_Eps. Qed.
Lemma lang_Capture n r s : lang (Capture n r) s ↔ lang r s.
Proof. split; [intros (c & c' & H); inversion H; subst; by eexists _, _|intros (c & c' & H); exists c, ((n, s) :: c'); by constructor]. Qed.
Lemma lang_Literal a s : lang (Literal a) s ↔ s = String a "".
Proof.
  unfold Literal. rewrite lang_Class. split; [intros (b & -> & Hb%bool_decide_eq_true); by subst|intros ->].
  exists a. by rewrite bool_decide_true.
Qed.
(** A repetition, by its first iteration. *)
Lemma lang_Star r s : lang (Star r) s ↔ s = "" ∨ ∃ s1 s2, s = s1 +:+ s2 ∧ s1 ≠ "" ∧ lang r s1 ∧ lang (Star r) s2.
Proof.
  split.
  - intros (c & c' & H). inversion H as [| | | | | |? s1 s2 ? c1 ? Hne H1 H2|]; subst; [by left|right].
    exists s1, s2. split_and!; [done..|by eexists _, _|by eexists _, _].
  - intros [->|(s1 & s2 & -> & Hne & (c & c1 & H1) & (d & d' & H2))]; [exists [], []; by auto|].
    destruct (parses_captures _ _ _ _ H2 c1) as [c2 H2']. exists c, c2. by eauto.
Qed.
Lemma lang_Star_nil r : lang (Star r) "".
Proof. apply lang_Star. by left. Qed.
Lemma lang_Star_app r s t : lang r s → lang (Star r) t → lang (Star r) (s +:+ t).
Proof.
  intros Hs Ht. destruct (decide (s = "")) as [->|Hne]; [by rewrite str_app_nil_l|]. apply lang_Star. right. by exists s, t.
Qed.

(** The bytes that an expression allows. *)
Fixpoint within (f : ascii → bool) (r : regexp) : Prop :=
  match r with
  | Eps => True
  | Class g => ∀ a, g a = true → f a = true
  | Cat r1 r2 | Alt r1 r2 => within f r1 ∧ within f r2
  | Star r | Capture _ r => within f r
  end.
Lemma lang_within f r s : within f r → lang r s → str_all f s = true.
Proof.
  intros Hw (c & c' & Hp). revert Hw.
  induction Hp as [c|g a c Ha|r1 r2 s1 s2 c c1 c2 _ IH1 _ IH2|r1 r2 s c c' _ IH|r1 r2 s c c' _ IH|r c|r s1 s2 c c1 c2 Hne _ IH1 _ IH2|n r s c c' _ IH];
    cbn [within]; intros Hw; try done; try by apply IH.
  - cbn [str_all]. by rewrite Hw.
  - destruct Hw as [? ?]. by rewrite str_all_app, IH1, IH2.
  - by apply IH, Hw.
  - by apply IH, Hw.
  - by rewrite str_all_app, IH1, IH2.
Qed.

(** The same, decided by computation. *)
Definition all_ascii : list ascii := Ascii.ascii_of_nat <$> seq 0 256.
Lemma elem_of_all_ascii a : a ∈ all_ascii.
Proof.
  apply list_elem_of_fmap. exists (Ascii.nat_of_ascii a). split; [by rewrite Ascii.ascii_nat_embedding|].
  apply elem_of_seq. pose proof (Ascii.nat_ascii_bounded a). lia.
Qed.
Fixpoint withinb (f : ascii → bool) (r : regexp) : bool :=
  match r with
  | Eps => true
  | Class g => forallb (λ a, negb (g a) || f a) all_ascii
  | Cat r1 r2 | Alt r1 r2 => withinb f r1 && withinb f r2
  | Star r | Capture _ r => withinb f r
  end.
Lemma withinb_spec f r : withinb f r = true → within f r.
Proof.
  induction r as [|g|r1 IH1 r2 IH2|r1 IH1 r2 IH2|r IH|n r IH]; cbn [withinb within]; try done.
  - rewrite forallb_forall. intros H a Ha. specialize (H a). rewrite Ha in H. apply H, list_elem_of_In, elem_of_all_ascii.
  - rewrite andb_true_iff. naive_solver.
  - rewrite andb_true_iff. naive_solver.
Qed.
Lemma lang_withinb f r s : withinb f r = true → lang r s → str_all f s = true.
Proof. intros H%withinb_spec. by apply lang_within. Qed.

(** Expressions that match the empty string, and those without groups. *)
Fixpoint nullable (r : regexp) : bool :=
  match r with
  | Eps | Star _ => true
  | Class _ => false
  | Cat r1 r2 => nullable r1 && nullable r2
  | Alt r1 r2 => nullable r1 || nullable r2
  | Capture _ r => nullable r
  end.
Lemma lang_not_nullable r s : nullable r = false → lang r s → s ≠ "".
Proof.
  intros Hn (c & c' & Hp) Hs. revert Hn Hs.
  induction Hp as [c|g a c Ha|r1 r2 s1 s2 c c1 c2 _ IH1 _ IH2|r1 r2 s c c' _ IH|r1 r2 s c c' _ IH|r c|r s1 s2 c c1 c2 Hne _ IH1 _ IH2|n r s c c' _ IH];
    cbn [nullable]; try done.
  - intros [?|?]%andb_false_iff [-> ->]%str_app_eq_nil; auto.
  - intros [? ?]%orb_false_iff. auto.
  - intros [? ?]%orb_false_iff. auto.
Qed.
Fixpoint plain (r : regexp) : bool :=
  match r with
  | Eps | Class _ => true
  | Cat r1 r2 | Alt r1 r2 => plain r1 && plain r2
  | Star r => plain r
  | Capture _ _ => false
  end.
Lemma parses_plain r s c c' : plain r = true → parses r s c c' → c' = c.
Proof.
  intros Hn Hp. revert Hn.
  induction Hp as [c|g a c Ha|r1 r2 s1 s2 c c1 c2 _ IH1 _ IH2|r1 r2 s c c' _ IH|r1 r2 s c c' _ IH|r c|r s1 s2 c c1 c2 Hne _ IH1 _ IH2|n r s c c' _ IH];
    cbn [plain]; rewrite ?andb_true_iff; intros Hn; try done; destruct_and?; rewrite ?IH2, ?IH1, ?IH; auto.
Qed.
Lemma parses_lang r s c c' : parses r s c c' → lang r s.
Proof. by exists c, c'. Qed.

End Regexp.
