(* ===== verification/Reference.v ===== *)
(** * References to images

    Models the package reference: the grammar of references (regexp.go), their
    types, parsing and printing (reference.go), and the names that the user
    interface of Docker shows (normalize.go, helpers.go).

    The fields of [repository] are those of the embedded [namedRepository]; the
    types that embed it and add a tag or a digest are the constructors of
    [Reference].  [path.Match] and so [FamiliarMatch] is left out. *)

From S2P Require Import Prelude GoStd Digest DigestSet Regexp.

Module Reference.
Import Regexp.

(** ** regexp.go *)

Definition is_lower_alnum (c : ascii) : bool := is_lower c || is_digit c.
Definition is_alpha (c : ascii) : bool := is_lower c || is_upper c.
Definition is_alnum (c : ascii) : bool := is_alpha c || is_digit c.
(** The class [\w]. *)
Definition is_word (c : ascii) : bool := is_alnum c || bool_decide (c = "_"%char).
Definition is_xdigit (c : ascii) : bool := is_digit c || is_between "a" "f" c || is_between "A" "F" c.
Definition one_of (cs : list ascii) (c : ascii) : bool := bool_decide (c ∈ cs).

Definition alphaNumericRegexp : regexp := Plus (Class is_lower_alnum).
Definition separatorRegexp : regexp :=
  Alt (Class (one_of ["."; "_"]%char)) (Alt (Cat (Literal "_") (Literal "_")) (Star (Class (one_of ["-"]%char)))).
Definition nameComponentRegexp : regexp :=
  Cat alphaNumericRegexp (Opt (Plus (Cat separatorRegexp alphaNumericRegexp))).
Definition domainComponentRegexp : regexp :=
  Alt (Class is_alnum) (Cat (Class is_alnum) (Cat (Star (Class (λ c, is_alnum c || one_of ["-"]%char c))) (Class is_alnum))).
Definition DomainRegexp : regexp :=
  Cat domainComponentRegexp (Cat (Opt (Plus (Cat (Literal ".") domainComponentRegexp))) (Opt (Cat (Literal ":") (Plus (Class is_digit))))).
Definition TagRegexp : regexp := Cat (Class is_word) (AtMost 127 (Class (λ c, is_word c || one_of ["."; "-"]%char c))).
Definition DigestRegexp : regexp :=
  let component := Cat (Class is_alpha) (Star (Class is_alnum)) in
  Cat component (Cat (Star (Cat (Class (one_of ["-"; "_"; "+"; "."]%char)) component)) (Cat (Literal ":") (AtLeast 32 (Class is_xdigit)))).
(** The components of a name after the domain. *)
Definition pathRegexp : regexp := Cat nameComponentRegexp (Opt (Plus (Cat (Literal "/") nameComponentRegexp))).
Definition NameRegexp : regexp := Cat (Opt (Cat DomainRegexp (Literal "/"))) pathRegexp.
Definition anchoredNameRegexp : regexp := Cat (Opt (Cat (Capture 1 DomainRegexp) (Literal "/"))) (Capture 2 pathRegexp).
Definition ReferenceRegexp : regexp :=
  Cat (Capture 1 NameRegexp) (Cat (Opt (Cat (Literal ":") (Capture 2 TagRegexp))) (Opt (Cat (Literal "@") (Capture 3 DigestRegexp)))).
Definition IdentifierRegexp : regexp := Capture 1 (Between 64 0 (Class hex_char)).
Definition ShortIdentifierRegexp : regexp := Capture 1 (Between 6 58 (Class hex_char)).

(** ** reference.go *)

Inductive ref_err :=
  | ErrReferenceInvalidFormat
  | ErrTagInvalidFormat
  | ErrDigestFormat
  | ErrNameContainsUppercase
  | ErrNameEmpty
  | ErrNameTooLong
  | ErrNameNotCanonical
  | DigestError (e : digest_err)
  | ErrorText (msg : string).

Definition NameTotalLengthMax : nat := 255.

Record repository := { domain : string; path : string }.
Inductive Reference :=
  | Repository (r : repository)
  | TaggedReference (r : repository) (tag : string)
  | CanonicalReference (r : repository) (d : digest)
  | FullReference (r : repository) (tag : string) (d : digest)
  | DigestReference (d : digest).

#[export] Instance repository_eq_dec : EqDecision repository.
Proof. solve_decision. Defined.

Definition Name (r : repository) : string := if bool_decide (domain r = "") then path r else domain r +:+ "/" +:+ path r.
Definition String (r : Reference) : string :=
  match r with
  | Repository r => Name r
  | TaggedReference r tag => Name r +:+ ":" +:+ tag
  | CanonicalReference r d => Name r +:+ "@" +:+ d
  | FullReference r tag d => Name r +:+ ":" +:+ tag +:+ "@" +:+ d
  | DigestReference d => d
  end.
(** The interfaces that a reference implements: [Named], with its repository,
    [Tagged] and [Digested]. *)
Definition Named (r : Reference) : option repository :=
  match r with
  | Repository r | TaggedReference r _ | CanonicalReference r _ | FullReference r _ _ => Some r
  | DigestReference _ => None
  end.
Definition Tagged (r : Reference) : option string :=
  match r with TaggedReference _ tag | FullReference _ tag _ => Some tag | _ => None end.
Definition Digested (r : Reference) : option digest :=
  match r with CanonicalReference _ d | FullReference _ _ d | DigestReference d => Some d | _ => None end.

Definition splitDomain (name : string) : string * string :=
  match FindStringSubmatch anchoredNameRegexp name with
  | None => ("", name)
  | Some m => (group 1 m, group 2 m)
  end.

(** All references with a name embed a repository. *)
Definition Domain (r : Reference) : option string := domain <$> Named r.
Definition Path (r : Reference) : option string := path <$> Named r.
Definition SplitHostname (r : Reference) : option (string * string) := (λ q, (domain q, path q)) <$> Named r.

Definition getBestReferenceType (r : repository) (tag : string) (d : digest) : option Reference :=
  if bool_decide (Name r = "") then if bool_decide (d = "") then None else Some (DigestReference d)
  else if bool_decide (tag = "") then if bool_decide (d = "") then Some (Repository r) else Some (CanonicalReference r d)
  else if bool_decide (d = "") then Some (TaggedReference r tag)
  else Some (FullReference r tag d).

(** [strings.ToLower]; on strings that are not ASCII it uses the tables of the
    package unicode. *)
Class Unicode := { unicode_ToLower : string → string }.
Definition is_ascii (c : ascii) : bool := (Ascii.nat_of_ascii c <? 128)%nat.
Definition to_lower (c : ascii) : ascii := if is_upper c then Ascii.ascii_of_nat (Ascii.nat_of_ascii c + 32) else c.
Fixpoint str_map (f : ascii → ascii) (s : string) : string :=
  match s with "" => "" | String.String c s => String.String (f c) (str_map f s) end.

Section parse.
Context {GD : GoDigest} {Un : Unicode}.

Definition ToLower (s : string) : string := if str_all is_ascii s then str_map to_lower s else unicode_ToLower s.

Definition Parse (s : string) : outcome ref_err Reference :=
  match FindStringSubmatch ReferenceRegexp s with
  | None =>
      if bool_decide (s = "") then Fail ErrNameEmpty
      else if MatchString ReferenceRegexp (ToLower s) then Fail ErrNameContainsUppercase
      else Fail ErrReferenceInvalidFormat
  | Some matches =>
      if bool_decide (NameTotalLengthMax < String.length (group 1 matches)) then Fail ErrNameTooLong
      else
        let repo :=
          match FindStringSubmatch anchoredNameRegexp (group 1 matches) with
          | Some m => {| domain := group 1 m; path := group 2 m |}
          | None => {| domain := ""; path := group 1 matches |}
          end in
        let best d :=
          match getBestReferenceType repo (group 2 matches) d with
          | None => Fail ErrNameEmpty
          | Some r => Ret r
          end in
        if bool_decide (group 3 matches = "") then best ""
        else
          match digest_Parse (group 3 matches) with
          | (_, Some err) => Fail (DigestError err)
          | (d, None) => best d
          end
  end.

Definition WithName (name : string) : outcome ref_err Reference :=
  if bool_decide (NameTotalLengthMax < String.length name) then Fail ErrNameTooLong
  else
    match FindStringSubmatch anchoredNameRegexp name with
    | None => Fail ErrReferenceInvalidFormat
    | Some m => Ret (Repository {| domain := group 1 m; path := group 2 m |})
    end.

(** [WithTag] and [WithDigest] of a named reference, given by its repository
    and the digest or tag it has. *)
Definition WithTag (r : repository) (canonical : option digest) (tag : string) : outcome ref_err Reference :=
  if negb (MatchString TagRegexp tag) then Fail ErrTagInvalidFormat
  else Ret (match canonical with Some d => FullReference r tag d | None => TaggedReference r tag end).
Definition WithDigest (r : repository) (tagged : option string) (d : digest) : outcome ref_err Reference :=
  if negb (MatchString DigestRegexp d) then Fail ErrDigestFormat
  else Ret (match tagged with Some tag => FullReference r tag d | None => CanonicalReference r d end).
Definition TrimNamed (r : Reference) : option Reference :=
  (λ '(d, p), Repository {| domain := d; path := p |}) <$> SplitHostname r.

(** The text of a [Field]. *)
Definition MarshalText (reference : Reference) : string := String reference.
Definition UnmarshalText (p : string) : outcome ref_err Reference := Parse p.

(** ** normalize.go *)

Definition legacyDefaultDomain : string := "index.docker.io".
Definition defaultDomain : string := "docker.io".
Definition officialRepoName : string := "library".
Definition defaultTag : string := "latest".

(** [strings.IndexRune] for an ASCII byte, as the parts before and after it. *)
Fixpoint cut (c : ascii) (s : string) : option (string * string) :=
  match s with
  | "" => None
  | String.String a s =>
      if bool_decide (a = c) then Some ("", s)
      else match cut c s with Some (u, v) => Some (String.String a u, v) | None => None end
  end.

Definition splitDockerDomain (name : string) : string * string :=
  let '(domain, remainder) :=
    match cut slash name with
    | None => (defaultDomain, name)
    | Some (u, v) =>
        if negb (negb (no_byte "." u) || negb (no_byte ":" u)) && negb (bool_decide (u = "localhost"))
        then (defaultDomain, name) else (u, v)
    end in
  let domain := if bool_decide (domain = legacyDefaultDomain) then defaultDomain else domain in
  if bool_decide (domain = defaultDomain) && no_byte slash remainder
  then (domain, officialRepoName +:+ "/" +:+ remainder) else (domain, remainder).

Definition ParseNormalizedNamed (s : string) : outcome ref_err Reference :=
  if MatchString IdentifierRegexp s
  then Fail (ErrorText "invalid repository name, cannot specify 64-byte hexadecimal strings")
  else
    let '(domain, remainder) := splitDockerDomain s in
    let remoteName := match cut ":" remainder with Some (u, _) => u | None => remainder end in
    if negb (bool_decide (ToLower remoteName = remoteName))
    then Fail (ErrorText "invalid reference format: repository name must be lowercase")
    else
      match Parse (domain +:+ "/" +:+ remainder) with
      | Ret ref =>
          match Named ref with
          | None => Fail (ErrorText "reference has no name")
          | Some _ => Ret ref
          end
      | Fail err => Fail err
      | Panic => Panic
      end.
Definition ParseNamed (s : string) : outcome ref_err Reference :=
  match ParseNormalizedNamed s with
  | Ret named => if negb (bool_decide (String named = s)) then Fail ErrNameNotCanonical else Ret named
  | Fail err => Fail err
  | Panic => Panic
  end.

Definition familiarizeName (named : repository) : repository :=
  if bool_decide (domain named = defaultDomain) then
    {| domain := "";
       path := match Split slash (path named) with
               | [u; v] => if bool_decide (u = officialRepoName) then v else path named
               | _ => path named
               end |}
  else named.
Definition Familiar (r : Reference) : Reference :=
  match r with
  | Repository r => Repository (familiarizeName r)
  | TaggedReference r tag => TaggedReference (familiarizeName r) tag
  | CanonicalReference r d => CanonicalReference (familiarizeName r) d
  | FullReference r tag d => FullReference (familiarizeName r) tag d
  | DigestReference d => DigestReference d
  end.

(** ** helpers.go *)

Definition IsNameOnly (r : Reference) : bool := match r with Repository _ => true | _ => false end.
Definition FamiliarName (r : repository) : string := Name (familiarizeName r).
Definition FamiliarString (r : Reference) : string := String (Familiar r).

Definition TagNameOnly (r : Reference) : outcome ref_err Reference :=
  match r with
  | Repository repo => match WithTag repo None defaultTag with Ret r => Ret r | _ => Panic end
  | r => Ret r
  end.
Definition ParseAnyReference (ref : string) : outcome ref_err Reference :=
  if MatchString IdentifierRegexp ref then Ret (DigestReference ("sha256:" +:+ ref))
  else
    match digest_Parse ref with
    | (dgst, None) => Ret (DigestReference dgst)
    | (_, Some _) => ParseNormalizedNamed ref
    end.
Definition ParseAnyReferenceWithSet (ref : string) (ds : DigestSet.entries_t) : outcome ref_err Reference :=
  if MatchString ShortIdentifierRegexp ref then
    match DigestSet.Lookup ds ref with
    | Ret dgst => Ret (DigestReference dgst)
    | _ => ParseNormalizedNamed ref
    end
  else
    match digest_Parse ref with
    | (dgst, None) => Ret (DigestReference dgst)
    | (_, Some _) => ParseNormalizedNamed ref
    end.

End parse.

End Reference.
