(* ===== verification/ReferenceProps.v ===== *)
(** * The grammar of references

    A string has at most one reading as a reference, and [Parse] finds it: it
    returns exactly the references whose parts are in the grammar, and each of
    them is printed as the string it was parsed from. *)

From S2P Require Import Prelude GoStd Digest DigestSet Regexp Reference.

Module ReferenceProps.
Import Regexp Reference.

(** ** The parts of a reference *)

Definition not_in (cs : list ascii) (c : ascii) : bool := bool_decide (c ∉ cs).

Lemma lang_NameRegexp n :
  lang NameRegexp n ↔ (∃ d p, n = d +:+ "/" +:+ p ∧ lang DomainRegexp d ∧ lang pathRegexp p) ∨ lang pathRegexp n.
Proof.
  unfold NameRegexp. rewrite lang_Cat. split.
  - intros (s1 & p & -> & [(d & l & -> & Hd & ->%lang_Literal)%lang_Cat| ->]%lang_Opt & Hp); [left|by right].
    exists d, p. rewrite <-str_app_assoc. by split_and!.
  - intros [(d & p & -> & Hd & Hp)|Hp].
    + exists (d +:+ "/"), p. rewrite <-str_app_assoc. split_and!; [done| |done]. apply lang_Opt. left.
      apply lang_Cat. exists d, "/". by rewrite lang_Literal.
    + exists "", n. split_and!; [done|by apply lang_Opt; right|done].
Qed.

Lemma domain_bytes d : lang DomainRegexp d → str_all (not_in ["/"; "@"]%char) d = true.
Proof. apply lang_withinb. vm_compute. reflexivity. Qed.
Lemma path_bytes p : lang pathRegexp p → str_all (not_in [":"; "@"]%char) p = true.
Proof. apply lang_withinb. vm_compute. reflexivity. Qed.
Lemma name_bytes n : lang NameRegexp n → str_all (not_in ["@"]%char) n = true.
Proof. apply lang_withinb. vm_compute. reflexivity. Qed.
Lemma tag_bytes t : lang TagRegexp t → str_all (not_in [":"; "/"; "@"]%char) t = true.
Proof. apply lang_withinb. vm_compute. reflexivity. Qed.
Lemma tag_not_empty t : lang TagRegexp t → t ≠ "".
Proof. apply lang_not_nullable. reflexivity. Qed.
Lemma digest_not_empty d : lang DigestRegexp d → d ≠ "".
Proof. apply lang_not_nullable. reflexivity. Qed.
Lemma domain_not_empty d : lang DomainRegexp d → d ≠ "".
Proof. apply lang_not_nullable. reflexivity. Qed.
Lemma path_not_empty p : lang pathRegexp p → p ≠ "".
Proof. apply lang_not_nullable. reflexivity. Qed.

Lemma not_in_byte cs c s : c ∈ cs → str_all (not_in cs) s = true → no_byte c s = true.
Proof.
  intros Hc. apply str_all_impl. intros a. unfold not_in. rewrite !bool_decide_eq_true. intros Ha ->. done.
Qed.

(** The first occurrence of a byte splits a string in one way, and so does the
    last. *)
Lemma no_byte_app c s t : no_byte c (s +:+ String.String c t) = false.
Proof. unfold no_byte. rewrite str_all_app. cbn. rewrite bool_decide_false by naive_solver. by rewrite andb_false_r. Qed.
Lemma no_byte_cons c x s : no_byte c (String.String x s) = true → c ≠ x ∧ no_byte c s = true.
Proof. unfold no_byte. cbn [str_all]. rewrite andb_true_iff, bool_decide_eq_true. naive_solver. Qed.
Lemma split_first c a b s t :
  no_byte c a = true → no_byte c b = true → a +:+ String.String c s = b +:+ String.String c t → a = b ∧ s = t.
Proof.
  revert b. induction a as [|x a IH]; intros [|y b] Ha Hb; rewrite ?str_app_nil_l, ?str_app_cons; intros He; injection He.
  - by intros ->.
  - by intros _ ->%symmetry; apply no_byte_cons in Hb as [? _].
  - by intros _ ->; apply no_byte_cons in Ha as [? _].
  - intros Hs ->. apply no_byte_cons in Ha as [_ Ha], Hb as [_ Hb]. by destruct (IH _ Ha Hb Hs) as [-> ->].
Qed.
Lemma split_last c a b s t :
  no_byte c s = true → no_byte c t = true → a +:+ String.String c s = b +:+ String.String c t → a = b ∧ s = t.
Proof.
  revert b. induction a as [|x a IH]; intros [|y b] Hs Ht; rewrite ?str_app_nil_l, ?str_app_cons; intros He; injection He.
  - by intros ->.
  - intros -> _. by rewrite no_byte_app in Hs.
  - intros <- _. by rewrite no_byte_app in Ht.
  - intros Hr ->. by destruct (IH _ Hs Ht Hr) as [-> ->].
Qed.

(** A colon of a name is before a slash. *)
Lemma colon_before_slash d p a b :
  no_byte ":" p = true → d +:+ String.String "/" p = a +:+ String.String ":" b → no_byte "/" b = false.
Proof.
  intros Hp. revert a. induction d as [|x d IH]; intros [|y a]; rewrite ?str_app_nil_l, ?str_app_cons; intros He; try discriminate He;
    injection He.
  - intros -> _. by rewrite no_byte_app in Hp.
  - intros <- _. apply no_byte_app.
  - intros Hr _. by eapply IH.
Qed.
Lemma name_colon n a b : lang NameRegexp n → n = a +:+ String.String ":" b → no_byte "/" b = false.
Proof.
  intros [(d & p & -> & Hd & Hp)|Hp]%lang_NameRegexp He; (apply path_bytes, (not_in_byte _ ":") in Hp; [|set_solver]).
  - by eapply colon_before_slash.
  - subst n. by rewrite no_byte_app in Hp.
Qed.

(** What follows the name. *)
Definition tag_part (t : option string) : string := match t with Some t => ":" +:+ t | None => "" end.
Definition digest_part (d : option string) : string := match d with Some d => "@" +:+ d | None => "" end.
Definition in_grammar (n : string) (t d : option string) : Prop :=
  lang NameRegexp n ∧ from_option (lang TagRegexp) True t ∧ from_option (lang DigestRegexp) True d.
Definition spelled (n : string) (t d : option string) : string := n +:+ tag_part t +:+ digest_part d.

Lemma spelled_name_tag n t d : in_grammar n t d → str_all (not_in ["@"]%char) (n +:+ tag_part t) = true.
Proof.
  intros (Hn & Ht & _). rewrite str_all_app, (name_bytes n Hn). destruct t as [t|]; [|done]. cbn [from_option] in Ht.
  apply tag_bytes in Ht. cbn [tag_part]. rewrite str_app_cons, str_app_nil_l. cbn [str_all].
  change (not_in ["@"]%char ":") with true. cbn [andb]. revert Ht. apply str_all_impl. intros c. unfold not_in. rewrite !bool_decide_eq_true. set_solver.
Qed.
(** A string is spelled in one way. *)
Lemma spelled_unique n t d n' t' d' :
  in_grammar n t d → in_grammar n' t' d' → spelled n t d = spelled n' t' d' → n = n' ∧ t = t' ∧ d = d'.
Proof.
  intros Hg Hg' He. unfold spelled in He. rewrite !str_app_assoc in He.
  pose proof (spelled_name_tag _ _ _ Hg) as Ha%(not_in_byte _ "@"); [|set_solver].
  pose proof (spelled_name_tag _ _ _ Hg') as Hb%(not_in_byte _ "@"); [|set_solver].
  assert (n +:+ tag_part t = n' +:+ tag_part t' ∧ d = d') as [Hnt ->].
  { destruct d as [d|], d' as [d'|]; cbn [digest_part] in He.
    - by destruct (split_first "@" _ _ d d' Ha Hb He) as [-> ->].
    - rewrite str_app_nil_r in He. rewrite <-He in Hb. change ("@" +:+ d) with (String.String "@" d) in Hb. by rewrite no_byte_app in Hb.
    - rewrite str_app_nil_r in He. rewrite He in Ha. change ("@" +:+ d') with (String.String "@" d') in Ha. by rewrite no_byte_app in Ha.
    - by rewrite !str_app_nil_r in He. }
  destruct Hg as (Hn & Ht & _), Hg' as (Hn' & Ht' & _). destruct t as [t|], t' as [t'|]; cbn [tag_part from_option] in *.
  - apply tag_bytes, (not_in_byte _ ":") in Ht, Ht'; [|set_solver..]. by destruct (split_last ":" n n' t t' Ht Ht' Hnt) as [-> ->].
  - rewrite str_app_nil_r in Hnt. apply tag_bytes, (not_in_byte _ "/") in Ht; [|set_solver].
    by rewrite (name_colon n' n t Hn') in Ht.
  - rewrite str_app_nil_r in Hnt. apply tag_bytes, (not_in_byte _ "/") in Ht'; [|set_solver].
    by rewrite (name_colon n n' t' Hn) in Ht'.
  - by rewrite !str_app_nil_r in Hnt.
Qed.

(** ** The groups of a match *)

Lemma reference_groups s c :
  parses ReferenceRegexp s [] c →
  ∃ n t d, s = spelled n t d ∧ in_grammar n t d ∧ group 1 c = n ∧ group 2 c = default "" t ∧ group 3 c = default "" d.
Proof.
  unfold ReferenceRegexp, Opt. intros Hp.
  inversion Hp as [| |? ? n rest ? c1 ? H1 H2| | | | |]; subst. inversion H1 as [| | | | | | |? ? ? ? c0 Hn]; subst.
  apply parses_plain in Hn as He; [|reflexivity]. subst c0. apply parses_lang in Hn.
  inversion H2 as [| |? ? st sd ? c2 ? Ht Hd| | | | |]; subst.
  assert (∃ t, st = tag_part t ∧ from_option (lang TagRegexp) True t ∧
    c2 = match t with Some t => [(2, t); (1, n)] | None => [(1, n)] end) as (t & -> & Htl & ->).
  { inversion Ht as [| | |? ? ? ? ? Ht'|? ? ? ? ? Ht'| | |]; subst; [|inversion Ht'; subst; by exists None].
    inversion Ht' as [| |? ? l t ? c0 ? Hl Htag| | | | |]; subst. inversion Hl as [|f a ? Ha| | | | | |]; subst.
    apply bool_decide_eq_true in Ha as ->. inversion Htag as [| | | | | | |? ? ? ? c3 Htag']; subst.
    apply parses_plain in Htag' as He; [|reflexivity]. subst c3. exists (Some t). split_and!; [done|by eapply parses_lang|done]. }
  assert (∃ d, sd = digest_part d ∧ from_option (lang DigestRegexp) True d ∧
    c = match d with Some d => (3, d) :: match t with Some t => [(2, t); (1, n)] | None => [(1, n)] end
                   | None => match t with Some t => [(2, t); (1, n)] | None => [(1, n)] end end) as (d & -> & Hdl & ->).
  { inversion Hd as [| | |? ? ? ? ? Hd'|? ? ? ? ? Hd'| | |]; subst; [|inversion Hd'; subst; by exists None].
    inversion Hd' as [| |? ? l d ? c0 ? Hl Hdig| | | | |]; subst. inversion Hl as [|f a ? Ha| | | | | |]; subst.
    apply bool_decide_eq_true in Ha as ->. inversion Hdig as [| | | | | | |? ? ? ? c3 Hdig']; subst.
    apply parses_plain in Hdig' as He; [|reflexivity]. subst c3. exists (Some d). split_and!; [done|by eapply parses_lang|done]. }
  exists n, t, d. split_and!; try done; by destruct t, d.
Qed.
Lemma spelled_lang n t d : in_grammar n t d → lang ReferenceRegexp (spelled n t d).
Proof.
  intros (Hn & Ht & Hd). unfold ReferenceRegexp. rewrite lang_Cat. exists n, (tag_part t +:+ digest_part d).
  split_and!; [done|by apply lang_Capture|]. rewrite lang_Cat. exists (tag_part t), (digest_part d). split_and!; [done|..]; rewrite lang_Opt.
  - destruct t as [t|]; [left|by right]. apply lang_Cat. exists ":", t. by rewrite lang_Literal, lang_Capture.
  - destruct d as [d|]; [left|by right]. apply lang_Cat. exists "@", d. by rewrite lang_Literal, lang_Capture.
Qed.

(** ** The domain of a name *)

(** The path does not begin with a domain. *)
Definition no_domain (p : string) : Prop := ¬ ∃ d q, p = d +:+ "/" +:+ q ∧ lang DomainRegexp d ∧ lang pathRegexp q.
Definition name_ok (r : repository) : Prop :=
  lang pathRegexp (path r) ∧ if decide (domain r = "") then no_domain (path r) else lang DomainRegexp (domain r).

Lemma name_ok_lang r : name_ok r → lang NameRegexp (Name r).
Proof.
  intros [Hp Hd]. apply lang_NameRegexp. unfold Name. case_decide; case_bool_decide; try done; [by right|left].
  by exists (domain r), (path r).
Qed.
Lemma Name_inj r r' : name_ok r → name_ok r' → Name r = Name r' → r = r'.
Proof.
  destruct r as [d p], r' as [d' p']. unfold name_ok, Name, no_domain. cbn [domain path]. intros [Hp Hd] [Hp' Hd'].
  destruct (decide (d = "")) as [->|Hn], (decide (d' = "")) as [->|Hn']; repeat case_bool_decide; try done; intros He.
  - by subst.
  - destruct Hd. by exists d', p'.
  - destruct Hd'. by exists d, p.
  - apply domain_bytes, (not_in_byte _ "/") in Hd, Hd'; [|set_solver..]. by destruct (split_first "/" d d' p p' Hd Hd' He) as [-> ->].
Qed.

(** The expression with the groups for the domain and the path finds the domain
    if there is one. *)
Lemma name_groups n : lang NameRegexp n →
  ∃ m, FindStringSubmatch anchoredNameRegexp n = Some m ∧
    let r := {| domain := group 1 m; path := group 2 m |} in name_ok r ∧ Name r = n.
Proof.
  intros Hn%lang_NameRegexp. unfold FindStringSubmatch, anchoredNameRegexp, Opt. cbn [run].
  match goal with |- context [match ?x with Some _ => _ | None => _ end] => destruct x as [m|] eqn:Hrun end.
  - exists m. split; [done|]. clear Hn.
    change (run (Cat (Capture 1 DomainRegexp) (Literal "/")) (run (Capture 2 pathRegexp) at_end) n [] = Some m) in Hrun.
    apply run_sound in Hrun as (s1 & s2 & c1 & -> & H1 & Hk). apply run_sound in Hk as (p & s3 & c2 & -> & H2 & Hk).
    unfold at_end in Hk. case_bool_decide; [|done]. injection Hk as <-. subst s3. rewrite str_app_nil_r.
    inversion H1 as [| |? ? d l ? c0 ? Hd Hl| | | | |]; subst. inversion Hl as [|f a ? Ha| | | | | |]; subst.
    apply bool_decide_eq_true in Ha as ->. inversion Hd as [| | | | | | |? ? ? ? c3 Hd']; subst.
    inversion H2 as [| | | | | | |? ? ? ? c4 Hp]; subst. apply parses_plain in Hd' as He; [|reflexivity]. subst c3.
    apply parses_plain in Hp as He; [|reflexivity]. subst c4. apply parses_lang in Hd', Hp.
    pose proof (domain_not_empty d Hd') as Hne. cbn. unfold name_ok, Name. cbn [domain path].
    rewrite decide_False, bool_decide_false by done. split; [done|]. by rewrite <-str_app_assoc.
  - assert (no_domain n) as Hno.
    { intros (d & p & -> & (c & c' & Hd) & (e & e' & Hp)). destruct (parses_captures _ _ _ _ Hd []) as [c1 Hd'].
      destruct (parses_captures _ _ _ _ Hp ((1, d) :: c1)) as [c2 Hp'].
      destruct (run_complete (R := captures) (Cat (Capture 1 DomainRegexp) (Literal "/")) (d +:+ "/") [] ((1, d) :: c1))
        with (k := run (Capture 2 pathRegexp) at_end) (s2 := p) as [x Hx].
      - apply (parses_Cat _ _ _ _ _ ((1, d) :: c1)); [by constructor|]. by apply parses_Class, bool_decide_eq_true.
      - rewrite <-(str_app_nil_r p). eapply run_complete; [by constructor|]. by eexists.
      - rewrite <-str_app_assoc in Hx. change (run (Cat (Capture 1 DomainRegexp) (Literal "/")) (run (Capture 2 pathRegexp) at_end) (d +:+ "/" +:+ p) [] = None) in Hrun.
        congruence. }
    destruct Hn as [(d & p & -> & Hd & Hp)|Hp]; [by destruct Hno; exists d, p|].
    change (∃ m, run (Capture 2 pathRegexp) at_end n [] = Some m ∧ let r := {| domain := group 1 m; path := group 2 m |} in name_ok r ∧ Name r = n).
    destruct (FindStringSubmatch_complete (Capture 2 pathRegexp) n) as [m Hm]; [by apply lang_Capture|].
    exists m. split; [exact Hm|]. apply FindStringSubmatch_sound in Hm. inversion Hm as [| | | | | | |? ? ? ? c4 Hp']; subst.
    apply parses_plain in Hp' as He; [|reflexivity]. by subst c4.
Qed.

(** ** Parsing *)

Section parse.
Context {GD : GoDigest} {GDL : GoDigestLaws} {Un : Unicode}.

Definition digest_ok (d : digest) : Prop := lang DigestRegexp d ∧ digest_Validate d = None.
Definition repository_ok (r : repository) : Prop := name_ok r ∧ String.length (Name r) ≤ NameTotalLengthMax.
(** The parts of a reference are in the grammar. *)
Definition well_formed (r : Reference) : Prop :=
  match r with
  | Repository r => repository_ok r
  | TaggedReference r t => repository_ok r ∧ lang TagRegexp t
  | CanonicalReference r d => repository_ok r ∧ digest_ok d
  | FullReference r t d => repository_ok r ∧ lang TagRegexp t ∧ digest_ok d
  | DigestReference _ => False
  end.

(** The reference of its parts. *)
Definition reference_of (r : repository) (t : option string) (d : option digest) : Reference :=
  match t, d with
  | None, None => Repository r
  | Some t, None => TaggedReference r t
  | None, Some d => CanonicalReference r d
  | Some t, Some d => FullReference r t d
  end.
Lemma String_reference_of r t d : String (reference_of r t d) = spelled (Name r) t d.
Proof. unfold spelled. destruct t, d; cbn [reference_of String tag_part digest_part]; by rewrite ?str_app_nil_r, ?str_app_nil_l, <-?str_app_assoc. Qed.
Lemma well_formed_parts r :
  well_formed r ↔ ∃ q t d, r = reference_of q t d ∧ repository_ok q ∧ from_option (lang TagRegexp) True t ∧ from_option digest_ok True d.
Proof.
  split.
  - destruct r as [q|q t|q d|q t d|d]; cbn; [| | | |done].
    + by exists q, None, None.
    + intros [? ?]. by exists q, (Some t), None.
    + intros [? ?]. by exists q, None, (Some d).
    + intros (? & ? & ?). by exists q, (Some t), (Some d).
  - intros (q & [t|] & [d|] & -> & ? & ? & ?); by cbn.
Qed.
Lemma parts_grammar q t d :
  repository_ok q → from_option (lang TagRegexp) True t → from_option digest_ok True d → in_grammar (Name q) t d.
Proof. intros [? _] ? Hd. split_and!; [by apply name_ok_lang|done|]. destruct d; [apply Hd|done]. Qed.

(** What [Parse] does with a string of the grammar. *)
Lemma Parse_spelled n t d : in_grammar n t d →
  ∃ q, name_ok q ∧ Name q = n ∧
    Parse (spelled n t d) =
      if decide (NameTotalLengthMax < String.length n) then Fail ErrNameTooLong
      else match d with
           | None => Ret (reference_of q t d)
           | Some x => match digest_Validate x with Some e => Fail (DigestError e) | None => Ret (reference_of q t d) end
           end.
Proof.
  intros Hg. destruct (FindStringSubmatch_complete _ _ (spelled_lang _ _ _ Hg)) as [c Hc].
  pose proof (FindStringSubmatch_sound _ _ _ Hc) as (n' & t' & d' & Hs & Hg' & H1 & H2 & H3)%reference_groups.
  destruct (spelled_unique _ _ _ _ _ _ Hg Hg' Hs) as (<- & <- & <-).
  destruct (name_groups n (proj1 Hg)) as (m & Hm & Hq & Hn). exists {| domain := group 1 m; path := group 2 m |}.
  split_and!; [done..|]. unfold Parse. rewrite Hc, H1, H2, H3. rewrite <-(decide_bool_decide (NameTotalLengthMax < String.length n)).
  case_decide; [done|]. rewrite Hm. unfold getBestReferenceType. rewrite Hn.
  assert (n ≠ "") as Hne by (eapply lang_not_nullable, Hg; reflexivity). rewrite (bool_decide_false (n = "")) by done.
  destruct Hg as (_ & Ht & Hd). destruct t as [t|], d as [x|]; cbn [from_option reference_of id] in *; unfold id in *;
    rewrite ?(bool_decide_false (t = "")) by (by apply tag_not_empty); rewrite ?(bool_decide_false (x = "")) by (by apply digest_not_empty);
    rewrite ?bool_decide_true by done; try done.
  - rewrite digest_Parse_spec. destruct (digest_Validate x); [done|]. by rewrite bool_decide_false by (by apply digest_not_empty).
  - rewrite digest_Parse_spec. destruct (digest_Validate x); [done|]. by rewrite bool_decide_false by (by apply digest_not_empty).
Qed.

Lemma parse_parts q t d :
  repository_ok q → from_option (lang TagRegexp) True t → from_option digest_ok True d →
  Parse (spelled (Name q) t d) = Ret (reference_of q t d).
Proof.
  intros Hq Ht Hd. destruct (Parse_spelled (Name q) t d) as (q' & Hq' & Hn & ->); [by apply parts_grammar|].
  apply Name_inj in Hn as ->; [|done|apply Hq]. rewrite decide_False by (destruct Hq; lia). destruct d as [x|]; [|done].
  cbn in Hd. by rewrite (proj2 Hd).
Qed.

Lemma Parse_Ret s r : Parse s = Ret r ↔ well_formed r ∧ String r = s.
Proof.
  split.
  - intros HP. destruct (FindStringSubmatch ReferenceRegexp s) as [c|] eqn:Hc; cycle 1.
    { unfold Parse in HP. rewrite Hc in HP. by repeat case_match. }
    apply FindStringSubmatch_sound, reference_groups in Hc as (n & t & d & -> & Hg & _).
    destruct (Parse_spelled n t d Hg) as (q & Hq & Hn & Hs). rewrite Hs in HP. case_decide as Hl; [done|].
    assert (r = reference_of q t d ∧ from_option (λ x, digest_Validate x = None) True d) as [-> Hv].
    { destruct d as [x|]; [|by injection HP as <-]. cbn. destruct (digest_Validate x) eqn:Hx; [done|].
      by injection HP as <-. }
    rewrite String_reference_of, Hn. split; [|done]. apply well_formed_parts. exists q, t, d. destruct Hg as (_ & Ht & Hd).
    split_and!; [done| |done|by destruct d]. split; [done|]. rewrite Hn. lia.
  - intros [(q & t & d & -> & Hq & Ht & Hd)%well_formed_parts <-]. rewrite String_reference_of.
    by apply parse_parts.
Qed.
(** C27: [Parse] returns exactly the references whose parts are in the grammar,
    whose names have at most 255 bytes and whose digests are valid, each for the
    string that it is printed as, and for no other string. *)
Theorem parse_iff s r : Parse s = Ret r ↔ well_formed r ∧ String r = s.
Proof. apply Parse_Ret. Qed.

(** [WithName] returns the repositories of the grammar. *)
Theorem with_name_iff n r : WithName n = Ret r ↔ ∃ q, r = Repository q ∧ repository_ok q ∧ Name q = n.
Proof.
  unfold WithName. split.
  - case_bool_decide as Hl; [done|]. destruct (FindStringSubmatch anchoredNameRegexp n) as [m|] eqn:Hm; [|done]. intros [= <-].
    assert (lang NameRegexp n) as Hn.
    { apply FindStringSubmatch_sound, parses_lang in Hm. revert Hm. unfold anchoredNameRegexp, NameRegexp. rewrite !lang_Cat.
      intros (s1 & s2 & -> & H1 & H2). exists s1, s2. split; [done|]. rewrite lang_Capture in H2. split; [|done].
      revert H1. rewrite !lang_Opt, !lang_Cat. intros [(d & l & -> & Hd & Hsl)| ->]; [left|by right].
      rewrite lang_Capture in Hd. by exists d, l. }
    destruct (name_groups n Hn) as (m' & Hm' & Hok & HN). rewrite Hm in Hm'. injection Hm' as <-.
    eexists. split; [reflexivity|]. split; [|done]. split; [done|]. rewrite HN. lia.
  - intros (q & -> & [Hq Hl] & <-). rewrite bool_decide_false by lia. destruct (name_groups _ (name_ok_lang q Hq)) as (m & -> & Hok & HN).
    do 2 f_equal. by apply Name_inj.
Qed.
(** The default tag is a tag: [TagNameOnly] does not panic. *)
Lemma TagNameOnly_spec r :
  TagNameOnly r = Ret (match r with Repository q => TaggedReference q defaultTag | r => r end).
Proof. by destruct r. Qed.

(** ** Names of the user interface *)

Lemma cut_Some c s u v : cut c s = Some (u, v) ↔ s = u +:+ String.String c v ∧ no_byte c u = true.
Proof.
  revert u. induction s as [|a s IH]; intros u; cbn [cut].
  - split; [done|]. intros [Hs _]. by destruct u.
  - case_bool_decide as Ha.
    + subst a. split; [intros [= <- <-]; done|]. intros [Hs Hu]. destruct u as [|b u]; [rewrite str_app_nil_l in Hs; by injection Hs as ->|].
      rewrite str_app_cons in Hs. injection Hs as <- _. by apply no_byte_cons in Hu as [? _].
    + destruct (cut c s) as [[u' v']|] eqn:Hc.
      * split.
        -- intros [= <- <-]. destruct (proj1 (IH u') eq_refl) as [-> Hu]. split; [by rewrite str_app_cons|].
           unfold no_byte in *. cbn. by rewrite bool_decide_true.
        -- intros [Hs Hu]. destruct u as [|b u]; [rewrite str_app_nil_l in Hs; by injection Hs as ->|].
           rewrite str_app_cons in Hs. injection Hs as <- Hs. apply no_byte_cons in Hu as [_ Hu].
           by pose proof (proj2 (IH u) (conj Hs Hu)) as [= -> ->].
      * split; [done|]. intros [Hs Hu]. destruct u as [|b u]; [rewrite str_app_nil_l in Hs; by injection Hs as ->|].
        rewrite str_app_cons in Hs. injection Hs as <- Hs. apply no_byte_cons in Hu as [_ Hu].
        by pose proof (proj2 (IH u) (conj Hs Hu)).
Qed.
Lemma cut_None c s : cut c s = None ↔ no_byte c s = true.
Proof.
  destruct (cut c s) as [[u v]|] eqn:Hc.
  - apply cut_Some in Hc as [-> _]. by rewrite no_byte_app.
  - split; [intros _|done]. induction s as [|a s IH]; [done|]. cbn [cut] in Hc. unfold no_byte in *. cbn [str_all].
    case_bool_decide; [done|]. rewrite bool_decide_true by done. apply IH. by repeat case_match.
Qed.

(** A domain that [splitDockerDomain] returns is one that it finds again. *)
Definition docker_domain (d : string) : Prop :=
  no_byte slash d = true ∧ d ≠ legacyDefaultDomain ∧ (no_byte "." d = false ∨ no_byte ":" d = false ∨ d = "localhost").
Lemma splitDockerDomain_spec s d q :
  splitDockerDomain s = (d, q) → docker_domain d ∧ (d = defaultDomain → no_byte slash q = false) ∧
  splitDockerDomain (d +:+ "/" +:+ q) = (d, q).
Proof.
  intros Hs. assert (docker_domain d ∧ (d = defaultDomain → no_byte slash q = false)) as [Hd Hq].
  { revert Hs. unfold splitDockerDomain. assert (docker_domain defaultDomain) as Hdef by (split_and!; [done..|by left]).
    assert (∀ d0 q0, docker_domain d0 ∨ d0 = legacyDefaultDomain →
      (let d0 := if bool_decide (d0 = legacyDefaultDomain) then defaultDomain else d0 in
       if bool_decide (d0 = defaultDomain) && no_byte slash q0 then (d0, officialRepoName +:+ "/" +:+ q0) else (d0, q0)) = (d, q) →
      docker_domain d ∧ (d = defaultDomain → no_byte slash q = false)) as Hgen.
    { intros d0 q0 Hd0. set (d1 := if bool_decide (d0 = legacyDefaultDomain) then defaultDomain else d0).
      assert (docker_domain d1) as Hd1 by (unfold d1; case_bool_decide; [done|by destruct Hd0]). cbn zeta.
      destruct (bool_decide (d1 = defaultDomain) && no_byte slash q0) eqn:Hb; intros [= <- <-]; (split; [done|]).
      - intros _. apply (no_byte_app slash officialRepoName).
      - intros Hd'. rewrite Hd', bool_decide_true in Hb by done. done. }
    destruct (cut slash s) as [[u v]|] eqn:Hc; [|by apply Hgen; left].
    destruct (negb _ && negb _) eqn:Hb; [by apply Hgen; left|]. apply Hgen. apply cut_Some in Hc as [_ Hu].
    destruct (decide (u = legacyDefaultDomain)); [by right|left]. split_and!; [done..|]. apply andb_false_iff in Hb as [Hb|Hb].
    - apply negb_false_iff, orb_true_iff in Hb as [Hb|Hb]; apply negb_true_iff in Hb; auto.
    - apply negb_false_iff, bool_decide_eq_true in Hb. auto. }
  split_and!; [done..|]. destruct Hd as (Hns & Hl & Hv). unfold splitDockerDomain.
  rewrite (proj2 (cut_Some slash (d +:+ "/" +:+ q) d q)) by done.
  replace (negb (negb (no_byte "." d) || negb (no_byte ":" d)) && negb (bool_decide (d = "localhost"))) with false; cycle 1.
  { symmetry. destruct Hv as [-> |[-> | ->]]; [done|by rewrite orb_true_r|]. by rewrite bool_decide_true, andb_false_r. }
  rewrite (bool_decide_false (d = legacyDefaultDomain)) by done. case_bool_decide as He; [|done]. by rewrite Hq.
Qed.

Lemma identifier_no_slash s : MatchString IdentifierRegexp s = true → no_byte slash s = true.
Proof. intros Hs%MatchString_spec. revert Hs. apply lang_withinb. vm_compute. reflexivity. Qed.
(** What is parsed depends on the domain and the rest only. *)
Lemma normalized_same s s' r :
  ParseNormalizedNamed s = Ret r → splitDockerDomain s' = splitDockerDomain s → MatchString IdentifierRegexp s' = false →
  ParseNormalizedNamed s' = Ret r.
Proof. unfold ParseNormalizedNamed. intros H -> ->. by destruct (MatchString IdentifierRegexp s). Qed.
Lemma normalized_parts s r :
  ParseNormalizedNamed s = Ret r →
  ∃ d q, splitDockerDomain s = (d, q) ∧ well_formed r ∧ String r = d +:+ "/" +:+ q.
Proof.
  unfold ParseNormalizedNamed. destruct (MatchString IdentifierRegexp s); [done|]. destruct (splitDockerDomain s) as [d q].
  destruct (negb _); [done|]. destruct (Parse (d +:+ "/" +:+ q)) as [r'|e|] eqn:HP; [|done..]. destruct (Named r'); [|done].
  intros [= ->]. apply Parse_Ret in HP as [? ?]. by exists d, q.
Qed.

(** C29: A name that was normalized is canonical: it is printed with its domain,
    and parsed from what it is printed as, also by [ParseNamed], which accepts
    canonical names only. *)
Theorem normalized_canonical s r :
  ParseNormalizedNamed s = Ret r → ParseNormalizedNamed (String r) = Ret r ∧ ParseNamed (String r) = Ret r.
Proof.
  intros HP. destruct (normalized_parts s r HP) as (d & q & Hs & _ & HS). destruct (splitDockerDomain_spec s d q Hs) as (_ & _ & Hs').
  assert (ParseNormalizedNamed (String r) = Ret r) as Hr.
  { apply (normalized_same s); [done|by rewrite HS, Hs'|]. destruct (MatchString _ _) eqn:Hm; [|done].
    apply identifier_no_slash in Hm. rewrite HS in Hm. change ("/" +:+ q) with (String.String slash q) in Hm. by rewrite no_byte_app in Hm. }
  split; [done|]. unfold ParseNamed. by rewrite Hr, bool_decide_true.
Qed.

(** A component that is not taken for a domain. *)
Definition no_host (u : string) : Prop := no_byte "." u = true ∧ u ≠ "localhost".
(** The familiar form of the name says what the name is. *)
Definition familiar_ok (r : Reference) : Prop :=
  match Named r with
  | None => False
  | Some q =>
      domain q = defaultDomain →
      match Split slash (path q) with
      | [u; v] => if decide (u = officialRepoName) then MatchString IdentifierRegexp (FamiliarString r) = false else no_host u
      | u :: _ => no_host u
      | [] => False
      end
  end.
Lemma suffix_no_slash t d :
  from_option (lang TagRegexp) True t → from_option digest_ok True d → no_byte slash (tag_part t +:+ digest_part d) = true.
Proof.
  intros Ht Hd. unfold no_byte. rewrite str_all_app. apply andb_true_iff. split.
  - destruct t as [t|]; [|done]. by apply tag_bytes, (not_in_byte _ "/") in Ht; [|set_solver].
  - destruct d as [d|]; [|done]. destruct Hd as [Hd _]. change (no_byte slash d = true). revert Hd. apply lang_withinb. vm_compute. reflexivity.
Qed.
Lemma splitDockerDomain_path u v : no_host u → no_byte slash u = true → no_byte ":" u = true →
  splitDockerDomain (u +:+ "/" +:+ v) = (defaultDomain, u +:+ "/" +:+ v).
Proof.
  intros [Hdot Hl] Hs Hc. unfold splitDockerDomain. rewrite (proj2 (cut_Some slash (u +:+ "/" +:+ v) u v)) by done.
  rewrite Hdot, Hc, bool_decide_false by done. cbn [negb orb andb]. change (bool_decide (defaultDomain = legacyDefaultDomain)) with false.
  change ("/" +:+ v) with (String.String slash v). by rewrite no_byte_app, andb_false_r.
Qed.
Lemma splitDockerDomain_official v : no_byte slash v = true → splitDockerDomain v = (defaultDomain, officialRepoName +:+ "/" +:+ v).
Proof. intros Hv. unfold splitDockerDomain. rewrite (proj2 (cut_None slash v)) by done. by rewrite Hv. Qed.

Lemma Familiar_reference_of q t d : Familiar (reference_of q t d) = reference_of (familiarizeName q) t d.
Proof. by destruct t, d. Qed.
Lemma Named_reference_of q t d : Named (reference_of q t d) = Some q.
Proof. by destruct t, d. Qed.
(** A path with a slash, by its first component. *)
Lemma Split_cut p : no_byte slash p = false → ∃ u v, p = u +:+ "/" +:+ v ∧ no_byte slash u = true ∧ Split slash p = u :: Split slash v.
Proof.
  intros Hp. destruct (cut slash p) as [[u v]|] eqn:Hc; [|apply cut_None in Hc; congruence].
  apply cut_Some in Hc as [-> Hu]. exists u, v. split_and!; [done..|]. by apply Split_app.
Qed.

(** The familiar form of a name of the default domain is split into the domain
    and the rest of the name. *)
Lemma familiar_split r q t d :
  r = reference_of q t d → repository_ok q → from_option (lang TagRegexp) True t → from_option digest_ok True d →
  domain q = defaultDomain → no_byte slash (path q +:+ tag_part t +:+ digest_part d) = false → familiar_ok r →
  splitDockerDomain (FamiliarString r) = (defaultDomain, path q +:+ tag_part t +:+ digest_part d) ∧
  MatchString IdentifierRegexp (FamiliarString r) = false.
Proof.
  intros -> [[Hp _] _] Ht Hd Hdom Hslash Hok. pose proof (suffix_no_slash t d Ht Hd) as Hsuf. set (suffix := tag_part t +:+ digest_part d) in *.
  assert (no_byte slash (path q) = false) as Hps.
  { unfold no_byte in Hslash, Hsuf |- *. rewrite str_all_app, Hsuf, andb_true_r in Hslash. done. }
  destruct (Split_cut _ Hps) as (u & v & Hpath & Hu & Hsplit). unfold familiar_ok in Hok. rewrite Named_reference_of, Hsplit in Hok.
  specialize (Hok Hdom). unfold FamiliarString. unfold FamiliarString in Hok. rewrite Familiar_reference_of, String_reference_of in Hok |- *.
  unfold familiarizeName, Name, spelled in Hok |- *. rewrite Hdom in Hok |- *. rewrite Hsplit in Hok |- *.
  rewrite (bool_decide_true (defaultDomain = _)) in Hok |- * by done. cbn [domain path] in Hok |- *.
  rewrite (bool_decide_true (_ = "")) in Hok |- * by done. fold suffix in Hok |- *.
  assert (no_byte ":" u = true) as Hcolon.
  { apply path_bytes, (not_in_byte _ ":") in Hp; [|set_solver]. rewrite Hpath in Hp. unfold no_byte in Hp |- *.
    rewrite str_all_app in Hp. by apply andb_true_iff in Hp as [? _]. }
  assert (no_host u → splitDockerDomain (path q +:+ suffix) = (defaultDomain, path q +:+ suffix) ∧
    MatchString IdentifierRegexp (path q +:+ suffix) = false) as Hplain.
  { intros Hh. split.
    - rewrite Hpath, <-!str_app_assoc. by apply splitDockerDomain_path.
    - apply not_true_is_false. intros Hm. apply identifier_no_slash in Hm. congruence. }
  pose proof (Split_ne_nil slash v) as Hv. destruct (Split slash v) as [|v1 [|v2 vs]] eqn:Hsv; [done| |by apply Hplain].
  case_decide as Hlib; [|by rewrite bool_decide_false by done; apply Hplain]. rewrite bool_decide_true by done. subst u.
  assert (v1 = v) as -> by (rewrite <-(Join_Split slash v), Hsv; by rewrite Join_one).
  split; [|by rewrite bool_decide_true in Hok by done]. rewrite splitDockerDomain_official.
  - by rewrite Hpath, <-!str_app_assoc.
  - unfold no_byte in *. rewrite str_all_app, Hsuf, andb_true_r. destruct (str_all _ v) eqn:Hvs; [done|].
    destruct (Split_cut v Hvs) as (x & y & -> & _ & Hxy). rewrite Hsv in Hxy. injection Hxy as _ Hy.
    by destruct (Split_ne_nil slash y).
Qed.

(** C28: The familiar form of a normalized name, as the user interface shows it,
    is parsed as the name, unless the first component of the name in the default
    domain looks like a host, or an official image is named by 64 hexadecimal
    digits. *)
Theorem familiar_roundtrip s r :
  ParseNormalizedNamed s = Ret r → familiar_ok r → ParseNormalizedNamed (FamiliarString r) = Ret r.
Proof.
  intros HP Hok. destruct (normalized_parts s r HP) as (d & rest & Hs & Hwf & HS).
  destruct (splitDockerDomain_spec s d rest Hs) as ((Hns & _) & Hrest & Hs').
  pose proof Hwf as (q & t & x & Hr & Hq & Ht & Hx)%well_formed_parts.
  assert (String r = spelled (Name q) t x) as HS' by (by rewrite Hr, String_reference_of).
  destruct (decide (domain q = defaultDomain)) as [Hdom|Hdom].
  - unfold spelled, Name in HS'. rewrite Hdom in HS'. rewrite HS in HS'. cbn [bool_decide] in HS'.
    rewrite bool_decide_false in HS' by done. rewrite <-!str_app_assoc in HS'.
    apply (split_first slash d defaultDomain) in HS' as [-> ->]; [|done..].
    destruct (familiar_split r q t x Hr Hq Ht Hx Hdom (Hrest eq_refl) Hok) as [Hsplit Hid].
    apply (normalized_same s); [done|by rewrite Hsplit, Hs|done].
  - assert (FamiliarString r = String r) as ->.
    { unfold FamiliarString. rewrite Hr, Familiar_reference_of. unfold familiarizeName. by rewrite bool_decide_false. }
    apply (normalized_same s); [done|by rewrite HS, Hs'|]. destruct (MatchString _ _) eqn:Hm; [|done].
    apply identifier_no_slash in Hm. rewrite HS in Hm. change ("/" +:+ rest) with (String.String slash rest) in Hm. by rewrite no_byte_app in Hm.
Qed.

End parse.

End ReferenceProps.
