(* ===== verification/Driver.v ===== *)
(** * Storage drivers

    Models registry/storage/driver/storagedriver.go (the driver interface, the
    path syntax, the error values), registry/storage/driver/base/base.go (the
    checks that wrap every driver) and the sequential walk of
    registry/storage/driver/walk.go. *)

From S2P Require Import Prelude GoStd Digest.

(** The contents of files. *)
Abbreviation bytes := string (only parsing).

(** ** Error values

    The errors of the driver interface, of the walk, of the package
    [distribution] (errors.go, blobs.go) and those that wrap another one. *)

Inductive error :=
  | ErrUnsupportedMethod (DriverName : string)
  | PathNotFoundError (Path DriverName : string)
  | InvalidPathError (Path DriverName : string)
  | InvalidOffsetError (Path : string) (Offset : Z) (DriverName : string)
  | DriverError (DriverName : string) (Enclosed : error)
  | PartialTransferError (SourcePath DestinationPath : string) (Cause : error)
  | ErrSkipDir
  | ErrDigest (e : digest_err)
  | ErrUnsupported
  | ErrBlobUnknown
  | ErrBlobUploadUnknown
  | ErrBlobInvalidLength
  | ErrBlobDigestUnsupported
  | ErrBlobInvalidDigest (Digest : digest) (Reason : error)
  | ErrTagUnknown (Tag : string)
  | ErrRepositoryUnknown (Name : string)
  | ErrManifestUnknownRevision (Name : string) (Revision : digest)
  | ErrManifestBlobUnknown (Digest : digest)
  | ErrManifestUnverified
  | ErrManifestNotFound
  | ErrManifestVerification (errs : list error)
  | MultiError (errs : list error)
  | ErrWrap (msg : string) (err : error)
  | errors_New (msg : string).

(** The comparison [err == sentinel] with a variable made by [errors.New]. *)
Definition err_eq (err sentinel : error) : bool :=
  match sentinel, err with
  | errors_New m, errors_New m' => bool_decide (m = m')
  | ErrDigest e, ErrDigest e' => bool_decide (e = e')
  | ErrSkipDir, ErrSkipDir | ErrUnsupported, ErrUnsupported | ErrBlobUnknown, ErrBlobUnknown
  | ErrBlobUploadUnknown, ErrBlobUploadUnknown | ErrBlobInvalidLength, ErrBlobInvalidLength
  | ErrBlobDigestUnsupported, ErrBlobDigestUnsupported => true
  | _, _ => false
  end.

(** ** Paths *)

(** The bytes of a path component. *)
Definition path_char (c : ascii) : bool :=
  is_digit c || is_lower c || is_upper c ||
  bool_decide (c = "."%char) || bool_decide (c = "_"%char) || bool_decide (c = "-"%char).

(** [PathRegexp.MatchString]: a slash and one or more path bytes, repeated. *)
Definition PathRegexp_MatchString (s : string) : bool :=
  match s with
  | "" => false
  | String c s' =>
      bool_decide (c = slash) &&
      forallb (λ w, bool_decide (w ≠ "") && str_all path_char w) (Split slash s')
  end.

Lemma path_char_not_slash c : path_char c = true → bool_decide (c ≠ slash) = true.
Proof. intros Hc. apply bool_decide_eq_true_2. by intros ->. Qed.

(** ** The driver interface *)

(** The fields of a [FileInfo]; times are nanoseconds. *)
Record FileInfo := {
  fi_Path : string;
  fi_Size : Z;
  fi_ModTime : Z;
  fi_IsDir : bool;
}.

(** [StorageDriver] on a state [St].  A reader and a writer are objects of the
    driver: a reader is read to its end by [rd_ReadAll], and a writer is a
    [FileWriter].  The walks are functions over this interface. *)
Class StorageDriver (St : Type) := {
  drv_Name : string;
  drv_GetContent : string → GoM St error bytes;
  drv_PutContent : string → bytes → GoM St error unit;
  drv_reader : Type;
  drv_Reader : string → Z → GoM St error drv_reader;
  rd_ReadAll : drv_reader → GoM St error bytes;
  drv_writer : Type;
  drv_Writer : string → bool → GoM St error drv_writer;
  wr_Write : drv_writer → bytes → GoM St error Z;
  wr_Size : drv_writer → GoM St error Z;
  wr_Close : drv_writer → GoM St error unit;
  wr_Cancel : drv_writer → GoM St error unit;
  wr_Commit : drv_writer → GoM St error unit;
  drv_Stat : string → GoM St error FileInfo;
  drv_List : string → GoM St error (list string);
  drv_Move : string → string → GoM St error unit;
  drv_Delete : string → GoM St error unit;
  drv_DeleteFiles : list string → GoM St error (Z * option error);
  drv_URLFor : string → GoM St error string;
}.

(** ** The base driver *)

Module Base.
Section base.
Context {St : Type} (D : StorageDriver St).

Definition setDriverName (e : error) : error :=
  match e with
  | ErrUnsupportedMethod _ => ErrUnsupportedMethod drv_Name
  | PathNotFoundError p _ => PathNotFoundError p drv_Name
  | InvalidPathError p _ => InvalidPathError p drv_Name
  | InvalidOffsetError p o _ => InvalidOffsetError p o drv_Name
  | _ => DriverError drv_Name e
  end.

Definition GetContent (path : string) : GoM St error bytes :=
  if negb (PathRegexp_MatchString path) then fail (InvalidPathError path drv_Name)
  else wrap_err setDriverName (drv_GetContent path).
Definition PutContent (path : string) (content : bytes) : GoM St error unit :=
  if negb (PathRegexp_MatchString path) then fail (InvalidPathError path drv_Name)
  else wrap_err setDriverName (drv_PutContent path content).
Definition Reader (path : string) (offset : Z) : GoM St error drv_reader :=
  if bool_decide (offset < 0)%Z then fail (InvalidOffsetError path offset drv_Name)
  else if negb (PathRegexp_MatchString path) then fail (InvalidPathError path drv_Name)
  else wrap_err setDriverName (drv_Reader path offset).
Definition Writer (path : string) (append : bool) : GoM St error drv_writer :=
  if negb (PathRegexp_MatchString path) then fail (InvalidPathError path drv_Name)
  else wrap_err setDriverName (drv_Writer path append).
Definition Stat (path : string) : GoM St error FileInfo :=
  if negb (PathRegexp_MatchString path) && negb (bool_decide (path = "/"))
  then fail (InvalidPathError path drv_Name)
  else wrap_err setDriverName (drv_Stat path).
Definition List (path : string) : GoM St error (list string) :=
  if negb (PathRegexp_MatchString path) && negb (bool_decide (path = "/"))
  then fail (InvalidPathError path drv_Name)
  else wrap_err setDriverName (drv_List path).
Definition Move (sourcePath destPath : string) : GoM St error unit :=
  if negb (PathRegexp_MatchString sourcePath) then fail (InvalidPathError sourcePath drv_Name)
  else if negb (PathRegexp_MatchString destPath) then fail (InvalidPathError destPath drv_Name)
  else wrap_err setDriverName (drv_Move sourcePath destPath).
Definition Delete (path : string) : GoM St error unit :=
  if negb (PathRegexp_MatchString path) then fail (InvalidPathError path drv_Name)
  else wrap_err setDriverName (drv_Delete path).
Definition URLFor (path : string) : GoM St error string :=
  if negb (PathRegexp_MatchString path) then fail (InvalidPathError path drv_Name)
  else wrap_err setDriverName (drv_URLFor path).

(** The embedding struct: the methods above over those of the driver. *)
Definition Base : StorageDriver St := {|
  drv_Name := drv_Name;
  drv_GetContent := GetContent;
  drv_PutContent := PutContent;
  drv_Reader := Reader;
  rd_ReadAll := rd_ReadAll;
  drv_Writer := Writer;
  wr_Write := wr_Write;
  wr_Size := wr_Size;
  wr_Close := wr_Close;
  wr_Cancel := wr_Cancel;
  wr_Commit := wr_Commit;
  drv_Stat := Stat;
  drv_List := List;
  drv_Move := Move;
  drv_Delete := Delete;
  drv_DeleteFiles := drv_DeleteFiles;
  drv_URLFor := URLFor;
|}.
End base.
End Base.

(** ** The sequential walk *)

Section walk.
Context {St : Type} (D : StorageDriver St) {T : Type}.

(** [WalkFallback]: the callback works on the driver's state and on a state of
    its own.  [fuel] bounds the depth of the traversal. *)
Fixpoint WalkFallback (fuel : nat) (from : string) (f : FileInfo → GoM (St * T) error unit) :
    GoM (St * T) error unit :=
  match fuel with
  | 0 => panic
  | S fuel =>
      children ← on_fst (drv_List from);
      (fix loop (children : list string) : GoM (St * T) error unit :=
        match children with
        | [] => mret tt
        | child :: children =>
            st ← attempt (on_fst (drv_Stat child));
            match st with
            | inl (PathNotFoundError _ _) => loop children
            | inl err => fail err
            | inr fileInfo =>
                r ← attempt (f fileInfo);
                match r with
                | inr _ =>
                    if fi_IsDir fileInfo then _ ← WalkFallback fuel child f; loop children
                    else loop children
                | inl ErrSkipDir => if fi_IsDir fileInfo then loop children else mret tt
                | inl err => fail err
                end
            end
        end) (sort_Strings children)
  end.

End walk.
