(* ===== verification/Regulator.v ===== *)
(** * The regulator of a storage driver

    Models registry/storage/driver/base/regulator.go: at most a given number of
    calls of the driver run at the same time, the others wait on a condition
    variable.

    A call goes through the states of [regulator]: it is about to enter, waits,
    has been signalled but does not have the lock yet, or is in the driver.  The
    sections under the lock are the steps: one pass through the loop of [enter],
    up to [Wait] or to the call, and [exit].  The waiting calls are signalled in
    the order in which they came, as the package sync does; a call that enters
    may overtake one that has been signalled. *)

From S2P Require Import Prelude GoStd Digest GoText.

Module Regulator.
Import GoText.

(** ** The limit *)

(** The values of a YAML parameter, by their types. *)
Inductive parameter :=
  | String_ (v : string)
  | Uint64_ (v : Z)
  | Int_ (v : Z)
  | Uint_ (v : Z)
  | Nil_
  | Other_.
(** The value with an error, if any. *)
Definition GetLimitFromParameter (param : parameter) (min def : Z) : Z * option string :=
  let at_least limit := if (limit <? min)%Z then (min, None) else (limit, None) in
  match param with
  | String_ v =>
      match ParseUint v with
      | (limit, Some _) => (limit, Some "parameter must be an integer")
      | (limit, None) => at_least limit
      end
  | Uint64_ v => at_least v
  | Int_ val => at_least (if (0 <? val)%Z then val else min)
  | Uint_ v => at_least v
  | Nil_ => at_least def
  | Other_ => (0%Z, Some "invalid value")
  end.

(** ** Calls *)

(** The operations of a driver.  The regulator has methods of its own for all but
    four of them, which it inherits from the driver that it embeds. *)
Inductive operation :=
  | Name | GetContent | PutContent | Reader | Writer | Stat | List | Move | Delete | URLFor
  | Walk | WalkParallel | TransferTo | DeleteFiles.
Definition regulated (op : operation) : bool :=
  match op with Walk | WalkParallel | TransferTo | DeleteFiles => false | _ => true end.

Record regulator := {
  available : Z;
  entering : list nat;
  waiting : list nat;
  woken : list nat;
  calling : list nat;
  (** The calls of inherited methods. *)
  direct : list nat;
}.
Definition NewRegulator (limit : Z) : regulator :=
  {| available := limit; entering := []; waiting := []; woken := []; calling := []; direct := [] |}.

(** One pass of [enter] of the call [t]. *)
Definition enter (t : nat) (r : regulator) : regulator :=
  if (available r =? 0)%Z
  then {| available := available r; entering := entering r; waiting := waiting r ++ [t]; woken := woken r; calling := calling r; direct := direct r |}
  else {| available := available r - 1; entering := entering r; waiting := waiting r; woken := woken r; calling := t :: calling r; direct := direct r |}.
Definition Signal (r : regulator) : regulator :=
  match waiting r with
  | [] => r
  | t :: ts =>
      {| available := available r; entering := entering r; waiting := ts; woken := woken r ++ [t]; calling := calling r; direct := direct r |}
  end.
Definition exit (r : regulator) : regulator :=
  let r := Signal r in
  {| available := available r + 1; entering := entering r; waiting := waiting r; woken := woken r; calling := calling r; direct := direct r |}.

Definition set_entering (ts : list nat) (r : regulator) : regulator :=
  {| available := available r; entering := ts; waiting := waiting r; woken := woken r; calling := calling r; direct := direct r |}.
Definition set_woken (ts : list nat) (r : regulator) : regulator :=
  {| available := available r; entering := entering r; waiting := waiting r; woken := ts; calling := calling r; direct := direct r |}.
Definition set_calling (ts : list nat) (r : regulator) : regulator :=
  {| available := available r; entering := entering r; waiting := waiting r; woken := woken r; calling := ts; direct := direct r |}.
Definition set_direct (ts : list nat) (r : regulator) : regulator :=
  {| available := available r; entering := entering r; waiting := waiting r; woken := woken r; calling := calling r; direct := ts |}.

Definition calls (r : regulator) : list nat := entering r ++ waiting r ++ woken r ++ calling r ++ direct r.
(** The calls that are in the driver. *)
Definition in_driver (r : regulator) : list nat := calling r ++ direct r.

(** A call of an operation is about to enter, or in the driver at once. *)
Definition call (t : nat) (op : operation) (r : regulator) : regulator :=
  if regulated op then set_entering (t :: entering r) r else set_direct (t :: direct r) r.

(** A new call, a call that takes the lock for the first time or after it was
    signalled, and a call that returns from the driver. *)
Inductive step : regulator → regulator → Prop :=
  | step_call t op r : t ∉ calls r → step r (call t op r)
  | step_enter t l1 l2 r : entering r = l1 ++ t :: l2 → step r (enter t (set_entering (l1 ++ l2) r))
  | step_retry t l1 l2 r : woken r = l1 ++ t :: l2 → step r (enter t (set_woken (l1 ++ l2) r))
  | step_exit t l1 l2 r : calling r = l1 ++ t :: l2 → step r (exit (set_calling (l1 ++ l2) r))
  | step_return t l1 l2 r : direct r = l1 ++ t :: l2 → step r (set_direct (l1 ++ l2) r).
Definition reachable (limit : Z) : regulator → Prop := rtc step (NewRegulator limit).

(** ** Safety and progress *)

(** The slots are free or taken; and while calls wait, each free slot has a call
    that was signalled for it. *)
Record inv (limit : Z) (r : regulator) : Prop := {
  inv_slots : (available r + Z.of_nat (length (calling r)) = limit)%Z;
  inv_nonneg : (0 ≤ available r)%Z;
  inv_signals : waiting r ≠ [] → (available r ≤ Z.of_nat (length (woken r)))%Z;
}.

Lemma regulator_step limit r r' : inv limit r → step r r' → inv limit r'.
Proof.
  intros [Hs Hn Hw] Hst. destruct Hst as [t op r _|t l1 l2 r He|t l1 l2 r He|t l1 l2 r He|t l1 l2 r He].
  - unfold call. destruct (regulated op); by split.
  - unfold enter. cbn. case (Z.eqb_spec (available r) 0) as [H0|H0]; split; cbn; try lia.
    intros Hne. specialize (Hw Hne). lia.
  - unfold enter. rewrite He, length_app in Hw. cbn in Hw |- *. case (Z.eqb_spec (available r) 0) as [H0|H0]; split; cbn; try lia.
    intros Hne. specialize (Hw Hne). rewrite length_app. lia.
  - rewrite He, length_app in Hs. cbn in Hs. unfold exit, Signal. cbn. destruct (waiting r) as [|t' ts] eqn:Hwr; split; cbn; rewrite ?length_app; cbn; try lia; try done.
    intros _. specialize (Hw ltac:(done)). lia.
  - by split.
Qed.
Lemma regulator_reachable limit r : (0 ≤ limit)%Z → reachable limit r → inv limit r.
Proof.
  intros Hl. apply rtc_invariant; [apply regulator_step|]. split; cbn; lia || done.
Qed.

(** A call is in one place only. *)
Lemma NoDup_remove_mid {A} (l1 l2 : list A) x : NoDup (l1 ++ x :: l2) → NoDup (l1 ++ l2).
Proof. intros H. assert (l1 ++ x :: l2 ≡ₚ x :: l1 ++ l2) as Hp by solve_Permutation. rewrite Hp in H. by apply NoDup_cons in H as [_ ?]. Qed.
Lemma step_nodup r r' : NoDup (calls r) → step r r' → NoDup (calls r').
Proof.
  unfold calls. intros Hnd Hst. destruct Hst as [t op r Ht|t l1 l2 r He|t l1 l2 r He|t l1 l2 r He|t l1 l2 r He].
  - assert (NoDup (t :: calls r)) as H by (by constructor). unfold call. destruct (regulated op); cbn; [done|].
    eapply NoDup_Permutation_proper; [|exact H]. unfold calls. solve_Permutation.
  - rewrite He in Hnd. unfold enter. destruct (_ =? _)%Z; cbn; (eapply NoDup_Permutation_proper; [|exact Hnd]); solve_Permutation.
  - rewrite He in Hnd. unfold enter. destruct (_ =? _)%Z; cbn; (eapply NoDup_Permutation_proper; [|exact Hnd]); solve_Permutation.
  - rewrite He in Hnd. assert (NoDup (entering r ++ waiting r ++ woken r ++ (l1 ++ l2) ++ direct r)) as Hnd'.
    { assert (NoDup ((entering r ++ waiting r ++ woken r ++ l1) ++ t :: l2 ++ direct r)) as H by (eapply NoDup_Permutation_proper; [|exact Hnd]; solve_Permutation).
      apply NoDup_remove_mid in H. eapply NoDup_Permutation_proper; [|exact H]. solve_Permutation. }
    unfold exit, Signal. cbn. destruct (waiting r) as [|t' ts] eqn:Hw; cbn; [by rewrite Hw|].
    eapply NoDup_Permutation_proper; [|exact Hnd']. solve_Permutation.
  - rewrite He in Hnd. cbn. rewrite !app_assoc in Hnd |- *. by eapply NoDup_remove_mid, Hnd.
Qed.
Lemma reachable_nodup limit r : reachable limit r → NoDup (calls r).
Proof. apply (rtc_invariant step (λ r, NoDup (calls r))); [apply step_nodup|constructor]. Qed.

(** C39: However the calls of a regulated driver interleave, never more than the
    limit of those that the regulator regulates, of all operations but [Walk],
    [WalkParallel], [TransferTo] and [DeleteFiles], are in the driver, and no
    wake-up is lost: while a call waits, either the limit is reached, or a call
    that was signalled can enter. *)
Theorem regulator_safe limit r :
  (0 < limit)%Z → reachable limit r →
  NoDup (calls r) ∧ (Z.of_nat (length (calling r)) ≤ limit)%Z ∧
  (Z.of_nat (length (in_driver r)) ≤ limit + Z.of_nat (length (direct r)))%Z ∧
  (waiting r ≠ [] →
     Z.of_nat (length (calling r)) = limit ∨
     ∃ t l1 l2, woken r = l1 ++ t :: l2 ∧ step r (enter t (set_woken (l1 ++ l2) r)) ∧
       t ∈ calling (enter t (set_woken (l1 ++ l2) r))).
Proof.
  intros Hl Hr. split; [by eapply reachable_nodup|]. destruct (regulator_reachable limit r) as [Hs Hn Hw]; [lia|done|].
  split; [lia|]. split; [unfold in_driver; rewrite length_app; lia|].
  intros Hne. specialize (Hw Hne). destruct (decide (available r = 0)%Z) as [H0|H0]; [left; lia|right].
  destruct (woken r) as [|t ts] eqn:Hwk; [cbn in Hw; lia|]. exists t, [], ts. split_and!; [done|by apply step_retry|].
  unfold enter. cbn. rewrite (proj2 (Z.eqb_neq _ _)) by done. cbn. set_solver.
Qed.

(** The calls of the four operations are not limited: any number of them can be
    in the driver. *)
Theorem regulator_bypassed limit n op : regulated op = false → ∃ r, reachable limit r ∧ length (in_driver r) = n.
Proof.
  intros Hop. enough (reachable limit (set_direct (rev (seq 0 n)) (NewRegulator limit))) as Hr.
  { eexists. split; [exact Hr|]. unfold in_driver. cbn. by rewrite length_rev, length_seq. }
  induction n as [|n IH]; [apply rtc_refl|]. eapply rtc_r; [exact IH|]. rewrite seq_S, rev_app_distr.
  assert (call n op (set_direct (rev (seq 0 n)) (NewRegulator limit)) = set_direct (rev [0 + n] ++ rev (seq 0 n)) (NewRegulator limit)) as <-
    by (unfold call; by rewrite Hop).
  apply step_call. unfold calls. cbn. rewrite list_elem_of_In, <-in_rev, in_seq. lia.
Qed.

Lemma parse_digits_bounds base s : ∀ n u n' u',
  (0 ≤ base)%Z → (0 ≤ n ≤ maxUint64)%Z → parse_digits base s n u = Ret (n', u') → (0 ≤ n' ≤ maxUint64)%Z.
Proof.
  induction s as [|c s IH]; intros n u n' u' Hb Hn; cbn [parse_digits]; [by intros [= <- _]|].
  case_bool_decide; [by apply IH|]. destruct (digit_value c) as [d|] eqn:Hd; [|done].
  destruct (base <=? d)%Z; [done|]. case (Z.ltb_spec maxUint64 (n * base + d)) as [?|Hm]; [done|]. apply IH; [done|].
  split; [|done]. assert (0 ≤ d)%Z; [|nia]. revert Hd. unfold digit_value, is_digit, is_between, lower, byte.
  destruct (_ && _) eqn:H1; [|destruct ((97 <=? _) && _)%Z eqn:H2; [|done]].
  - intros [= <-]. apply andb_true_iff in H1 as [H1%Nat.leb_le _]. change (Ascii.nat_of_ascii "0") with 48 in H1. lia.
  - intros [= <-]. apply andb_true_iff in H2 as [H2%Z.leb_le _]. lia.
Qed.
Lemma ParseUint_bounds s n : ParseUint s = (n, None) → (0 ≤ n ≤ maxUint64)%Z.
Proof.
  unfold ParseUint. case_bool_decide; [done|].
  match goal with |- context [let '(_, _) := ?x in _] => destruct x as [base ds] eqn:Hx end.
  assert (0 ≤ base)%Z as Hb by (by repeat (case_match; simplify_eq)).
  destruct (parse_digits base ds 0 false) as [[m u]|[]|] eqn:Hp; try done. destruct (u && _); [done|]. intros [= <-].
  eapply (parse_digits_bounds base ds 0 false m u); [done|by vm_compute|done].
Qed.

(** The limit of a configuration is at least the minimum and fits into 64 bits. *)
Theorem limit_bounds param min def limit :
  (0 ≤ min ≤ maxUint64)%Z → (0 ≤ def ≤ maxUint64)%Z →
  match param with
  | Uint64_ v | Uint_ v => (0 ≤ v ≤ maxUint64)%Z
  | Int_ v => (- 2 ^ 63 ≤ v < 2 ^ 63)%Z
  | _ => True
  end →
  GetLimitFromParameter param min def = (limit, None) → (min ≤ limit ≤ maxUint64)%Z.
Proof.
  intros Hm Hd Hv. assert (maxUint64 = 2 ^ 64 - 1)%Z as Hmax by done.
  assert (∀ l, (0 ≤ l ≤ maxUint64)%Z → (if (l <? min)%Z then (min, None) else (l, @None string)) = (limit, None) → (min ≤ limit ≤ maxUint64)%Z) as Hat.
  { intros l Hl. case (Z.ltb_spec l min); intros ? [= <-]; lia. }
  destruct param as [v|v|v|v| |]; cbn [GetLimitFromParameter].
  - destruct (ParseUint v) as [n [e|]] eqn:Hp; [done|]. apply Hat. by eapply ParseUint_bounds.
  - by apply Hat.
  - apply Hat. case (Z.ltb_spec 0 v); lia.
  - by apply Hat.
  - by apply Hat.
  - done.
Qed.

(** A concrete run: a limit of one, a call that waits, and that is signalled. *)
Lemma regulator_safe_witness :
  let r := exit (set_calling [] (enter 2 (set_entering [] (call 2 GetContent (enter 1 (set_entering [] (call 1 PutContent (NewRegulator 1)))))))) in
  (Z.of_nat (length (calling r)) ≤ 1)%Z ∧ woken r = [2].
Proof.
  split; [|reflexivity]. apply (regulator_safe 1); [lia|]. unfold reachable.
  eapply rtc_l; [apply (step_call 1 PutContent); set_solver|]. eapply rtc_l; [by apply (step_enter 1 [] [])|].
  eapply rtc_l; [apply (step_call 2 GetContent); set_solver|]. eapply rtc_l; [by apply (step_enter 2 [] [])|].
  eapply rtc_l; [by apply (step_exit 1 [] [])|]. apply rtc_refl.
Defined.

End Regulator.
