(* ===== verification/EventQueue.v ===== *)
(** * The queue of an endpoint

    Models the event queue of notifications/sinks.go with the counters of its
    listener in metrics.go.  Writers append blocks of events to a queue, from
    which a goroutine passes them to the sink; [Close] waits until it has passed
    all of them.  Both wait on one condition variable.

    A block is a slice of events.  A [Write] without events appends the nil slice,
    which the goroutine takes for the sign that the queue is closed: it returns,
    and nothing that is in the queue then is passed to the sink any more.

    The sections under the lock are the steps, as is the write to the sink, which
    is done without it: [Write], one pass of [next] up to [Wait] or to its return,
    [Close] up to [Wait], and what follows it.  What the sink returns does not
    matter: a block that it refuses is lost, as the log says. *)

From S2P Require Import Prelude.

Module EventQueue.

Section queue.
Context {Event : Type}.
(** A slice of events; [None] is nil. *)
Abbreviation block := (option (list Event)) (only parsing).

(** The goroutine has returned when it is [RDone], because the queue is closed and
    empty, or [RStopped], at a nil block. *)
Inductive runner :=
  | RNext
  | RWaiting
  | RWoken
  | RWriting (b : list Event)
  | RDone
  | RStopped.
(** The first call of [Close]; the others return an error. *)
Inductive closer := CNone | CWaiting | CWoken | CDone.
Inductive waiter := Runner | Closer.

Record eventQueue := {
  events : list block;
  closed : bool;
  waiters : list waiter;
  run_pc : runner;
  close_pc : closer;
  (** What the sink was given, and what [Write] accepted. *)
  sent : list block;
  accepted : list block;
  m_Events : Z;
  m_Pending : Z;
}.
Definition newEventQueue : eventQueue :=
  {| events := []; closed := false; waiters := []; run_pc := RNext; close_pc := CNone; sent := []; accepted := [];
     m_Events := 0; m_Pending := 0 |}.

Definition set_run (ws : list waiter) (pc : runner) (q : eventQueue) : eventQueue :=
  {| events := events q; closed := closed q; waiters := ws; run_pc := pc; close_pc := close_pc q; sent := sent q;
     accepted := accepted q; m_Events := m_Events q; m_Pending := m_Pending q |}.
Definition set_close (ws : list waiter) (pc : closer) (q : eventQueue) : eventQueue :=
  {| events := events q; closed := closed q; waiters := ws; run_pc := run_pc q; close_pc := pc; sent := sent q;
     accepted := accepted q; m_Events := m_Events q; m_Pending := m_Pending q |}.

(** The condition variable. *)
Definition wake (w : waiter) (ws : list waiter) (q : eventQueue) : eventQueue :=
  match w with Runner => set_run ws RWoken q | Closer => set_close ws CWoken q end.
Definition Signal (q : eventQueue) : eventQueue :=
  match waiters q with [] => q | w :: ws => wake w ws q end.
Definition Broadcast (q : eventQueue) : eventQueue := fold_right (λ w q, wake w [] q) q (waiters q).

(** The counters of [ingress] and [egress]. *)
Definition count (b : block) : Z := Z.of_nat (length (default [] b)).

(** [Write]: whether the block was accepted. *)
Definition Write (b : block) (q : eventQueue) : bool * eventQueue :=
  if closed q then (false, q)
  else
    (true, Signal {| events := events q ++ [b]; closed := closed q; waiters := waiters q; run_pc := run_pc q; close_pc := close_pc q;
                     sent := sent q; accepted := accepted q ++ [b];
                     m_Events := m_Events q + count b; m_Pending := m_Pending q + count b |}).

(** One pass of the loop of [next], and the test of [run] on what it returns: the
    goroutine goes on to write a block, and returns at nil. *)
Definition next (q : eventQueue) : eventQueue :=
  match events q with
  | [] =>
      if closed q then set_run [] RDone (Broadcast q)
      else set_run (waiters q ++ [Runner]) RWaiting q
  | b :: bs =>
      {| events := bs; closed := closed q; waiters := waiters q;
         run_pc := match b with Some es => RWriting es | None => RStopped end; close_pc := close_pc q; sent := sent q;
         accepted := accepted q; m_Events := m_Events q; m_Pending := m_Pending q |}
  end.
(** The write of a block, and [egress]. *)
Definition deliver (b : list Event) (q : eventQueue) : eventQueue :=
  {| events := events q; closed := closed q; waiters := waiters q; run_pc := RNext; close_pc := close_pc q; sent := sent q ++ [Some b];
     accepted := accepted q; m_Events := m_Events q; m_Pending := m_Pending q - count (Some b) |}.

(** [Close] up to [Wait]: the queue, or the error that it is closed already. *)
Definition Close (q : eventQueue) : option eventQueue :=
  if closed q then None
  else
    let q := Signal {| events := events q; closed := true; waiters := waiters q; run_pc := run_pc q; close_pc := close_pc q;
                       sent := sent q; accepted := accepted q; m_Events := m_Events q; m_Pending := m_Pending q |} in
    Some (set_close (waiters q ++ [Closer]) CWaiting q).
(** [Close] after [Wait], which closes the sink. *)
Definition Close_return (q : eventQueue) : eventQueue := set_close (waiters q) CDone q.

Inductive step : eventQueue → eventQueue → Prop :=
  | step_Write b q q' : Write b q = (true, q') → step q q'
  | step_next q : run_pc q = RNext ∨ run_pc q = RWoken → step q (next q)
  | step_deliver b q : run_pc q = RWriting b → step q (deliver b q)
  | step_Close q q' : Close q = Some q' → step q q'
  | step_Close_return q : close_pc q = CWoken → step q (Close_return q).
Definition reachable : eventQueue → Prop := rtc step newEventQueue.

(** ** What is kept *)

(** The block that was taken from the queue and not given to the sink. *)
Definition in_flight (q : eventQueue) : list block :=
  match run_pc q with RWriting b => [Some b] | RStopped => [None] | _ => [] end.
Definition total (bs : list block) : Z := foldr (λ b n, (count b + n)%Z) 0%Z bs.

Record inv (q : eventQueue) : Prop := {
  inv_fifo : accepted q = sent q ++ in_flight q ++ events q;
  inv_Events : m_Events q = total (accepted q);
  inv_Pending : m_Pending q = total (in_flight q ++ events q);
  inv_waiters : waiters q = match run_pc q, close_pc q with RWaiting, _ => [Runner] | _, CWaiting => [Closer] | _, _ => [] end;
  inv_idle : run_pc q = RWaiting → events q = [] ∧ closed q = false;
  inv_open : closed q = false → close_pc q = CNone ∧ run_pc q ≠ RDone;
  inv_closed : closed q = true → close_pc q ≠ CNone;
  inv_done : run_pc q = RDone → events q = [];
  inv_woken : close_pc q = CWoken ∨ close_pc q = CDone ↔ run_pc q = RDone;
}.

Lemma total_app bs cs : total (bs ++ cs) = (total bs + total cs)%Z.
Proof. unfold total. induction bs as [|b bs IH]; cbn; [done|]. rewrite IH. lia. Qed.
Lemma total_cons b bs : total (b :: bs) = (count b + total bs)%Z.
Proof. done. Qed.
Lemma total_nil : total [] = 0%Z.
Proof. done. Qed.

#[local] Arguments total : simpl never.
#[local] Arguments count : simpl never.
(** The fields of the invariant after a step. *)
Ltac queue_tac :=
  unfold in_flight in *;
  try match goal with H : run_pc _ = _ |- _ => rewrite H in * end;
  try match goal with H : close_pc _ = _ |- _ => rewrite H in * end;
  split; cbn in *; try match goal with H : events _ = _ |- _ => rewrite H in * end; rewrite ?total_cons, ?total_app, ?total_cons, ?total_nil in *; try done; try lia; try intuition congruence.

Lemma Write_inv b q q' : inv q → Write b q = (true, q') → inv q'.
Proof.
  intros [Hf He Hp Hw Hi Ho Hc Hd Hk]. unfold Write. destruct (closed q) eqn:Hcl; [done|]. intros [= <-].
  destruct (Ho eq_refl) as [Hcp Hrd]. rewrite Hcp in Hw. unfold Signal. cbn [waiters]. rewrite Hw.
  destruct (run_pc q) as [| | |b'| |] eqn:Hr; [| | | |done|]; queue_tac; rewrite ?Hf, <-?app_assoc; try done.
Qed.
Lemma next_inv q : inv q → run_pc q = RNext ∨ run_pc q = RWoken → inv (next q).
Proof.
  intros [Hf He Hp Hw Hi Ho Hc Hd Hk] Hr. unfold next. destruct (events q) as [|b bs] eqn:Hev.
  - destruct (closed q) eqn:Hcl.
    + specialize (Hc eq_refl). destruct (close_pc q) eqn:Hcp; [done| |exfalso; rewrite (proj1 Hk) in Hr by auto; by destruct Hr..].
      assert (waiters q = [Closer]) as Hws by (rewrite Hw; by destruct Hr as [-> | ->]). unfold Broadcast. rewrite Hws. cbn.
      destruct Hr as [Hr|Hr]; queue_tac.
    + destruct (Ho eq_refl) as [Hcp _]. destruct Hr as [Hr|Hr]; rewrite Hr, Hcp in Hw; queue_tac; by rewrite Hw.
  - destruct b as [es|]; destruct Hr as [Hr|Hr]; queue_tac.
Qed.
Lemma deliver_inv b q : inv q → run_pc q = RWriting b → inv (deliver b q).
Proof. intros [Hf He Hp Hw Hi Ho Hc Hd Hk] Hr. queue_tac. by rewrite Hf, <-app_assoc. Qed.
Lemma Close_inv q q' : inv q → Close q = Some q' → inv q'.
Proof.
  intros [Hf He Hp Hw Hi Ho Hc Hd Hk]. unfold Close. destruct (closed q) eqn:Hcl; [done|]. intros [= <-].
  destruct (Ho eq_refl) as [Hcp Hrd]. rewrite Hcp in Hw. unfold Signal. cbn [waiters]. rewrite Hw.
  destruct (run_pc q) as [| | |b'| |] eqn:Hr; [| | | |done|]; queue_tac.
Qed.
Lemma Close_return_inv q : inv q → close_pc q = CWoken → inv (Close_return q).
Proof.
  intros [Hf He Hp Hw Hi Ho Hc Hd Hk] Hcp. assert (run_pc q = RDone) as Hr by (apply Hk; by left). unfold Close_return, set_close.
  split; unfold in_flight in *; cbn; rewrite Hr in *; rewrite ?Hcp in *; try done.
  - intros Hcl. by destruct (Ho Hcl).
  - split; [done|by right].
Qed.
Lemma queue_step q q' : inv q → step q q' → inv q'.
Proof.
  intros Hq Hst. destruct Hst; [by eapply Write_inv|by apply next_inv|by apply deliver_inv|by eapply Close_inv|by apply Close_return_inv].
Qed.
Lemma queue_reachable q : reachable q → inv q.
Proof. apply rtc_invariant; [apply queue_step|]. split; try done. cbn. intuition congruence. Qed.

(** ** Closing *)

(** The number of steps that are left when the queue is closed. *)
Definition run_weight (pc : runner) : nat := match pc with RDone | RStopped => 0 | RWriting _ => 2 | _ => 1 end.
Definition close_weight (pc : closer) : nat := match pc with CDone => 0 | _ => 1 end.
Definition weight (q : eventQueue) : nat := 2 * length (events q) + run_weight (run_pc q) + close_weight (close_pc q).

Lemma closed_step q q' : inv q → closed q = true → step q q' → closed q' = true ∧ accepted q' = accepted q ∧ weight q' < weight q.
Proof.
  intros Hq Hc Hst. destruct Hst as [b q q' Hw|q Hr|b q Hr|q q' Hcl|q Hcp].
  - unfold Write in Hw. by rewrite Hc in Hw.
  - unfold next, weight. destruct (events q) as [|b bs] eqn:Hev.
    + rewrite Hc. assert (waiters q = [Closer] ∧ close_pc q = CWaiting ∨ waiters q = []) as Hws.
      { rewrite (inv_waiters _ Hq). destruct Hr as [-> | ->]; destruct (close_pc q); auto. }
      unfold Broadcast. destruct Hws as [[-> ->]| ->]; cbn; rewrite ?Hev; (split; [done|]); (split; [done|]);
        destruct Hr as [-> | ->]; cbn; lia.
    + cbn. split; [done|]. split; [done|]. destruct b, Hr as [-> | ->]; cbn; lia.
  - unfold weight. cbn. rewrite Hr. cbn. split; [done|]. split; [done|lia].
  - unfold Close in Hcl. by rewrite Hc in Hcl.
  - unfold weight. cbn. rewrite Hcp. cbn. split; [done|]. split; [done|lia].
Qed.
(** The goroutine stops early at a nil block only. *)
Lemma stopped_nil q : inv q → run_pc q = RStopped → None ∈ accepted q.
Proof. intros Hq Hr. rewrite (inv_fifo _ Hq). unfold in_flight. rewrite Hr. set_solver. Qed.
Lemma closed_progress q : inv q → closed q = true → (None ∉ accepted q) → close_pc q ≠ CDone → ∃ q', step q q'.
Proof.
  intros Hq Hc Hnil Hn. destruct (run_pc q) as [| | |b| |] eqn:Hr; [..|by destruct Hnil; apply stopped_nil].
  - exists (next q). apply step_next. by left.
  - destruct (inv_idle _ Hq Hr). congruence.
  - exists (next q). apply step_next. by right.
  - exists (deliver b q). by apply step_deliver.
  - exists (Close_return q). apply step_Close_return. destruct (proj2 (inv_woken _ Hq) Hr); done.
Qed.
Lemma closed_runs n q q' : inv q → closed q = true → nsteps step n q q' →
  inv q' ∧ closed q' = true ∧ accepted q' = accepted q ∧ n + weight q' ≤ weight q.
Proof.
  intros Hq Hc Hn. induction Hn as [q|n q1 q2 q3 Hst _ IH]; [split_and!; try done; lia|].
  destruct (closed_step _ _ Hq Hc Hst) as (Hc2 & Ha & Hlt). destruct IH as (? & ? & ? & ?); [by eapply queue_step|done|].
  split_and!; try done; [congruence|lia].
Qed.

(** A queue whose goroutine has stopped gives nothing to the sink any more, and
    [Close] does not return. *)
Theorem queue_stopped q q' : reachable q → run_pc q = RStopped → rtc step q q' →
  run_pc q' = RStopped ∧ sent q' = sent q ∧ close_pc q' ≠ CDone.
Proof.
  intros Hq%queue_reachable Hr Hs.
  enough (inv q' ∧ run_pc q' = RStopped ∧ sent q' = sent q) as (Hq' & Hr' & Hs').
  { split_and!; [done..|]. intros Hc. assert (run_pc q' = RDone) by (apply (inv_woken _ Hq'); by right). congruence. }
  revert Hs. apply (rtc_invariant step (λ x, inv x ∧ run_pc x = RStopped ∧ sent x = sent q)); [|done].
  intros x y (Hx & Hrx & Hsx) Hst. split; [by eapply queue_step|]. pose proof (inv_waiters _ Hx) as Hw. rewrite Hrx in Hw.
  destruct Hst as [b x y Hwr|x [?|?]|b x ?|x y Hcl|x Hcp]; try congruence.
  - unfold Write in Hwr. destruct (closed x) eqn:Hc; [done|]. injection Hwr as <-. rewrite (proj1 (inv_open _ Hx Hc)) in Hw.
    unfold Signal. cbn. by rewrite Hw.
  - unfold Close in Hcl. destruct (closed x) eqn:Hc; [done|]. injection Hcl as <-. rewrite (proj1 (inv_open _ Hx Hc)) in Hw.
    unfold Signal. cbn. by rewrite Hw.
  - done.
Qed.

(** C35: The queue of an endpoint gives the sink blocks that were accepted, each
    once and in their order, however writers, the goroutine and [Close]
    interleave, and the counters are the numbers of events accepted and pending.
    Unless a [Write] without events was accepted, the goroutine goes on to give
    the sink all of them: it does not return before the queue is closed and empty,
    and does not sleep while there are blocks.  When [Close] has returned, all
    blocks were given to the sink. *)
Theorem event_queue_fifo q :
  reachable q →
  accepted q = sent q ++ in_flight q ++ events q ∧
  m_Events q = total (accepted q) ∧ m_Pending q = total (in_flight q ++ events q) ∧
  (run_pc q = RWaiting → events q = []) ∧
  (run_pc q = RDone → closed q = true ∧ events q = []) ∧
  (run_pc q = RStopped → None ∈ accepted q) ∧
  (close_pc q = CDone → sent q = accepted q).
Proof.
  intros Hq%queue_reachable. split; [apply Hq|]. split; [apply Hq|]. split; [apply Hq|]. split_and!.
  - intros Hr. by destruct (inv_idle _ Hq Hr).
  - intros Hr. split; [|by apply (inv_done _ Hq)]. destruct (closed q) eqn:Hc; [done|]. by destruct (inv_open _ Hq Hc).
  - by apply stopped_nil.
  - intros Hc. assert (run_pc q = RDone) as Hr by (apply (inv_woken _ Hq); by right).
    rewrite (inv_fifo _ Hq). unfold in_flight. rewrite Hr, (inv_done _ Hq Hr). by rewrite !app_nil_r.
Qed.

(** C36: [Close] returns, unless a [Write] without events was accepted before: once
    the queue is closed no block is accepted, every run is bounded by the blocks
    that are left, and a run that cannot go on has returned from [Close], with
    all blocks given to the sink. *)
Theorem event_queue_close q :
  reachable q → closed q = true → (None ∉ accepted q) →
  (∀ b, Write b q = (false, q)) ∧
  ∀ n q', nsteps step n q q' →
    n ≤ weight q ∧ ((∀ q'', ¬ step q' q'') → close_pc q' = CDone ∧ sent q' = accepted q).
Proof.
  intros Hq%queue_reachable Hc Hnil. split; [intros b; unfold Write; by rewrite Hc|]. intros n q' Hn.
  destruct (closed_runs n q q' Hq Hc Hn) as (Hq' & Hc' & Ha & Hl). split; [lia|]. intros Hstuck.
  destruct (close_pc q') eqn:Hcp;
    try (destruct (closed_progress q' Hq' Hc') as [q'' Hst]; [by rewrite Ha|by rewrite Hcp|by destruct (Hstuck q'')]).
  split; [done|]. assert (run_pc q' = RDone) as Hr by (apply (inv_woken _ Hq'); by right).
  rewrite <-Ha, (inv_fifo _ Hq'). unfold in_flight. rewrite Hr, (inv_done _ Hq' Hr). by rewrite !app_nil_r.
Qed.

End queue.

(** ** A concrete queue *)

Definition two_blocks : eventQueue (Event := nat) :=
  (Write (Some [3]) (next (Write (Some [1; 2]) (next newEventQueue)).2)).2.
Lemma two_blocks_reachable : reachable two_blocks.
Proof.
  eapply rtc_l; [apply step_next; by left|]. eapply rtc_l; [by apply (step_Write (Some [1; 2]))|].
  eapply rtc_l; [apply step_next; by right|]. eapply rtc_l; [by apply (step_Write (Some [3]))|]. apply rtc_refl.
Qed.
Lemma event_queue_fifo_witness : accepted two_blocks = sent two_blocks ++ in_flight two_blocks ++ events two_blocks.
Proof. apply (event_queue_fifo two_blocks). exact two_blocks_reachable. Defined.
Definition closing : eventQueue (Event := nat) := default two_blocks (Close two_blocks).
Lemma event_queue_close_witness : closed closing = true ∧ Write (Some [4]) closing = (false, closing).
Proof.
  split; [reflexivity|]. apply (event_queue_close closing); [|reflexivity|apply (bool_decide_unpack _); vm_compute; exact I].
  eapply rtc_r; [exact two_blocks_reachable|]. by apply step_Close.
Defined.

(** A [Write] without events stops the queue: the block after it is not given to
    the sink, however long one waits. *)
Example nil_write_stops (q' : eventQueue (Event := nat)) :
  rtc step (next (Write (Some [1]) (Write None (next newEventQueue)).2).2) q' → sent q' = [] ∧ close_pc q' ≠ CDone.
Proof.
  intros Hs. eapply queue_stopped in Hs as (_ & Hsent & Hc); [by split| |reflexivity].
  eapply rtc_l; [apply step_next; by left|]. eapply rtc_l; [by apply (step_Write None)|].
  eapply rtc_l; [by apply (step_Write (Some [1]))|]. eapply rtc_l; [apply step_next; by right|]. apply rtc_refl.
Qed.

End EventQueue.
