(* ===== verification/Sinks.v ===== *)
(** * The sinks of notifications

    Models the other sinks of notifications/sinks.go and http.go: the sink that
    ignores events, the sink that retries, the sink that posts to an endpoint,
    and the broadcaster, with the channels on which its goroutine waits. *)

From S2P Require Import Prelude.

Module Sinks.

(** The errors of a sink. *)
Inductive sink_err := ErrSinkClosed | SinkError (msg : string).

(** ** Ignored events *)

Section ignored.
Context {Event : Type} (mediaType action : Event → string).

Record ignoredSink := { ignoreMediaTypes : gset string; ignoreActions : gset string }.
(** The sink that events go through, if any. *)
Definition newIgnoredSink (ignored ignoreActions : list string) : option ignoredSink :=
  match ignored with
  | [] => None
  | _ => Some {| ignoreMediaTypes := list_to_set ignored; ignoreActions := list_to_set ignoreActions |}
  end.
(** The events that are written to the sink behind it, if it is written to. *)
Definition ignored_Write (s : option ignoredSink) (events : list Event) : option (list Event) :=
  match s with
  | None => Some events
  | Some imts =>
      match filter (λ e, mediaType e ∉ ignoreMediaTypes imts) events with
      | [] => None
      | kept =>
          match filter (λ e, action e ∉ ignoreActions imts) kept with
          | [] => None
          | results => Some results
          end
      end
  end.

(** Of the events that are written, exactly those are passed on, in their order,
    of which neither the type nor the action is ignored, when there is a type to
    ignore; otherwise no action is ignored either. *)
Theorem ignored_events types actions events :
  default [] (ignored_Write (newIgnoredSink types actions) events) =
  (if decide (types = []) then events else filter (λ e, (mediaType e ∉ types) ∧ (action e ∉ actions)) events).
Proof.
  destruct types as [|t types]; [done|]. rewrite decide_False by done. cbn [newIgnoredSink ignored_Write ignoreMediaTypes ignoreActions].
  set (ts := t :: types). transitivity (filter (λ e, action e ∉ (list_to_set actions : gset string)) (filter (λ e, mediaType e ∉ (list_to_set ts : gset string)) events)).
  - destruct (filter (λ e, mediaType e ∉ _) events) as [|x xs]; [done|]. by destruct (filter _ (x :: xs)).
  - rewrite list_filter_filter. apply list_filter_iff. intros e. set_solver.
Qed.

End ignored.

(** ** Retries *)

(** Times are nanoseconds; the zero time is the first second of the year 1. *)
Definition zeroTime : Z := (-62135596800 * 10 ^ 9)%Z.
Record retryingSink := {
  rs_closed : bool;
  threshold : Z;
  recent : Z;
  last : Z;
  backoff : Z;
}.
Definition newRetryingSink (threshold backoff : Z) : retryingSink :=
  {| rs_closed := false; threshold := threshold; recent := 0; last := zeroTime; backoff := backoff |}.
Definition reset (rs : retryingSink) : retryingSink :=
  {| rs_closed := rs_closed rs; threshold := threshold rs; recent := 0; last := zeroTime; backoff := backoff rs |}.
Definition failure (now : Z) (rs : retryingSink) : retryingSink :=
  {| rs_closed := rs_closed rs; threshold := threshold rs; recent := recent rs + 1; last := now; backoff := backoff rs |}.
Definition proceed (now : Z) (rs : retryingSink) : bool :=
  (recent rs <? threshold rs)%Z || (last rs + backoff rs <? now)%Z.
(** [Close], which closes the sink behind it. *)
Definition retrying_Close (rs : retryingSink) : option retryingSink :=
  if rs_closed rs then None
  else Some {| rs_closed := true; threshold := threshold rs; recent := recent rs; last := last rs; backoff := backoff rs |}.

(** What a turn of the loop of [Write] meets: the time at which it asks whether
    to proceed, what the sink answers and when, and what other calls do to the
    sink while the turn waits without the lock. *)
Record turn := {
  t_now : Z;
  t_result : option sink_err;
  t_answered : Z;
  t_during : retryingSink → retryingSink;
}.
(** The result of [Write], unless it still retries, with the turns in which the
    sink was written to. *)
Fixpoint retrying_Write (turns : list turn) (rs : retryingSink) : option (option sink_err) * retryingSink * list turn :=
  if rs_closed rs then (Some (Some ErrSinkClosed), rs, [])
  else
    match turns with
    | [] => (None, rs, [])
    | t :: turns =>
        if negb (proceed (t_now t) rs) then retrying_Write turns (t_during t rs)
        else
          match t_result t with
          | None => (Some None, reset rs, [t])
          | Some ErrSinkClosed => (Some (Some ErrSinkClosed), failure (t_answered t) rs, [t])
          | Some _ =>
              let '(r, rs, ts) := retrying_Write turns (failure (t_answered t) rs) in (r, rs, t :: ts)
          end
    end.

(** What the attempts of a call look like: they fail, but for the last one if
    the call succeeded. *)
Lemma retrying_attempts turns : ∀ rs r rs' ts,
  retrying_Write turns rs = (r, rs', ts) →
  ts `sublist_of` turns ∧
  match r with
  | Some None => ∃ ts' t, ts = ts' ++ [t] ∧ t_result t = None ∧ Forall (λ t, t_result t ≠ None) ts'
  | Some (Some e) => e = ErrSinkClosed ∧ Forall (λ t, t_result t ≠ None) ts
  | None => Forall (λ t, t_result t ≠ None) ts
  end.
Proof.
  induction turns as [|t turns IH]; intros rs r rs' ts; cbn [retrying_Write]; destruct (rs_closed rs).
  - intros [= <- <- <-]. by split; [constructor|].
  - intros [= <- <- <-]. by split; [constructor|].
  - intros [= <- <- <-]. split; [apply sublist_nil_l|done].
  - destruct (negb _); [intros H; apply IH in H as [? ?]; by split; [apply sublist_cons|]|].
    destruct (t_result t) as [[|msg]|] eqn:Ht.
    + intros [= <- <- <-]. split; [apply sublist_skip, sublist_nil_l|]. split; [done|]. repeat constructor. by rewrite Ht.
    + destruct (retrying_Write turns _) as [[r0 rs0] ts0] eqn:Hw. intros [= <- <- <-]. apply IH in Hw as [Hs Hr].
      split; [by apply sublist_skip|]. assert (t_result t ≠ None) as Hne by by rewrite Ht.
      destruct r0 as [[e|]|]; [split; [apply Hr|constructor; [done|apply Hr]]| |by constructor].
      destruct Hr as (ts' & t' & -> & Ht' & Hf). exists (t :: ts'), t'. by repeat constructor.
    + intros [= <- <- <-]. split; [apply sublist_skip, sublist_nil_l|]. by exists [], t.
Qed.

(** A call that nothing closes returns once the sink accepts the events at a
    time at which the back-off is over. *)
Lemma retrying_returns turns L : ∀ rs,
  rs_closed rs = false → (last rs < L)%Z →
  Forall (λ t, t_result t ≠ Some ErrSinkClosed ∧ (t_result t ≠ None → t_answered t < L)%Z ∧
    ∀ x, rs_closed x = false → (last x < L)%Z →
      rs_closed (t_during t x) = false ∧ (last (t_during t x) < L)%Z ∧ backoff (t_during t x) = backoff x) turns →
  (∃ t, t ∈ turns ∧ t_result t = None ∧ (L + backoff rs ≤ t_now t)%Z) →
  ∃ rs' ts, retrying_Write turns rs = (Some None, rs', ts).
Proof.
  induction turns as [|t turns IH]; intros rs Hc Hl Hf (u & Hu & Hr & Hp); [set_solver|].
  apply Forall_cons in Hf as [(Hn & Ha & Hd) Hf]. cbn [retrying_Write]. rewrite Hc.
  destruct (proceed (t_now t) rs) eqn:Hpr; cbn [negb].
  - destruct (t_result t) as [[|msg]|] eqn:Ht; [done| |by eexists _, _].
    apply elem_of_cons in Hu as [->|Hu]; [congruence|]. destruct (IH (failure (t_answered t) rs)) as (rs' & ts & ->); [done|by apply Ha|done|by exists u|].
    by eexists _, _.
  - destruct (Hd rs Hc Hl) as (Hc' & Hl' & Hb). apply elem_of_cons in Hu as [->|Hu]; cycle 1.
    { apply IH; [done..|]. exists u. by rewrite Hb. }
    unfold proceed in Hpr. apply orb_false_iff in Hpr as [_ Hpr%Z.ltb_ge]. lia.
Qed.

(** After the threshold of failures each attempt waits for the back-off since
    the one before it. *)
Lemma retrying_backoff turns : ∀ rs r rs' ts,
  Forall (λ t, ∀ x, t_during t x = x) turns → retrying_Write turns rs = (r, rs', ts) →
  (∀ t, head ts = Some t → (threshold rs ≤ recent rs)%Z → (last rs + backoff rs < t_now t)%Z) ∧
  ∀ i t u, ts !! i = Some t → ts !! S i = Some u → (threshold rs ≤ recent rs + Z.of_nat i + 1)%Z →
    (t_answered t + backoff rs < t_now u)%Z.
Proof.
  induction turns as [|t turns IH]; intros rs r rs' ts Hf; cbn [retrying_Write]; destruct (rs_closed rs) eqn:Hc;
    try by intros [= <- <- <-].
  apply Forall_cons in Hf as [Hd Hf]. destruct (proceed (t_now t) rs) eqn:Hpr; cbn [negb]; [|rewrite Hd; by apply IH].
  assert (threshold rs ≤ recent rs → last rs + backoff rs < t_now t)%Z as Hhead.
  { intros Hr. unfold proceed in Hpr. apply orb_true_iff in Hpr as [H%Z.ltb_lt|H%Z.ltb_lt]; lia. }
  assert (∀ (r0 : option (option sink_err)) rs0, (r0, rs0, [t]) = (r, rs', ts) → (∀ u, head ts = Some u → (threshold rs ≤ recent rs)%Z → (last rs + backoff rs < t_now u)%Z) ∧
    ∀ i u v, ts !! i = Some u → ts !! S i = Some v → (threshold rs ≤ recent rs + Z.of_nat i + 1)%Z → (t_answered u + backoff rs < t_now v)%Z) as Hone.
  { intros r0 rs0 [= <- <- <-]. split; [by intros u [= <-]|]. intros [|i] u v ? ?; [|done]. done. }
  destruct (t_result t) as [[|msg]|]; [by apply Hone| |by apply Hone].
  destruct (retrying_Write turns _) as [[r0 rs0] ts0] eqn:Hw. intros [= <- <- <-].
  apply IH in Hw as [Hh Hi]; [|done]. cbn in Hh, Hi. split; [by intros u [= <-]|].
  intros [|i] u v; cbn.
  - intros [= <-] Hv Hr. apply (Hh v); [by rewrite head_lookup|lia].
  - intros Hu Hv Hr. apply (Hi i u v Hu Hv). lia.
Qed.

(** C38: The sink that retries writes the events to the sink behind it until that
    accepts them or is closed: a call that succeeded has delivered them in its
    last attempt and in no other, a call that failed in none, and only because
    the sink was closed.  A call that nothing closes succeeds once the sink
    accepts the events after the back-off; and from the threshold on, when no
    other call interferes, each attempt waits for the back-off since the failure
    of the one before. *)
Theorem retrying_sink turns rs r rs' ts :
  retrying_Write turns rs = (r, rs', ts) →
  ts `sublist_of` turns ∧
  match r with
  | Some None => ∃ ts' t, ts = ts' ++ [t] ∧ t_result t = None ∧ Forall (λ t, t_result t ≠ None) ts'
  | Some (Some e) => e = ErrSinkClosed ∧ Forall (λ t, t_result t ≠ None) ts
  | None => Forall (λ t, t_result t ≠ None) ts
  end ∧
  (∀ L, rs_closed rs = false → (last rs < L)%Z →
    Forall (λ t, t_result t ≠ Some ErrSinkClosed ∧ (t_result t ≠ None → t_answered t < L)%Z ∧
      ∀ x, rs_closed x = false → (last x < L)%Z →
        rs_closed (t_during t x) = false ∧ (last (t_during t x) < L)%Z ∧ backoff (t_during t x) = backoff x) turns →
    (∃ t, t ∈ turns ∧ t_result t = None ∧ (L + backoff rs ≤ t_now t)%Z) → r = Some None) ∧
  (Forall (λ t, ∀ x, t_during t x = x) turns →
    ∀ i t u, ts !! i = Some t → ts !! S i = Some u → (threshold rs ≤ recent rs + Z.of_nat i + 1)%Z →
      (t_answered t + backoff rs < t_now u)%Z).
Proof.
  intros Hw. destruct (retrying_attempts _ _ _ _ _ Hw) as [Hs Hr]. split_and!; [done..| |].
  - intros L Hc Hl Hf Hu. destruct (retrying_returns turns L rs Hc Hl Hf Hu) as (rs0 & ts0 & Hw'). congruence.
  - intros Hf. by eapply retrying_backoff.
Qed.
Definition second : Z := (10 ^ 9)%Z.
Definition turn_at (now : Z) (result : option sink_err) : turn :=
  {| t_now := now; t_result := result; t_answered := now + 5; t_during := λ rs, rs |}.
Lemma retrying_sink_witness :
  (retrying_Write [turn_at 0 (Some (SinkError "500")); turn_at 10 None; turn_at (2 * second) None] (newRetryingSink 1 second)).1.1 = Some None.
Proof.
  destruct (retrying_Write _ _) as [[r rs'] ts] eqn:Hw. destruct (retrying_sink _ _ _ _ _ Hw) as (_ & _ & Hr & _).
  apply (Hr (10 ^ 6)%Z); [reflexivity|reflexivity| |].
  - repeat (apply Forall_cons; split); [..|by apply Forall_nil]; (split; [discriminate|split; [first [done|by intros []]|by intros x]]).
  - exists (turn_at (2 * second) None). split; [set_solver|]. split; [reflexivity|]. vm_compute. discriminate.
Defined.

(** ** The endpoint *)

(** What the post gives: the status of the response, or an error. *)
Record httpSink := { hs_closed : bool }.
Inductive post := Responded (status : Z) | NotPosted (msg : string).
(** What the listeners are told. *)
Inductive told := Success (status : Z) | Failure (status : Z) | Err (msg : string).
Definition http_Write (marshal : option string) (response : post) (hs : httpSink) : option sink_err * list told :=
  if hs_closed hs then (Some ErrSinkClosed, [])
  else
    match marshal with
    | Some msg => (Some (SinkError msg), [Err msg])
    | None =>
        match response with
        | NotPosted msg => (Some (SinkError msg), [Err msg])
        | Responded status =>
            if (200 <=? status)%Z && (status <? 400)%Z then (None, [Success status])
            else (Some (SinkError "response status unaccepted"), [Failure status])
        end
    end.
Definition http_Close (hs : httpSink) : option httpSink := if hs_closed hs then None else Some {| hs_closed := true |}.

(** The events are accepted exactly when the endpoint of a sink that is not
    closed answers with a 2xx or 3xx status, and then, and only then, the
    listeners are told of a success. *)
Lemma http_accepts marshal response hs :
  ((http_Write marshal response hs).1 = None ↔
    hs_closed hs = false ∧ marshal = None ∧ ∃ status, response = Responded status ∧ (200 ≤ status < 400)%Z) ∧
  ((http_Write marshal response hs).1 = None ↔ ∃ status, (http_Write marshal response hs).2 = [Success status]).
Proof.
  unfold http_Write. destruct (hs_closed hs), marshal, response as [status|]; cbn; try (split; split; naive_solver).
  destruct (200 <=? status)%Z eqn:H1, (status <? 400)%Z eqn:H2; cbn; split; split; try naive_solver lia.
Qed.

End Sinks.
