(* ===== verification/Broadcaster.v ===== *)
(** * The broadcaster of notifications

    Models the broadcaster of notifications/sinks.go: the goroutine that passes
    each block of events to every sink, and the calls of [Write] and [Close],
    which meet it on two channels without a buffer.

    A send and a receive on such a channel are one step of the two goroutines
    that wait for each other.  Which goroutines meet is chosen by the scheduler:
    an action names them, and [act] is undefined when they cannot meet.  What a
    sink returns does not matter: the goroutine logs the error and goes on. *)

From S2P Require Import Prelude.

Module Broadcaster.

Section broadcaster.
Context {Event : Type}.
Abbreviation block := (list Event) (only parsing).

Inductive sink_call := SWrite (sink : nat) (b : block) | SClose (sink : nat).
(** [run]: in its [select], at a sink of one of its loops, or sending on the
    channel that it received, which is nil when [closed] was closed. *)
Inductive runner :=
  | RSelect
  | RWrite (b : block) (sink : nat)
  | RClose (closing : option nat) (sink : nat)
  | RSignal (closing : option nat)
  | RExit.
(** A call of [Write]: in its [select], or returned, with [ErrSinkClosed] or not. *)
Inductive writer := WSelect (b : block) | WReturned (closed : bool).
(** A call of [Close]: sending its channel, closing [closed], receiving from its
    channel, or returned, with the error that it is closed already or not. *)
Inductive closer := CSend | CClose | CWait | CReturned (already : bool).
#[global] Instance closer_eq_dec : EqDecision closer.
Proof. solve_decision. Defined.

Record broadcaster := {
  sinks : nat;
  closed : bool;
  run : runner;
  writers : gmap nat writer;
  closers : gmap nat closer;
  panicked : bool;
  (** What the goroutine received, and what it asked of the sinks. *)
  received : list block;
  calls : list sink_call;
}.
Definition NewBroadcaster (sinks : nat) : broadcaster :=
  {| sinks := sinks; closed := false; run := RSelect; writers := ∅; closers := ∅; panicked := false; received := []; calls := [] |}.

Definition set_run (pc : runner) (s : broadcaster) : broadcaster :=
  {| sinks := sinks s; closed := closed s; run := pc; writers := writers s; closers := closers s; panicked := panicked s;
     received := received s; calls := calls s |}.
Definition set_writer (w : nat) (pc : writer) (s : broadcaster) : broadcaster :=
  {| sinks := sinks s; closed := closed s; run := run s; writers := <[w := pc]> (writers s); closers := closers s;
     panicked := panicked s; received := received s; calls := calls s |}.
Definition set_closer (c : nat) (pc : closer) (s : broadcaster) : broadcaster :=
  {| sinks := sinks s; closed := closed s; run := run s; writers := writers s; closers := <[c := pc]> (closers s);
     panicked := panicked s; received := received s; calls := calls s |}.
Definition receive (b : block) (s : broadcaster) : broadcaster :=
  {| sinks := sinks s; closed := closed s; run := RWrite b 0; writers := writers s; closers := closers s; panicked := panicked s;
     received := received s ++ [b]; calls := calls s |}.
Definition ask (call : sink_call) (s : broadcaster) : broadcaster :=
  {| sinks := sinks s; closed := closed s; run := run s; writers := writers s; closers := closers s; panicked := panicked s;
     received := received s; calls := calls s ++ [call] |}.
Definition close_channel (s : broadcaster) : broadcaster :=
  {| sinks := sinks s; closed := true; run := run s; writers := writers s; closers := closers s; panicked := panicked s;
     received := received s; calls := calls s |}.
Definition panic (s : broadcaster) : broadcaster :=
  {| sinks := sinks s; closed := closed s; run := run s; writers := writers s; closers := closers s; panicked := true;
     received := received s; calls := calls s |}.

(** A receive from [closed]: from the call of [Close] that is sending on it, or
    because it is closed. *)
Definition recv_closed (from : option nat) (s : broadcaster) : option broadcaster :=
  match from with
  | Some c => if decide (closers s !! c = Some CSend) then if closed s then None else Some (set_closer c CClose s) else None
  | None => if closed s then Some s else None
  end.
(** Whether a receive from [closed] would not wait. *)
Definition ready (s : broadcaster) : bool :=
  closed s || existsb (λ p, bool_decide (p.2 = CSend)) (map_to_list (closers s)).

Inductive action :=
  (** The calls of [Write], and the two cases of their [select]. *)
  | CallWrite (w : nat) (b : block)
  | WriteSend (w : nat)
  | WriteClosed (w : nat) (from : option nat)
  (** The calls of [Close]: the receive of the [select], or its default case up
      to the send, and what follows the send. *)
  | CallClose (c : nat) (from : option nat)
  | CallCloseDefault (c : nat)
  | CloseSendPanics (c : nat)
  | CloseChannel (c : nat)
  (** The goroutine. *)
  | RunClosed (from : option nat)
  | RunSink
  | RunSignal.

Definition act (a : action) (s : broadcaster) : option broadcaster :=
  match a with
  | CallWrite w b => match writers s !! w with None => Some (set_writer w (WSelect b) s) | Some _ => None end
  | WriteSend w =>
      match writers s !! w, run s with
      | Some (WSelect b), RSelect => Some (receive b (set_writer w (WReturned false) s))
      | _, _ => None
      end
  | WriteClosed w from =>
      match writers s !! w with Some (WSelect b) => set_writer w (WReturned true) <$> recv_closed from s | _ => None end
  | CallClose c from =>
      match closers s !! c with None => set_closer c (CReturned true) <$> recv_closed from s | Some _ => None end
  | CallCloseDefault c =>
      match closers s !! c with None => if ready s then None else Some (set_closer c CSend s) | Some _ => None end
  | CloseSendPanics c =>
      match closers s !! c with Some CSend => if closed s then Some (panic s) else None | _ => None end
  | CloseChannel c =>
      match closers s !! c with
      | Some CClose => Some (if closed s then panic s else set_closer c CWait (close_channel s))
      | _ => None
      end
  | RunClosed from =>
      match run s with
      | RSelect => set_run (RClose from 0) <$> recv_closed from s
      | _ => None
      end
  | RunSink =>
      match run s with
      | RWrite b i => Some (if decide (i < sinks s) then set_run (RWrite b (S i)) (ask (SWrite i b) s) else set_run RSelect s)
      | RClose closing i =>
          Some (if decide (i < sinks s) then set_run (RClose closing (S i)) (ask (SClose i) s) else set_run (RSignal closing) s)
      | _ => None
      end
  | RunSignal =>
      match run s with
      | RSignal (Some c) =>
          match closers s !! c with Some CWait => Some (set_closer c (CReturned false) (set_run RExit s)) | _ => None end
      | _ => None
      end
  end.

(** A panic ends the process. *)
Inductive step : broadcaster → broadcaster → Prop :=
  | step_act a s s' : panicked s = false → act a s = Some s' → step s s'.
Definition reachable (n : nat) : broadcaster → Prop := rtc step (NewBroadcaster n).
Fixpoint run_acts (acts : list action) (s : broadcaster) : option broadcaster :=
  match acts with
  | [] => Some s
  | a :: acts => if panicked s then None else match act a s with Some s => run_acts acts s | None => None end
  end.
Lemma run_acts_reachable acts : ∀ s s', run_acts acts s = Some s' → rtc step s s'.
Proof.
  induction acts as [|a acts IH]; intros s s'; cbn; [by intros [= <-]|]. destruct (panicked s) eqn:Hp; [done|].
  destruct (act a s) as [s1|] eqn:Ha; [|done]. intros H. eapply rtc_l; [by eapply step_act|by apply IH].
Qed.

(** ** What the sinks are asked *)

Definition to_sinks (n : nat) (b : block) : list sink_call := (λ i, SWrite i b) <$> seq 0 n.
Definition closings (n : nat) : list sink_call := SClose <$> seq 0 n.
Definition asked (n : nat) (bs : list block) : list sink_call := bs ≫= to_sinks n.

Definition progress (s : broadcaster) : Prop :=
  match run s with
  | RSelect => calls s = asked (sinks s) (received s)
  | RWrite b i =>
      ∃ bs, received s = bs ++ [b] ∧ i ≤ sinks s ∧ calls s = asked (sinks s) bs ++ to_sinks i b
  | RClose _ i => i ≤ sinks s ∧ calls s = asked (sinks s) (received s) ++ closings i
  | RSignal _ | RExit => calls s = asked (sinks s) (received s) ++ closings (sinks s)
  end.
Definition returned (s : broadcaster) : Prop := ∀ c, closers s !! c = Some (CReturned false) → run s = RExit.

Lemma to_sinks_S n b : to_sinks (S n) b = to_sinks n b ++ [SWrite n b].
Proof. unfold to_sinks. by rewrite seq_S, fmap_app. Qed.
Lemma closings_S n : closings (S n) = closings n ++ [SClose n].
Proof. unfold closings. by rewrite seq_S, fmap_app. Qed.
Lemma asked_snoc n bs b : asked n (bs ++ [b]) = asked n bs ++ to_sinks n b.
Proof. unfold asked. rewrite bind_app. cbn. by rewrite app_nil_r. Qed.

Lemma recv_closed_spec from s s' : recv_closed from s = Some s' →
  (from = None ∧ s' = s) ∨ ∃ c, from = Some c ∧ closers s !! c = Some CSend ∧ s' = set_closer c CClose s.
Proof. unfold recv_closed. destruct from as [c|]; [|by destruct (closed s); intros [= <-]; left]. case_decide; [|done]. destruct (closed s); [done|]. intros [= <-]. eauto. Qed.

Ltac step_cases := repeat match goal with
  | H : fmap _ _ = Some _ |- _ => apply fmap_Some in H as (? & H & ->)
  | H : recv_closed _ _ = Some _ |- _ => apply recv_closed_spec in H as [[-> ->]|(? & -> & ? & ->)]
  | H : context [match ?x with _ => _ end] |- _ => destruct x eqn:?; try discriminate H
  | H : Some _ = Some _ |- _ => injection H as <-
  end.

#[local] Arguments to_sinks : simpl never.
#[local] Arguments closings : simpl never.
#[local] Arguments asked : simpl never.
Lemma act_progress a s s' : act a s = Some s' → progress s → sinks s' = sinks s ∧ progress s'.
Proof.
  intros Ha Hp. split; [destruct a; cbn in Ha; step_cases; done|].
  destruct a; cbn in Ha; step_cases; unfold progress in *; cbn in *; repeat case_match; simplify_eq; try done.
  - exists (received s). rewrite app_nil_r. split; [done|]. split; [lia|done].
  - rewrite app_nil_r. split; [lia|done].
  - rewrite app_nil_r. split; [lia|done].
  - destruct Hp as (bs & -> & Hi & ->). exists bs. rewrite to_sinks_S, (assoc_L (++)). (split; [done|split; [lia|done]]).
  - destruct Hp as (bs & -> & Hi & ->). rewrite asked_snoc. by replace (sinks s) with sink by lia.
  - destruct Hp as [Hi ->]. rewrite closings_S, (assoc_L (++)). split; [lia|done].
  - destruct Hp as [Hi ->]. by replace (sinks s) with sink by lia.
Qed.
Lemma act_returned a s s' : act a s = Some s' → returned s → returned s'.
Proof.
  intros Ha Hr. destruct a; cbn in Ha; step_cases; intros k; cbn; repeat case_decide; cbn; rewrite ?lookup_insert_Some;
    intros Hk; try specialize (Hr k); intuition congruence.
Qed.

Lemma broadcaster_reachable n s : reachable n s → (sinks s = n ∧ progress s) ∧ returned s.
Proof.
  apply (rtc_invariant step (λ s, (sinks s = n ∧ progress s) ∧ returned s)); [|by repeat split].
  intros x y [[<- Hp] Hr] Hs. inversion Hs as [a u v _ Ha]. subst. split; [by eapply act_progress|by eapply act_returned].
Qed.

(** C37: In every interleaving the broadcaster asks the sinks for the blocks that
    it received in their order, each block of every sink once, before the next
    one: what it asked is a prefix of that, and all of it when it waits for the
    next block.  When a call of [Close] returns without an error, every block that
    a call of [Write] handed over has been written to every sink, and then each
    sink was closed, once. *)
Theorem broadcaster_dispatches n s : reachable n s →
  calls s `prefix_of` asked n (received s) ++ closings n ∧
  (run s = RSelect → calls s = asked n (received s)) ∧
  (∀ c, closers s !! c = Some (CReturned false) → calls s = asked n (received s) ++ closings n).
Proof.
  intros [[<- Hp] Hr]%broadcaster_reachable. split; [|split].
  - unfold progress in Hp. destruct (run s).
    + exists (closings (sinks s)). by rewrite Hp.
    + destruct Hp as (bs & -> & Hi & ->). rewrite asked_snoc. apply prefix_app_r, prefix_app.
      exists ((λ i, SWrite i b) <$> seq sink (sinks s - sink)). unfold to_sinks. rewrite <-fmap_app.
      f_equal. rewrite <-seq_app. f_equal. lia.
    + destruct Hp as [Hi ->]. apply prefix_app. exists (SClose <$> seq sink (sinks s - sink)). unfold closings. rewrite <-fmap_app.
      f_equal. rewrite <-seq_app. f_equal. lia.
    + by rewrite Hp.
    + by rewrite Hp.
  - intros H. unfold progress in Hp. by rewrite H in Hp.
  - intros c Hc. specialize (Hr c Hc). unfold progress in Hp. by rewrite Hr in Hp.
Qed.

(** The call of [Close] whose channel the goroutine holds. *)
Definition held (s : broadcaster) : option nat :=
  match run s with RClose closing _ | RSignal closing => closing | _ => None end.
(** A call of [Close] whose channel something else received. *)
Definition lost (c : nat) (s : broadcaster) : Prop :=
  (closers s !! c = Some CClose ∨ closers s !! c = Some CWait) ∧ held s ≠ Some c.

Lemma act_lost c a s s' : act a s = Some s' → lost c s → lost c s'.
Proof.
  intros Ha [Hc Hh]. split.
  - unfold held in Hh. destruct a; cbn in Ha; step_cases; cbn; repeat case_decide; cbn; try done;
      repeat match goal with
      | |- context [<[?k := _]> _ !! c] =>
          destruct (decide (k = c)) as [->|]; [rewrite !lookup_insert_eq|rewrite !lookup_insert_ne by done]
      end;
      intuition congruence.
  - unfold held in *. destruct a; cbn in Ha; step_cases; cbn; repeat case_decide; cbn;
      repeat match goal with H : run s = _ |- _ => rewrite ?H; clear H end; intuition congruence.
Qed.

(** The channel of a call of [Close] may be received by a call of [Write], or by
    another call of [Close], that waits in its own [select].  Then the goroutine
    finds [closed] closed, waits for ever to send on a nil channel, and the call
    of [Close] never returns. *)
Theorem broadcaster_close_lost c w b s s1 s2 :
  writers s !! w = Some (WSelect b) → act (WriteClosed w (Some c)) s = Some s1 → held s ≠ Some c → rtc step s1 s2 →
  closers s2 !! c = Some CClose ∨ closers s2 !! c = Some CWait.
Proof.
  intros Hw Ha Hh Hs. enough (lost c s2) as [? _] by done.
  revert Hs. apply (rtc_invariant step (lost c)).
  - intros x y Hx Hs. inversion Hs as [a u v _ Hact]. subst. by eapply act_lost.
  - cbn in Ha. rewrite Hw in Ha. case_decide; [|done]. destruct (closed s); [done|]. injection Ha as <-.
    split; [left; apply lookup_insert_eq|done].
Qed.

End broadcaster.

Lemma broadcaster_dispatches_witness : ∃ s : broadcaster (Event := nat),
  reachable 2 s ∧ closers s !! 0 = Some (CReturned false) ∧
  calls s = [SWrite 0 [1; 2]; SWrite 1 [1; 2]; SWrite 0 [3]; SWrite 1 [3]; SClose 0; SClose 1].
Proof.
  set (acts := [CallWrite 0 [1; 2]; WriteSend 0; CallWrite 1 [3]; RunSink; RunSink; RunSink; WriteSend 1; CallCloseDefault 0;
    RunSink; RunSink; RunSink; RunClosed (Some 0); CloseChannel 0; RunSink; RunSink; RunSink; RunSignal] : list (action (Event := nat))).
  destruct (run_acts acts (NewBroadcaster 2)) as [s|] eqn:Hs; [|vm_compute in Hs; discriminate Hs].
  assert (reachable 2 s) as Hr by exact (run_acts_reachable acts _ _ Hs). exists s. split; [exact Hr|].
  assert (closers s !! 0 = Some (CReturned false)) as Hc by (vm_compute in Hs; injection Hs as <-; reflexivity).
  split; [exact Hc|]. rewrite (proj2 (proj2 (broadcaster_dispatches 2 s Hr)) 0 Hc). vm_compute in Hs. injection Hs as <-. reflexivity.
Defined.

(** One block in flight, and a call of [Close] that never returns. *)
Lemma broadcaster_close_lost_witness : ∃ s : broadcaster (Event := nat),
  reachable 1 s ∧ run s = RSignal None ∧ ∀ s', rtc step s s' → closers s' !! 0 = Some CClose ∨ closers s' !! 0 = Some CWait.
Proof.
  set (acts := [CallWrite 0 [1]; WriteSend 0; CallCloseDefault 0; CallWrite 1 [2]] : list (action (Event := nat))).
  destruct (run_acts acts (NewBroadcaster 1)) as [s|] eqn:Hs; [|vm_compute in Hs; discriminate Hs].
  set (more := [WriteClosed 1 (Some 0)] ++ [CloseChannel 0; RunSink; RunSink; RunClosed None; RunSink; RunSink] : list (action (Event := nat))).
  destruct (act (WriteClosed 1 (Some 0)) s) as [s1|] eqn:H1; [|vm_compute in Hs; injection Hs as <-; vm_compute in H1; discriminate H1].
  destruct (run_acts [CloseChannel 0; RunSink; RunSink; RunClosed None; RunSink; RunSink] s1) as [s2|] eqn:H2;
    [|vm_compute in Hs; injection Hs as <-; vm_compute in H1; injection H1 as <-; vm_compute in H2; discriminate H2].
  exists s2. split_and!.
  - unfold reachable. etrans; [exact (run_acts_reachable acts _ _ Hs)|]. apply (run_acts_reachable more). unfold more. cbn [app run_acts].
    rewrite H1. vm_compute in Hs. injection Hs as <-. exact H2.
  - vm_compute in Hs. injection Hs as <-. vm_compute in H1. injection H1 as <-. vm_compute in H2. injection H2 as <-. reflexivity.
  - intros s' Hs'. apply (broadcaster_close_lost 0 1 [2] s s1 s').
    + vm_compute in Hs. injection Hs as <-. reflexivity.
    + exact H1.
    + vm_compute in Hs. injection Hs as <-. discriminate.
    + etrans; [exact (run_acts_reachable _ _ _ H2)|exact Hs'].
Defined.
End Broadcaster.
