(* ===== verification/Paths.v ===== *)
(** * The storage path layout

    Models registry/storage/paths.go: the mapper from object names to driver
    paths and the inverse that the blob enumeration uses.  The theorems state
    that the mapper produces exactly the documented layout, that no two
    objects share a path, that every path it produces is one a storage driver
    accepts, and that a blob's digest is recovered from its path. *)

From stdpp Require Import pretty.
From S2P Require Import Prelude GoStd Digest Driver.

Module Paths.
Local Open Scope go_scope.

Definition storagePathVersion : string := "v2".
Definition storagePathRoot : string := "/docker/registry/".

(** The path specifications: one constructor per struct of the source. *)
Inductive pathSpec :=
  | manifestRevisionsPathSpec (name : string)
  | manifestRevisionPathSpec (name : string) (revision : digest)
  | manifestRevisionLinkPathSpec (name : string) (revision : digest)
  | manifestTagsPathSpec (name : string)
  | manifestTagPathSpec (name tag : string)
  | manifestTagCurrentPathSpec (name tag : string)
  | manifestTagIndexPathSpec (name tag : string)
  | manifestTagIndexEntryPathSpec (name tag : string) (revision : digest)
  | manifestTagIndexEntryLinkPathSpec (name tag : string) (revision : digest)
  | layerLinkPathSpec (name : string) (dgst : digest)
  | blobsPathSpec
  | blobPathSpec (dgst : digest)
  | blobDataPathSpec (dgst : digest)
  | uploadDataPathSpec (name id : string)
  | uploadStartedAtPathSpec (name id : string)
  | uploadHashStatePathSpec (name id alg : string) (offset : Z) (lst : bool)
  | repositoriesRootPathSpec
  | repositoryRootPathSpec (name : string).

Definition rootPrefix : list string := [storagePathRoot; storagePathVersion].
Definition repoPrefix : list string := rootPrefix ++ ["repositories"].

(** [blobAlgorithmReplacer.Replace]. *)
Fixpoint blobAlgorithmReplacer (s : string) : string :=
  match s with
  | "" => ""
  | String c s =>
      String (if bool_decide (c = "+"%char) || bool_decide (c = "."%char) || bool_decide (c = ";"%char)
              then slash else c) (blobAlgorithmReplacer s)
  end.

Section pathFor.
Context {GD : GoDigest}.

(** [hex[:2]] panics on an encoding shorter than two bytes. *)
Definition digestPathComponents (dgst : digest) (multilevel : bool) : outcome digest_err (list string) :=
  match digest_Validate dgst with
  | Some err => Fail err
  | None =>
      let algorithm := blobAlgorithmReplacer (digest_Algorithm dgst) in
      let hex := digest_Hex dgst in
      if multilevel then
        if String.length hex <? 2 then Panic
        else Ret [algorithm; str_take 2 hex; hex]
      else Ret [algorithm; hex]
  end.

(** The cases of [pathFor] that other cases call. *)
Definition manifestRevisionPath (name : string) (revision : digest) : outcome digest_err string :=
  let* components := digestPathComponents revision false in
  Ret (path_Join ((repoPrefix ++ [name; "_manifests"; "revisions"]) ++ components)).
Definition manifestTagsPath (name : string) : outcome digest_err string :=
  Ret (path_Join (repoPrefix ++ [name; "_manifests"; "tags"])).
Definition manifestTagPath (name tag : string) : outcome digest_err string :=
  let* root := manifestTagsPath name in Ret (path_Join [root; tag]).
Definition manifestTagIndexPath (name tag : string) : outcome digest_err string :=
  let* root := manifestTagPath name tag in Ret (path_Join [root; "index"]).
Definition manifestTagIndexEntryPath (name tag : string) (revision : digest) : outcome digest_err string :=
  let* root := manifestTagIndexPath name tag in
  let* components := digestPathComponents revision false in
  Ret (path_Join [root; path_Join components]).

Definition pathFor (spec : pathSpec) : outcome digest_err string :=
  match spec with
  | manifestRevisionsPathSpec name => Ret (path_Join (repoPrefix ++ [name; "_manifests"; "revisions"]))
  | manifestRevisionPathSpec name revision => manifestRevisionPath name revision
  | manifestRevisionLinkPathSpec name revision =>
      let* root := manifestRevisionPath name revision in Ret (path_Join [root; "link"])
  | manifestTagsPathSpec name => manifestTagsPath name
  | manifestTagPathSpec name tag => manifestTagPath name tag
  | manifestTagCurrentPathSpec name tag =>
      let* root := manifestTagPath name tag in Ret (path_Join [root; "current"; "link"])
  | manifestTagIndexPathSpec name tag => manifestTagIndexPath name tag
  | manifestTagIndexEntryLinkPathSpec name tag revision =>
      let* root := manifestTagIndexEntryPath name tag revision in Ret (path_Join [root; "link"])
  | manifestTagIndexEntryPathSpec name tag revision => manifestTagIndexEntryPath name tag revision
  | layerLinkPathSpec name dgst =>
      let* components := digestPathComponents dgst false in
      let blobLinkPathComponents := repoPrefix ++ [name; "_layers"] in
      Ret (path_Join [path_Join (blobLinkPathComponents ++ components); "link"])
  | blobsPathSpec => Ret (path_Join (rootPrefix ++ ["blobs"]))
  | blobPathSpec dgst =>
      let* components := digestPathComponents dgst true in
      Ret (path_Join ((rootPrefix ++ ["blobs"]) ++ components))
  | blobDataPathSpec dgst =>
      let* components := digestPathComponents dgst true in
      Ret (path_Join ((rootPrefix ++ ["blobs"]) ++ (components ++ ["data"])))
  | uploadDataPathSpec name id => Ret (path_Join (repoPrefix ++ [name; "_uploads"; id; "data"]))
  | uploadStartedAtPathSpec name id => Ret (path_Join (repoPrefix ++ [name; "_uploads"; id; "startedat"]))
  | uploadHashStatePathSpec name id alg offset lst =>
      let offset := if lst then "" else pretty offset in
      Ret (path_Join (repoPrefix ++ [name; "_uploads"; id; "hashstates"; alg; offset]))
  | repositoriesRootPathSpec => Ret (path_Join repoPrefix)
  | repositoryRootPathSpec name => Ret (path_Join (repoPrefix ++ [name]))
  end.

(** [digestFromPath]: the digest and the verdict of its validation; a last
    component shorter than two bytes makes [hex[:2]] panic. *)
Definition digestFromPath (digestPath : string) : outcome digest_err digest :=
  let digestPath := TrimSuffix digestPath "/data" in
  let '(dir, hex) := path_Split digestPath in
  let dir := path_Dir dir in
  let '(dir, next) := path_Split dir in
  if String.length hex <? 2 then Panic
  else
    let algo := if bool_decide (next = str_take 2 hex) then path_Base dir else next in
    let dgst := digest_NewDigestFromHex algo hex in
    match digest_Validate dgst with
    | Some err => Fail err
    | None => Ret dgst
    end.

End pathFor.

(** ** Safe names and the reference layout *)

(** One component that a storage driver accepts and that is not a dot. *)
Definition safe_comp (w : string) : bool := good_comp w && str_all path_char w.
(** A component of a repository name does not start with the underscore that
    marks the registry's own directories. *)
Definition name_comp (w : string) : bool := safe_comp w && negb (HasPrefix w "_").
Definition safe_name (name : string) : bool := forallb name_comp (Split slash name).

Section layout.
Context {GD : GoDigest}.

Definition valid (d : digest) : bool := bool_decide (digest_Validate d = None).

(** What the callers of the mapper guarantee about a specification. *)
Definition safe (spec : pathSpec) : bool :=
  match spec with
  | manifestRevisionsPathSpec name | manifestTagsPathSpec name | repositoryRootPathSpec name => safe_name name
  | manifestRevisionPathSpec name d | manifestRevisionLinkPathSpec name d | layerLinkPathSpec name d =>
      safe_name name && valid d
  | manifestTagPathSpec name tag | manifestTagCurrentPathSpec name tag | manifestTagIndexPathSpec name tag =>
      safe_name name && safe_comp tag
  | manifestTagIndexEntryPathSpec name tag d | manifestTagIndexEntryLinkPathSpec name tag d =>
      safe_name name && safe_comp tag && valid d
  | blobsPathSpec | repositoriesRootPathSpec => true
  | blobPathSpec d | blobDataPathSpec d => valid d
  | uploadDataPathSpec name id | uploadStartedAtPathSpec name id => safe_name name && safe_comp id
  | uploadHashStatePathSpec name id alg _ _ => safe_name name && safe_comp id && safe_comp alg
  end.

Definition repos (name : string) : list string :=
  ["docker"; "registry"; "v2"; "repositories"] ++ Split slash name.
Definition blobs : list string := ["docker"; "registry"; "v2"; "blobs"].
Definition flat (d : digest) : list string := [digest_Algorithm d; digest_Hex d].
Definition deep (d : digest) : list string := [digest_Algorithm d; str_take 2 (digest_Hex d); digest_Hex d].

(** The table of the documentation comment of [pathFor]. *)
Definition layout (spec : pathSpec) : list string :=
  match spec with
  | manifestRevisionsPathSpec name => repos name ++ ["_manifests"; "revisions"]
  | manifestRevisionPathSpec name d => repos name ++ ["_manifests"; "revisions"] ++ flat d
  | manifestRevisionLinkPathSpec name d => repos name ++ ["_manifests"; "revisions"] ++ flat d ++ ["link"]
  | manifestTagsPathSpec name => repos name ++ ["_manifests"; "tags"]
  | manifestTagPathSpec name tag => repos name ++ ["_manifests"; "tags"; tag]
  | manifestTagCurrentPathSpec name tag => repos name ++ ["_manifests"; "tags"; tag; "current"; "link"]
  | manifestTagIndexPathSpec name tag => repos name ++ ["_manifests"; "tags"; tag; "index"]
  | manifestTagIndexEntryPathSpec name tag d => repos name ++ ["_manifests"; "tags"; tag; "index"] ++ flat d
  | manifestTagIndexEntryLinkPathSpec name tag d =>
      repos name ++ ["_manifests"; "tags"; tag; "index"] ++ flat d ++ ["link"]
  | layerLinkPathSpec name d => repos name ++ ["_layers"] ++ flat d ++ ["link"]
  | blobsPathSpec => blobs
  | blobPathSpec d => blobs ++ deep d
  | blobDataPathSpec d => blobs ++ deep d ++ ["data"]
  | uploadDataPathSpec name id => repos name ++ ["_uploads"; id; "data"]
  | uploadStartedAtPathSpec name id => repos name ++ ["_uploads"; id; "startedat"]
  | uploadHashStatePathSpec name id alg offset lst =>
      repos name ++ ["_uploads"; id; "hashstates"; alg] ++ (if lst then [] else [pretty offset])
  | repositoriesRootPathSpec => ["docker"; "registry"; "v2"; "repositories"]
  | repositoryRootPathSpec name => repos name
  end.

(** *** Components *)

Context {GDL : GoDigestLaws}.

Lemma safe_good w : safe_comp w = true → good_comp w = true.
Proof. unfold safe_comp. by intros [? _]%andb_true_iff. Qed.
Lemma name_safe w : name_comp w = true → safe_comp w = true.
Proof. unfold name_comp. by intros [? _]%andb_true_iff. Qed.
Lemma safe_name_comps name : safe_name name = true → Forall (λ w, name_comp w = true) (Split slash name).
Proof. unfold safe_name. rewrite forallb_forall. intros H. apply Forall_forall. intros w ?%list_elem_of_In. auto. Qed.

(** A non-empty word over alphanumeric bytes and the minus sign is one safe
    component: it is neither of the dot components. *)
Definition word_char (c : ascii) : bool := alnum_char c || bool_decide (c = "-"%char).
Lemma word_path_char c : word_char c = true → path_char c = true.
Proof.
  unfold word_char, alnum_char, path_char. intros [[->|Hl]%orb_true_iff| ->]%orb_true_iff; [done| |].
  - rewrite Hl. by destruct (is_digit c).
  - by rewrite !orb_true_r.
Qed.
Lemma word_safe w : w ≠ "" → str_all word_char w = true → safe_comp w = true.
Proof.
  intros Hne Hw. unfold safe_comp, good_comp.
  rewrite bool_decide_true by done.
  rewrite !bool_decide_true by (intros ->; done).
  assert (str_all path_char w = true) as Hp by (revert Hw; apply str_all_impl, word_path_char).
  rewrite Hp. unfold no_byte. simpl. rewrite andb_true_r.
  revert Hp. apply str_all_impl, path_char_not_slash.
Qed.
Lemma hex_word_char c : hex_char c = true → word_char c = true.
Proof.
  unfold hex_char, word_char, alnum_char. intros [->|Hc]%orb_true_iff; [done|].
  assert (is_lower c = true) as ->; [|by destruct (is_digit c)].
  unfold is_lower, is_between in *. revert Hc. rewrite !andb_true_iff, !Nat.leb_le. vm_compute. lia.
Qed.
Lemma alnum_word_char c : alnum_char c = true → word_char c = true.
Proof. unfold word_char. by intros ->. Qed.

Lemma valid_None d : valid d = true → digest_Validate d = None.
Proof. apply bool_decide_eq_true_1. Qed.
Lemma safe_Algorithm d : valid d = true → safe_comp (digest_Algorithm d) = true.
Proof.
  intros Hv%valid_None. apply word_safe.
  - by apply digest_alg_chars, valid_format.
  - eapply str_all_impl; [apply alnum_word_char|by apply digest_alg_supported].
Qed.
Lemma safe_Hex d : valid d = true → safe_comp (digest_Hex d) = true.
Proof.
  intros [Hc Hl]%valid_None%digest_hex_chars. apply word_safe.
  - intros Hh. rewrite Hh in Hl. simpl in Hl. lia.
  - revert Hc. apply str_all_impl, hex_word_char.
Qed.
Lemma safe_Hex2 d : valid d = true → safe_comp (str_take 2 (digest_Hex d)) = true.
Proof.
  intros [Hc Hl]%valid_None%digest_hex_chars. apply word_safe.
  - intros Hh%(f_equal String.length). rewrite str_length_take, Nat.min_l in Hh by done. done.
  - eapply str_all_impl; [apply hex_word_char|]. by apply str_all_take.
Qed.

Lemma replacer_alnum s : str_all alnum_char s = true → blobAlgorithmReplacer s = s.
Proof.
  induction s as [|c s IH]; simpl; [done|]. intros [Hc Hs]%andb_true_iff. rewrite IH by done.
  rewrite !bool_decide_false by (by intros ->). done.
Qed.

Lemma pretty_N_go_word n acc : str_all word_char acc = true → str_all word_char (pretty_N_go n acc) = true.
Proof.
  revert acc. induction (N.lt_wf_0 n) as [n _ IH]; intros acc Hacc.
  destruct (decide (0 < n)%N) as [Hn|Hn].
  - rewrite pretty_N_go_step by done. apply IH; [by apply N.div_lt|]. simpl. rewrite Hacc, andb_true_r.
    unfold pretty_N_char. by repeat case_match.
  - assert (n = 0%N) as -> by lia. done.
Qed.
Lemma pretty_N_go_ne n acc : (0 < n)%N → pretty_N_go n acc ≠ "".
Proof.
  intros Hn. rewrite pretty_N_go_step by done.
  assert (∀ m c s, pretty_N_go m (String c s) ≠ "") as H; [|apply H].
  intros m. induction (N.lt_wf_0 m) as [m _ IH]; intros c s.
  destruct (decide (0 < m)%N) as [Hm|Hm].
  - rewrite pretty_N_go_step by done. apply IH. by apply N.div_lt.
  - assert (m = 0%N) as -> by lia. done.
Qed.
Lemma safe_offset (z : Z) : safe_comp (pretty z) = true.
Proof.
  apply word_safe; destruct z as [|p|p]; try done.
  - apply (pretty_N_go_ne (N.pos p)). lia.
  - apply (pretty_N_go_word (N.pos p)). done.
  - change (str_all word_char (String "-" (pretty (N.pos p))) = true). simpl.
    apply (pretty_N_go_word (N.pos p)). done.
Qed.

(** *** The mapper follows the layout *)

Ltac safe_comps :=
  repeat match goal with
  | |- Forall _ (_ ++ _) => apply Forall_app; split
  | |- Forall _ (_ :: _) => constructor
  | |- Forall _ [] => constructor
  end; try done; auto using safe_Algorithm, safe_Hex, safe_Hex2, safe_offset.

Lemma repos_safe name : safe_name name = true → Forall (λ w, safe_comp w = true) (repos name).
Proof.
  intros Hn. unfold repos. safe_comps.
  eapply Forall_impl; [by apply safe_name_comps|]. apply name_safe.
Qed.

Lemma layout_safe spec : safe spec = true → Forall (λ w, safe_comp w = true) (layout spec).
Proof.
  intros Hs. destruct spec; cbn [safe layout] in *; breflect;
    unfold flat, deep, blobs; try case_match; safe_comps; by apply repos_safe.
Qed.

Lemma layout_good spec : safe spec = true → Forall (λ w, good_comp w = true) (layout spec).
Proof. intros Hs. eapply Forall_impl; [by apply layout_safe|]. apply safe_good. Qed.

(** Joining onto the prefix of a repository. *)
Lemma repo_join name rest :
  safe_name name = true → Forall (λ w, clean_comp w = true) rest →
  path_Join (repoPrefix ++ name :: rest) = rootpath (repos name ++ filter (λ w, w ≠ "") rest).
Proof.
  intros Hn Hrest. apply safe_name_comps in Hn as Hcs.
  assert (Forall (λ w, good_comp w = true) (Split slash name)) as Hgood.
  { eapply Forall_impl; [done|]. auto using safe_good, name_safe. }
  assert (concat (Split slash <$> rest) = rest ∧ concat (comps <$> rest) = filter (λ w, w ≠ "") rest) as [Hs Hc].
  { clear -Hrest. induction Hrest as [|v vs Hv _ [IH1 IH2]]; [done|].
    rewrite !fmap_cons. cbn [concat]. rewrite IH1, IH2. unfold clean_comp in Hv.
    case_bool_decide as Hv0; [by subst v|]. simpl in Hv.
    rewrite Split_one, comps_one by done. by rewrite filter_cons_True. }
  change (repoPrefix ++ name :: rest) with (storagePathRoot :: "v2" :: "repositories" :: name :: rest).
  rewrite path_Join_rooted; rewrite ?fmap_cons; cbn [concat]; rewrite ?Hs, ?Hc.
  - rewrite (comps_good name (Split slash name)) by done. unfold repos. by rewrite <-!app_assoc.
  - done.
  - change (Split slash storagePathRoot) with (["" : string; "docker"; "registry"; ""]).
    change (Split slash "v2") with ["v2"]. change (Split slash "repositories") with ["repositories"].
    repeat (apply Forall_app; split); try done; try by repeat constructor.
    eapply Forall_impl; eauto with registry.
Qed.

Lemma filter_nonempty_good ws : Forall (λ w, good_comp w = true) ws → filter (λ w, w ≠ "") ws = ws.
Proof.
  induction 1 as [|w ws Hw _ IH]; [done|]. rewrite filter_cons_True, IH; [done|]. by apply good_comp_ne.
Qed.
Lemma repo_join_good name rest :
  safe_name name = true → Forall (λ w, good_comp w = true) rest →
  path_Join (repoPrefix ++ name :: rest) = rootpath (repos name ++ rest).
Proof.
  intros Hn Hrest. rewrite repo_join by (done || by (eapply Forall_impl; eauto with registry)).
  by rewrite filter_nonempty_good.
Qed.
Lemma blob_join rest :
  Forall (λ w, good_comp w = true) rest →
  path_Join (rootPrefix ++ "blobs" :: rest) = rootpath (blobs ++ rest).
Proof.
  intros Hrest.
  assert (concat (Split slash <$> rest) = rest ∧ concat (comps <$> rest) = rest) as [Hs Hc].
  { clear -Hrest. induction Hrest as [|v vs Hv _ [IH1 IH2]]; [done|].
    rewrite !fmap_cons. cbn [concat]. by rewrite Split_one, comps_one, IH1, IH2. }
  change (rootPrefix ++ "blobs" :: rest) with (storagePathRoot :: "v2" :: "blobs" :: rest).
  rewrite path_Join_rooted; rewrite ?fmap_cons; cbn [concat]; rewrite ?Hs, ?Hc; [done..|].
  repeat (apply Forall_app; split); try by repeat constructor.
  eapply Forall_impl; eauto with registry.
Qed.
Lemma path_Join_nested ws v vs :
  Forall (λ w, good_comp w = true) (ws ++ v :: vs) →
  path_Join [rootpath ws; path_Join (v :: vs)] = rootpath (ws ++ v :: vs).
Proof.
  intros [Hws Hvs]%Forall_app. rewrite (path_Join_relative v vs) by done.
  assert (Split slash (Join (v :: vs) "/") = v :: vs) as Hs.
  { apply Split_Join; [done|]. eapply Forall_impl; eauto with registry. }
  rewrite path_Join_rooted; rewrite ?fmap_cons; cbn [concat fmap list_fmap].
  - rewrite (comps_good (Join (v :: vs) "/") (v :: vs)) by done. rewrite app_nil_r. do 2 f_equal.
    destruct ws; [done|]. by apply comps_abspath.
  - by destruct ws.
  - rewrite Hs, app_nil_r. apply Forall_app. split; [by apply Split_rootpath|].
    eapply Forall_impl; eauto with registry.
Qed.

Lemma digestPathComponents_flat d : valid d = true → digestPathComponents d false = Ret (flat d).
Proof.
  intros Hv%valid_None. unfold digestPathComponents. rewrite Hv.
  by rewrite replacer_alnum by by apply digest_alg_supported.
Qed.
Lemma digestPathComponents_deep d : valid d = true → digestPathComponents d true = Ret (deep d).
Proof.
  intros Hv%valid_None. unfold digestPathComponents. rewrite Hv.
  rewrite replacer_alnum by by apply digest_alg_supported.
  destruct (digest_hex_chars d Hv) as [_ Hl]. by rewrite (proj2 (Nat.ltb_ge _ _)).
Qed.

Lemma rootpath_app name ws : rootpath (repos name ++ ws) = abspath (repos name ++ ws).
Proof. done. Qed.

Ltac good_comps := safe_comps; auto using safe_good, safe_Algorithm, safe_Hex, safe_Hex2, safe_offset.

Lemma repos_good name : safe_name name = true → Forall (λ w, good_comp w = true) (repos name).
Proof. intros. eapply Forall_impl; [by apply repos_safe|]. apply safe_good. Qed.

Lemma repos_app_good name ws :
  safe_name name = true → Forall (λ w, good_comp w = true) ws →
  Forall (λ w, good_comp w = true) (repos name ++ ws).
Proof. intros. apply Forall_app. split; [by apply repos_good|done]. Qed.

Lemma manifestRevisionPath_layout name d :
  safe_name name = true → valid d = true →
  manifestRevisionPath name d = Ret (rootpath (layout (manifestRevisionPathSpec name d))).
Proof.
  intros Hn Hd. unfold manifestRevisionPath. rewrite digestPathComponents_flat by done. cbn [obind].
  rewrite <-(app_assoc repoPrefix).
  change ([name; "_manifests"; "revisions"] ++ flat d) with (name :: ["_manifests"; "revisions"] ++ flat d).
  rewrite repo_join_good; [done..|]. unfold flat. good_comps.
Qed.
Lemma manifestTagPath_layout name tag :
  safe_name name = true → safe_comp tag = true →
  manifestTagPath name tag = Ret (rootpath (layout (manifestTagPathSpec name tag))).
Proof.
  intros Hn Ht. unfold manifestTagPath, manifestTagsPath. cbn [obind].
  rewrite repo_join_good by (done || good_comps).
  rewrite path_Join_comps; rewrite <-(app_assoc (repos name)); [done|].
  apply repos_app_good; [done|]. good_comps.
Qed.
Lemma manifestTagIndexPath_layout name tag :
  safe_name name = true → safe_comp tag = true →
  manifestTagIndexPath name tag = Ret (rootpath (layout (manifestTagIndexPathSpec name tag))).
Proof.
  intros Hn Ht. unfold manifestTagIndexPath. rewrite manifestTagPath_layout by done. cbn [obind layout].
  rewrite path_Join_comps; rewrite <-(app_assoc (repos name)); [done|].
  apply repos_app_good; [done|]. good_comps.
Qed.
Lemma manifestTagIndexEntryPath_layout name tag d :
  safe_name name = true → safe_comp tag = true → valid d = true →
  manifestTagIndexEntryPath name tag d = Ret (rootpath (layout (manifestTagIndexEntryPathSpec name tag d))).
Proof.
  intros Hn Ht Hd. unfold manifestTagIndexEntryPath.
  rewrite manifestTagIndexPath_layout, digestPathComponents_flat by done. cbn [obind layout]. unfold flat.
  rewrite path_Join_nested; rewrite <-(app_assoc (repos name)); [done|].
  apply repos_app_good; [done|]. good_comps.
Qed.

(** Appending constant components to a path of a repository. *)
Lemma repos_join_comps name ws vs :
  safe_name name = true → Forall (λ w, good_comp w = true) (ws ++ vs) →
  path_Join (rootpath (repos name ++ ws) :: vs) = rootpath (repos name ++ ws ++ vs).
Proof.
  intros Hn Hg. rewrite path_Join_comps; rewrite <-(app_assoc (repos name)); [done|].
  by apply repos_app_good.
Qed.

Lemma pathFor_layout spec : safe spec = true → pathFor spec = Ret (abspath (layout spec)).
Proof.
  intros Hs. destruct spec; cbn [safe pathFor] in *; breflect;
    rewrite ?manifestRevisionPath_layout, ?manifestTagPath_layout, ?manifestTagIndexPath_layout,
      ?manifestTagIndexEntryPath_layout, ?digestPathComponents_flat, ?digestPathComponents_deep by done;
    cbn [obind layout]; try done; unfold manifestTagsPath, flat, deep; f_equal;
    try (rewrite repos_join_comps; [done..|good_comps]);
    try (rewrite repo_join_good; [done..|good_comps]).
  - rewrite <-(app_assoc repoPrefix).
    change ([name; "_layers"] ++ ?l) with (name :: "_layers" :: l).
    rewrite repo_join_good, repos_join_comps; [done..|good_comps|done|good_comps].
  - rewrite <-(app_assoc rootPrefix). cbn [app]. apply (blob_join [_; _; _]). good_comps.
  - rewrite <-(app_assoc rootPrefix). cbn [app]. apply (blob_join [_; _; _; _]). good_comps.
  - destruct lst; [|rewrite repo_join_good; [done..|good_comps]].
    rewrite repo_join; [|done|].
    + rewrite !filter_cons_True, filter_cons_False by (try apply good_comp_ne; good_comps).
      done.
    + repeat constructor; auto using good_clean_comp, safe_good.
  - rewrite repo_join_good by done. by rewrite app_nil_r.
Qed.

(** *** No two objects share a path *)

(** The offset of a hash-state directory is not part of its path. *)
Definition normal (spec : pathSpec) : bool :=
  match spec with
  | uploadHashStatePathSpec _ _ _ offset true => bool_decide (offset = 0%Z)
  | _ => true
  end.

(** A tail below a repository starts with one of the registry's directories. *)
Definition marked (l : list string) : bool :=
  match l with
  | [] => true
  | w :: _ => HasPrefix w "_"
  end.

Lemma name_comp_unmarked w l : name_comp w = true → marked (w :: l) = false.
Proof. unfold name_comp. intros Hw. breflect. done. Qed.
Lemma name_comps_inj l1 l2 r1 r2 :
  Forall (λ w, name_comp w = true) l1 → Forall (λ w, name_comp w = true) l2 →
  marked r1 = true → marked r2 = true → l1 ++ r1 = l2 ++ r2 → l1 = l2 ∧ r1 = r2.
Proof.
  intros H1. revert l2. induction H1 as [|w l1 Hw _ IH]; intros l2 H2 Hr1 Hr2 Heq;
    destruct H2 as [|w2 l2 Hw2 H2]; [done| | |].
  - cbn [app] in Heq. rewrite Heq in Hr1. by rewrite (name_comp_unmarked w2) in Hr1.
  - cbn [app] in Heq. rewrite <-Heq in Hr2. by rewrite (name_comp_unmarked w) in Hr2.
  - injection Heq as -> Heq. destruct (IH l2) as [-> ->]; done.
Qed.

Lemma repos_inj n1 n2 r1 r2 :
  safe_name n1 = true → safe_name n2 = true → marked r1 = true → marked r2 = true →
  repos n1 ++ r1 = repos n2 ++ r2 → n1 = n2 ∧ r1 = r2.
Proof.
  intros H1 H2 Hr1 Hr2. unfold repos. rewrite <-!app_assoc. intros Heq%(inj (app _)).
  apply name_comps_inj in Heq as [Hn ->]; auto using safe_name_comps. split; [|done].
  by rewrite <-(Join_Split slash n1), <-(Join_Split slash n2), Hn.
Qed.

Lemma valid_inj d e :
  valid d = true → valid e = true →
  digest_Algorithm d = digest_Algorithm e → digest_Hex d = digest_Hex e → d = e.
Proof. intros ?%valid_None ?%valid_None. by apply digest_parts_inj. Qed.

(** The tail of the layout below the repository or the root directory. *)
Definition below (spec : pathSpec) : option string * list string :=
  match spec with
  | manifestRevisionsPathSpec name => (Some name, ["_manifests"; "revisions"])
  | manifestRevisionPathSpec name d => (Some name, ["_manifests"; "revisions"] ++ flat d)
  | manifestRevisionLinkPathSpec name d => (Some name, ["_manifests"; "revisions"] ++ flat d ++ ["link"])
  | manifestTagsPathSpec name => (Some name, ["_manifests"; "tags"])
  | manifestTagPathSpec name tag => (Some name, ["_manifests"; "tags"; tag])
  | manifestTagCurrentPathSpec name tag => (Some name, ["_manifests"; "tags"; tag; "current"; "link"])
  | manifestTagIndexPathSpec name tag => (Some name, ["_manifests"; "tags"; tag; "index"])
  | manifestTagIndexEntryPathSpec name tag d => (Some name, ["_manifests"; "tags"; tag; "index"] ++ flat d)
  | manifestTagIndexEntryLinkPathSpec name tag d =>
      (Some name, ["_manifests"; "tags"; tag; "index"] ++ flat d ++ ["link"])
  | layerLinkPathSpec name d => (Some name, ["_layers"] ++ flat d ++ ["link"])
  | uploadDataPathSpec name id => (Some name, ["_uploads"; id; "data"])
  | uploadStartedAtPathSpec name id => (Some name, ["_uploads"; id; "startedat"])
  | uploadHashStatePathSpec name id alg offset lst =>
      (Some name, ["_uploads"; id; "hashstates"; alg] ++ (if lst then [] else [pretty offset]))
  | repositoryRootPathSpec name => (Some name, [])
  | _ => (None, layout spec)
  end.

Lemma layout_below spec :
  layout spec = match below spec with (Some name, l) => repos name ++ l | (None, l) => l end.
Proof. destruct spec; try done. cbn [below layout]. by rewrite app_nil_r. Qed.
Lemma below_marked spec name l :
  below spec = (Some name, l) → safe spec = true → marked l = true ∧ safe_name name = true.
Proof. intros Hb Hs. destruct spec; simplify_eq/=; breflect; done. Qed.
(** Repositories are not among the blobs. *)
Lemma below_repos spec name l : below spec = (None, l) → safe_name name = true → ∀ r, l ≠ repos name ++ r.
Proof.
  intros Hb Hn r ->. destruct spec; simplify_eq/=.
  unfold repos in *. destruct (Split slash name) eqn:Hsp; [|done].
  by apply (Split_ne_nil slash name) in Hsp.
Qed.
Lemma below_inj s1 s2 :
  safe s1 = true → safe s2 = true → normal s1 = true → normal s2 = true → below s1 = below s2 → s1 = s2.
Proof.
  destruct s1, s2; intros Hs1 Hs2 Hn1 Hn2 Hb; simplify_eq/=; try done; breflect;
    repeat match goal with
    | H : digest_Hex ?d = digest_Hex ?e |- _ =>
        assert (d = e) as -> by (by apply valid_inj); clear H
    end; try done.
  all: repeat case_match; simplify_eq/=; breflect; by subst.
Qed.

Lemma layout_inj s1 s2 :
  safe s1 = true → safe s2 = true → normal s1 = true → normal s2 = true → layout s1 = layout s2 → s1 = s2.
Proof.
  intros Hs1 Hs2 Hn1 Hn2. rewrite !layout_below.
  destruct (below s1) as [[n1|] l1] eqn:H1, (below s2) as [[n2|] l2] eqn:H2; intros Heq.
  - destruct (below_marked _ _ _ H1 Hs1), (below_marked _ _ _ H2 Hs2).
    apply repos_inj in Heq as [-> ->]; [|done..]. apply below_inj; congruence.
  - destruct (below_marked _ _ _ H1 Hs1). by destruct (below_repos _ n1 _ H2 ltac:(done) l1).
  - destruct (below_marked _ _ _ H2 Hs2). by destruct (below_repos _ n2 _ H1 ltac:(done) l2).
  - apply below_inj; congruence.
Qed.

(** A path over safe components is one that a driver accepts. *)
Lemma PathRegexp_abspath ws :
  ws ≠ [] → Forall (λ w, safe_comp w = true) ws → PathRegexp_MatchString (abspath ws) = true.
Proof.
  intros Hne Hws. destruct ws as [|w ws]; [done|].
  rewrite abspath_Join. change ("/" +:+ ?s) with (String slash s). cbn [PathRegexp_MatchString].
  rewrite bool_decide_true by done. change "/" with (String slash ""). rewrite Split_Join; [|done|].
  - apply forallb_forall. intros v Hv%list_elem_of_In.
    rewrite Forall_forall in Hws. specialize (Hws v Hv). unfold safe_comp in Hws. breflect.
    apply andb_true_iff. split; [|done]. apply bool_decide_eq_true_2. by apply good_comp_ne.
  - eapply Forall_impl; [done|]. intros v Hv. by apply good_comp_no_slash, safe_good.
Qed.
Lemma layout_ne spec : layout spec ≠ [].
Proof. by destruct spec. Qed.

(** Joining a name to a path by hand. *)
Lemma abspath_Split name : abspath (Split slash name) = String slash name.
Proof.
  rewrite abspath_Join_gen by apply Split_ne_nil. change "/" with (String slash "").
  by rewrite (Join_Split slash name).
Qed.
Lemma abspath_repos name ws :
  abspath (repos name ++ ws) = "/docker/registry/v2/repositories/" +:+ name +:+ abspath ws.
Proof.
  unfold repos. rewrite !abspath_app, abspath_Split, <-str_app_assoc. done.
Qed.

(** Components determine an absolute path. *)
Lemma abspath_inj ws vs :
  Forall (λ w, good_comp w = true) ws → Forall (λ w, good_comp w = true) vs →
  abspath ws = abspath vs → ws = vs.
Proof. intros Hws Hvs Heq. by rewrite <-(comps_abspath ws), <-(comps_abspath vs), Heq. Qed.

(** *** Recovering digests from paths *)

Lemma safe_snoc ws w : Forall (λ w, safe_comp w = true) (ws ++ [w]) →
  good_comp w = true ∧ Forall (λ w, good_comp w = true) ws.
Proof.
  intros [Hws [Hw _]%Forall_cons]%Forall_app. split; [by apply safe_good|].
  eapply Forall_impl; [done|]. apply safe_good.
Qed.

(** One level of [path.Split] and [path.Dir]. *)
Lemma digest_split ws w :
  ws ≠ [] → Forall (λ w, good_comp w = true) ws → good_comp w = true →
  path_Split (abspath (ws ++ [w])) = (abspath ws +:+ "/", w) ∧ path_Dir (abspath ws +:+ "/") = abspath ws.
Proof.
  intros Hne Hws Hw. split; [by apply path_Split_snoc|].
  unfold path_Dir. rewrite path_Split_trailing. cbn [fst].
  rewrite Clean_abspath_slash by done. by destruct ws.
Qed.

Lemma validate_join d : valid d = true →
  digest_NewDigestFromHex (digest_Algorithm d) (digest_Hex d) = d ∧ digest_Validate d = None ∧
  (String.length (digest_Hex d) <? 2) = false.
Proof.
  intros Hv%valid_None. rewrite digest_NewDigestFromHex_spec, <-digest_parts by auto using valid_format.
  split_and!; [done..|]. apply Nat.ltb_ge. by apply digest_hex_chars.
Qed.

Lemma digestFromPath_deep ws d :
  Forall (λ w, good_comp w = true) ws → valid d = true →
  digestFromPath (abspath (ws ++ deep d ++ ["data"])) = Ret d.
Proof.
  intros Hws Hv. unfold deep, digestFromPath.
  destruct (validate_join d Hv) as (Hj & Hn & Hl).
  assert (good_comp (digest_Algorithm d) = true) as Ha by auto using safe_good, safe_Algorithm.
  assert (good_comp (digest_Hex d) = true) as Hh by auto using safe_good, safe_Hex.
  assert (good_comp (str_take 2 (digest_Hex d)) = true) as H2 by auto using safe_good, safe_Hex2.
  assert (abspath (ws ++ [digest_Algorithm d; str_take 2 (digest_Hex d); digest_Hex d] ++ ["data"]) =
    abspath (((ws ++ [digest_Algorithm d]) ++ [str_take 2 (digest_Hex d)]) ++ [digest_Hex d]) +:+ "/data") as ->.
  { rewrite <-!app_assoc. cbn [app].
    change "/data" with (abspath ["data"]). rewrite <-abspath_app, <-app_assoc. done. }
  rewrite TrimSuffix_app.
  assert (Forall (λ w, good_comp w = true) (ws ++ [digest_Algorithm d])) as Hws1 by good_comps.
  destruct (digest_split ((ws ++ [digest_Algorithm d]) ++ [str_take 2 (digest_Hex d)]) (digest_Hex d))
    as [-> ->]; [by destruct ws|by good_comps|done|].
  rewrite path_Split_snoc, Hl, bool_decide_true, path_Base_snoc by done. by rewrite Hj, Hn.
Qed.

Lemma digestFromPath_flat ws d :
  ws ≠ [] → Forall (λ w, good_comp w = true) ws → valid d = true →
  digest_Algorithm d ≠ str_take 2 (digest_Hex d) →
  digestFromPath (abspath (ws ++ flat d)) = Ret d.
Proof.
  intros Hne Hws Hv Hneq. unfold flat, digestFromPath.
  destruct (validate_join d Hv) as (Hj & Hn & Hl).
  assert (good_comp (digest_Algorithm d) = true) as Ha by auto using safe_good, safe_Algorithm.
  assert (good_comp (digest_Hex d) = true) as Hh by auto using safe_good, safe_Hex.
  change [digest_Algorithm d; digest_Hex d] with ([digest_Algorithm d] ++ [digest_Hex d]). rewrite app_assoc.
  assert (TrimSuffix (abspath ((ws ++ [digest_Algorithm d]) ++ [digest_Hex d])) "/data" =
    abspath ((ws ++ [digest_Algorithm d]) ++ [digest_Hex d])) as ->.
  { unfold TrimSuffix. destruct (HasSuffix _ _) eqn:Hs; [|done].
    apply HasSuffix_spec in Hs as [u Hu]. apply (f_equal path_Split) in Hu.
    change "/data" with (String slash "data") in Hu. rewrite path_Split_snoc, path_Split_app in Hu by done. injection Hu as _ Hu.
    apply valid_None, digest_hex_chars in Hv as [Hc _]. by rewrite Hu in Hc. }
  destruct (digest_split (ws ++ [digest_Algorithm d]) (digest_Hex d)) as [-> ->];
    [by destruct ws|by good_comps|done|].
  by rewrite path_Split_snoc, Hl, bool_decide_false, Hj, Hn by done.
Qed.

(** The digest of a specification, for those that hold one. *)
Definition spec_digest (spec : pathSpec) : option digest :=
  match spec with
  | manifestRevisionPathSpec _ d | manifestRevisionLinkPathSpec _ d | manifestTagIndexEntryPathSpec _ _ d
  | manifestTagIndexEntryLinkPathSpec _ _ d | layerLinkPathSpec _ d | blobPathSpec d | blobDataPathSpec d => Some d
  | _ => None
  end.
Lemma digestPathComponents_invalid d e multilevel :
  digest_Validate d = Some e → digestPathComponents d multilevel = Fail e.
Proof. unfold digestPathComponents. by intros ->. Qed.

End layout.

(** ** Properties *)

(** The mapper turns every specification built from a repository name, a
    tag, an upload id and a valid digest into exactly the path of the
    documented table, and that path is one every storage driver accepts. *)
Theorem pathFor_documented_layout {GD : GoDigest} {GDL : GoDigestLaws} spec :
  safe spec = true →
  pathFor spec = Ret (abspath (layout spec)) ∧ PathRegexp_MatchString (abspath (layout spec)) = true.
Proof.
  intros Hs. split; [by apply pathFor_layout|]. apply PathRegexp_abspath; [apply layout_ne|by apply layout_safe].
Qed.

(** C32: no two objects share a path: two specifications that the mapper sends
    to the same path are the same specification, if they are safe and normal.  A
    specification is safe when its repository name is a path of components that
    do not start with an underscore, its tag, upload and algorithm are components
    of a path, and its digest is valid; it is normal unless it asks for the list
    of the hash states of an upload and has an offset, which the path of the list
    does not show. *)
Theorem pathFor_injective {GD : GoDigest} {GDL : GoDigestLaws} s1 s2 :
  safe s1 = true → safe s2 = true → normal s1 = true → normal s2 = true →
  pathFor s1 = pathFor s2 → s1 = s2.
Proof.
  intros Hs1 Hs2 Hn1 Hn2. rewrite !pathFor_layout by done. intros [= Heq].
  apply layout_inj; auto. apply abspath_inj in Heq; auto using layout_good.
Qed.

(** A digest is recovered from the paths that hold it: from the data file
    of its blob, and from the directory of its revision or layer link. *)
Theorem digestFromPath_pathFor {GD : GoDigest} {GDL : GoDigestLaws} name d :
  safe_name name = true → valid d = true → digest_Algorithm d ≠ str_take 2 (digest_Hex d) →
  (obind (pathFor (blobDataPathSpec d)) digestFromPath = Ret d) ∧
  (obind (pathFor (manifestRevisionPathSpec name d)) digestFromPath = Ret d) ∧
  (obind (pathFor (layerLinkPathSpec name d)) (λ p, digestFromPath (path_Dir p)) = Ret d).
Proof.
  intros Hn Hv Hneq. rewrite !pathFor_layout by (cbn [safe]; by rewrite ?Hn, ?Hv). cbn [obind layout].
  split_and!.
  - by apply digestFromPath_deep; [repeat constructor|].
  - rewrite app_assoc. apply digestFromPath_flat; try done. apply repos_app_good; [done|by repeat constructor].
  - rewrite !app_assoc. unfold path_Dir. rewrite path_Split_snoc by done. cbn [fst].
    rewrite Clean_abspath_slash.
    + change (rootpath ((repos name ++ ["_layers"]) ++ flat d)) with (abspath ((repos name ++ ["_layers"]) ++ flat d)).
      apply digestFromPath_flat; try done. apply repos_app_good; [done|by repeat constructor].
    + rewrite <-app_assoc. apply repos_app_good; [done|].
      repeat constructor; auto using safe_good, safe_Algorithm, safe_Hex.
Qed.

(** A specification with a malformed, unsupported or truncated digest has
    no path: the mapper returns the verdict of the validation. *)
Theorem pathFor_invalid_digest {GD : GoDigest} spec d e :
  spec_digest spec = Some d → digest_Validate d = Some e → pathFor spec = Fail e.
Proof.
  intros Hs He. destruct spec; simplify_eq/=;
    unfold manifestTagIndexEntryPath, manifestRevisionPath; by erewrite digestPathComponents_invalid by done.
Qed.

(** *** Witnesses *)

Definition sample_digest : digest :=
  "sha256:b5bb9d8014a0f9b1d61e21e796d78dccdf1352f23cd32812f4850b878ae4944c".

Lemma pathFor_documented_layout_witness :
  pathFor (manifestTagIndexEntryLinkPathSpec "library/alpine" "3.12" sample_digest) =
    Ret ("/docker/registry/v2/repositories/library/alpine/_manifests/tags/3.12/index/sha256/" +:+
         "b5bb9d8014a0f9b1d61e21e796d78dccdf1352f23cd32812f4850b878ae4944c/link").
Proof.
  refine (proj1 (pathFor_documented_layout (manifestTagIndexEntryLinkPathSpec "library/alpine" "3.12" sample_digest) _)).
  vm_compute. reflexivity.
Defined.

Lemma pathFor_injective_witness :
  let s1 := blobDataPathSpec sample_digest in
  let s2 := blobDataPathSpec ("sha256:" +:+ "b5bb9d8014a0f9b1d61e21e796d78dccdf1352f23cd32812f4850b878ae4944c") in
  s1 = s2.
Proof. apply pathFor_injective; vm_compute; reflexivity. Defined.

Lemma digestFromPath_pathFor_witness :
  obind (pathFor (blobDataPathSpec sample_digest)) digestFromPath = Ret sample_digest.
Proof.
  refine (proj1 (digestFromPath_pathFor "library/alpine" sample_digest _ _ _));
    [vm_compute; reflexivity..|vm_compute; discriminate].
Defined.

Lemma pathFor_invalid_digest_witness :
  pathFor (layerLinkPathSpec "library/alpine" "sha256:b5bb") = Fail ErrDigestInvalidLength.
Proof. apply (pathFor_invalid_digest _ "sha256:b5bb"); vm_compute; reflexivity. Defined.

End Paths.
