(* ===== verification/FileSystem.v ===== *)
(** * What a storage driver promises

    The documentation of the driver interface, as a contract: a driver's state
    is seen through a file system, a partial map from paths to entries, and
    every method is described by its effect on that map.  The components above
    the drivers are verified against this contract; InMemory.v discharges it
    for the in-memory driver, and this file for the base driver over any driver
    that meets it. *)

From S2P Require Import Prelude GoStd Digest Driver.

(** ** File systems *)

(** A path is the list of its components, and [[]] is the root directory. *)
Abbreviation fpath := (list string) (only parsing).
Inductive entry := EFile (c : bytes) | EDir.
Definition fs := fpath → option entry.

#[export] Instance entry_eq_dec : EqDecision entry.
Proof. solve_decision. Defined.

Definition proper_prefix (q ks : fpath) : Prop := q `prefix_of` ks ∧ q ≠ ks.
#[export] Instance proper_prefix_dec q ks : Decision (proper_prefix q ks) := and_dec _ _.

Definition is_file (v : fs) (ks : fpath) : Prop := ∃ c, v ks = Some (EFile c).
(** A file on the way to a path makes it impossible to create. *)
Definition blocked (v : fs) (ks : fpath) : Prop := ∃ q, proper_prefix q ks ∧ is_file v q.

(** The effect of creating directories, writing, deleting and moving. *)
Definition fs_mkdirs (v : fs) (ks : fpath) : fs := λ q,
  if decide (q `prefix_of` ks) then Some EDir else v q.
Definition fs_put (v : fs) (ks : fpath) (c : bytes) : fs := λ q,
  if decide (q = ks) then Some (EFile c)
  else if decide (q `prefix_of` ks) then Some EDir else v q.
Definition fs_delete (v : fs) (ks : fpath) : fs := λ q,
  if decide (ks `prefix_of` q) then None else v q.
Definition fs_move (v : fs) (src dst : fpath) (c : bytes) : fs := λ q,
  if decide (q = dst) then Some (EFile c)
  else if decide (q `prefix_of` dst) then Some EDir
  else if decide (q = src) then None else v q.

Definition fs_delete_all (v : fs) (kss : list fpath) : fs := λ q,
  if decide (Exists (λ ks, ks `prefix_of` q) kss) then None else v q.

(** The names of the entries of a directory. *)
Definition fs_children (v : fs) (ks : fpath) (names : list string) : Prop :=
  NoDup names ∧ ∀ x, x ∈ names ↔ is_Some (v (ks ++ [x])).

Definition not_found {A} (o : outcome error A) : Prop := ∃ p n, o = Fail (PathNotFoundError p n).

(** ** The contract *)

(** [ok] are the paths the driver supports. *)
Class DriverLaws {St} (D : StorageDriver St) (view : St → fs) (inv : St → Prop) (ok : fpath → Prop) : Prop := {
  law_ok ks : ok ks → ks ≠ [] ∧ Forall (λ w, good_comp w = true) ks;
  law_root s : inv s → view s [] = Some EDir;
  law_parent s ks k : inv s → is_Some (view s (ks ++ [k])) → view s ks = Some EDir;
  law_view_ok s ks : inv s → is_Some (view s ks) → ks = [] ∨ ok ks;

  law_get s ks c : inv s → ok ks → view s ks = Some (EFile c) →
    drv_GetContent (abspath ks) s = (Ret c, s);
  law_get_missing s ks : inv s → ok ks → view s ks = None →
    ∃ n, drv_GetContent (abspath ks) s = (Fail (PathNotFoundError (abspath ks) n), s);

  law_reader s ks c off : inv s → ok ks → view s ks = Some (EFile c) → (0 ≤ off ≤ Z.of_nat (String.length c))%Z →
    ∃ r, drv_Reader (abspath ks) off s = (Ret r, s) ∧ rd_ReadAll r s = (Ret (str_drop (Z.to_nat off) c), s);
  law_reader_missing s ks off : inv s → ok ks → view s ks = None → (0 ≤ off)%Z →
    ∃ n, drv_Reader (abspath ks) off s = (Fail (PathNotFoundError (abspath ks) n), s);

  law_put s ks c : inv s → ok ks → view s ks ≠ Some EDir → ¬ blocked (view s) ks →
    ∃ s', drv_PutContent (abspath ks) c s = (Ret tt, s') ∧ inv s' ∧ ∀ q, view s' q = fs_put (view s) ks c q;

  law_stat_file s ks c : inv s → ok ks → view s ks = Some (EFile c) →
    ∃ t, drv_Stat (abspath ks) s =
      (Ret {| fi_Path := abspath ks; fi_Size := Z.of_nat (String.length c); fi_ModTime := t; fi_IsDir := false |}, s);
  law_stat_dir s ks : inv s → ok ks → view s ks = Some EDir →
    ∃ t, drv_Stat (abspath ks) s =
      (Ret {| fi_Path := abspath ks; fi_Size := 0; fi_ModTime := t; fi_IsDir := true |}, s);
  law_stat_missing s ks : inv s → ok ks → view s ks = None →
    ∃ n, drv_Stat (abspath ks) s = (Fail (PathNotFoundError (abspath ks) n), s);

  law_list s k ks : inv s → ok (k :: ks) → view s (k :: ks) = Some EDir → view s ((k :: ks) ++ [k]) = None →
    ∃ names, drv_List (abspath (k :: ks)) s = (Ret (sort_Strings ((λ x, abspath ((k :: ks) ++ [x])) <$> names)), s) ∧
      fs_children (view s) (k :: ks) names;
  law_list_missing s ks : inv s → ok ks → view s ks = None → ¬ blocked (view s) ks →
    ∃ n, drv_List (abspath ks) s = (Fail (PathNotFoundError (abspath ks) n), s);

  law_move s src dst c : inv s → ok src → ok dst → view s src = Some (EFile c) →
    view s dst ≠ Some EDir → ¬ blocked (view s) dst →
    ∃ s', drv_Move (abspath src) (abspath dst) s = (Ret tt, s') ∧ inv s' ∧ ∀ q, view s' q = fs_move (view s) src dst c q;

  law_delete s ks : inv s → ok ks → is_Some (view s ks) →
    ∃ s', drv_Delete (abspath ks) s = (Ret tt, s') ∧ inv s' ∧ ∀ q, view s' q = fs_delete (view s) ks q;
  law_delete_missing s ks : inv s → ok ks → view s ks = None → ¬ blocked (view s) ks →
    ∃ n, drv_Delete (abspath ks) s = (Fail (PathNotFoundError (abspath ks) n), s);
  law_delete_files s kss : inv s → Forall (λ ks, ok ks ∧ ¬ blocked (view s) ks) kss →
    ∃ s', drv_DeleteFiles (abspath <$> kss) s = (Ret (Z.of_nat (length kss), None), s') ∧ inv s' ∧
      ∀ q, view s' q = fs_delete_all (view s) kss q;
}.

(** ** Writers

    The contract of the writers of a driver that writes through: what has been
    written is the content of the file at once.  [opened s w ks b st]: the writer
    [w] is in the state [st], at the path [ks] with the content [b].  The drivers
    differ on a writer that is closed already: most refuse to close or to cancel
    it, the Google Cloud Storage driver does nothing for the one and removes the
    file for the other.  The contract allows both. *)

(** [WDone]: canceled and closed. *)
Inductive wstate := WOpen | WCommitted | WClosed | WCanceled | WDone.
Definition has_file (st : wstate) : bool := match st with WCanceled | WDone => false | _ => true end.
Definition is_closed (st : wstate) : bool := match st with WClosed | WDone => true | _ => false end.

(** The content that a writer opened for appending starts with. *)
Definition old_bytes (v : fs) (ks : fpath) : bytes :=
  match v ks with Some (EFile c) => c | _ => "" end.

Class WriterLaws {St} (D : StorageDriver St) (view : St → fs) (inv : St → Prop) (ok : fpath → Prop)
    (opened : St → drv_writer → fpath → bytes → wstate → Prop) : Prop := {
  wlaw_view s w ks b st : inv s → opened s w ks b st → has_file st = true → view s ks = Some (EFile b);
  wlaw_open s ks (ap : bool) : inv s → ok ks → view s ks ≠ Some EDir → ¬ blocked (view s) ks →
    let b := if ap then old_bytes (view s) ks else "" in
    ∃ w s', drv_Writer (abspath ks) ap s = (Ret w, s') ∧ inv s' ∧ opened s' w ks b WOpen ∧
      ∀ q, view s' q = fs_put (view s) ks b q;
  wlaw_write s w ks b b' : inv s → opened s w ks b WOpen →
    ∃ s', wr_Write w b' s = (Ret (Z.of_nat (String.length b')), s') ∧ inv s' ∧ opened s' w ks (b +:+ b') WOpen ∧
      ∀ q, view s' q = if decide (q = ks) then Some (EFile (b +:+ b')) else view s q;
  wlaw_size s w ks b st : inv s → opened s w ks b st → has_file st = true →
    wr_Size w s = (Ret (Z.of_nat (String.length b)), s);
  wlaw_commit s w ks b : inv s → opened s w ks b WOpen →
    ∃ s', wr_Commit w s = (Ret tt, s') ∧ inv s' ∧ opened s' w ks b WCommitted ∧ ∀ q, view s' q = view s q;
  wlaw_close s w ks b st : inv s → opened s w ks b st → is_closed st = false →
    ∃ s', wr_Close w s = (Ret tt, s') ∧ inv s' ∧ opened s' w ks b (if has_file st then WClosed else WDone) ∧
      ∀ q, view s' q = view s q;
  wlaw_closed s w ks b st : inv s → opened s w ks b st → is_closed st = true →
    ∃ r, wr_Close w s = (r, s) ∧ r ≠ Panic;
  wlaw_cancel_closed s w ks b : inv s → ok ks → opened s w ks b WClosed →
    (∃ e, wr_Cancel w s = (Fail e, s)) ∨
    (∃ s', wr_Cancel w s = (Ret tt, s') ∧ inv s' ∧ opened s' w ks b WDone ∧ ∀ q, view s' q = fs_delete (view s) ks q);
  wlaw_cancel s w ks b : inv s → ok ks → opened s w ks b WOpen →
    ∃ s', wr_Cancel w s = (Ret tt, s') ∧ inv s' ∧ opened s' w ks b WCanceled ∧
      ∀ q, view s' q = fs_delete (view s) ks q;
  wlaw_put s w ks b st ks' c s' : inv s → opened s w ks b st → ok ks' → ks' ≠ ks →
    view s ks' ≠ Some EDir → ¬ blocked (view s) ks' →
    drv_PutContent (abspath ks') c s = (Ret tt, s') → opened s' w ks b st;
  wlaw_delete s w ks b st ks' s' : inv s → opened s w ks b st → has_file st = false → ok ks' →
    drv_Delete (abspath ks') s = (Ret tt, s') → opened s' w ks b st;
}.

Section consequences.
Context {St : Type} {D : StorageDriver St} {view : St → fs} {inv : St → Prop} {ok : fpath → Prop}.
Context {L : DriverLaws D view inv ok}.

(** What is on the way to an entry is a directory. *)
Lemma law_prefix s ks r : inv s → is_Some (view s (ks ++ r)) → r ≠ [] → view s ks = Some EDir.
Proof.
  intros Hi. induction r as [|x r IH] using rev_ind; [done|]. rewrite app_assoc. intros Hv _.
  apply law_parent in Hv; [|done]. destruct r as [|y r]; [by rewrite app_nil_r in Hv|].
  apply IH; [by eexists|done].
Qed.
(** The list of a directory, up to the order of its entries. *)
Lemma law_list_names s ks :
  inv s → ok ks → view s ks = Some EDir → (∀ k, head ks = Some k → view s (ks ++ [k]) = None) →
  ∃ names, drv_List (abspath ks) s = (Ret ((λ x, abspath (ks ++ [x])) <$> names), s) ∧ fs_children (view s) ks names.
Proof.
  intros Hi Hok Hv Hk. destruct ks as [|k ks]; [by apply law_ok in Hok as [? _]|].
  destruct (law_list s k ks Hi Hok Hv) as (names & Hl & Hn & Hc); [by apply Hk|].
  pose proof (sort_Strings_Permutation ((λ x, abspath ((k :: ks) ++ [x])) <$> names)) as Hp.
  apply Permutation_map_inv in Hp as (names' & Hs & Hp). exists names'. rewrite Hl, Hs.
  split; [done|]. split; [by rewrite <-Hp|]. intros x. by rewrite <-Hp.
Qed.
End consequences.

(** ** The base driver keeps the contract *)

Section base.
Context {St : Type} {D : StorageDriver St} {view : St → fs} {inv : St → Prop} {ok : fpath → Prop}.
Context (L : DriverLaws D view inv ok).
(** The paths that the checks of the base driver let through. *)
Definition base_ok (ks : fpath) : Prop := ok ks ∧ PathRegexp_MatchString (abspath ks) = true.

Lemma wrap_err_Ret {E F A} (f : E → F) (m : GoM St E A) s a s' :
  m s = (Ret a, s') → wrap_err f m s = (Ret a, s').
Proof. unfold wrap_err. by intros ->. Qed.
Lemma wrap_err_Fail {E F A} (f : E → F) (m : GoM St E A) s e s' :
  m s = (Fail e, s') → wrap_err f m s = (Fail (f e), s').
Proof. unfold wrap_err. by intros ->. Qed.

(** A call that the base driver lets through. *)
Ltac base_pass Hr := unfold Base.GetContent, Base.PutContent, Base.Reader, Base.Stat, Base.List, Base.Move, Base.Delete;
  rewrite ?Hr; cbn [negb andb].

(** Every path that exists passes the checks, if the state was built through them. *)
Definition base_inv (s : St) : Prop :=
  inv s ∧ ∀ ks, is_Some (view s ks) → ks = [] ∨ PathRegexp_MatchString (abspath ks) = true.

Lemma PathRegexp_prefix ks q :
  Forall (λ w, good_comp w = true) ks → q `prefix_of` ks → q ≠ [] →
  PathRegexp_MatchString (abspath ks) = true → PathRegexp_MatchString (abspath q) = true.
Proof.
  intros Hks [r ->] Hq. apply Forall_app in Hks as [Hgq Hgr].
  assert (∀ l, l ≠ [] → Forall (λ w, good_comp w = true) l →
    PathRegexp_MatchString (abspath l) = forallb (λ w, bool_decide (w ≠ "") && str_all path_char w) l) as H.
  { intros l Hl Hg. rewrite abspath_Join_gen by done. cbn [PathRegexp_MatchString].
    rewrite bool_decide_true by done. change "/" with (String slash ""). rewrite Split_Join; try done.
    eapply Forall_impl; [done|]. apply good_comp_no_slash. }
  rewrite !H; [|done..|by destruct q|by apply Forall_app].
  rewrite forallb_app. by intros [? _]%andb_true_iff.
Qed.

Lemma fs_put_exists v ks c q : is_Some (fs_put v ks c q) → q `prefix_of` ks ∨ is_Some (v q).
Proof. unfold fs_put. case_decide as H1; [subst; auto|]. case_decide; auto. Qed.
Lemma fs_move_exists v src dst c q : is_Some (fs_move v src dst c q) → q `prefix_of` dst ∨ is_Some (v q).
Proof.
  unfold fs_move. case_decide as H1; [subst; auto|]. case_decide; [auto|]. case_decide; [|auto].
  by intros [? ?].
Qed.
Lemma fs_delete_all_exists v kss q : is_Some (fs_delete_all v kss q) → is_Some (v q).
Proof. unfold fs_delete_all. case_decide; [|done]. by intros [? ?]. Qed.
Lemma fs_delete_exists v ks q : is_Some (fs_delete v ks q) → is_Some (v q).
Proof. unfold fs_delete. case_decide; [|done]. by intros [? ?]. Qed.

#[export] Instance base_laws : DriverLaws (Base.Base D) view base_inv base_ok.
Proof.
  split; unfold base_ok, base_inv; cbn [Base.Base drv_GetContent drv_PutContent drv_Reader rd_ReadAll drv_Stat drv_List drv_Move drv_Delete drv_DeleteFiles].
  - intros ks [Hok _]. by apply law_ok.
  - intros s [Hi _]. by apply law_root.
  - intros s ks k [Hi _]. by apply law_parent.
  - intros s ks [Hi Hr] Hv. destruct (Hr ks Hv) as [|]; [by left|].
    destruct (law_view_ok s ks Hi Hv); auto.
  - intros s ks c [Hi _] [Hok Hr] Hv. base_pass Hr. by apply wrap_err_Ret, law_get.
  - intros s ks [Hi _] [Hok Hr] Hv. base_pass Hr.
    destruct (law_get_missing s ks Hi Hok Hv) as [n Hn]. exists drv_Name. by rewrite (wrap_err_Fail _ _ _ _ _ Hn).
  - intros s ks c off [Hi _] [Hok Hr] Hv Hoff. base_pass Hr. rewrite bool_decide_false by lia.
    destruct (law_reader s ks c off Hi Hok Hv Hoff) as (r & Hr1 & Hr2). exists r. split; [by apply wrap_err_Ret|done].
  - intros s ks off [Hi _] [Hok Hr] Hv Hoff. base_pass Hr. rewrite bool_decide_false by lia.
    destruct (law_reader_missing s ks off Hi Hok Hv Hoff) as [n Hn]. exists drv_Name. by rewrite (wrap_err_Fail _ _ _ _ _ Hn).
  - intros s ks c [Hi Hre] [Hok Hr] Hv Hb. base_pass Hr.
    destruct (law_put s ks c Hi Hok Hv Hb) as (s' & Hs' & Hi' & Hv'). exists s'.
    split_and!; [by apply wrap_err_Ret|done| |done]. intros q. rewrite Hv'. intros [Hq|Hq]%fs_put_exists; [|auto].
    destruct q; [by left|]. right. apply (PathRegexp_prefix ks); try done. by apply law_ok.
  - intros s ks c [Hi _] [Hok Hr] Hv. base_pass Hr.
    destruct (law_stat_file s ks c Hi Hok Hv) as [t Ht]. exists t. by apply wrap_err_Ret.
  - intros s ks [Hi _] [Hok Hr] Hv. base_pass Hr.
    destruct (law_stat_dir s ks Hi Hok Hv) as [t Ht]. exists t. by apply wrap_err_Ret.
  - intros s ks [Hi _] [Hok Hr] Hv. base_pass Hr.
    destruct (law_stat_missing s ks Hi Hok Hv) as [n Hn]. exists drv_Name. by rewrite (wrap_err_Fail _ _ _ _ _ Hn).
  - intros s k ks [Hi _] [Hok Hr] Hv He. base_pass Hr.
    destruct (law_list s k ks Hi Hok Hv He) as (names & Hn & Hc). exists names. split; [by apply wrap_err_Ret|done].
  - intros s ks [Hi _] [Hok Hr] Hv Hb. base_pass Hr.
    destruct (law_list_missing s ks Hi Hok Hv Hb) as [n Hn]. exists drv_Name. by rewrite (wrap_err_Fail _ _ _ _ _ Hn).
  - intros s src dst c [Hi Hre] [Hok Hr] [Hokd Hrd] Hv Hd Hb. unfold Base.Move. rewrite Hr, Hrd. cbn [negb].
    destruct (law_move s src dst c Hi Hok Hokd Hv Hd Hb) as (s' & Hs' & Hi' & Hv'). exists s'.
    split_and!; [by apply wrap_err_Ret|done| |done]. intros q. rewrite Hv'. intros [Hq|Hq]%fs_move_exists; [|auto].
    destruct q; [by left|]. right. apply (PathRegexp_prefix dst); try done. by apply law_ok.
  - intros s ks [Hi Hre] [Hok Hr] Hv. base_pass Hr.
    destruct (law_delete s ks Hi Hok Hv) as (s' & Hs' & Hi' & Hv'). exists s'.
    split_and!; [by apply wrap_err_Ret|done| |done]. intros q. rewrite Hv'. intros Hq%fs_delete_exists. auto.
  - intros s ks [Hi _] [Hok Hr] Hv Hb. base_pass Hr.
    destruct (law_delete_missing s ks Hi Hok Hv Hb) as [n Hn]. exists drv_Name. by rewrite (wrap_err_Fail _ _ _ _ _ Hn).
  - intros s kss [Hi Hre] Hk. destruct (law_delete_files s kss Hi) as (s' & Hs' & Hi' & Hv').
    + eapply Forall_impl; [done|]. naive_solver.
    + exists s'. split_and!; try done. intros q. rewrite Hv'. intros Hq%fs_delete_all_exists. auto.
Qed.
(** The writers of the base driver are those of the driver below. *)
#[export] Instance base_writer_laws opened :
  WriterLaws D view inv ok opened → WriterLaws (Base.Base D) view base_inv base_ok opened.
Proof.
  intros WL. split; unfold base_ok, base_inv; cbn [Base.Base drv_writer drv_Writer drv_PutContent drv_Delete wr_Write wr_Size wr_Commit wr_Close wr_Cancel].
  - intros s w ks b st [Hi _]. by apply wlaw_view.
  - intros s ks ap [Hi Hre] [Hok Hr] Hv Hb. unfold Base.Writer. rewrite Hr. cbn [negb].
    destruct (wlaw_open s ks ap Hi Hok Hv Hb) as (w & s' & Hs' & Hi' & Ho & Hv'). exists w, s'.
    split_and!; [by apply wrap_err_Ret|done| |done|done]. intros q. rewrite Hv'. intros [Hq|Hq]%fs_put_exists; [|auto].
    destruct q; [by left|]. right. apply (PathRegexp_prefix ks); try done. by apply law_ok.
  - intros s w ks b b' [Hi Hre] Ho. destruct (wlaw_write s w ks b b' Hi Ho) as (s' & Hs' & Hi' & Ho' & Hv'). exists s'.
    split_and!; try done. intros q. rewrite Hv'. case_decide as Hq; [|auto]. subst q. intros _. apply Hre.
    rewrite (wlaw_view s w ks b WOpen) by done. by eexists.
  - intros s w ks b st [Hi _]. by apply wlaw_size.
  - intros s w ks b [Hi Hre] Ho. destruct (wlaw_commit s w ks b Hi Ho) as (s' & Hs' & Hi' & Ho' & Hv'). exists s'.
    split_and!; try done. intros q. rewrite Hv'. auto.
  - intros s w ks b st [Hi Hre] Ho Hst. destruct (wlaw_close s w ks b st Hi Ho Hst) as (s' & Hs' & Hi' & Ho' & Hv'). exists s'.
    split_and!; try done. intros q. rewrite Hv'. auto.
  - intros s w ks b st [Hi _]. by apply wlaw_closed.
  - intros s w ks b [Hi Hre] [Hok _] Ho. destruct (wlaw_cancel_closed s w ks b Hi Hok Ho) as [?|(s' & Hs' & Hi' & Ho' & Hv')]; [by left|].
    right. exists s'. split_and!; try done. intros q. rewrite Hv'. intros Hq%fs_delete_exists. auto.
  - intros s w ks b [Hi Hre] [Hok _] Ho. destruct (wlaw_cancel s w ks b Hi Hok Ho) as (s' & Hs' & Hi' & Ho' & Hv'). exists s'.
    split_and!; try done. intros q. rewrite Hv'. intros Hq%fs_delete_exists. auto.
  - intros s w ks b st ks' c s' [Hi _] Ho [Hok Hr] Hne Hd Hb. base_pass Hr. unfold wrap_err.
    destruct (drv_PutContent (abspath ks') c s) as [o s1] eqn:Hp. destruct o as [[]| |]; intros [= <-].
    by eapply wlaw_put.
  - intros s w ks b st ks' s' [Hi _] Ho Hf [Hok Hr]. base_pass Hr. unfold wrap_err.
    destruct (drv_Delete (abspath ks') s) as [o s1] eqn:Hp. destruct o as [[]| |]; intros [= <-].
    by eapply wlaw_delete.
Qed.
End base.

(** ** Traces

    Sequences of calls, run on a driver and on the file system.  A call is
    admissible when the contract says what it does. *)

Inductive call :=
  | CPut (ks : fpath) (c : bytes)
  | CGet (ks : fpath)
  | CStat (ks : fpath)
  | CMove (src dst : fpath)
  | CDelete (ks : fpath).

Inductive answer := ADone | AContent (c : bytes) | AInfo (size : Z) (isdir : bool) | AMissing | AOther.

Definition answer_of {A} (f : A → answer) (o : outcome error A) : answer :=
  match o with
  | Ret a => f a
  | Fail (PathNotFoundError _ _) => AMissing
  | _ => AOther
  end.

Definition run_call {St} (D : StorageDriver St) (c : call) (s : St) : answer * St :=
  match c with
  | CPut ks b => let '(o, s') := drv_PutContent (abspath ks) b s in (answer_of (λ _, ADone) o, s')
  | CGet ks => let '(o, s') := drv_GetContent (abspath ks) s in (answer_of AContent o, s')
  | CStat ks => let '(o, s') := drv_Stat (abspath ks) s in (answer_of (λ fi, AInfo (fi_Size fi) (fi_IsDir fi)) o, s')
  | CMove src dst => let '(o, s') := drv_Move (abspath src) (abspath dst) s in (answer_of (λ _, ADone) o, s')
  | CDelete ks => let '(o, s') := drv_Delete (abspath ks) s in (answer_of (λ _, ADone) o, s')
  end.
Fixpoint run_calls {St} (D : StorageDriver St) (cs : list call) (s : St) : list answer * St :=
  match cs with
  | [] => ([], s)
  | c :: cs => let '(a, s1) := run_call D c s in let '(l, s2) := run_calls D cs s1 in (a :: l, s2)
  end.

(** The same calls on the map. *)
Definition empty_fs : fs := λ ks, if decide (ks = []) then Some EDir else None.
Definition blockedb (v : fs) (ks : fpath) : bool :=
  existsb (λ i, match v (take i ks) with Some (EFile _) => true | _ => false end) (seq 0 (length ks)).
Definition is_dirb (v : fs) (ks : fpath) : bool := bool_decide (v ks = Some EDir).

Definition fs_call (c : call) (v : fs) : answer * fs :=
  match c with
  | CPut ks b => (ADone, fs_put v ks b)
  | CGet ks => (match v ks with Some (EFile b) => AContent b | Some EDir => AOther | None => AMissing end, v)
  | CStat ks =>
      (match v ks with
       | Some (EFile b) => AInfo (Z.of_nat (String.length b)) false
       | Some EDir => AInfo 0 true
       | None => AMissing
       end, v)
  | CMove src dst =>
      match v src with Some (EFile b) => (ADone, fs_move v src dst b) | _ => (AOther, v) end
  | CDelete ks => match v ks with Some _ => (ADone, fs_delete v ks) | None => (AMissing, v) end
  end.
Definition admits (okb : fpath → bool) (c : call) (v : fs) : bool :=
  match c with
  | CPut ks _ => okb ks && negb (is_dirb v ks) && negb (blockedb v ks)
  | CGet ks => okb ks && negb (is_dirb v ks)
  | CStat ks => okb ks
  | CMove src dst =>
      okb src && okb dst && match v src with Some (EFile _) => true | _ => false end &&
      negb (is_dirb v dst) && negb (blockedb v dst)
  | CDelete ks => okb ks && negb (blockedb v ks)
  end.
Fixpoint fs_calls (cs : list call) (v : fs) : list answer :=
  match cs with
  | [] => []
  | c :: cs => let '(a, v1) := fs_call c v in a :: fs_calls cs v1
  end.
Fixpoint admits_all (okb : fpath → bool) (cs : list call) (v : fs) : bool :=
  match cs with
  | [] => true
  | c :: cs => admits okb c v && admits_all okb cs (fs_call c v).2
  end.

Lemma blockedb_spec v ks : blockedb v ks = false → ¬ blocked v ks.
Proof.
  intros Hb (q & [[r ->] Hne] & c & Hc). apply not_true_iff_false in Hb. apply Hb. unfold blockedb.
  apply existsb_exists. exists (length q). split.
  - apply list_elem_of_In, elem_of_seq. rewrite length_app. destruct r; [by rewrite app_nil_r in Hne|simpl; lia].
  - by rewrite take_app_length, Hc.
Qed.

(** The map a call leaves depends on the map it found, point by point. *)
Lemma fs_call_ext c v v' : (∀ q, v q = v' q) →
  (fs_call c v).1 = (fs_call c v').1 ∧ ∀ q, (fs_call c v).2 q = (fs_call c v').2 q.
Proof.
  intros H. destruct c as [ks b|ks|ks|src dst|ks]; cbn [fs_call]; rewrite <-?H; repeat case_match; simpl;
    (split; [done|]); intros q; unfold fs_put, fs_move, fs_delete; by rewrite ?H.
Qed.
Lemma admits_ext okb c v v' : (∀ q, v q = v' q) → admits okb c v = admits okb c v'.
Proof.
  intros H. assert (∀ ks, blockedb v ks = blockedb v' ks) as Hb.
  { intros ks. unfold blockedb. induction (seq 0 (length ks)) as [|i l IH]; [done|]. simpl. by rewrite H, IH. }
  destruct c; cbn [admits]; unfold is_dirb; by rewrite ?Hb, ?H.
Qed.
Lemma fs_calls_ext okb cs v v' : (∀ q, v q = v' q) →
  fs_calls cs v = fs_calls cs v' ∧ admits_all okb cs v = admits_all okb cs v'.
Proof.
  revert v v'. induction cs as [|c cs IH]; intros v v' H; [done|]. cbn [fs_calls admits_all].
  destruct (fs_call_ext c v v' H) as [Ha Hv]. destruct (IH _ _ Hv) as [IH1 IH2].
  rewrite (admits_ext okb c v v' H), IH2. destruct (fs_call c v) as [a v1], (fs_call c v') as [a' v1']. simpl in *.
  by rewrite Ha, IH1.
Qed.

Section traces.
Context {St : Type} {D : StorageDriver St} {view : St → fs} {inv : St → Prop} {ok : fpath → Prop}.
Context (L : DriverLaws D view inv ok) (okb : fpath → bool) (Hokb : ∀ ks, okb ks = true → ok ks).

Lemma run_call_refines c s :
  inv s → admits okb c (view s) = true →
  (run_call D c s).1 = (fs_call c (view s)).1 ∧ inv (run_call D c s).2 ∧
  ∀ q, view (run_call D c s).2 q = (fs_call c (view s)).2 q.
Proof.
  intros Hi Ha. destruct c as [ks b|ks|ks|src dst|ks]; cbn [run_call fs_call admits] in *; unfold is_dirb in *; breflect.
  - destruct (law_put s ks b Hi) as (s' & -> & ? & ?); auto using blockedb_spec.
  - destruct (view s ks) as [[c|]|] eqn:Hv; [|done|].
    + rewrite (law_get s ks c); auto.
    + destruct (law_get_missing s ks Hi) as [n ->]; auto.
  - destruct (view s ks) as [[c|]|] eqn:Hv.
    + destruct (law_stat_file s ks c Hi) as [t ->]; auto.
    + destruct (law_stat_dir s ks Hi) as [t ->]; auto.
    + destruct (law_stat_missing s ks Hi) as [n ->]; auto.
  - destruct (view s src) as [[c|]|] eqn:Hv; [|done..].
    destruct (law_move s src dst c Hi) as (s' & -> & ? & ?); auto using blockedb_spec.
  - destruct (view s ks) as [e|] eqn:Hv.
    + destruct (law_delete s ks Hi) as (s' & -> & ? & ?); eauto.
    + destruct (law_delete_missing s ks Hi) as [n ->]; auto using blockedb_spec.
Qed.

Lemma run_calls_refines cs s :
  inv s → admits_all okb cs (view s) = true → (run_calls D cs s).1 = fs_calls cs (view s).
Proof.
  revert s. induction cs as [|c cs IH]; intros s Hi; [done|]. cbn [run_calls fs_calls admits_all].
  intros [Ha Hall]%andb_true_iff. destruct (run_call_refines c s Hi Ha) as (H1 & H2 & H3).
  destruct (run_call D c s) as [a s1]. simpl in *.
  destruct (fs_calls_ext okb cs _ _ H3) as [He1 He2]. rewrite <-He2 in Hall. specialize (IH s1 H2 Hall).
  destruct (run_calls D cs s1) as [l s2]. destruct (fs_call c (view s)) as [a' v1]. simpl in *. congruence.
Qed.
End traces.
