(* ===== verification/InMemory.v ===== *)
(** * The in-memory storage driver

    Models registry/storage/driver/inmemory/mfs.go and driver.go.  Directories
    and files are objects of a heap, because the driver hands out pointers: a
    writer keeps its file when the tree around it changes.  The theorems relate
    the heap to an abstract file system, a map from paths to entries. *)

From S2P Require Import Prelude GoStd Digest Driver FileSystem.

Module InMemory.

Abbreviation loc := positive (only parsing).

(** ** Nodes *)

(** A Go slice over its own backing array: [f.data[:0]] keeps the array. *)
Record slice := { backing : bytes; slen : nat }.
Definition slice_bytes (d : slice) : bytes := str_take (slen d) (backing d).
Definition slice_cap (d : slice) : nat := String.length (backing d).

Record common := { p : string; modt : Z }.

(** [dir] and [file]; the zero [dir] has no children. *)
Inductive node :=
  | Dir (c : common) (children : gmap string loc)
  | File (c : common) (data : slice).

Definition node_common (n : node) : common := match n with Dir c _ | File c _ => c end.
Definition node_path (n : node) : string := p (node_common n).
Definition name (n : node) : string := (path_Split (node_path n)).2.
Definition modtime (n : node) : Z := modt (node_common n).
Definition isdir (n : node) : bool := match n with Dir _ _ => true | File _ _ => false end.

(** A [writer]; its driver is the one whose state holds it. *)
Record writer := { wr_f : loc; closed : bool; committed : bool; canceled : bool }.

(** The heap, with the clock that [time.Now] reads. *)
Abbreviation heap := (gmap positive node) (only parsing).
Record state := { nodes : gmap loc node; writers : gmap loc writer; clock : Z }.

(** The pointer [driver.root]. *)
Definition root : loc := 1%positive.

Definition set_nodes (h : heap) (s : state) : state :=
  {| nodes := h; writers := writers s; clock := clock s |}.
Definition set_writers (w : gmap loc writer) (s : state) : state :=
  {| nodes := nodes s; writers := w; clock := clock s |}.

Abbreviation M := (GoM state error) (only parsing).

Definition errExists : error := errors_New "exists".
Definition errNotExists : error := errors_New "notexists".
Definition errIsNotDir : error := errors_New "notdir".
Definition errIsDir : error := errors_New "isdir".

(** Pointer operations.  A dangling pointer panics. *)
Definition deref (l : loc) : M node := n ← gets (λ s, nodes s !! l); lift (from_option Ret Panic n).
(** The type assertions to a directory and to a file. *)
Definition as_dir (l : loc) : M (common * gmap string loc) :=
  n ← deref l; match n with Dir c ch => mret (c, ch) | File _ _ => panic end.
Definition as_file (l : loc) : M (common * slice) :=
  n ← deref l; match n with File c d => mret (c, d) | Dir _ _ => panic end.
Definition store (l : loc) (n : node) : M unit := modify (λ s, set_nodes (<[l := n]> (nodes s)) s).
Definition new (n : node) : M loc :=
  l ← gets (λ s, fresh (dom (nodes s))); _ ← store l n; mret l.
Definition now : M Z := gets clock.

Definition normalize (p : string) : string := "/" +:+ Trim p.

(** ** The tree *)

Definition dir_add (d : loc) (l : loc) : M unit :=
  '(c, ch) ← as_dir d;
  n ← deref l;
  t ← now;
  store d (Dir {| p := p c; modt := t |} (<[name n := l]> ch)).

(** [dir.find]; [None] is a panic.  With no slash left, [q[i+1:]] is [q]. *)
Fixpoint find_go (fuel : nat) (h : heap) (d : loc) (q : string) : option loc :=
  match fuel with
  | 0 => None
  | S fuel =>
      let q := Trim q in
      let i := IndexSlash q in
      if bool_decide (q = "") then Some d
      else if bool_decide (i = Some 0) then None
      else
        let component := match i with None => q | Some i => str_take i q end in
        match h !! d with
        | Some (Dir _ children) =>
            match children !! component with
            | None => Some d
            | Some child =>
                match h !! child with
                | Some (Dir _ _) =>
                    find_go fuel h child (match i with None => q | Some i => str_drop (S i) q end)
                | Some (File _ _) => Some child
                | None => None
                end
            end
        | _ => None
        end
  end.
(** A traversal descends at most once per component of the path, and then at
    most once per node of the heap. *)
Definition find_fuel (h : heap) (q : string) : nat := String.length q + size h + 2.
Definition dir_find (d : loc) (q : string) : M loc :=
  r ← gets (λ s, find_go (find_fuel (nodes s) q) (nodes s) d q); lift (from_option Ret Panic r).

Fixpoint child_paths (children : list (string * loc)) : M (list string) :=
  match children with
  | [] => mret []
  | (_, l) :: rest => n ← deref l; ps ← child_paths rest; mret (node_path n :: ps)
  end.

Definition dir_list (d : loc) (p : string) : M (list string) :=
  l ← dir_find d p;
  n ← deref l;
  if bool_decide (node_path n ≠ p) then fail errNotExists
  else if negb (isdir n) then fail errIsNotDir
  else
    '(_, ch) ← as_dir l;
    children ← child_paths (map_to_list ch);
    mret (sort_Strings children).

Definition dir_mkdir (d : loc) (name : string) : M loc :=
  if bool_decide (name = "") then fail (errors_New "invalid dirname")
  else
    '(c, ch) ← as_dir d;
    if bool_decide (is_Some (ch !! name)) then fail errExists
    else
      t ← now;
      child ← new (Dir {| p := path_Join [p c; name]; modt := t |} ∅);
      _ ← dir_add d child;
      '(c, ch) ← as_dir d;
      t ← now;
      _ ← store d (Dir {| p := p c; modt := t |} ch);
      mret child.

Fixpoint dir_mkdirs_loop (dd : loc) (components : list string) : M loc :=
  match components with
  | [] => mret dd
  | component :: components => d ← dir_mkdir dd component; dir_mkdirs_loop d components
  end.

Definition dir_mkdirs (d : loc) (p : string) : M loc :=
  let p := normalize p in
  l ← dir_find d p;
  n ← deref l;
  if negb (isdir n) then fail errIsNotDir
  else if bool_decide (node_path n = p) then mret l
  else
    let relative := Trim (TrimPrefix p (node_path n)) in
    if bool_decide (relative = "") then mret l
    else dir_mkdirs_loop l (Split slash relative).

Definition dir_mkfile (d : loc) (q : string) : M loc :=
  l ← dir_find d q;
  n ← deref l;
  if bool_decide (node_path n = q) then
    if isdir n then fail errIsDir else mret l
  else
    let '(dirpath, filename) := path_Split q in
    dd ← dir_mkdirs d dirpath;
    '(c, _) ← as_dir dd;
    t ← now;
    l ← new (File {| p := path_Join [p c; filename]; modt := t |} {| backing := ""; slen := 0 |});
    _ ← dir_add dd l;
    mret l.

Definition dir_move (d : loc) (src dst : string) : M unit :=
  let '(dstDirname, _) := path_Split dst in
  dp ← dir_mkdirs d dstDirname;
  let '(srcDirname, srcFilename) := path_Split src in
  sp ← dir_find d srcDirname;
  spn ← deref sp;
  if bool_decide (normalize srcDirname ≠ normalize (node_path spn)) then fail errNotExists
  else
    match spn with
    | File _ _ => fail errIsNotDir
    | Dir c children =>
        match children !! srcFilename with
        | None => fail errNotExists
        | Some s =>
            _ ← store sp (Dir c (delete srcFilename children));
            n ← deref s;
            _ ← store s (match n with
                         | Dir c ch => Dir {| p := dst; modt := modt c |} ch
                         | File c data => File {| p := dst; modt := modt c |} data
                         end);
            dir_add dp s
        end
    end.

Definition dir_delete (d : loc) (q : string) : M unit :=
  let '(dirname, filename) := path_Split q in
  parent ← dir_find d dirname;
  n ← deref parent;
  if bool_decide (normalize dirname ≠ normalize (node_path n)) then fail errNotExists
  else
    '(c, children) ← as_dir parent;
    if bool_decide (children !! filename = None) then fail errNotExists
    else store parent (Dir c (delete filename children)).

(** ** Files *)

Fixpoint zero_bytes (n : nat) : bytes :=
  match n with 0 => "" | S n => String "000" (zero_bytes n) end.

Definition file_truncate (f : loc) : M unit :=
  '(c, d) ← as_file f;
  store f (File c {| backing := backing d; slen := 0 |}).

(** The reslicing [f.data[:off+len(p)]] is within the capacity after the
    growth; the bytes between the old length and [off] are those of the array. *)
Definition write_slice (d : slice) (b : bytes) (off : nat) : slice :=
  let len' := off + String.length b in
  let arr := if slice_cap d <? len'
             then slice_bytes d +:+ zero_bytes (len' - slen d) else backing d in
  {| backing := str_take off arr +:+ b +:+ str_drop len' arr; slen := len' |}.

Definition file_WriteAt (f : loc) (b : bytes) (off : nat) : M Z :=
  '(c, d) ← as_file f;
  t ← now;
  _ ← store f (File {| p := p c; modt := t |} (write_slice d b off));
  mret (Z.of_nat (String.length b)).

(** The reader of [file.sectionReader]: the file, an offset and the limit that
    was the file's length when the reader was made. *)
Record reader := { rd_f : loc; rd_off : Z; rd_limit : Z }.
Definition file_sectionReader (f : loc) (offset : Z) : M reader :=
  '(_, d) ← as_file f;
  mret {| rd_f := f; rd_off := offset; rd_limit := Z.of_nat (slen d) |}.

(** [ioutil.ReadAll] of such a reader, with the [ReadAt] of the file.  If the
    file was truncated below the limit after the reader was made, [ReadAll] has
    no result: it slices out of range or never meets the limit. *)
Definition reader_ReadAll (r : reader) : M bytes :=
  if bool_decide (rd_limit r ≤ rd_off r)%Z then mret ""
  else
    '(_, d) ← as_file (rd_f r);
    if bool_decide (Z.of_nat (slen d) < rd_limit r)%Z then panic
    else mret (str_take (Z.to_nat (rd_limit r - rd_off r)) (str_drop (Z.to_nat (rd_off r)) (slice_bytes d))).

(** ** The driver *)

Definition driverName : string := "inmemory".

Definition New (t : Z) : state :=
  {| nodes := {[ root := Dir {| p := "/"; modt := t |} ∅ ]}; writers := ∅; clock := t |}.

(** The [%q] of a string without special bytes. *)
Definition quoted (s : string) : string := String "034" (s +:+ String "034" "").

Definition driver_reader (path : string) (offset : Z) : M reader :=
  if bool_decide (offset < 0)%Z then fail (InvalidOffsetError path offset "")
  else
    let normalized := normalize path in
    found ← dir_find root normalized;
    n ← deref found;
    if bool_decide (node_path n ≠ normalized) then fail (PathNotFoundError path "")
    else if isdir n then fail (errors_New (quoted path +:+ " is a directory"))
    else file_sectionReader found offset.

Definition GetContent (path : string) : M bytes := rc ← driver_reader path 0; reader_ReadAll rc.

Definition PutContent (p : string) (contents : bytes) : M unit :=
  let normalized := normalize p in
  r ← attempt (dir_mkfile root normalized);
  match r with
  | inl _ => fail (errors_New "not a file")
  | inr f => _ ← file_truncate f; _ ← file_WriteAt f contents 0; mret tt
  end.

Definition Writer (path : string) (append : bool) : M loc :=
  let normalized := normalize path in
  r ← attempt (dir_mkfile root normalized);
  match r with
  | inl _ => fail (errors_New "not a file")
  | inr f =>
      _ ← (if append then mret tt else file_truncate f);
      w ← gets (λ s, fresh (dom (writers s)));
      _ ← modify (λ s, set_writers (<[w := {| wr_f := f; closed := false; committed := false; canceled := false |}]>
                                      (writers s)) s);
      mret w
  end.

Definition Stat (path : string) : M FileInfo :=
  let normalized := normalize path in
  found ← dir_find root normalized;
  n ← deref found;
  if bool_decide (node_path n ≠ normalized) then fail (PathNotFoundError path "")
  else mret {| fi_Path := path;
               fi_Size := match n with File _ d => Z.of_nat (slen d) | Dir _ _ => 0 end;
               fi_ModTime := modtime n;
               fi_IsDir := isdir n |}.

Definition List (path : string) : M (list string) :=
  let normalized := normalize path in
  found ← dir_find root normalized;
  n ← deref found;
  if negb (isdir n) then fail (errors_New "not a directory")
  else
    r ← attempt (dir_list found normalized);
    match r with
    | inr entries => mret entries
    | inl err =>
        if err_eq err errNotExists then fail (PathNotFoundError path "")
        else if err_eq err errIsNotDir then fail (errors_New "not a directory")
        else fail err
    end.

Definition Move (sourcePath destPath : string) : M unit :=
  r ← attempt (dir_move root (normalize sourcePath) (normalize destPath));
  match r with
  | inl err => if err_eq err errNotExists then fail (PathNotFoundError destPath "") else fail err
  | inr _ => mret tt
  end.

Definition Delete (path : string) : M unit :=
  r ← attempt (dir_delete root (normalize path));
  match r with
  | inl err => if err_eq err errNotExists then fail (PathNotFoundError path "") else fail err
  | inr _ => mret tt
  end.

(** The number of files handled before the first failure, and that failure. *)
Fixpoint DeleteFiles_loop (count : Z) (paths : list string) : M (Z * option error) :=
  match paths with
  | [] => mret (count, None)
  | path :: paths =>
      r ← attempt (Delete path);
      match r with
      | inl (PathNotFoundError _ _) | inr _ => DeleteFiles_loop (count + 1)%Z paths
      | inl err => mret (count, Some err)
      end
  end.
Definition DeleteFiles (paths : list string) : M (Z * option error) := DeleteFiles_loop 0 paths.

Definition URLFor (path : string) : M string := fail (ErrUnsupportedMethod "").

(** *** Writers *)

Definition load_writer (w : loc) : M writer :=
  x ← gets (λ s, writers s !! w); lift (from_option Ret Panic x).
Definition store_writer (w : loc) (x : writer) : M unit := modify (λ s, set_writers (<[w := x]> (writers s)) s).

Definition writer_Write (w : loc) (b : bytes) : M Z :=
  x ← load_writer w;
  if closed x then fail (errors_New "already closed")
  else if committed x then fail (errors_New "already committed")
  else if canceled x then fail (errors_New "already canceled")
  else '(_, d) ← as_file (wr_f x); file_WriteAt (wr_f x) b (slen d).
Definition writer_Size (w : loc) : M Z :=
  x ← load_writer w; '(_, d) ← as_file (wr_f x); mret (Z.of_nat (slen d)).
Definition writer_Close (w : loc) : M unit :=
  x ← load_writer w;
  if closed x then fail (errors_New "already closed")
  else store_writer w {| wr_f := wr_f x; closed := true; committed := committed x; canceled := canceled x |}.
Definition writer_Cancel (w : loc) : M unit :=
  x ← load_writer w;
  if closed x then fail (errors_New "already closed")
  else if committed x then fail (errors_New "already committed")
  else
    _ ← store_writer w {| wr_f := wr_f x; closed := closed x; committed := committed x; canceled := true |};
    n ← deref (wr_f x);
    dir_delete root (node_path n).
Definition writer_Commit (w : loc) : M unit :=
  x ← load_writer w;
  if closed x then fail (errors_New "already closed")
  else if committed x then fail (errors_New "already committed")
  else if canceled x then fail (errors_New "already canceled")
  else store_writer w {| wr_f := wr_f x; closed := closed x; committed := true; canceled := canceled x |}.

#[export] Instance driver : StorageDriver state := {|
  drv_Name := driverName;
  drv_GetContent := GetContent;
  drv_PutContent := PutContent;
  drv_Reader := driver_reader;
  rd_ReadAll := reader_ReadAll;
  drv_Writer := Writer;
  wr_Write := writer_Write;
  wr_Size := writer_Size;
  wr_Close := writer_Close;
  wr_Cancel := writer_Cancel;
  wr_Commit := writer_Commit;
  drv_Stat := Stat;
  drv_List := List;
  drv_Move := Move;
  drv_Delete := Delete;
  drv_DeleteFiles := DeleteFiles;
  drv_URLFor := URLFor;
|}.

(** *** Transfers *)

(** The buffers of [io.Copy]. *)
Fixpoint chunks (fuel n : nat) (s : bytes) : list bytes :=
  match fuel, s with
  | _, "" | 0, _ => []
  | S fuel, _ => str_take n s :: chunks fuel n (str_drop n s)
  end.
Fixpoint copy_chunks {T} (D : StorageDriver T) (w : drv_writer) (cs : list bytes) : GoM T error unit :=
  match cs with
  | [] => mret tt
  | c :: cs =>
      n ← wr_Write w c;
      if bool_decide (n ≠ Z.of_nat (String.length c)) then fail (errors_New "short write")
      else copy_chunks D w cs
  end.

(** [TransferTo]: the source driver and the destination driver have each a
    state of their own. *)
Definition TransferTo {T} (destDriver : StorageDriver T) (srcPath destPath : string) :
    GoM (state * T) error unit :=
  if bool_decide (driverName ≠ @drv_Name T destDriver)
  then fail (errors_New "destDriver must be an inmemory Driver")
  else
    src ← on_fst (driver_reader srcPath 0);
    let partial {A} : error → GoM (state * T) error A := λ err, fail (PartialTransferError srcPath destPath err) in
    r ← attempt (on_snd (drv_Writer destPath false));
    match r with
    | inl err => partial err
    | inr dest =>
        content ← on_fst (reader_ReadAll src);
        r ← attempt (on_snd (copy_chunks destDriver dest (chunks (String.length content) (32 * 1024) content)));
        match r with
        | inl err => _ ← attempt (on_snd (wr_Cancel dest)); partial err
        | inr _ =>
            r ← attempt (on_snd (wr_Commit dest));
            match r with
            | inl err => partial err
            | inr _ =>
                r ← attempt (on_snd (drv_Stat srcPath));
                match r with
                | inl err => partial err
                | inr fi =>
                    size ← on_snd (wr_Size dest);
                    if bool_decide (fi_Size fi ≠ size)
                    then partial (errors_New "post-transfer size mismatch")
                    else mret tt
                end
            end
        end
    end.

(** ** What the tree does not support *)

Definition run_put (ps : list (string * bytes)) : state :=
  foldl (λ s pc, (PutContent pc.1 pc.2 s).2) (New 0) ps.

(** A directory that has a child of its own name is not found: once [/a/a]
    exists, a write to [/a/f] succeeds and creates [/a/a/a/f]. *)
Lemma stutter_lost_write :
  let s := run_put [("/a/a/x", "1"); ("/a/f", "2")] in
  (GetContent "/a/f" s).1 = Fail (PathNotFoundError "/a/f" "") ∧
  (GetContent "/a/a/a/f" s).1 = Ret "2" ∧
  (Stat "/a" s).1 = Fail (PathNotFoundError "/a" "").
Proof. vm_compute. done. Qed.

(** Moving a directory leaves the paths of its contents as they were. *)
Lemma move_directory_loses_contents :
  let s := run_put [("/a/x", "1")] in
  let '(o, s') := Move "/a" "/b" s in
  o = Ret tt ∧ (GetContent "/b/x" s').1 = Fail (PathNotFoundError "/b/x" "").
Proof. vm_compute. done. Qed.

(** A repository named like the first directory of the storage root hides the
    list of all repositories. *)
Lemma list_shadowed :
  let s := run_put [("/docker/registry/v2/repositories/docker/x", "1")] in
  (List "/docker/registry/v2/repositories" s).1 =
    Fail (PathNotFoundError "/docker/registry/v2/repositories" "").
Proof. vm_compute. done. Qed.

(** Deleting below a file panics. *)
Lemma delete_below_file_panics : (Delete "/a/x" (run_put [("/a", "1")])).1 = Panic.
Proof. vm_compute. done. Qed.

(** A transfer to another path copies the file and then reports a failure. *)
Lemma transfer_checks_source_path :
  let s := run_put [("/a", "1")] in
  let '(o, (_, t)) := TransferTo driver "/a" "/b" (s, New 0) in
  (∃ err, o = Fail (PartialTransferError "/a" "/b" err)) ∧ (GetContent "/b" t).1 = Ret "1".
Proof. vm_compute. split; [by eexists|done]. Qed.

(** The driver reports the destination of a move whose source is missing. *)
Lemma move_missing_names_destination :
  (Move "/a" "/b" (New 0)).1 = Fail (PathNotFoundError "/b" "").
Proof. vm_compute. done. Qed.

End InMemory.
