(* ===== verification/InMemoryFS.v ===== *)
(** * The in-memory driver is a file system

    The invariant of the heap of InMemory.v, that every operation preserves
    it, and that the driver meets the contract of FileSystem.v on the paths in
    which no component is followed by itself. *)

From S2P Require Import Prelude GoStd Digest Driver FileSystem InMemory.

Module InMemoryFS.
Import InMemory.

(** ** Supported paths *)

Definition nostutter (ks : fpath) : Prop := ∀ a b l r, ks = l ++ a :: b :: r → a ≠ b.
Definition good (ks : fpath) : Prop := Forall (λ w, good_comp w = true) ks.
Definition ok (ks : fpath) : Prop := ks ≠ [] ∧ good ks ∧ nostutter ks.

Lemma nostutter_app_l ks ks' : nostutter (ks ++ ks') → nostutter ks.
Proof. intros H a b l r ->. apply (H a b l (r ++ ks')). by rewrite <-app_assoc. Qed.
Lemma nostutter_snoc ks k : nostutter ks → last ks ≠ Some k → nostutter (ks ++ [k]).
Proof.
  intros H Hl a b l r Heq. destruct r as [|x r _] using rev_ind.
  - change [a; b] with ([a] ++ [b]) in Heq. rewrite app_assoc in Heq. apply app_inj_tail in Heq as [-> ->].
    rewrite last_snoc in Hl. congruence.
  - rewrite (app_comm_cons _ _ b), (app_comm_cons _ _ a), app_assoc in Heq.
    apply app_inj_tail in Heq as [-> _]. by apply (H a b l r).
Qed.
Lemma nostutter_last ks k : nostutter (ks ++ [k]) → last ks ≠ Some k.
Proof.
  intros H Hl. apply last_Some in Hl as [l ->]. apply (H k k l []); [|done]. by rewrite <-app_assoc.
Qed.
Lemma prefix_length_eq_le (q r ks : fpath) :
  q `prefix_of` ks → r `prefix_of` ks → length q ≤ length r → q `prefix_of` r.
Proof.
  intros [q' ->] [r' Hr] Hlen. exists (drop (length q) r).
  rewrite <-(take_drop (length q) r) at 1. f_equal.
  apply (f_equal (take (length q))) in Hr. rewrite take_app_length, take_app_le in Hr by done. done.
Qed.
Lemma nostutter_nil : nostutter [].
Proof. by intros a b [] r. Qed.

(** ** The invariant of the heap *)

(** The node at a path. *)
Definition child (h : gmap positive node) (d : positive) (x : string) : option positive :=
  match h !! d with Some (Dir _ ch) => ch !! x | _ => None end.
Definition lookup_path (h : gmap positive node) (ks : fpath) : option positive :=
  foldl (λ o x, d ← o; child h d x) (Some root) ks.

(** Every node that is reached carries the path it is reached by. *)
Definition node_wf (n : node) : Prop :=
  match n with Dir _ _ => True | File _ d => slen d ≤ slice_cap d end.
Definition heap_ok (h : gmap positive node) : Prop :=
  (∃ c ch, h !! root = Some (Dir c ch)) ∧
  ∀ ks l, lookup_path h ks = Some l →
    good ks ∧ nostutter ks ∧ ∃ n, h !! l = Some n ∧ node_path n = rootpath ks ∧ node_wf n.
Definition inv (s : state) : Prop := heap_ok (nodes s).

Definition entry_of (n : node) : entry :=
  match n with Dir _ _ => EDir | File _ d => EFile (slice_bytes d) end.
Definition heap_view (h : gmap positive node) : fs := λ ks, l ← lookup_path h ks; entry_of <$> h !! l.
Definition view (s : state) : fs := heap_view (nodes s).

Lemma lookup_path_snoc h ks x : lookup_path h (ks ++ [x]) = d ← lookup_path h ks; child h d x.
Proof. unfold lookup_path. by rewrite foldl_snoc. Qed.
Lemma lookup_path_app_None h ks ks' : lookup_path h ks = None → lookup_path h (ks ++ ks') = None.
Proof.
  intros H. induction ks' as [|x ks' IH] using rev_ind; [by rewrite app_nil_r|].
  by rewrite app_assoc, lookup_path_snoc, IH.
Qed.

Lemma rootpath_inj ks ks' : good ks → good ks' → rootpath ks = rootpath ks' → ks = ks'.
Proof.
  assert (∀ l, good l → comps (rootpath l) = l) as H.
  { intros l Hl. destruct l as [|x l]; [done|]. by apply comps_abspath. }
  intros Hk Hk' Heq. by rewrite <-(H ks), <-(H ks'), Heq.
Qed.
Lemma rootpath_snoc ks x : rootpath (ks ++ [x]) = abspath (ks ++ [x]).
Proof. by destruct ks. Qed.

Lemma lookup_path_node h ks l :
  heap_ok h → lookup_path h ks = Some l →
  good ks ∧ nostutter ks ∧ ∃ n, h !! l = Some n ∧ node_path n = rootpath ks.
Proof. intros [_ Hh] Hl. destruct (Hh ks l Hl) as (? & ? & n & ? & ? & _). eauto 6. Qed.
Lemma lookup_path_inj h ks ks' l :
  heap_ok h → lookup_path h ks = Some l → lookup_path h ks' = Some l → ks = ks'.
Proof.
  intros Hh H1 H2. destruct (lookup_path_node h ks l Hh H1) as (Hg & _ & n & Hn & Hp).
  destruct (lookup_path_node h ks' l Hh H2) as (Hg' & _ & n' & Hn' & Hp').
  apply rootpath_inj; congruence.
Qed.
Lemma lookup_path_child h ks d c ch x :
  lookup_path h ks = Some d → h !! d = Some (Dir c ch) → lookup_path h (ks ++ [x]) = ch !! x.
Proof. intros Hd Hn. rewrite lookup_path_snoc, Hd. simpl. unfold child. by rewrite Hn. Qed.
(** The children of a directory that is reached, by name. *)
Lemma dir_children h ks l c ch :
  heap_ok h → lookup_path h ks = Some l → h !! l = Some (Dir c ch) →
  p c = rootpath ks ∧
  ∀ x l', ch !! x = Some l' → good_comp x = true ∧ last ks ≠ Some x ∧
    ∃ n', h !! l' = Some n' ∧ node_path n' = abspath (ks ++ [x]).
Proof.
  intros Hh Hl Hn. destruct (lookup_path_node h ks l Hh Hl) as (Hg & _ & n & Hn' & Hp).
  rewrite Hn in Hn'. injection Hn' as <-. split; [done|]. intros x l' Hx.
  rewrite <-(lookup_path_child h ks l c ch x) in Hx by done.
  destruct (lookup_path_node h _ l' Hh Hx) as (Hg' & Hs' & n' & Hn' & Hp').
  apply Forall_app in Hg' as [_ [Hgx _]%Forall_cons]. rewrite rootpath_snoc in Hp'.
  split_and!; [done|by apply nostutter_last|by eexists].
Qed.

(** ** Finding a node *)

(** Where the traversal for the components [ks] stops. *)
Definition stops (h : gmap positive node) (l : positive) (ks : fpath) : Prop :=
  match ks, h !! l with
  | [], _ | _, Some (File _ _) => True
  | x :: _, Some (Dir _ ch) => ch !! x = None
  | _, None => False
  end.

Lemma Trim_idem_Join ks q : good ks → Trim q = Join ks "/" → Trim (Trim q) = Join ks "/".
Proof. intros Hks ->. by apply Trim_Join. Qed.

(** The last step repeats the name it has just followed. *)
Lemma find_go_self fuel h pre k l c ch i :
  heap_ok h → lookup_path h (pre ++ [k]) = Some l → h !! l = Some (Dir c ch) → good_comp k = true →
  0 < fuel → IndexSlash (Join [k] "/") = i →
  find_go fuel h l (match i with None => Join [k] "/" | Some i => str_drop (S i) (Join [k] "/") end) = Some l.
Proof.
  intros Hh Hl Hn Hk Hf <-. destruct fuel as [|fuel]; [lia|].
  rewrite Join_one, IndexSlash_no_slash by auto with registry. cbn [find_go].
  assert (Trim k = k) as -> by (by apply (Trim_Join [k]); repeat constructor).
  rewrite IndexSlash_no_slash by auto with registry. case_bool_decide; [done|]. simpl.
  rewrite Hn. destruct (ch !! k) as [l'|] eqn:Hc; [|done].
  apply (dir_children h _ l c ch Hh Hl Hn) in Hc as (_ & Hlast & _). by rewrite last_snoc in Hlast.
Qed.

Lemma find_go_spec fuel h pre d ks q :
  heap_ok h → lookup_path h pre = Some d → (∃ c ch, h !! d = Some (Dir c ch)) →
  good ks → Trim q = Join ks "/" → length ks + 1 < fuel →
  ∃ l ks1 ks2, find_go fuel h d q = Some l ∧ ks = ks1 ++ ks2 ∧ lookup_path h (pre ++ ks1) = Some l ∧ stops h l ks2.
Proof.
  intros Hh. revert fuel pre d q.
  induction ks as [|k ks IH]; intros fuel pre d q Hpre (c & ch & Hd) Hgood Hq Hf;
    (destruct fuel as [|fuel]; [lia|]); cbn [find_go]; rewrite Hq.
  - exists d, [], []. by rewrite !app_nil_r.
  - apply Forall_cons in Hgood as [Hk Hks]. rewrite bool_decide_false by (by apply Join_ne).
    rewrite Hd.
    assert (∃ i, IndexSlash (Join (k :: ks) "/") = i ∧ i ≠ Some 0 ∧
      match i with None => Join (k :: ks) "/" | Some i => str_take i (Join (k :: ks) "/") end = k ∧
      (ks = [] ∨ match i with None => Join (k :: ks) "/" | Some i => str_drop (S i) (Join (k :: ks) "/") end = Join ks "/"))
      as (i & Hi & Hi0 & Hcomp & Hrest).
    { destruct ks as [|k' ks].
      - exists None. rewrite Join_one, IndexSlash_no_slash by auto with registry. naive_solver.
      - exists (Some (String.length k)). rewrite Join_cons2, IndexSlash_app, str_take_app by auto with registry.
        split_and!; [done| |done|].
        + destruct k; [by apply good_comp_ne in Hk as [? _]|done].
        + right. change (String slash ?t) with (String slash "" +:+ t). rewrite str_app_assoc.
          replace (S (String.length k)) with (String.length (k +:+ String slash "")).
          * apply str_drop_app.
          * rewrite str_length_app. simpl. lia. }
    rewrite Hi, Hcomp, bool_decide_false by done.
    destruct (ch !! k) as [l|] eqn:Hl; cycle 1.
    { exists d, [], (k :: ks). rewrite app_nil_r. split_and!; try done. unfold stops. by rewrite Hd. }
    assert (lookup_path h (pre ++ [k]) = Some l) as Hlk.
    { rewrite lookup_path_snoc, Hpre. simpl. unfold child. by rewrite Hd. }
    destruct (lookup_path_node h _ l Hh Hlk) as (_ & _ & n & Hn & _). rewrite Hn.
    destruct n as [c' ch'|c' data]; cycle 1.
    { exists l, [k], ks. split_and!; try done. unfold stops. rewrite Hn. by destruct ks. }
    destruct Hrest as [->|Hrest].
    + exists l, [k], []. split_and!; try done. eapply find_go_self with (pre := pre); try done. simpl in Hf. lia.
    + destruct (IH fuel (pre ++ [k]) l (Join ks "/")) as (l' & ks1 & ks2 & Hfind & -> & Hlk' & Hst').
      * done.
      * by eexists _, _.
      * done.
      * by apply Trim_Join.
      * simpl in Hf. lia.
      * exists l', (k :: ks1), ks2. rewrite Hrest. split_and!; try done. by rewrite <-app_assoc in Hlk'.
Qed.

(** *** Calls that read the heap *)

Lemma deref_Ret s l n : nodes s !! l = Some n → deref l s = (Ret n, s).
Proof. intros H. unfold deref, gets, lift, mbind, gom_bind. by rewrite H. Qed.
Lemma as_dir_Ret s l c ch : nodes s !! l = Some (Dir c ch) → as_dir l s = (Ret (c, ch), s).
Proof. intros H. unfold as_dir. by rewrite (bind_Ret _ _ _ _ _ (deref_Ret _ _ _ H)). Qed.
Lemma as_file_Ret s l c d : nodes s !! l = Some (File c d) → as_file l s = (Ret (c, d), s).
Proof. intros H. unfold as_file. by rewrite (bind_Ret _ _ _ _ _ (deref_Ret _ _ _ H)). Qed.

(** Run one call whose result is known. *)
Ltac run H := rewrite (bind_Ret _ _ _ _ _ H).

Lemma find_hit s ks q l :
  inv s → lookup_path (nodes s) ks = Some l → Trim q = Join ks "/" → dir_find root q s = (Ret l, s).
Proof.
  intros Hi Hl Hq. destruct (lookup_path_node _ _ _ Hi Hl) as (Hg & Hs & _).
  assert (length ks ≤ String.length q) as Hlen.
  { pose proof (Join_length ks Hg). pose proof (Trim_length q). rewrite Hq in *. lia. }
  destruct (find_go_spec (find_fuel (nodes s) q) (nodes s) [] root ks q) as (l' & ks1 & ks2 & Hf & -> & Hl' & Hstop);
    try done.
  { by destruct Hi as [(c & ch & ?) _]; eexists _, _. }
  { unfold find_fuel. lia. }
  unfold dir_find, gets, lift, mbind, gom_bind. rewrite Hf. simpl in *.
  destruct ks2 as [|x ks2]; [rewrite app_nil_r in Hl; by simplify_eq|].
  assert (lookup_path (nodes s) (ks1 ++ [x]) = None) as Hx.
  { rewrite lookup_path_snoc, Hl'. simpl. unfold stops in Hstop. unfold child.
    destruct (nodes s !! l') as [[]|]; done. }
  apply (lookup_path_app_None _ _ ks2) in Hx. rewrite <-app_assoc in Hx. cbn [app] in Hx. congruence.
Qed.

Lemma find_miss s ks q :
  inv s → good ks → lookup_path (nodes s) ks = None → Trim q = Join ks "/" →
  ∃ l ks1 x ks2 n, dir_find root q s = (Ret l, s) ∧ ks = ks1 ++ x :: ks2 ∧ lookup_path (nodes s) ks1 = Some l ∧
    nodes s !! l = Some n ∧ node_path n = rootpath ks1 ∧ child (nodes s) l x = None.
Proof.
  intros Hi Hg Hl Hq.
  assert (length ks ≤ String.length q) as Hlen.
  { pose proof (Join_length ks Hg). pose proof (Trim_length q). rewrite Hq in *. lia. }
  destruct (find_go_spec (find_fuel (nodes s) q) (nodes s) [] root ks q) as (l' & ks1 & ks2 & Hf & -> & Hl' & Hstop);
    try done.
  { by destruct Hi as [(c & ch & ?) _]; eexists _, _. }
  { unfold find_fuel. lia. }
  simpl in *. destruct ks2 as [|x ks2]; [by rewrite app_nil_r, Hl' in Hl|].
  destruct (lookup_path_node _ _ _ Hi Hl') as (_ & _ & n & Hn & Hp).
  exists l', ks1, x, ks2, n. split_and!; try done.
  - unfold dir_find, gets, lift, mbind, gom_bind. by rewrite Hf.
  - unfold stops in Hstop. unfold child. destruct (nodes s !! l') as [[]|]; done.
Qed.

Lemma find_from s pre d c ch ks q :
  inv s → lookup_path (nodes s) pre = Some d → nodes s !! d = Some (Dir c ch) → good ks → Trim q = Join ks "/" →
  ∃ l ks1, dir_find d q s = (Ret l, s) ∧ lookup_path (nodes s) (pre ++ ks1) = Some l.
Proof.
  intros Hi Hd Hn Hg Hq.
  assert (length ks ≤ String.length q) as Hlen.
  { pose proof (Join_length ks Hg). pose proof (Trim_length q). rewrite Hq in *. lia. }
  destruct (find_go_spec (find_fuel (nodes s) q) (nodes s) pre d ks q) as (l & ks1 & ks2 & Hf & -> & Hl & _);
    try done; [by eexists _, _|unfold find_fuel; lia|].
  exists l, ks1. split; [|done]. unfold dir_find, gets, lift, mbind, gom_bind. by rewrite Hf.
Qed.

(** Normalised canonical paths. *)
Lemma normalize_abspath ks : good ks → normalize (abspath ks) = rootpath ks.
Proof.
  intros Hk. unfold normalize. rewrite Trim_abspath by done. destruct ks; [done|]. symmetry. apply abspath_Join.
Qed.
Lemma Trim_rootpath ks : good ks → Trim (rootpath ks) = Join ks "/".
Proof. intros Hk. destruct ks; [done|]. by apply Trim_abspath. Qed.
Lemma normalize_rootpath ks : good ks → normalize (rootpath ks) = rootpath ks.
Proof. intros Hk. destruct ks; [done|]. by apply normalize_abspath. Qed.
Lemma normalize_slash ks : good ks → normalize (abspath ks +:+ "/") = rootpath ks.
Proof.
  intros Hk. unfold normalize. rewrite Trim_abspath_slash by done. destruct ks; [done|]. symmetry. apply abspath_Join.
Qed.

Lemma view_Some s ks e : view s ks = Some e →
  ∃ l n, lookup_path (nodes s) ks = Some l ∧ nodes s !! l = Some n ∧ e = entry_of n.
Proof.
  unfold view, heap_view. intros (l & Hl & He)%bind_Some. apply fmap_Some in He as (n & Hn & ->). eauto.
Qed.
Lemma view_None s ks : inv s → view s ks = None → lookup_path (nodes s) ks = None.
Proof.
  intros Hi. unfold view, heap_view. destruct (lookup_path (nodes s) ks) as [l|] eqn:Hl; [|done].
  destruct (lookup_path_node _ _ _ Hi Hl) as (_ & _ & n & Hn & _). simpl. by rewrite Hn.
Qed.

(** What [find] and the comparison of paths that follows it tell a caller. *)
Lemma found s ks e :
  inv s → view s ks = Some e → good ks →
  ∃ l n, dir_find root (normalize (abspath ks)) s = (Ret l, s) ∧ lookup_path (nodes s) ks = Some l ∧
    nodes s !! l = Some n ∧ node_path n = normalize (abspath ks) ∧ e = entry_of n.
Proof.
  intros Hi (l & n & Hl & Hn & ->)%view_Some Hg. exists l, n.
  destruct (lookup_path_node _ _ _ Hi Hl) as (_ & _ & n' & Hn' & Hp). simplify_eq.
  rewrite normalize_abspath by done. split_and!; try done.
  apply (find_hit s ks); try done. by apply Trim_rootpath.
Qed.
Lemma not_there s ks :
  inv s → view s ks = None → ok ks →
  ∃ l n, dir_find root (normalize (abspath ks)) s = (Ret l, s) ∧ nodes s !! l = Some n ∧
    node_path n ≠ normalize (abspath ks) ∧
    ∃ ks1 x ks2, ks = ks1 ++ x :: ks2 ∧ lookup_path (nodes s) ks1 = Some l ∧ node_path n = rootpath ks1 ∧
      child (nodes s) l x = None.
Proof.
  intros Hi Hv (Hne & Hg & Hs). apply view_None in Hv; [|done]. rewrite normalize_abspath by done.
  destruct (find_miss s ks (rootpath ks)) as (l & ks1 & x & ks2 & n & Hf & -> & Hl & Hn & Hp & Hc); try done.
  { by apply Trim_rootpath. }
  exists l, n. split_and!; try done.
  - rewrite Hp. intros Heq. apply Forall_app in Hg as Hg'. destruct Hg' as [Hg1 _].
    apply rootpath_inj in Heq; [|done..]. apply (f_equal length) in Heq. rewrite length_app in Heq. simpl in Heq. lia.
  - by exists ks1, x, ks2.
Qed.

(** ** Reading *)

Lemma file_slen s ks l c d : inv s → lookup_path (nodes s) ks = Some l → nodes s !! l = Some (File c d) →
  String.length (slice_bytes d) = slen d.
Proof.
  intros [_ Hi] Hl Hn. destruct (Hi _ _ Hl) as (_ & _ & n & Hn' & _ & Hwf). simplify_eq.
  simpl in Hwf. unfold slice_bytes, slice_cap in *. rewrite str_length_take. lia.
Qed.

Lemma reader_spec s ks c off :
  inv s → ok ks → view s ks = Some (EFile c) → (0 ≤ off ≤ Z.of_nat (String.length c))%Z →
  ∃ r, driver_reader (abspath ks) off s = (Ret r, s) ∧ reader_ReadAll r s = (Ret (str_drop (Z.to_nat off) c), s).
Proof.
  intros Hi (Hne & Hg & Hs) Hv Hoff. destruct (found s ks _ Hi Hv Hg) as (l & n & Hf & Hl & Hn & Hp & He).
  destruct n as [|cm d]; [done|]. injection He as ->. pose proof (file_slen s ks l cm d Hi Hl Hn) as Hlen.
  exists {| rd_f := l; rd_off := off; rd_limit := Z.of_nat (slen d) |}. split.
  - unfold driver_reader, file_sectionReader. rewrite bool_decide_false by lia.
    unfold mbind, gom_bind. rewrite Hf, (deref_Ret _ _ _ Hn), bool_decide_false by auto.
    cbn [isdir]. by rewrite (as_file_Ret _ _ _ _ Hn).
  - unfold reader_ReadAll. cbn [rd_limit rd_off rd_f]. case_bool_decide as H0.
    + assert (String.length (str_drop (Z.to_nat off) (slice_bytes d)) = 0) as ->%str_length_nil; [|done].
      rewrite str_length_drop. lia.
    + unfold mbind, gom_bind. rewrite (as_file_Ret _ _ _ _ Hn), bool_decide_false by lia.
      rewrite (str_take_ge (Z.to_nat (Z.of_nat (slen d) - off))); [done|]. rewrite str_length_drop. lia.
Qed.
Lemma reader_missing_spec s ks off :
  inv s → ok ks → view s ks = None → (0 ≤ off)%Z →
  driver_reader (abspath ks) off s = (Fail (PathNotFoundError (abspath ks) ""), s).
Proof.
  intros Hi Hok Hv Hoff. destruct (not_there s ks Hi Hv Hok) as (l & n & Hf & Hn & Hp & _).
  unfold driver_reader. rewrite bool_decide_false by lia.
  unfold mbind, gom_bind. by rewrite Hf, (deref_Ret _ _ _ Hn), bool_decide_true.
Qed.

Lemma get_spec s ks c : inv s → ok ks → view s ks = Some (EFile c) → GetContent (abspath ks) s = (Ret c, s).
Proof.
  intros Hi Hok Hv. destruct (reader_spec s ks c 0 Hi Hok Hv) as (r & H1 & H2); [lia|].
  unfold GetContent. by rewrite (bind_Ret _ _ _ _ _ H1), H2.
Qed.
Lemma get_missing_spec s ks :
  inv s → ok ks → view s ks = None → GetContent (abspath ks) s = (Fail (PathNotFoundError (abspath ks) ""), s).
Proof.
  intros Hi Hok Hv. unfold GetContent. by rewrite (bind_Fail _ _ _ _ _ (reader_missing_spec s ks 0 Hi Hok Hv ltac:(lia))).
Qed.

Lemma stat_spec s ks e :
  inv s → ok ks → view s ks = Some e →
  ∃ t, Stat (abspath ks) s =
    (Ret {| fi_Path := abspath ks;
            fi_Size := match e with EFile c => Z.of_nat (String.length c) | EDir => 0 end;
            fi_ModTime := t;
            fi_IsDir := match e with EFile _ => false | EDir => true end |}, s).
Proof.
  intros Hi (Hne & Hg & Hs) Hv. destruct (found s ks _ Hi Hv Hg) as (l & n & Hf & Hl & Hn & Hp & ->).
  exists (modtime n). unfold Stat, mbind, gom_bind. rewrite Hf, (deref_Ret _ _ _ Hn), bool_decide_false by auto.
  destruct n as [|c d]; simpl; [done|]. by rewrite (file_slen s ks l c d).
Qed.
Lemma stat_missing_spec s ks :
  inv s → ok ks → view s ks = None → Stat (abspath ks) s = (Fail (PathNotFoundError (abspath ks) ""), s).
Proof.
  intros Hi Hok Hv. destruct (not_there s ks Hi Hv Hok) as (l & n & Hf & Hn & Hp & _).
  unfold Stat, mbind, gom_bind. by rewrite Hf, (deref_Ret _ _ _ Hn), bool_decide_true.
Qed.

(** *** Listing *)

Lemma child_paths_spec s ks l c ch (kls : list (string * positive)) :
  inv s → lookup_path (nodes s) ks = Some l → nodes s !! l = Some (Dir c ch) →
  (∀ x l', (x, l') ∈ kls → ch !! x = Some l') →
  child_paths kls s = (Ret ((λ x, abspath (ks ++ [x])) <$> kls.*1), s).
Proof.
  intros Hi Hl Hn. destruct (dir_children _ _ _ _ _ Hi Hl Hn) as [_ Hch].
  induction kls as [|[x l'] kls IH]; intros Hsub; [done|]. cbn [child_paths].
  destruct (Hch x l') as (_ & _ & n' & Hn' & Hp'). { apply Hsub. by left. }
  unfold mbind, gom_bind in *. rewrite (deref_Ret _ _ _ Hn'), IH, Hp'; [done|]. intros. apply Hsub. by right.
Qed.

(** A directory in which [q] starts with no child is found by its own list. *)
Lemma find_here s l c ch k ks q :
  nodes s !! l = Some (Dir c ch) → ch !! k = None → good (k :: ks) → Trim q = Join (k :: ks) "/" →
  dir_find l q s = (Ret l, s).
Proof.
  intros Hn Hk Hg Hq. unfold dir_find, gets, lift, mbind, gom_bind, find_fuel. rewrite Nat.add_comm.
  cbn [find_go plus]. rewrite Hq. apply Forall_cons in Hg as [Hgk _].
  rewrite bool_decide_false by (by apply Join_ne). rewrite Hn.
  destruct ks as [|k' ks].
  - rewrite Join_one, IndexSlash_no_slash by auto with registry. simpl. by rewrite Hk.
  - rewrite Join_cons2, IndexSlash_app, str_take_app by auto with registry.
    rewrite bool_decide_false; [by rewrite Hk|]. destruct k; [by apply good_comp_ne in Hgk as [? _]|done].
Qed.

Lemma list_spec s k ks :
  inv s → ok (k :: ks) → view s (k :: ks) = Some EDir → view s ((k :: ks) ++ [k]) = None →
  ∃ names, List (abspath (k :: ks)) s = (Ret (sort_Strings ((λ x, abspath ((k :: ks) ++ [x])) <$> names)), s) ∧
    fs_children (view s) (k :: ks) names.
Proof.
  intros Hi (Hne & Hg & Hs) Hv Hk. destruct (found s _ _ Hi Hv Hg) as (l & n & Hf & Hl & Hn & Hp & He).
  destruct n as [c ch|]; [|done]. apply view_None in Hk; [|done].
  rewrite lookup_path_snoc, Hl in Hk. simpl in Hk. unfold child in Hk. rewrite Hn in Hk.
  exists ((map_to_list ch).*1). split.
  - unfold List, dir_list, attempt, mbind, gom_bind. rewrite Hf, (deref_Ret _ _ _ Hn). cbn [isdir negb].
    rewrite (find_here s l c ch k ks); try done; [|by rewrite normalize_abspath by done; apply Trim_rootpath].
    rewrite (deref_Ret _ _ _ Hn), bool_decide_false by auto. cbn [isdir negb].
    rewrite (as_dir_Ret _ _ _ _ Hn), (child_paths_spec s (k :: ks) l c ch); try done.
    intros x l'. apply elem_of_map_to_list.
  - split; [apply NoDup_fst_map_to_list|]. intros x. unfold view, heap_view.
    rewrite lookup_path_snoc, Hl. simpl. unfold child. rewrite Hn.
    rewrite list_elem_of_fmap. split.
    + intros ([x' l'] & -> & Hx%elem_of_map_to_list). simpl. rewrite Hx. simpl.
      destruct (dir_children _ _ _ _ _ Hi Hl Hn) as [_ Hch]. destruct (Hch _ _ Hx) as (_ & _ & n' & -> & _). done.
    + destruct (ch !! x) as [l'|] eqn:Hx; simpl; [|by intros []]. intros _.
      exists (x, l'). split; [done|]. by apply elem_of_map_to_list.
Qed.

Lemma list_missing_spec s ks :
  inv s → ok ks → view s ks = None → ¬ blocked (view s) ks →
  List (abspath ks) s = (Fail (PathNotFoundError (abspath ks) ""), s).
Proof.
  intros Hi Hok Hv Hb. destruct (not_there s ks Hi Hv Hok) as (l & n & Hf & Hn & Hp & ks1 & x & ks2 & -> & Hl & Hp1 & Hc).
  destruct n as [c ch|c d]; cycle 1.
  { destruct Hb. exists ks1. split; [split; [by eexists|]|].
    - intros Heq%(f_equal length). rewrite length_app in Heq. simpl in Heq. lia.
    - exists (slice_bytes d). unfold view, heap_view. rewrite Hl. simpl. by rewrite Hn. }
  unfold List, dir_list, attempt, mbind, gom_bind. rewrite Hf, (deref_Ret _ _ _ Hn). cbn [isdir negb].
  assert (good (ks1 ++ x :: ks2)) as Hg by apply Hok.
  destruct (find_from s ks1 l c ch (ks1 ++ x :: ks2) (normalize (abspath (ks1 ++ x :: ks2))))
    as (l' & ks' & Hf' & Hl'); try done.
  { rewrite normalize_abspath by done. by apply Trim_rootpath. }
  destruct (lookup_path_node _ _ _ Hi Hl') as (Hg' & _ & n' & Hn' & Hp').
  rewrite Hf', (deref_Ret _ _ _ Hn'), bool_decide_true; [done|].
  rewrite Hp', normalize_abspath by done. intros Heq%rootpath_inj; [|done..].
  apply view_None in Hv; [|done]. by rewrite <-Heq, Hl' in Hv.
Qed.

(** ** Updating the heap *)

Definition children_of (n : node) : option (gmap string positive) :=
  match n with Dir _ ch => Some ch | File _ _ => None end.
Definition leaf (n : node) : Prop := match n with Dir _ ch => ch = ∅ | File _ _ => True end.

Lemma child_children h d x : child h d x = n ← h !! d; ch ← children_of n; ch !! x.
Proof. unfold child. by destruct (h !! d) as [[]|]. Qed.

(** A write to a node that keeps its children moves nothing. *)
Lemma set_node_lookup h l n n' q :
  h !! l = Some n → children_of n' = children_of n → lookup_path (<[l := n']> h) q = lookup_path h q.
Proof.
  intros Hl Hc. induction q as [|x q IH] using rev_ind; [done|].
  rewrite !lookup_path_snoc, IH. destruct (lookup_path h q) as [d|]; [|done]. simpl.
  rewrite !child_children. destruct (decide (d = l)) as [->|Hd].
  - rewrite lookup_insert_eq, Hl. simpl. by rewrite Hc.
  - by rewrite lookup_insert_ne.
Qed.
Lemma set_node_ok h l n n' :
  heap_ok h → h !! l = Some n → children_of n' = children_of n → node_path n' = node_path n → node_wf n' →
  heap_ok (<[l := n']> h).
Proof.
  intros [(c & ch & Hr) Hh] Hl Hc Hp Hw. split.
  - destruct (decide (l = root)) as [->|Hne].
    + rewrite lookup_insert_eq. rewrite Hr in Hl. injection Hl as <-. destruct n' as [c' ch'|]; [by eexists _, _|done].
    + rewrite lookup_insert_ne by done. eauto.
  - intros ks l'. rewrite (set_node_lookup h l n) by done. intros Hk. destruct (Hh ks l' Hk) as (? & ? & m & Hm & Hpm & Hwm).
    split_and!; try done. destruct (decide (l = l')) as [->|Hne].
    + rewrite Hl in Hm. injection Hm as <-. exists n'. rewrite lookup_insert_eq. by rewrite Hp.
    + exists m. by rewrite lookup_insert_ne.
Qed.

(** Writing the file at a path. *)
Lemma set_file_view h ks l c d c' d' :
  heap_ok h → lookup_path h ks = Some l → h !! l = Some (File c d) →
  ∀ q, heap_view (<[l := File c' d']> h) q = if decide (q = ks) then Some (EFile (slice_bytes d')) else heap_view h q.
Proof.
  intros Hh Hl Hn q. unfold heap_view. rewrite (set_node_lookup h l (File c d)) by done.
  case_decide as Hq.
  - subst q. rewrite Hl. simpl. by rewrite lookup_insert_eq.
  - destruct (lookup_path h q) as [l'|] eqn:Hl'; [|done]. simpl. rewrite lookup_insert_ne; [done|].
    intros <-. destruct Hq. by eapply lookup_path_inj.
Qed.

(** A write to an object outside the tree changes nothing in it. *)
Lemma unreachable_lookup h l n q :
  (∀ q, lookup_path h q ≠ Some l) → lookup_path (<[l := n]> h) q = lookup_path h q.
Proof.
  intros Hl. induction q as [|x q IH] using rev_ind; [done|].
  rewrite !lookup_path_snoc, IH. destruct (lookup_path h q) as [d|] eqn:Hd; [|done]. simpl.
  unfold child. rewrite lookup_insert_ne; [done|]. intros ->. by destruct (Hl q).
Qed.
Lemma unreachable_ok h l n : heap_ok h → (∀ q, lookup_path h q ≠ Some l) → heap_ok (<[l := n]> h).
Proof.
  intros [(c & ch & Hr) Hh] Hl. split.
  - exists c, ch. rewrite lookup_insert_ne; [done|]. intros ->. by apply (Hl []).
  - intros ks l'. rewrite unreachable_lookup by done. intros Hk. destruct (Hh ks l' Hk) as (? & ? & m & Hm & Hpm).
    split_and!; try done. exists m. rewrite lookup_insert_ne; [done|]. intros ->. by destruct (Hl ks).
Qed.
Lemma unreachable_view h l n q :
  (∀ q, lookup_path h q ≠ Some l) → heap_view (<[l := n]> h) q = heap_view h q.
Proof.
  intros Hl. unfold heap_view. rewrite unreachable_lookup by done.
  destruct (lookup_path h q) as [d|] eqn:Hd; [|done]. simpl. rewrite lookup_insert_ne; [done|].
  intros ->. by destruct (Hl q).
Qed.
Lemma fresh_unreachable h l q : heap_ok h → l ∉ dom h → lookup_path h q ≠ Some l.
Proof.
  intros Hh Hl Hq. destruct (lookup_path_node h q l Hh Hq) as (_ & _ & n & Hn & _).
  apply Hl. apply elem_of_dom. by eexists.
Qed.

(** Changing one entry of a directory changes the paths through that entry. *)
Lemma set_child_lookup h ks d c ch c' ch' x :
  heap_ok h → lookup_path h ks = Some d → h !! d = Some (Dir c ch) → (∀ y, y ≠ x → ch' !! y = ch !! y) →
  (∀ q, ¬ (ks ++ [x]) `prefix_of` q → lookup_path (<[d := Dir c' ch']> h) q = lookup_path h q) ∧
  lookup_path (<[d := Dir c' ch']> h) (ks ++ [x]) = ch' !! x.
Proof.
  intros Hh Hd Hn Hch.
  assert (∀ q, ¬ (ks ++ [x]) `prefix_of` q → lookup_path (<[d := Dir c' ch']> h) q = lookup_path h q) as H.
  { intros q. induction q as [|y q IH] using rev_ind; intros Hq; [done|].
    rewrite !lookup_path_snoc, IH by (intros Hp; apply Hq; by apply prefix_app_r).
    destruct (lookup_path h q) as [e|] eqn:He; [|done]. simpl. unfold child.
    destruct (decide (e = d)) as [->|Hne]; [|by rewrite lookup_insert_ne].
    rewrite lookup_insert_eq, Hn. apply Hch. intros ->. apply Hq.
    by rewrite (lookup_path_inj h q ks d Hh He Hd). }
  split; [done|]. rewrite lookup_path_snoc, H.
  - rewrite Hd. simpl. unfold child. by rewrite lookup_insert_eq.
  - intros Hp%prefix_length. rewrite length_app in Hp. simpl in Hp. lia.
Qed.
Lemma lookup_below_leaf h ks l n r :
  lookup_path h ks = Some l → h !! l = Some n → leaf n → r ≠ [] → lookup_path h (ks ++ r) = None.
Proof.
  intros Hl Hn Hleaf Hr. destruct r as [|x r]; [done|].
  change (x :: r) with ([x] ++ r). rewrite app_assoc. apply lookup_path_app_None.
  rewrite lookup_path_snoc, Hl. simpl. unfold child. rewrite Hn. destruct n as [c ch|]; [|done].
  simpl in Hleaf. subst ch. done.
Qed.

(** *** Attaching a leaf and detaching a subtree *)

Section attach.
Context (h : gmap positive node) (ks : fpath) (d : positive) (c c' : common) (ch : gmap string positive).
Context (x : string) (l : positive) (n : node).
Context (Hh : heap_ok h) (Hd : lookup_path h ks = Some d) (Hn : h !! d = Some (Dir c ch)) (Hc' : p c' = p c).
Context (Hl : ∀ q, lookup_path h q ≠ Some l) (Hleaf : leaf n) (Hwf : node_wf n).
Context (Hp : node_path n = abspath (ks ++ [x])) (Hx : good_comp x = true) (Hlast : last ks ≠ Some x).
Let h' := <[d := Dir c' (<[x := l]> ch)]> (<[l := n]> h).

Lemma attach_ld : l ≠ d.
Proof. intros ->. by apply (Hl ks). Qed.
Lemma attach_node : h' !! l = Some n.
Proof. unfold h'. rewrite lookup_insert_ne by (apply not_eq_sym, attach_ld). apply lookup_insert_eq. Qed.
Lemma attach_lookup q :
  lookup_path h' q = if decide (q = ks ++ [x]) then Some l
                     else if decide ((ks ++ [x]) `prefix_of` q) then None else lookup_path h q.
Proof.
  destruct (set_child_lookup (<[l := n]> h) ks d c ch c' (<[x := l]> ch) x) as [H1 H2].
  - by apply unreachable_ok.
  - by rewrite unreachable_lookup.
  - by rewrite lookup_insert_ne by apply attach_ld.
  - intros y Hy. by rewrite lookup_insert_ne.
  - fold h' in H1, H2. rewrite lookup_insert_eq in H2. case_decide as Hq; [by subst q|].
    case_decide as Hpre.
    + destruct Hpre as [r ->]. eapply lookup_below_leaf; [done|apply attach_node|done|].
      intros ->. by rewrite app_nil_r in Hq.
    + rewrite H1 by done. by apply unreachable_lookup.
Qed.
Lemma attach_ok : heap_ok h'.
Proof.
  pose proof attach_ld as Hld. split.
  - destruct Hh as [(c0 & ch0 & Hr) _]. destruct (decide (d = root)) as [->|Hne].
    + eexists _, _. apply lookup_insert_eq.
    + exists c0, ch0. unfold h'. rewrite lookup_insert_ne by done. rewrite lookup_insert_ne; [done|].
      intros ->. by apply (Hl []).
  - intros q l'. rewrite attach_lookup. case_decide as Hq.
    + intros [= <-]. subst q. destruct (lookup_path_node h ks d Hh Hd) as (Hg & Hs & _). split_and!.
      * apply Forall_app; split; [done|by repeat constructor].
      * by apply nostutter_snoc.
      * exists n. rewrite attach_node, rootpath_snoc. done.
    + case_decide; [done|]. intros Hq'. destruct Hh as [_ Hh']. destruct (Hh' q l' Hq') as (? & ? & m & Hm & Hpm & Hwm).
      split_and!; try done. unfold h'. destruct (decide (d = l')) as [->|Hne].
      * eexists. rewrite lookup_insert_eq. split_and!; [done| |done]. rewrite Hn in Hm. injection Hm as <-.
        by rewrite <-Hpm.
      * exists m. rewrite lookup_insert_ne by done. rewrite lookup_insert_ne; [done|]. intros ->. by apply (Hl q).
Qed.
Lemma attach_view q :
  heap_view h' q = if decide (q = ks ++ [x]) then Some (entry_of n)
                   else if decide ((ks ++ [x]) `prefix_of` q) then None else heap_view h q.
Proof.
  unfold heap_view. rewrite attach_lookup. case_decide; [simpl; by rewrite attach_node|].
  case_decide; [done|]. destruct (lookup_path h q) as [l'|] eqn:Hq; [|done]. simpl. unfold h'.
  destruct (decide (d = l')) as [->|Hne]; [by rewrite lookup_insert_eq, Hn|].
  rewrite lookup_insert_ne by done. rewrite lookup_insert_ne; [done|]. intros ->. by apply (Hl q).
Qed.
End attach.

Section detach.
Context (h : gmap positive node) (ks : fpath) (d : positive) (c c' : common) (ch : gmap string positive) (x : string).
Context (Hh : heap_ok h) (Hd : lookup_path h ks = Some d) (Hn : h !! d = Some (Dir c ch)) (Hc' : p c' = p c).
Let h' := <[d := Dir c' (delete x ch)]> h.

Lemma detach_lookup q :
  lookup_path h' q = if decide ((ks ++ [x]) `prefix_of` q) then None else lookup_path h q.
Proof.
  destruct (set_child_lookup h ks d c ch c' (delete x ch) x) as [H1 H2]; try done.
  - intros y Hy. by rewrite lookup_delete_ne.
  - fold h' in H1, H2. rewrite lookup_delete_eq in H2. case_decide as Hpre; [|by apply H1].
    destruct Hpre as [r ->]. by apply lookup_path_app_None.
Qed.
Lemma detach_ok : heap_ok h'.
Proof.
  split.
  - destruct Hh as [(c0 & ch0 & Hr) _]. destruct (decide (d = root)) as [->|Hne].
    + eexists _, _. apply lookup_insert_eq.
    + exists c0, ch0. unfold h'. by rewrite lookup_insert_ne by done.
  - intros q l'. rewrite detach_lookup. case_decide; [done|]. intros Hq'. destruct Hh as [_ Hh'].
    destruct (Hh' q l' Hq') as (? & ? & m & Hm & Hpm & Hwm). split_and!; try done.
    unfold h'. destruct (decide (d = l')) as [->|Hne].
    + eexists. rewrite lookup_insert_eq. split_and!; [done| |done]. rewrite Hn in Hm. injection Hm as <-.
      by rewrite <-Hpm.
    + exists m. by rewrite lookup_insert_ne by done.
Qed.
Lemma detach_view q : heap_view h' q = fs_delete (heap_view h) (ks ++ [x]) q.
Proof.
  unfold heap_view, fs_delete. rewrite detach_lookup. case_decide; [done|].
  destruct (lookup_path h q) as [l'|] eqn:Hq; [|done]. simpl. unfold h'.
  destruct (decide (d = l')) as [->|Hne]; [by rewrite lookup_insert_eq, Hn|]. by rewrite lookup_insert_ne.
Qed.
End detach.

(** ** Creating directories and files *)

(** The file at a path is still the same node. *)
Definition file_at (s : state) (q : fpath) (l : positive) (c : common) (d : slice) : Prop :=
  lookup_path (nodes s) q = Some l ∧ nodes s !! l = Some (File c d).
(** A call that changes the nodes only, and no file. *)
Definition only_nodes (s s' : state) : Prop :=
  writers s' = writers s ∧ clock s' = clock s ∧ ∀ q l c d, file_at s q l c d → file_at s' q l c d.
Lemma only_nodes_refl s : only_nodes s s.
Proof. done. Qed.
Lemma only_nodes_trans s1 s2 s3 : only_nodes s1 s2 → only_nodes s2 s3 → only_nodes s1 s3.
Proof. intros (Hw & Hc & Hf) (Hw' & Hc' & Hf'). split_and!; [congruence..|]. auto. Qed.

Lemma view_lookup s ks l n : lookup_path (nodes s) ks = Some l → nodes s !! l = Some n → view s ks = Some (entry_of n).
Proof. intros Hl Hn. unfold view, heap_view. rewrite Hl. simpl. by rewrite Hn. Qed.
Lemma view_parent s ks k : inv s → is_Some (view s (ks ++ [k])) → view s ks = Some EDir.
Proof.
  intros Hi [e He]. apply view_Some in He as (l & n & Hl & _ & _). rewrite lookup_path_snoc in Hl.
  apply bind_Some in Hl as (d & Hd & Hc). unfold child in Hc.
  destruct (nodes s !! d) as [[c ch|]|] eqn:Hn; try done. by rewrite (view_lookup s ks d _ Hd Hn).
Qed.
Lemma view_prefix s ks q : inv s → is_Some (view s ks) → q `prefix_of` ks → q = ks ∨ view s q = Some EDir.
Proof.
  intros Hi Hv [r ->]. revert Hv. induction r as [|x r IH] using rev_ind; intros Hv; [left; by rewrite app_nil_r|].
  right. rewrite app_assoc in Hv. apply view_parent in Hv; [|done].
  destruct IH as [Heq|]; [by eexists| |done]. by rewrite <-Heq in Hv.
Qed.
Lemma view_below_None s ks r : inv s → view s ks = None → view s (ks ++ r) = None.
Proof.
  intros Hi Hv. apply view_None in Hv; [|done]. unfold view, heap_view. by rewrite lookup_path_app_None.
Qed.

(** A new leaf, placed into a directory. *)
Lemma new_add_spec s ks d c ch n x :
  inv s → lookup_path (nodes s) ks = Some d → nodes s !! d = Some (Dir c ch) → leaf n → node_wf n →
  node_path n = abspath (ks ++ [x]) → good_comp x = true → last ks ≠ Some x → view s (ks ++ [x]) = None →
  ∃ l s1 s2, new n s = (Ret l, s1) ∧ dir_add d l s1 = (Ret tt, s2) ∧ only_nodes s s2 ∧ inv s2 ∧
    lookup_path (nodes s2) (ks ++ [x]) = Some l ∧ nodes s2 !! l = Some n ∧
    nodes s2 !! d = Some (Dir {| p := p c; modt := clock s |} (<[x := l]> ch)) ∧
    ∀ q, view s2 q = if decide (q = ks ++ [x]) then Some (entry_of n) else view s q.
Proof.
  intros Hi Hd Hn Hleaf Hwf Hp Hx Hlast Hv.
  set (l := fresh (dom (nodes s))). assert (l ∉ dom (nodes s)) as Hl by apply is_fresh.
  assert (∀ q, lookup_path (nodes s) q ≠ Some l) as Hlr by (intros q; by apply fresh_unreachable).
  assert (l ≠ d) as Hld. { intros Heq. apply Hl. rewrite Heq. apply elem_of_dom. by eexists. }
  set (c' := {| p := p c; modt := clock s |}).
  set (h' := <[d := Dir c' (<[x := l]> ch)]> (<[l := n]> (nodes s))).
  exists l, (set_nodes (<[l := n]> (nodes s)) s), (set_nodes h' s).
  split; [done|]. split.
  { unfold dir_add, mbind, gom_bind. rewrite (as_dir_Ret _ _ c ch), (deref_Ret _ _ n);
      [|by apply lookup_insert_eq|by simpl; rewrite lookup_insert_ne].
    unfold name. rewrite Hp, path_Split_snoc by done. done. }
  split.
  { split_and!; [done..|]. intros q l' c0 d0 [Hq Hf]. cbn [nodes set_nodes].
    assert (l' ≠ d) as Hd' by (intros ->; congruence). assert (l' ≠ l) as Hl' by (intros ->; by apply (Hlr q)).
    assert (¬ (ks ++ [x]) `prefix_of` q) as Hpre.
    { intros [r ->]. apply view_None in Hv; [|done]. by rewrite (lookup_path_app_None _ _ r Hv) in Hq. }
    unfold file_at. cbn [nodes set_nodes]. unfold h'. erewrite attach_lookup by done. split.
    - rewrite !decide_False; [done..|]. intros ->. by apply Hpre.
    - by rewrite !lookup_insert_ne by done. }
  split; [by eapply attach_ok|]. split.
  { cbn [nodes set_nodes]. unfold h'. erewrite attach_lookup by done. by rewrite decide_True. }
  split; [by eapply attach_node|]. split; [by apply lookup_insert_eq|].
  intros q. unfold view. cbn [nodes set_nodes]. unfold h'. erewrite attach_view by done.
  case_decide; [done|]. case_decide as Hpre; [|done]. destruct Hpre as [r ->]. symmetry. by apply view_below_None.
Qed.

Lemma mkdir_spec s ks d c ch x :
  inv s → lookup_path (nodes s) ks = Some d → nodes s !! d = Some (Dir c ch) →
  good_comp x = true → last ks ≠ Some x → view s (ks ++ [x]) = None →
  ∃ l s', dir_mkdir d x s = (Ret l, s') ∧ only_nodes s s' ∧ inv s' ∧
    lookup_path (nodes s') (ks ++ [x]) = Some l ∧ (∃ c', nodes s' !! l = Some (Dir c' ∅)) ∧
    ∀ q, view s' q = if decide (q = ks ++ [x]) then Some EDir else view s q.
Proof.
  intros Hi Hd Hn Hx Hlast Hv.
  destruct (dir_children _ _ _ _ _ Hi Hd Hn) as [Hpc _].
  assert (path_Join [p c; x] = abspath (ks ++ [x])) as Hj.
  { rewrite Hpc, path_Join_comps, rootpath_snoc; [done|]. apply Forall_app; split; [|by repeat constructor].
    by eapply lookup_path_node. }
  destruct (new_add_spec s ks d c ch (Dir {| p := path_Join [p c; x]; modt := clock s |} ∅) x)
    as (l & s1 & s2 & Hnew & Hadd & Hon & Hi2 & Hl2 & Hn2 & Hd2 & Hv2); try done.
  assert (ch !! x = None) as Hchx.
  { apply view_None in Hv; [|done]. by rewrite (lookup_path_child _ _ _ _ _ _ Hd Hn) in Hv. }
  set (h3 := <[d := Dir {| p := p c; modt := clock s2 |} (<[x := l]> ch)]> (nodes s2)).
  assert (h3 = nodes s2) as Hh3.
  { apply insert_id. rewrite Hd2. unfold only_nodes in Hon. by destruct Hon as (_ & -> & _). }
  exists l, (set_nodes h3 s2). split.
  { unfold dir_mkdir. rewrite bool_decide_false by (by apply good_comp_ne).
    unfold mbind, gom_bind. rewrite (as_dir_Ret _ _ _ _ Hn), bool_decide_false by (rewrite Hchx; by intros []).
    unfold now, gets. rewrite Hnew, Hadd, (as_dir_Ret _ _ _ _ Hd2). done. }
  assert (set_nodes h3 s2 = s2) as ->. { rewrite Hh3. by destruct s2. }
  split_and!; try done. by eexists.
Qed.

Lemma fs_mkdirs_snoc v ks x q :
  fs_mkdirs v (ks ++ [x]) q = if decide (q = ks ++ [x]) then Some EDir else fs_mkdirs v ks q.
Proof.
  unfold fs_mkdirs. case_decide as H1; case_decide as H2; [done| |subst q; by destruct H1|].
  - rewrite decide_True; [done|]. destruct H1 as [r Hr]. destruct r as [|y r _] using rev_ind.
    + rewrite app_nil_r in Hr. congruence.
    + rewrite app_assoc in Hr. apply app_inj_tail in Hr as [-> _]. by eexists.
  - rewrite decide_False; [done|]. intros Hq. apply H1. by apply prefix_app_r.
Qed.
Lemma fs_mkdirs_ext v v' ks q : (∀ q, v q = v' q) → fs_mkdirs v ks q = fs_mkdirs v' ks q.
Proof. intros H. unfold fs_mkdirs. by rewrite H. Qed.
Lemma fs_mkdirs_there s ks q : inv s → view s ks = Some EDir → fs_mkdirs (view s) ks q = view s q.
Proof.
  intros Hi Hv. unfold fs_mkdirs. case_decide as Hq; [|done].
  destruct (view_prefix s ks q Hi) as [->|]; [by rewrite Hv|done|done..].
Qed.

Lemma mkdirs_loop_spec s ks d c ch ws :
  inv s → lookup_path (nodes s) ks = Some d → nodes s !! d = Some (Dir c ch) → good ws → nostutter (ks ++ ws) →
  match ws with [] => True | x :: _ => view s (ks ++ [x]) = None end →
  ∃ l s' c' ch', dir_mkdirs_loop d ws s = (Ret l, s') ∧ only_nodes s s' ∧ inv s' ∧
    lookup_path (nodes s') (ks ++ ws) = Some l ∧ nodes s' !! l = Some (Dir c' ch') ∧
    ∀ q, view s' q = fs_mkdirs (view s) (ks ++ ws) q.
Proof.
  revert s ks d c ch. induction ws as [|x ws IH]; intros s ks d c ch Hi Hd Hn Hg Hs Hv.
  - exists d, s, c, ch. rewrite app_nil_r. split_and!; try done.
    intros q. symmetry. apply fs_mkdirs_there; [done|]. by rewrite (view_lookup s ks d _ Hd Hn).
  - apply Forall_cons in Hg as [Hx Hws]. change (x :: ws) with ([x] ++ ws) in *. rewrite app_assoc in *.
    destruct (mkdir_spec s ks d c ch x) as (l & s1 & Hmk & Hon1 & Hi1 & Hl1 & (c1 & Hn1) & Hv1); try done.
    { apply nostutter_last. by eapply nostutter_app_l. }
    destruct (IH s1 (ks ++ [x]) l c1 ∅) as (l2 & s2 & c2 & ch2 & Hmk2 & Hon2 & Hi2 & Hl2 & Hn2 & Hv2); try done.
    { destruct ws as [|y ws]; [done|]. rewrite Hv1, decide_False.
      - by apply view_below_None.
      - intros Heq%(f_equal length). rewrite length_app in Heq. simpl in Heq. lia. }
    exists l2, s2, c2, ch2. split_and!; try done.
    { cbn [dir_mkdirs_loop app]. by rewrite (bind_Ret _ _ _ _ _ Hmk). }
    { by eapply only_nodes_trans. }
    intros q. rewrite Hv2. unfold fs_mkdirs. case_decide; [done|]. rewrite Hv1, decide_False; [done|].
    intros ->. by apply H, prefix_app_r.
Qed.

(** No file at the path or on the way to it. *)
Definition clear_path (v : fs) (ks : fpath) : Prop := ∀ q, q `prefix_of` ks → ¬ is_file v q.

Lemma relative_path ks1 x ks2 :
  good (ks1 ++ x :: ks2) → Trim (TrimPrefix (rootpath (ks1 ++ x :: ks2)) (rootpath ks1)) = Join (x :: ks2) "/".
Proof.
  intros [_ Hg2]%Forall_app. destruct ks1 as [|k ks1].
  - cbn [app]. change (rootpath (x :: ks2)) with (abspath (x :: ks2)). rewrite abspath_Join.
    change (rootpath []) with "/". rewrite TrimPrefix_app. by apply Trim_Join.
  - change (rootpath ((k :: ks1) ++ x :: ks2)) with (abspath ((k :: ks1) ++ x :: ks2)).
    rewrite abspath_app. change (rootpath (k :: ks1)) with (abspath (k :: ks1)).
    rewrite TrimPrefix_app. by apply Trim_abspath.
Qed.
Lemma Split_Join_good ks : good ks → ks ≠ [] → Split slash (Join ks "/") = ks.
Proof.
  intros Hg Hne. change "/" with (String slash ""). apply Split_Join; [done|].
  eapply Forall_impl; [done|]. apply good_comp_no_slash.
Qed.

Lemma mkdirs_spec s ks q :
  inv s → good ks → nostutter ks → clear_path (view s) ks → normalize q = rootpath ks →
  ∃ l s' c ch, dir_mkdirs root q s = (Ret l, s') ∧ only_nodes s s' ∧ inv s' ∧
    lookup_path (nodes s') ks = Some l ∧ nodes s' !! l = Some (Dir c ch) ∧
    ∀ q, view s' q = fs_mkdirs (view s) ks q.
Proof.
  intros Hi Hg Hs Hb Hq. unfold dir_mkdirs. rewrite Hq.
  destruct (lookup_path (nodes s) ks) as [l|] eqn:Hl.
  - destruct (lookup_path_node _ _ _ Hi Hl) as (_ & _ & n & Hn & Hp).
    destruct n as [c ch|c d]; cycle 1.
    { destruct (Hb ks); [done|]. eexists. by apply (view_lookup s ks l _ Hl Hn). }
    exists l, s, c, ch. split_and!; try done.
    + unfold mbind, gom_bind. rewrite (find_hit s ks _ l), (deref_Ret _ _ _ Hn) by (done || by apply Trim_rootpath).
      cbn [isdir negb]. by rewrite bool_decide_true.
    + intros q'. symmetry. apply fs_mkdirs_there; [done|]. by rewrite (view_lookup s ks l _ Hl Hn).
  - destruct (find_miss s ks (rootpath ks)) as (l & ks1 & x & ks2 & n & Hf & -> & Hl1 & Hn & Hp & Hc); try done.
    { by apply Trim_rootpath. }
    destruct n as [c ch|c d]; cycle 1.
    { destruct (Hb ks1); [by eexists|]. eexists. by apply (view_lookup s ks1 l _ Hl1 Hn). }
    destruct (mkdirs_loop_spec s ks1 l c ch (x :: ks2)) as (l' & s' & c' & ch' & Hloop & Hrest); try done.
    { by apply Forall_app in Hg as [_ ?]. }
    { unfold view, heap_view. rewrite lookup_path_snoc, Hl1. simpl. by rewrite Hc. }
    exists l', s', c', ch'. split; [|done].
    unfold mbind, gom_bind. rewrite Hf, (deref_Ret _ _ _ Hn). cbn [isdir negb].
    rewrite bool_decide_false.
    + rewrite Hp, relative_path by done. apply Forall_app in Hg as [_ Hg2].
      rewrite bool_decide_false by (apply Join_ne; by apply Forall_cons in Hg2 as [? _]).
      by rewrite Split_Join_good.
    + rewrite Hp. intros Heq%rootpath_inj; [|by apply Forall_app in Hg as [? _]|done].
      apply (f_equal length) in Heq. rewrite length_app in Heq. simpl in Heq. lia.
Qed.

Lemma ok_snoc ks : ok ks → ∃ ks' x, ks = ks' ++ [x] ∧ good ks' ∧ nostutter ks' ∧ good_comp x = true ∧ last ks' ≠ Some x.
Proof.
  intros (Hne & Hg & Hs). destruct ks as [|x ks' _] using rev_ind; [done|]. exists ks', x.
  apply Forall_app in Hg as [Hg [Hx _]%Forall_cons]. split_and!; try done.
  - by eapply nostutter_app_l.
  - by apply nostutter_last.
Qed.
Lemma clear_parent v ks x : ¬ blocked v (ks ++ [x]) → clear_path v ks.
Proof.
  intros Hb q [r ->] Hf. apply Hb. exists q. split; [|done]. split; [exists (r ++ [x]); by rewrite app_assoc|].
  intros Heq%(f_equal length). rewrite !length_app in Heq. simpl in Heq. lia.
Qed.
Lemma fs_put_there s ks c q : inv s → view s ks = Some (EFile c) → fs_put (view s) ks c q = view s q.
Proof.
  intros Hi Hv. unfold fs_put. case_decide as Hq; [congruence|]. case_decide as Hp; [|done].
  by destruct (view_prefix s ks q Hi) as [|].
Qed.
Lemma fs_put_mkdirs v ks x c q :
  fs_put v (ks ++ [x]) c q = if decide (q = ks ++ [x]) then Some (EFile c) else fs_mkdirs v ks q.
Proof.
  unfold fs_put. case_decide; [done|]. transitivity (fs_mkdirs v (ks ++ [x]) q); [done|].
  rewrite fs_mkdirs_snoc. by rewrite decide_False.
Qed.

(** The bytes a file has before it is opened, none if it does not exist. *)
Lemma mkfile_spec s ks :
  inv s → ok ks → view s ks ≠ Some EDir → ¬ blocked (view s) ks →
  ∃ l s' c d, dir_mkfile root (rootpath ks) s = (Ret l, s') ∧ only_nodes s s' ∧ inv s' ∧
    lookup_path (nodes s') ks = Some l ∧ nodes s' !! l = Some (File c d) ∧ slice_bytes d = old_bytes (view s) ks ∧
    ∀ q, view s' q = fs_put (view s) ks (slice_bytes d) q.
Proof.
  intros Hi Hok Hv Hb. pose proof Hok as (Hne & Hg & Hs).
  destruct (view s ks) as [e|] eqn:He.
  - destruct (found s ks e Hi He Hg) as (l & n & Hf & Hl & Hn & Hp & ->).
    destruct n as [|c d]; [done|]. exists l, s, c, d. rewrite normalize_abspath in Hf, Hp by done.
    split_and!; try done.
    + unfold dir_mkfile, mbind, gom_bind. by rewrite Hf, (deref_Ret _ _ _ Hn), bool_decide_true.
    + unfold old_bytes. by rewrite He.
    + intros q. symmetry. by apply fs_put_there.
  - destruct (not_there s ks Hi He Hok) as (l0 & n0 & Hf & Hn0 & Hp0 & _). rewrite normalize_abspath in Hf, Hp0 by done.
    destruct (ok_snoc ks Hok) as (ks' & x & -> & Hg' & Hs' & Hx & Hlast).
    destruct (mkdirs_spec s ks' (abspath ks' +:+ "/")) as (dd & s1 & c & ch & Hmk & Hon & Hi1 & Hd & Hnd & Hv1); try done.
    { by eapply clear_parent. }
    { by apply normalize_slash. }
    destruct (dir_children _ _ _ _ _ Hi1 Hd Hnd) as [Hpc _].
    assert (path_Join [p c; x] = abspath (ks' ++ [x])) as Hj.
    { by rewrite Hpc, path_Join_comps, rootpath_snoc. }
    assert (view s1 (ks' ++ [x]) = None) as Hv1n.
    { rewrite Hv1. unfold fs_mkdirs. rewrite decide_False; [done|].
      intros Hpre%prefix_length. rewrite length_app in Hpre. simpl in Hpre. lia. }
    destruct (new_add_spec s1 ks' dd c ch
      (File {| p := path_Join [p c; x]; modt := clock s1 |} {| backing := ""; slen := 0 |}) x)
      as (l & s2 & s3 & Hnew & Hadd & Hon3 & Hi3 & Hl3 & Hn3 & _ & Hv3); try (done || (simpl; lia)).
    exists l, s3, {| p := path_Join [p c; x]; modt := clock s1 |}, {| backing := ""; slen := 0 |}.
    split_and!; try done.
    + unfold dir_mkfile, mbind, gom_bind. rewrite Hf, (deref_Ret _ _ _ Hn0), bool_decide_false by done.
      rewrite rootpath_snoc, path_Split_snoc, Hmk, (as_dir_Ret _ _ _ _ Hnd) by done.
      unfold now, gets. by rewrite Hnew, Hadd.
    + by eapply only_nodes_trans.
    + unfold old_bytes. by rewrite He.
    + intros q. rewrite Hv3, fs_put_mkdirs. case_decide; [done|]. apply Hv1.
Qed.

(** ** Writing files *)

Lemma zero_bytes_length n : String.length (zero_bytes n) = n.
Proof. induction n as [|n IH]; [done|]. cbn [zero_bytes String.length]. by rewrite IH. Qed.
Lemma write_slice_spec d b off :
  slen d ≤ slice_cap d → off ≤ slen d →
  slice_bytes (write_slice d b off) = str_take off (slice_bytes d) +:+ b ∧
  slen (write_slice d b off) ≤ slice_cap (write_slice d b off).
Proof.
  intros Hd Ho. unfold write_slice, slice_bytes, slice_cap in *. cbn [backing slen].
  set (arr := if String.length (backing d) <? off + String.length b then _ else _).
  assert (str_take off arr = str_take off (str_take (slen d) (backing d)) ∧ off ≤ String.length arr) as [Ht Hla].
  { assert (∀ t, str_take off (str_take (slen d) (backing d) +:+ t) = str_take off (str_take (slen d) (backing d))) as Htake.
    { intros t. rewrite str_take_app_le; [done|]. rewrite str_length_take. lia. }
    unfold arr. case_match eqn:Hc.
    - split; [apply Htake|]. rewrite str_length_app, str_length_take. lia.
    - split; [|lia]. rewrite <-(Htake (str_drop (slen d) (backing d))). by rewrite str_take_drop. }
  rewrite Ht. split.
  - rewrite str_app_assoc. replace (off + String.length b)
      with (String.length (str_take off (str_take (slen d) (backing d)) +:+ b)) at 1; [apply str_take_app|].
    rewrite str_length_app, !str_length_take. lia.
  - rewrite !str_length_app, !str_length_take. lia.
Qed.

Lemma store_file_spec s ks l c d c' d' :
  inv s → lookup_path (nodes s) ks = Some l → nodes s !! l = Some (File c d) → p c' = p c → slen d' ≤ slice_cap d' →
  let s' := set_nodes (<[l := File c' d']> (nodes s)) s in
  inv s' ∧ lookup_path (nodes s') ks = Some l ∧ nodes s' !! l = Some (File c' d') ∧
  ∀ q, view s' q = if decide (q = ks) then Some (EFile (slice_bytes d')) else view s q.
Proof.
  intros Hi Hl Hn Hp Hw s'. split_and!.
  - by eapply set_node_ok.
  - unfold s'. cbn [nodes set_nodes]. by erewrite set_node_lookup.
  - apply lookup_insert_eq.
  - by eapply set_file_view.
Qed.

(** A file that is stored leaves the other files where they are. *)
Lemma store_file_frame s ks l c d n q l' c' d' :
  inv s → file_at s ks l c d → q ≠ ks → children_of n = None → file_at s q l' c' d' →
  file_at (set_nodes (<[l := n]> (nodes s)) s) q l' c' d'.
Proof.
  intros Hi [Hl Hn] Hq Hc [Hl' Hn']. assert (l ≠ l') as Hne by (intros <-; apply Hq; by eapply lookup_path_inj).
  split; cbn [nodes set_nodes]; [by erewrite set_node_lookup|]. by rewrite lookup_insert_ne.
Qed.

Lemma put_frame s ks b :
  inv s → ok ks → view s ks ≠ Some EDir → ¬ blocked (view s) ks →
  ∃ s', PutContent (abspath ks) b s = (Ret tt, s') ∧ inv s' ∧ (∀ q, view s' q = fs_put (view s) ks b q) ∧
    writers s' = writers s ∧ ∀ q l c d, q ≠ ks → file_at s q l c d → file_at s' q l c d.
Proof.
  intros Hi Hok Hv Hb.
  destruct (mkfile_spec s ks Hi Hok Hv Hb) as (l & s1 & c & d & Hmk & (Hw & _ & Hf) & Hi1 & Hl1 & Hn1 & _ & Hv1).
  set (d1 := {| backing := backing d; slen := 0 |}).
  destruct (store_file_spec s1 ks l c d c d1) as (Hi2 & Hl2 & Hn2 & Hv2); try done; [simpl; lia|].
  set (s2 := set_nodes (<[l := File c d1]> (nodes s1)) s1) in *.
  destruct (write_slice_spec d1 b 0) as [Hb1 Hw1]; [simpl; lia..|].
  destruct (store_file_spec s2 ks l c d1 {| p := p c; modt := clock s2 |} (write_slice d1 b 0))
    as (Hi3 & _ & _ & Hv3); try done.
  eexists. split_and!; [|exact Hi3| | |].
  - unfold PutContent. rewrite normalize_abspath by apply Hok. unfold attempt, mbind, gom_bind. rewrite Hmk.
    unfold file_truncate, file_WriteAt, mbind, gom_bind. rewrite (as_file_Ret _ _ _ _ Hn1).
    cbn [store modify mret gom_ret]. fold d1 s2. rewrite (as_file_Ret _ _ _ _ Hn2). done.
  - intros q. rewrite Hv3, Hb1. cbn [str_take slice_bytes]. unfold fs_put. case_decide; [by destruct (slice_bytes d1)|].
    rewrite Hv2, decide_False, Hv1 by done. unfold fs_put. by rewrite decide_False.
  - done.
  - intros q l' c' d' Hq Hq'. eapply store_file_frame; [done|by split|done..|].
    eapply store_file_frame; [done|by split|done..|]. by apply Hf.
Qed.
Lemma put_spec s ks b :
  inv s → ok ks → view s ks ≠ Some EDir → ¬ blocked (view s) ks →
  ∃ s', PutContent (abspath ks) b s = (Ret tt, s') ∧ inv s' ∧ ∀ q, view s' q = fs_put (view s) ks b q.
Proof. intros Hi Hok Hv Hb. destruct (put_frame s ks b Hi Hok Hv Hb) as (s' & ? & ? & ? & _). by eauto. Qed.

(** ** Deleting *)

Lemma find_parent s ks x e :
  inv s → view s (ks ++ [x]) = Some e →
  ∃ l c ch, dir_find root (abspath ks +:+ "/") s = (Ret l, s) ∧ lookup_path (nodes s) ks = Some l ∧
    nodes s !! l = Some (Dir c ch) ∧ p c = rootpath ks ∧ is_Some (ch !! x) ∧ good ks.
Proof.
  intros Hi Hv. assert (view s ks = Some EDir) as Hp by (eapply view_parent; eauto).
  apply view_Some in Hp as (l & n & Hl & Hn & He). destruct n as [c ch|]; [|done].
  destruct (dir_children _ _ _ _ _ Hi Hl Hn) as [Hpc _].
  assert (good ks) as Hg by (by eapply lookup_path_node).
  exists l, c, ch. split_and!; try done.
  - apply (find_hit s ks); try done. by apply Trim_abspath_slash.
  - apply view_Some in Hv as (l' & _ & Hl' & _). rewrite (lookup_path_child _ _ _ _ _ _ Hl Hn) in Hl'. eauto.
Qed.

Lemma delete_spec s ks :
  inv s → ok ks → is_Some (view s ks) →
  ∃ s', Delete (abspath ks) s = (Ret tt, s') ∧ inv s' ∧ ∀ q, view s' q = fs_delete (view s) ks q.
Proof.
  intros Hi Hok [e Hv]. destruct (ok_snoc ks Hok) as (ks' & x & -> & Hg' & _ & Hx & _).
  destruct (find_parent s ks' x e Hi Hv) as (l & c & ch & Hf & Hl & Hn & Hp & Hch & _).
  exists (set_nodes (<[l := Dir c (delete x ch)]> (nodes s)) s). split_and!.
  - unfold Delete, dir_delete. rewrite normalize_abspath, rootpath_snoc, path_Split_snoc by (done || apply Hok).
    unfold attempt, mbind, gom_bind. rewrite Hf, (deref_Ret _ _ _ Hn).
    rewrite bool_decide_false; [|unfold node_path; simpl; rewrite Hp, normalize_slash, normalize_rootpath by done; auto].
    rewrite (as_dir_Ret _ _ _ _ Hn), bool_decide_false; [done|]. by destruct Hch as [? ->].
  - by eapply detach_ok.
  - intros q. unfold view. cbn [nodes set_nodes]. by eapply detach_view.
Qed.
Lemma delete_missing_spec s ks :
  inv s → ok ks → view s ks = None → ¬ blocked (view s) ks →
  Delete (abspath ks) s = (Fail (PathNotFoundError (abspath ks) ""), s).
Proof.
  intros Hi Hok Hv Hb. destruct (ok_snoc ks Hok) as (ks' & x & -> & Hg' & _ & Hx & _).
  unfold Delete, dir_delete. rewrite normalize_abspath, rootpath_snoc, path_Split_snoc by (done || apply Hok).
  unfold attempt, mbind, gom_bind.
  destruct (lookup_path (nodes s) ks') as [l|] eqn:Hl.
  - destruct (lookup_path_node _ _ _ Hi Hl) as (_ & _ & n & Hn & Hp).
    rewrite (find_hit s ks' _ l), (deref_Ret _ _ _ Hn) by (done || by apply Trim_abspath_slash).
    rewrite bool_decide_false by (rewrite Hp, normalize_slash, normalize_rootpath by done; auto).
    destruct n as [c ch|c d]; cycle 1.
    { destruct (clear_parent _ _ _ Hb ks'); [done|]. eexists. by apply (view_lookup s ks' l _ Hl Hn). }
    rewrite (as_dir_Ret _ _ _ _ Hn), bool_decide_true; [done|].
    apply view_None in Hv; [|done]. by rewrite (lookup_path_child _ _ _ _ _ _ Hl Hn) in Hv.
  - destruct (find_miss s ks' (abspath ks' +:+ "/")) as (l & ks1 & y & ks2 & n & Hf & -> & _ & Hn & Hp & _); try done.
    { by apply Trim_abspath_slash. }
    rewrite Hf, (deref_Ret _ _ _ Hn), bool_decide_true; [done|].
    apply Forall_app in Hg' as Hg2. destruct Hg2 as [Hg1 _].
    rewrite Hp, normalize_slash, normalize_rootpath by done. intros Heq%rootpath_inj; [|done..].
    apply (f_equal length) in Heq. rewrite length_app in Heq. simpl in Heq. lia.
Qed.

(** ** Moving files *)

Lemma view_below_file s ks c q : inv s → view s ks = Some (EFile c) → proper_prefix ks q → view s q = None.
Proof.
  intros Hi Hv [Hp Hne]. destruct (view s q) as [e|] eqn:Hq; [|done].
  destruct (view_prefix s q ks Hi) as [|Hd]; [by eexists|done|done|congruence].
Qed.
Lemma prefix_snoc_inv (q ks : fpath) x : q `prefix_of` ks ++ [x] → q ≠ ks ++ [x] → q `prefix_of` ks.
Proof.
  intros [r Hr] Hne. destruct r as [|y r _] using rev_ind; [rewrite app_nil_r in Hr; congruence|].
  rewrite app_assoc in Hr. apply app_inj_tail in Hr as [-> _]. by eexists.
Qed.

(** The map after the steps of a move is the map of the contract. *)
Lemma move_view s src ks y c q :
  inv s → view s src = Some (EFile c) → view s (ks ++ [y]) ≠ Some EDir → ¬ blocked (view s) (ks ++ [y]) →
  (if decide (q = ks ++ [y]) then Some (EFile c)
   else if decide ((ks ++ [y]) `prefix_of` q) then None else fs_delete (fs_mkdirs (view s) ks) src q) =
  fs_move (view s) src (ks ++ [y]) c q.
Proof.
  intros Hi Hv Hd Hb. unfold fs_move. case_decide as Hq; [done|].
  assert (¬ proper_prefix src (ks ++ [y])) as Hsrc.
  { intros Hp. apply Hb. exists src. split; [done|]. by eexists. }
  case_decide as Hdq.
  - rewrite decide_False.
    + case_decide; [done|]. symmetry. destruct (view s q) as [e|] eqn:He; [|done].
      destruct (view_prefix s q (ks ++ [y]) Hi) as [Heq|]; [by eexists|done|by destruct Hq|done].
    + intros Hp. apply Hq. by apply (anti_symm prefix).
  - unfold fs_delete. case_decide as Hsq.
    + destruct (decide (q = src)) as [->|Hne].
      * case_decide; [|done]. by destruct Hsrc.
      * rewrite decide_False.
        { symmetry. eapply view_below_file; [done..|]. by split. }
        intros Hp. apply Hsrc. split; [by trans q|]. intros ->. apply Hne. by apply (anti_symm prefix).
    + unfold fs_mkdirs. case_decide as Hk.
      * rewrite decide_True; [done|]. by apply prefix_app_r.
      * rewrite decide_False by (intros Hp; by apply Hk, (prefix_snoc_inv q ks y)).
        rewrite decide_False; [done|]. by intros ->.
Qed.

Lemma move_spec s src dst b :
  inv s → ok src → ok dst → view s src = Some (EFile b) → view s dst ≠ Some EDir → ¬ blocked (view s) dst →
  ∃ s', Move (abspath src) (abspath dst) s = (Ret tt, s') ∧ inv s' ∧ ∀ q, view s' q = fs_move (view s) src dst b q.
Proof.
  intros Hi Hoks Hokd Hv Hd Hb.
  destruct (ok_snoc src Hoks) as (ks & x & -> & Hg & _ & Hx & _).
  destruct (ok_snoc dst Hokd) as (kd & y & -> & Hgd & Hsd & Hy & Hlasty).
  destruct (mkdirs_spec s kd (abspath kd +:+ "/")) as (dp & s1 & _c & _ch & Hmk & _ & Hi1 & Hdp & Hndp & Hv1); try done.
  { by eapply clear_parent. }
  { by apply normalize_slash. }
  assert (¬ (ks ++ [x]) `prefix_of` kd) as Hnp.
  { intros Hp. destruct (clear_parent _ _ _ Hb (ks ++ [x]) Hp). by eexists. }
  assert (view s1 (ks ++ [x]) = Some (EFile b)) as Hv1s. { rewrite Hv1. unfold fs_mkdirs. by rewrite decide_False. }
  destruct (find_parent s1 ks x _ Hi1 Hv1s) as (sp & c & ch & Hf & Hsp & Hnsp & Hpc & [l Hch] & _).
  apply view_Some in Hv1s as (l' & n & Hl' & Hn & He). rewrite (lookup_path_child _ _ _ _ _ _ Hsp Hnsp) in Hl'.
  rewrite Hch in Hl'. injection Hl' as <-. destruct n as [|cf df]; [done|]. injection He as ->.
  assert (lookup_path (nodes s1) (ks ++ [x]) = Some l) as Hl by (by rewrite (lookup_path_child _ _ _ _ _ _ Hsp Hnsp)).
  set (h2 := <[sp := Dir c (delete x ch)]> (nodes s1)).
  assert (heap_ok h2) as Hi2 by (by eapply detach_ok).
  assert (∀ q, lookup_path h2 q ≠ Some l) as Hun.
  { intros q. unfold h2. erewrite detach_lookup by done. case_decide as Hq; [done|]. intros Hql.
    apply Hq. by rewrite (lookup_path_inj _ _ _ _ Hi1 Hql Hl). }
  assert (lookup_path h2 kd = Some dp) as Hdp2. { unfold h2. erewrite detach_lookup by done. by rewrite decide_False. }
  assert (∃ c2 ch2, h2 !! dp = Some (Dir c2 ch2)) as (c2 & ch2 & Hn2).
  { unfold h2. destruct (decide (sp = dp)) as [->|]; [rewrite lookup_insert_eq; eauto|].
    rewrite lookup_insert_ne by done. eauto. }
  set (n3 := File {| p := abspath (kd ++ [y]); modt := modt cf |} df).
  assert (l ≠ sp) as Hlsp by (intros ->; congruence).
  assert (l ≠ dp) as Hldp by (intros ->; by apply (Hun kd)).
  assert (node_wf n3) as Hwf3.
  { destruct Hi1 as [_ H1]. destruct (H1 _ _ Hl) as (_ & _ & m & Hm & _ & Hw). by simplify_eq. }
  exists (set_nodes (<[dp := Dir {| p := p c2; modt := clock s1 |} (<[y := l]> ch2)]> (<[l := n3]> h2)) s1).
  split; [|split].
  - unfold Move, dir_move. rewrite !normalize_abspath, !rootpath_snoc, !path_Split_snoc by (done || apply Hoks || apply Hokd).
    unfold attempt, mbind, gom_bind. rewrite Hmk, Hf, (deref_Ret _ _ _ Hnsp).
    rewrite bool_decide_false; [|unfold node_path; simpl; rewrite Hpc, normalize_slash, normalize_rootpath by done; auto].
    rewrite Hch. cbn [store modify]. fold h2.
    rewrite (deref_Ret (set_nodes h2 s1) l (File cf df)) by (simpl; unfold h2; by rewrite lookup_insert_ne).
    cbn [nodes set_nodes]. unfold dir_add, mbind, gom_bind. fold n3.
    rewrite (as_dir_Ret _ dp c2 ch2) by (simpl; by rewrite lookup_insert_ne).
    rewrite (deref_Ret _ l n3) by (simpl; by rewrite lookup_insert_eq).
    unfold name, n3, node_path. simpl p. by rewrite path_Split_snoc by done.
  - by eapply attach_ok.
  - intros q. unfold view at 1. cbn [nodes set_nodes]. erewrite attach_view by done.
    erewrite <-move_view by done. case_decide; [done|]. case_decide; [done|].
    unfold h2. erewrite detach_view by done. unfold fs_delete. case_decide; [done|]. apply Hv1.
Qed.

(** ** Deleting several files *)

Lemma DeleteFiles_loop_spec s kss n :
  inv s → Forall (λ ks, ok ks ∧ ¬ blocked (view s) ks) kss →
  ∃ s', DeleteFiles_loop n (abspath <$> kss) s = (Ret ((n + Z.of_nat (length kss))%Z, None), s') ∧ inv s' ∧
    ∀ q, view s' q = fs_delete_all (view s) kss q.
Proof.
  revert s n. induction kss as [|ks kss IH]; intros s n Hi Hk.
  { exists s. cbn [DeleteFiles_loop fmap list_fmap length]. rewrite Z.add_0_r. split_and!; [done..|].
    intros q. unfold fs_delete_all. rewrite decide_False; [done|]. by intros ?%Exists_nil. }
  apply Forall_cons in Hk as [[Hok Hb] Hk]. rewrite fmap_cons. cbn [DeleteFiles_loop].
  unfold attempt, mbind, gom_bind in *.
  assert (n + 1 + Z.of_nat (length kss) = n + Z.of_nat (length (ks :: kss)))%Z as Hlen by (cbn [length]; lia).
  assert (∀ s1 kk, (∀ q, view s1 q = fs_delete (view s) kk q) →
    Forall (λ ks, ok ks ∧ ¬ blocked (view s1) ks) kss) as Hk1.
  { intros s1 kk Hv1. eapply Forall_impl; [exact Hk|]. intros ks' [Hok' Hb']. split; [done|].
    intros (q & Hq & c & Hc). apply Hb'. exists q. split; [done|]. exists c. rewrite Hv1 in Hc.
    unfold fs_delete in Hc. by case_decide. }
  destruct (view s ks) as [e|] eqn:Hv.
  - destruct (delete_spec s ks Hi Hok) as (s1 & -> & Hi1 & Hv1); [by eexists|].
    destruct (IH s1 (n + 1)%Z Hi1) as (s2 & Hs2 & Hi2 & Hv2); [by eapply Hk1|].
    exists s2. rewrite Hs2, Hlen. split_and!; [done..|].
    intros q. rewrite Hv2. unfold fs_delete_all. rewrite Hv1. unfold fs_delete.
    repeat case_decide; try done; rewrite Exists_cons in *; naive_solver.
  - rewrite (delete_missing_spec s ks) by done.
    destruct (IH s (n + 1)%Z Hi Hk) as (s2 & Hs2 & Hi2 & Hv2).
    exists s2. rewrite Hs2, Hlen. split_and!; [done..|].
    intros q. rewrite Hv2. unfold fs_delete_all.
    case_decide as H1; case_decide as H2; try done; rewrite Exists_cons in H2; [naive_solver|].
    destruct H2 as [[r ->]|?]; [|done]. by apply view_below_None.
Qed.

#[export] Instance inmemory_laws : DriverLaws driver view inv ok.
Proof.
  split; cbn [driver drv_GetContent drv_PutContent drv_Reader rd_ReadAll drv_Stat drv_List drv_Move drv_Delete drv_DeleteFiles].
  - by intros ks (? & ? & _).
  - intros s [(c & ch & Hr) _]. unfold view, heap_view. simpl. by rewrite Hr.
  - apply view_parent.
  - intros s ks Hi [e (l & n & Hl & _)%view_Some]. destruct ks; [by left|]. right.
    by destruct (lookup_path_node _ _ _ Hi Hl) as (? & ? & _).
  - apply get_spec.
  - intros. eexists. by apply get_missing_spec.
  - apply reader_spec.
  - intros. eexists. by apply reader_missing_spec.
  - apply put_spec.
  - intros s ks c Hi Hok Hv. by apply (stat_spec s ks _ Hi Hok Hv).
  - intros s ks Hi Hok Hv. by apply (stat_spec s ks _ Hi Hok Hv).
  - intros. eexists. by apply stat_missing_spec.
  - apply list_spec.
  - intros. eexists. by apply list_missing_spec.
  - apply move_spec.
  - apply delete_spec.
  - intros. eexists. by apply delete_missing_spec.
  - intros s kss Hi Hk. apply (DeleteFiles_loop_spec s kss 0 Hi Hk).
Qed.

Lemma New_inv t : inv (New t).
Proof.
  split; [by eexists _, _|]. intros ks l. destruct ks as [|x ks].
  - intros [= <-]. split_and!; [constructor|apply nostutter_nil|]. by eexists.
  - change (x :: ?l) with ([x] ++ l). intros Hl.
    assert (lookup_path (nodes (New t)) [x] = None) as Hx by done.
    by rewrite (lookup_path_app_None _ _ ks Hx) in Hl.
Qed.

(** ** Refused writes *)

(** The traversal for a blocked path stops at the file that blocks it. *)
Lemma find_blocked s ks q b :
  inv s → good ks → q `prefix_of` ks → view s q = Some (EFile b) →
  ∃ l c d, nodes s !! l = Some (File c d) ∧ node_path (File c d) = rootpath q ∧
    ∀ r, Trim r = Join ks "/" → dir_find root r s = (Ret l, s).
Proof.
  intros Hi Hg Hq Hv. apply view_Some in Hv as Hv'. destruct Hv' as (l & n & Hl & Hn & He).
  destruct n as [|c d]; [done|]. destruct (lookup_path_node _ _ _ Hi Hl) as (_ & _ & n & Hn' & Hp). simplify_eq.
  exists l, c, d. split_and!; try done. intros r Hr.
  destruct (lookup_path (nodes s) ks) as [l'|] eqn:Hl'.
  - destruct (lookup_path_node _ _ _ Hi Hl') as (_ & _ & n' & Hn' & _).
    destruct (view_prefix s ks q Hi) as [->|]; [by rewrite (view_lookup s ks l' n')|done| |congruence].
    rewrite (find_hit s ks r l) by done. done.
  - destruct (find_miss s ks r) as (l1 & ks1 & x & ks2 & n1 & Hf & -> & Hl1 & Hn1 & _ & Hc); try done.
    rewrite Hf. repeat f_equal.
    assert (q `prefix_of` ks1 ∨ (ks1 ++ [x]) `prefix_of` q) as [[r1 ->]|[r1 ->]].
    { destruct (decide (length q ≤ length ks1)).
      - left. apply (prefix_length_eq_le q ks1 (ks1 ++ x :: ks2)); [done|by eexists|done].
      - right. apply (prefix_length_eq_le _ _ (ks1 ++ x :: ks2)); [|done|rewrite length_app; simpl; lia].
        exists ks2. by rewrite <-app_assoc. }
    + destruct r1 as [|y r1]; [rewrite app_nil_r in Hl1; congruence|].
      rewrite (lookup_below_leaf _ q l (File c d)) in Hl1; done.
    + rewrite (lookup_path_app_None _ (ks1 ++ [x])) in Hl; [done|]. rewrite lookup_path_snoc, Hl1. done.
Qed.

(** A write to a directory, or to a path that goes through a file, is
    refused, and the tree is left exactly as it was. *)
Theorem put_refused s ks b :
  inv s → ok ks → view s ks = Some EDir ∨ blocked (view s) ks →
  PutContent (abspath ks) b s = (Fail (errors_New "not a file"), s).
Proof.
  intros Hi Hok Hv. pose proof Hok as (_ & Hg & _). unfold PutContent, attempt, dir_mkfile, mbind, gom_bind.
  destruct Hv as [Hv|(q & [Hq Hne] & f & Hf)].
  - destruct (found s ks _ Hi Hv Hg) as (l & n & -> & _ & Hn & Hp & He). destruct n; [|done].
    by rewrite (deref_Ret _ _ _ Hn), bool_decide_true.
  - destruct (find_blocked s ks q f Hi Hg Hq Hf) as (l & c & d & Hn & Hp & Hfind).
    rewrite normalize_abspath, Hfind, (deref_Ret _ _ _ Hn) by (done || by apply Trim_rootpath).
    assert (good q) as Hgq by (destruct Hq as [? ->]; by apply Forall_app in Hg as [? _]).
    rewrite bool_decide_false; [|rewrite Hp; by intros ?%rootpath_inj].
    destruct (ok_snoc ks Hok) as (ks' & x & -> & Hg' & _ & Hx & _).
    destruct (find_blocked s ks' q f Hi Hg') as (l' & c' & d' & Hn' & _ & Hfind');
      [by eapply prefix_snoc_inv|done|].
    rewrite rootpath_snoc, path_Split_snoc by done. unfold dir_mkdirs, mbind, gom_bind.
    rewrite normalize_slash, Hfind', (deref_Ret _ _ _ Hn') by (done || by apply Trim_rootpath). done.
Qed.

(** ** Writers *)

Fixpoint write_all (w : positive) (bs : list bytes) : GoM state error unit :=
  match bs with
  | [] => mret tt
  | b :: bs => _ ← writer_Write w b; write_all w bs
  end.

(** A writer that is open on the file at a path. *)
Definition opens (s : state) (w : positive) (ks : fpath) (b : bytes) : Prop :=
  ∃ l c d, writers s !! w = Some {| wr_f := l; closed := false; committed := false; canceled := false |} ∧
    lookup_path (nodes s) ks = Some l ∧ nodes s !! l = Some (File c d) ∧ slice_bytes d = b.

Lemma load_writer_Ret s w x : writers s !! w = Some x → load_writer w s = (Ret x, s).
Proof. intros H. unfold load_writer, gets, lift, mbind, gom_bind. by rewrite H. Qed.

Lemma Writer_spec s ks (ap : bool) :
  inv s → ok ks → view s ks ≠ Some EDir → ¬ blocked (view s) ks →
  let b := if ap then old_bytes (view s) ks else "" in
  ∃ w s', Writer (abspath ks) ap s = (Ret w, s') ∧ inv s' ∧ opens s' w ks b ∧
    ∀ q, view s' q = fs_put (view s) ks b q.
Proof.
  intros Hi Hok Hv Hb b.
  destruct (mkfile_spec s ks Hi Hok Hv Hb) as (l & s1 & c & d & Hmk & [Hw _] & Hi1 & Hl1 & Hn1 & Hold & Hv1).
  unfold Writer. rewrite normalize_abspath by apply Hok. unfold attempt, mbind, gom_bind. rewrite Hmk.
  destruct ap; subst b.
  - eexists _, _. split; [done|]. split; [done|]. split.
    + exists l, c, d. split_and!; [apply lookup_insert_eq|done..].
    + intros q. rewrite <-Hold. apply Hv1.
  - set (d1 := {| backing := backing d; slen := 0 |}).
    destruct (store_file_spec s1 ks l c d c d1) as (Hi2 & Hl2 & Hn2 & Hv2); try done; [simpl; lia|].
    assert (slice_bytes d1 = "") as Hd1 by (unfold slice_bytes; simpl; by destruct (backing d)).
    unfold file_truncate, mbind, gom_bind. rewrite (as_file_Ret _ _ _ _ Hn1). cbn [store modify]. fold d1.
    eexists _, _. split; [done|]. split; [done|]. split.
    + exists l, c, d1. split_and!; [apply lookup_insert_eq|done..].
    + intros q. transitivity (view (set_nodes (<[l:=File c d1]> (nodes s1)) s1) q); [done|].
      rewrite Hv2, Hd1. unfold fs_put. case_decide; [done|]. rewrite Hv1. unfold fs_put. by rewrite decide_False.
Qed.

Lemma Write_spec s w ks b b' :
  inv s → opens s w ks b →
  ∃ s', writer_Write w b' s = (Ret (Z.of_nat (String.length b')), s') ∧ inv s' ∧ opens s' w ks (b +:+ b') ∧
    ∀ q, view s' q = if decide (q = ks) then Some (EFile (b +:+ b')) else view s q.
Proof.
  intros Hi (l & c & d & Hw & Hl & Hn & Hd).
  assert (slen d ≤ slice_cap d) as Hwf.
  { destruct Hi as [_ H]. destruct (H _ _ Hl) as (_ & _ & m & Hm & _ & ?). by simplify_eq. }
  destruct (write_slice_spec d b' (slen d)) as [Hb Hwf']; [done..|].
  rewrite str_take_ge, Hd in Hb by (rewrite (file_slen s ks l c d) by done; done).
  destruct (store_file_spec s ks l c d {| p := p c; modt := clock s |} (write_slice d b' (slen d)))
    as (Hi2 & Hl2 & Hn2 & Hv2); try done.
  eexists. split_and!.
  - unfold writer_Write, file_WriteAt, mbind, gom_bind. rewrite (load_writer_Ret _ _ _ Hw). cbn [closed committed canceled wr_f].
    rewrite !(as_file_Ret _ _ _ _ Hn). done.
  - done.
  - exists l, {| p := p c; modt := clock s |}, (write_slice d b' (slen d)). done.
  - intros q. rewrite <-Hb. apply Hv2.
Qed.
Lemma write_all_spec s w ks b bs :
  inv s → opens s w ks b → view s ks = Some (EFile b) →
  let b' := b +:+ String.concat "" bs in
  ∃ s', write_all w bs s = (Ret tt, s') ∧ inv s' ∧ opens s' w ks b' ∧
    ∀ q, view s' q = if decide (q = ks) then Some (EFile b') else view s q.
Proof.
  revert s b. induction bs as [|b1 bs IH]; intros s b Hi Ho Hv.
  - exists s. simpl. rewrite str_app_nil_r. split_and!; try done. intros q. case_decide; [by subst|done].
  - destruct (Write_spec s w ks b b1 Hi Ho) as (s1 & Hw & Hi1 & Ho1 & Hv1).
    destruct (IH s1 (b +:+ b1) Hi1 Ho1) as (s2 & Hw2 & Hi2 & Ho2 & Hv2); [by rewrite Hv1, decide_True|].
    assert (b +:+ b1 +:+ String.concat "" bs = b +:+ String.concat "" (b1 :: bs)) as Hc.
    { f_equal. destruct bs; [by rewrite str_app_nil_r|done]. }
    rewrite <-str_app_assoc, Hc in *. exists s2. split_and!; try done.
    + cbn [write_all]. by rewrite (bind_Ret _ _ _ _ _ Hw).
    + intros q. rewrite Hv2. case_decide; [done|]. by rewrite Hv1, decide_False.
Qed.
Lemma Commit_spec s w ks b :
  opens s w ks b → ∃ s', writer_Commit w s = (Ret tt, s') ∧ nodes s' = nodes s.
Proof.
  intros (l & c & d & Hw & _). eexists. split.
  - unfold writer_Commit, mbind, gom_bind. by rewrite (load_writer_Ret _ _ _ Hw).
  - done.
Qed.

(** *** The contract of the writers *)

Definition wflags (x : writer) (st : wstate) : Prop :=
  match st with
  | WOpen => closed x = false ∧ committed x = false ∧ canceled x = false
  | WCommitted => closed x = false ∧ committed x = true
  | WClosed => closed x = true
  | WCanceled => closed x = false ∧ canceled x = true
  | WDone => closed x = true ∧ canceled x = true
  end.
Definition opened (s : state) (w : positive) (ks : fpath) (b : bytes) (st : wstate) : Prop :=
  ∃ x, writers s !! w = Some x ∧ wflags x st ∧
    (has_file st = true → ∃ c d, file_at s ks (wr_f x) c d ∧ slice_bytes d = b).

Lemma opens_opened s w ks b : opens s w ks b ↔ opened s w ks b WOpen.
Proof.
  split.
  - intros (l & c & d & Hw & Hl & Hn & Hd). eexists. split; [exact Hw|]. split; [done|]. intros _. by exists c, d.
  - intros ([f cl co ca] & Hw & (Hcl & Hco & Hca) & Hf). cbn in *. subst. destruct Hf as (c & d & [Hl Hn] & Hd); [done|].
    by exists f, c, d.
Qed.
Lemma size_spec s w ks b st :
  inv s → opened s w ks b st → has_file st = true → writer_Size w s = (Ret (Z.of_nat (String.length b)), s).
Proof.
  intros Hi (x & Hw & _ & Hf) Hst. destruct (Hf Hst) as (c & d & [Hl Hn] & Hd).
  unfold writer_Size, mbind, gom_bind. rewrite (load_writer_Ret _ _ _ Hw), (as_file_Ret _ _ _ _ Hn).
  by rewrite <-(file_slen s ks (wr_f x) c d), Hd.
Qed.
(** Deleting leaves the writers as they are. *)
Lemma Delete_writers p s : writers (Delete p s).2 = writers s.
Proof.
  unfold Delete, dir_delete, attempt, mbind, gom_bind. destruct (path_Split (normalize p)) as [dn fn].
  assert (∀ l, (dir_find l dn s).2 = s) as Hfind by (intros l; unfold dir_find; by repeat case_match).
  specialize (Hfind root). destruct (dir_find root dn s) as [[l|e|] s0]; cbn in Hfind; subst s0; [|by repeat case_match|done].
  unfold as_dir, deref, mbind, gom_bind, gets, lift. destruct (nodes s !! l) as [n|] eqn:Hn; [|done]. cbn.
  case_bool_decide; [done|]. rewrite Hn. destruct n as [c children|c d]; [|done]. cbn. by case_bool_decide.
Qed.
Lemma cancel_spec s w ks b :
  inv s → ok ks → opened s w ks b WOpen →
  ∃ s', writer_Cancel w s = (Ret tt, s') ∧ inv s' ∧ opened s' w ks b WCanceled ∧ ∀ q, view s' q = fs_delete (view s) ks q.
Proof.
  intros Hi Hok (x & Hw & (Hcl & Hco & Hca) & Hf). destruct (Hf ltac:(done)) as (c & d & [Hl Hn] & Hd).
  set (x' := {| wr_f := wr_f x; closed := false; committed := false; canceled := true |}).
  set (s1 := set_writers (<[w := x']> (writers s)) s).
  destruct (delete_spec s1 ks) as (s' & Hdel & Hi' & Hv'); [done|done|rewrite (view_lookup s1 ks (wr_f x) _ Hl Hn); by eexists|].
  assert (writers s' = writers s1) as Hws by (by rewrite <-(Delete_writers (abspath ks) s1), Hdel).
  destruct (lookup_path_node _ _ _ Hi Hl) as (Hg & _ & n & Hn' & Hp). rewrite Hn in Hn'. injection Hn' as <-.
  exists s'. split_and!; [|done| |done].
  - unfold writer_Cancel. rewrite (bind_Ret _ _ _ _ _ (load_writer_Ret _ _ _ Hw)), Hcl, Hco.
    rewrite (bind_Ret _ _ s tt s1) by done. rewrite (bind_Ret _ _ s1 (File c d) s1) by (by apply deref_Ret).
    rewrite Hp. revert Hdel. unfold Delete. rewrite normalize_abspath by done. unfold attempt, mbind, gom_bind.
    destruct (dir_delete root (rootpath ks) s1) as [[[]|e|] s2]; [by intros [= <-]| |done].
    by destruct e; try done; repeat case_match.
  - exists x'. split; [by rewrite Hws; apply lookup_insert_eq|]. done.
Qed.

(** A writer that is closed cannot be canceled. *)
Lemma canceled_closed s w ks b : opened s w ks b WClosed → ∃ e, writer_Cancel w s = (Fail e, s).
Proof.
  intros (x & Hw & Hcl & _). eexists. unfold writer_Cancel.
  rewrite (bind_Ret _ _ _ _ _ (load_writer_Ret _ _ _ Hw)). cbn in Hcl. by rewrite Hcl.
Qed.

#[export] Instance inmemory_writer_laws : WriterLaws driver view inv ok opened.
Proof.
  split; cbn [driver drv_writer drv_Writer drv_PutContent drv_Delete wr_Write wr_Size wr_Commit wr_Close wr_Cancel].
  - intros s w ks b st _ (x & _ & _ & Hf) Hst. destruct (Hf Hst) as (c & d & [Hl Hn] & Hd).
    by rewrite (view_lookup s ks _ _ Hl Hn), <-Hd.
  - intros s ks ap Hi Hok Hv Hb. setoid_rewrite <-opens_opened. by apply Writer_spec.
  - intros s w ks b b' Hi Ho%opens_opened. setoid_rewrite <-opens_opened. by apply Write_spec.
  - apply size_spec.
  - intros s w ks b Hi (x & Hw & (Hcl & Hco & Hca) & Hf). eexists. split_and!.
    + unfold writer_Commit. rewrite (bind_Ret _ _ _ _ _ (load_writer_Ret _ _ _ Hw)), Hcl, Hco, Hca. reflexivity.
    + done.
    + eexists. split; [apply lookup_insert_eq|]. split; [done|]. intros _. by apply Hf.
    + done.
  - intros s w ks b st Hi (x & Hw & Hfl & Hf) Hst. assert (closed x = false) as Hcl by (destruct st; naive_solver).
    eexists. split_and!.
    + unfold writer_Close. rewrite (bind_Ret _ _ _ _ _ (load_writer_Ret _ _ _ Hw)), Hcl. reflexivity.
    + done.
    + eexists. split; [apply lookup_insert_eq|]. split; [by destruct st; naive_solver|]. intros Hst'. apply Hf.
      by destruct (has_file st).
    + done.
  - intros s w ks b st Hi (x & Hw & Hfl & Hf) Hst. assert (closed x = true) as Hcl by (destruct st; naive_solver).
    eexists. unfold writer_Close. rewrite (bind_Ret _ _ _ _ _ (load_writer_Ret _ _ _ Hw)), Hcl. done.
  - intros s w ks b _ _ Ho. left. by apply (canceled_closed s w ks b).
  - apply cancel_spec.
  - intros s w ks b st ks' c s' Hi (x & Hw & Hfl & Hf) Hok Hne Hd Hb Hp.
    destruct (put_frame s ks' c Hi Hok Hd Hb) as (s1 & Hp1 & _ & _ & Hws & Hfr). rewrite Hp in Hp1. injection Hp1 as <-.
    exists x. rewrite Hws. split_and!; [done..|]. intros Hst. destruct (Hf Hst) as (c0 & d0 & Hat & Hb0).
    exists c0, d0. split; [|done]. by apply Hfr.
  - intros s w ks b st ks' s' Hi (x & Hw & Hfl & Hf) Hst Hok Hdel. exists x.
    rewrite <-(Delete_writers (abspath ks') s), Hdel in Hw. split_and!; [done..|]. by rewrite Hst.
Qed.

(** ** Properties *)

Fixpoint nostutterb (ks : fpath) : bool :=
  match ks with
  | a :: (b :: _) as l => bool_decide (a ≠ b) && nostutterb l
  | _ => true
  end.
Definition okb (ks : fpath) : bool :=
  negb (bool_decide (ks = [])) && forallb good_comp ks && nostutterb ks && PathRegexp_MatchString (abspath ks).

Lemma nostutterb_spec ks : nostutterb ks = true → nostutter ks.
Proof.
  induction ks as [|a ks IH]; [intros _; apply nostutter_nil|].
  destruct ks as [|b ks].
  - intros _ x y [|z [|]] r; simpl; intros [=].
  - intros [Hab Hks]%andb_true_iff. apply bool_decide_eq_true_1 in Hab.
    intros x y [|z l] r Heq; simpl in Heq; [congruence|]. injection Heq as <- Heq. by apply (IH Hks x y l r).
Qed.
Lemma okb_ok ks : okb ks = true → base_ok (ok := ok) ks.
Proof.
  unfold okb. intros ?. breflect. split; [|done]. split_and!; [done| |by apply nostutterb_spec].
  apply Forall_forall. intros w Hw. by eapply forallb_forall; [|apply list_elem_of_In].
Qed.
Lemma New_view t q : view (New t) q = empty_fs q.
Proof.
  unfold empty_fs. case_decide as Hq; [by subst q|]. destruct q as [|x q]; [done|].
  change (x :: q) with ([x] ++ q). apply view_below_None; [apply New_inv|done].
Qed.
Lemma New_base_inv t : base_inv (inv := inv) (view := view) (New t).
Proof.
  split; [apply New_inv|]. intros ks. rewrite New_view. unfold empty_fs. case_decide; [by left|by intros []].
Qed.

(** C31: the in-memory driver behind the base driver is a file system: a
    sequence of calls on supported paths, started on a new driver, gets the
    answers that the same calls get from a map from paths to contents. *)
Theorem inmemory_refines_fs t cs :
  admits_all okb cs empty_fs = true →
  (run_calls (Base.Base driver) cs (New t)).1 = fs_calls cs empty_fs.
Proof.
  intros Hadm. destruct (fs_calls_ext okb cs (view (New t)) empty_fs (New_view t)) as [He Ha].
  rewrite <-He. apply (run_calls_refines (base_laws inmemory_laws) okb okb_ok).
  - apply New_base_inv.
  - by rewrite Ha.
Qed.

(** What is written to a writer and committed is what is read: opened
    for appending the file keeps its bytes, otherwise it starts empty, and the
    chunks follow in order.  No other path changes. *)
Theorem writer_commit_content s ks (ap : bool) bs :
  inv s → ok ks → view s ks ≠ Some EDir → ¬ blocked (view s) ks →
  let b := (if ap then old_bytes (view s) ks else "") +:+ String.concat "" bs in
  ∃ s', (w ← Writer (abspath ks) ap; _ ← write_all w bs; writer_Commit w) s = (Ret tt, s') ∧
    GetContent (abspath ks) s' = (Ret b, s') ∧ inv s' ∧ ∀ q, view s' q = fs_put (view s) ks b q.
Proof.
  intros Hi Hok Hv Hb b. destruct (Writer_spec s ks ap Hi Hok Hv Hb) as (w & s1 & Hw & Hi1 & Ho1 & Hv1).
  destruct (write_all_spec s1 w ks _ bs Hi1 Ho1) as (s2 & Hw2 & Hi2 & Ho2 & Hv2).
  { rewrite Hv1. unfold fs_put. by rewrite decide_True. }
  destruct (Commit_spec s2 w ks _ Ho2) as (s3 & Hc & Hn3).
  assert (∀ q, view s3 q = fs_put (view s) ks b q) as Hv3.
  { intros q. unfold view at 1. rewrite Hn3. fold (view s2). rewrite Hv2. unfold fs_put.
    case_decide; [done|]. rewrite Hv1. unfold fs_put. by rewrite decide_False. }
  assert (inv s3) as Hi3. { unfold inv. by rewrite Hn3. }
  exists s3. split_and!; try done.
  - by rewrite (bind_Ret _ _ _ _ _ Hw), (bind_Ret _ _ _ _ _ Hw2), Hc.
  - apply get_spec; try done. rewrite Hv3. unfold fs_put. by rewrite decide_True.
Qed.

(** *** Witnesses *)

Lemma inmemory_refines_fs_witness :
  (run_calls (Base.Base driver)
     [CPut ["a"; "b"; "c"] "1"; CPut ["a"; "d"] "22"; CStat ["a"; "b"]; CMove ["a"; "b"; "c"] ["e"; "f"];
      CGet ["e"; "f"]; CGet ["a"; "b"; "c"]; CDelete ["a"]; CStat ["a"; "d"]; CDelete ["a"]] (New 0)).1 =
  [ADone; ADone; AInfo 0 true; ADone; AContent "1"; AMissing; ADone; AMissing; AMissing].
Proof.
  refine (eq_trans (inmemory_refines_fs 0 [CPut ["a"; "b"; "c"] "1"; CPut ["a"; "d"] "22"; CStat ["a"; "b"];
    CMove ["a"; "b"; "c"] ["e"; "f"]; CGet ["e"; "f"]; CGet ["a"; "b"; "c"]; CDelete ["a"]; CStat ["a"; "d"];
    CDelete ["a"]] _) _); vm_compute; reflexivity.
Defined.

Lemma ab_ok : ok ["a"; "b"].
Proof. split_and!; [done|by repeat constructor|by apply nostutterb_spec]. Qed.

Lemma writer_commit_content_witness :
  ∃ s', (w ← Writer "/a/b" false; _ ← write_all w ["x"; "yz"]; writer_Commit w) (New 0) = (Ret tt, s') ∧
    GetContent "/a/b" s' = (Ret "xyz", s').
Proof.
  destruct (writer_commit_content (New 0) ["a"; "b"] false ["x"; "yz"]) as (s' & H1 & H2 & _).
  - apply New_inv.
  - apply ab_ok.
  - rewrite New_view. discriminate.
  - apply blockedb_spec. vm_compute. reflexivity.
  - exists s'. split; [exact H1|exact H2].
Defined.

Lemma put_refused_witness :
  let s := (PutContent "/a" "1" (New 0)).2 in PutContent "/a/b" "2" s = (Fail (errors_New "not a file"), s).
Proof.
  cbv zeta. apply (put_refused _ ["a"; "b"]).
  - destruct (put_spec (New 0) ["a"] "1") as (s' & Hs' & Hi & _); [apply New_inv| | | |].
    + split_and!; [done|by repeat constructor|by apply nostutterb_spec].
    + rewrite New_view. discriminate.
    + apply blockedb_spec. vm_compute. reflexivity.
    + change "/a" with (abspath ["a"]). rewrite Hs'. exact Hi.
  - apply ab_ok.
  - right. exists ["a"]. split; [split; [by exists ["b"]|discriminate]|]. exists "1". vm_compute. reflexivity.
Defined.

End InMemoryFS.
