(* ===== verification/FileReader.v ===== *)
(** * Reading stored files

    Models registry/storage/filereader.go over any storage driver: a reader
    that opens the file when it is first read, and again after a seek.  The
    bytes that the open reader still holds are the part [fr_rc] of its state;
    a read returns at most [chunk k] of them for a buffer of [k] bytes, as the
    buffered reader of the standard library may return less than is asked for. *)

From S2P Require Import Prelude GoStd Digest Driver FileSystem.

Module FileReader.

Definition EOF : error := errors_New "EOF".

Record fileReader := {
  fr_path : string;
  fr_size : Z;
  fr_rc : option bytes;
  fr_offset : Z;
  fr_err : option error;
}.
Definition set_rc (rc : option bytes) (fr : fileReader) : fileReader :=
  {| fr_path := fr_path fr; fr_size := fr_size fr; fr_rc := rc; fr_offset := fr_offset fr; fr_err := fr_err fr |}.
Definition set_offset (o : Z) (fr : fileReader) : fileReader :=
  {| fr_path := fr_path fr; fr_size := fr_size fr; fr_rc := fr_rc fr; fr_offset := o; fr_err := fr_err fr |}.
Definition set_err (e : option error) (fr : fileReader) : fileReader :=
  {| fr_path := fr_path fr; fr_size := fr_size fr; fr_rc := fr_rc fr; fr_offset := fr_offset fr; fr_err := e |}.

Inductive whence := SeekStart | SeekCurrent | SeekEnd.

Definition newFileReader (path : string) (size : Z) : fileReader :=
  {| fr_path := path; fr_size := size; fr_rc := None; fr_offset := 0; fr_err := None |}.

Section reader.
Context {St : Type} {D : StorageDriver St} (chunk : nat → nat).

Abbreviation F := (GoM (St * fileReader) error) (only parsing).

(** The bytes of the current reader, opened if there is none. *)
Definition reader : F bytes :=
  fr ← on_snd (gets id);
  match fr_err fr with
  | Some err => fail err
  | None =>
      match fr_rc fr with
      | Some rest => mret rest
      | None =>
          r ← attempt (on_fst (drv_Reader (fr_path fr) (fr_offset fr)));
          match r with
          | inl (PathNotFoundError _ _) => mret ""
          | inl err => fail err
          | inr rd =>
              rest ← on_fst (rd_ReadAll rd);
              _ ← on_snd (modify (set_rc (Some rest)));
              mret rest
          end
      end
  end.

(** [Read] into a buffer of [k] bytes: the bytes read, and the error. *)
Definition Read (k : nat) : F (bytes * option error) :=
  fr ← on_snd (gets id);
  match fr_err fr with
  | Some err => mret ("", Some err)
  | None =>
      rd ← attempt reader;
      match rd with
      | inl err => mret ("", Some err)
      | inr "" => mret ("", Some EOF)
      | inr rest =>
          let b := str_take (chunk k) rest in
          let offset := (fr_offset fr + Z.of_nat (String.length b))%Z in
          _ ← on_snd (modify (λ fr, set_offset offset (set_rc (Some (str_drop (chunk k) rest)) fr)));
          mret (b, if (fr_size fr <=? offset)%Z then Some EOF else None)
      end
  end.

Definition reset (fr : fileReader) : fileReader :=
  match fr_err fr with
  | Some _ => fr
  | None => set_rc None fr
  end.

Definition Seek (offset : Z) (w : whence) : F (Z * option error) :=
  fr ← on_snd (gets id);
  match fr_err fr with
  | Some err => mret (0%Z, Some err)
  | None =>
      let newOffset :=
        match w with
        | SeekCurrent => fr_offset fr + offset
        | SeekEnd => fr_size fr + offset
        | SeekStart => offset
        end%Z in
      if (newOffset <? 0)%Z then mret (fr_offset fr, Some (errors_New "cannot seek to negative position"))
      else
        _ ← on_snd (modify (λ fr,
              set_offset newOffset (if bool_decide (fr_offset fr ≠ newOffset) then reset fr else fr)));
        mret (newOffset, None)
  end.

Definition closeWithErr (err : error) : F error :=
  fr ← on_snd (gets id);
  match fr_err fr with
  | Some err => mret err
  | None => _ ← on_snd (modify (λ fr, set_rc None (set_err (Some err) fr))); mret err
  end.
Definition Close : F error := closeWithErr (errors_New "fileReader: closed").

(** [io.Copy] from the reader: all it reads, with a buffer of [k] bytes. *)
Fixpoint Copy (fuel k : nat) (acc : bytes) : F bytes :=
  match fuel with
  | 0 => panic
  | S fuel =>
      r ← Read k;
      let acc := acc +:+ r.1 in
      match r.2 with
      | None => Copy fuel k acc
      | Some err => if err_eq err EOF then mret acc else fail err
      end
  end.

End reader.

(** ** What is read is what is stored *)

Section spec.
Context {St : Type} {D : StorageDriver St} {view : St → fs} {inv : St → Prop} {ok : fpath → Prop}.
Context {L : DriverLaws D view inv ok} (chunk : nat → nat).
Hypothesis Hchunk : ∀ k, 0 < k → 0 < chunk k ≤ k.

(** A reader of the file [ks] with the content [c], not closed, at an offset in
    the file. *)
Record reads (s : St) (ks : fpath) (c : bytes) (fr : fileReader) : Prop := {
  rd_inv : inv s;
  rd_ok : ok ks;
  rd_view : view s ks = Some (EFile c);
  rd_path : fr_path fr = abspath ks;
  rd_size : fr_size fr = Z.of_nat (String.length c);
  rd_err : fr_err fr = None;
  rd_offset : (0 ≤ fr_offset fr ≤ Z.of_nat (String.length c))%Z;
  rd_rc rest : fr_rc fr = Some rest → rest = str_drop (Z.to_nat (fr_offset fr)) c;
}.

Lemma new_reads s ks c :
  inv s → ok ks → view s ks = Some (EFile c) → reads s ks c (newFileReader (abspath ks) (Z.of_nat (String.length c))).
Proof. intros Hi Hok Hv. constructor; try done. cbn. lia. Qed.

Lemma lazy_reader_spec s ks c fr :
  reads s ks c fr →
  let rest := str_drop (Z.to_nat (fr_offset fr)) c in
  reader (s, fr) = (Ret rest, (s, set_rc (Some rest) fr)).
Proof.
  intros [Hi Hok Hv Hp Hs He Ho Hrc] rest. unfold reader. rewrite (bind_Ret _ _ _ fr (s, fr)) by done. rewrite He.
  destruct (fr_rc fr) as [r|] eqn:Hr.
  - rewrite (Hrc r eq_refl) in Hr |- *. fold rest in Hr |- *. unfold mret, gom_ret. repeat f_equal.
    destruct fr. cbn in *. by rewrite Hr.
  - destruct (law_reader s ks c (fr_offset fr) Hi Hok Hv Ho) as (rd & H1 & H2).
    unfold on_fst, on_snd, attempt, mbind, gom_bind. cbn [fst snd]. rewrite Hp, H1. cbn [fst snd]. by rewrite H2.
Qed.

(** One read: the bytes of the content from the offset on, and the end of the
    file with the last byte or after it. *)
Lemma Read_exact s ks c fr k :
  reads s ks c fr → 0 < k →
  let b := str_take (chunk k) (str_drop (Z.to_nat (fr_offset fr)) c) in
  let o := (fr_offset fr + Z.of_nat (String.length b))%Z in
  ∃ fr', Read chunk k (s, fr) = (Ret (b, if (Z.of_nat (String.length c) <=? o)%Z then Some EOF else None), (s, fr')) ∧
    reads s ks c fr' ∧ fr_offset fr' = o.
Proof.
  intros Hr Hk. pose proof (lazy_reader_spec s ks c fr Hr) as Hrd. destruct Hr as [Hi Hok Hv Hp Hs He Ho Hrc].
  destruct (Hchunk k Hk) as [Hc0 Hck]. set (rest := str_drop (Z.to_nat (fr_offset fr)) c) in *. intros b o.
  assert (String.length rest = String.length c - Z.to_nat (fr_offset fr)) as Hlen by apply str_length_drop.
  assert (String.length b = Nat.min (chunk k) (String.length rest)) as Hb by apply str_length_take.
  unfold Read. rewrite (bind_Ret _ _ _ fr (s, fr)) by done. rewrite He.
  rewrite (bind_Ret (attempt reader) _ _ (inr rest) (s, set_rc (Some rest) fr)) by (unfold attempt; by rewrite Hrd).
  destruct (decide (rest = "")) as [Hre|Hre].
  - exists (set_rc (Some rest) fr). assert (b = "") as Hb0 by (unfold b; rewrite Hre; by destruct (chunk k)).
    assert (o = fr_offset fr) as Hoe by (unfold o; rewrite Hb0; cbn; lia). rewrite Hre in Hlen. cbn in Hlen.
    rewrite Hb0, Hoe. split_and!; [|..|done].
    { rewrite Hre. by destruct (Z.leb_spec (Z.of_nat (String.length c)) (fr_offset fr)); [|lia]. }
    constructor; try done. by intros ? [= <-].
  - exists (set_offset o (set_rc (Some (str_drop (chunk k) rest)) fr)). split; [|split; [|done]].
    + rewrite <-Hs. by destruct rest.
    + constructor; try done; cbn; [lia|]. intros ? [= <-]. unfold rest, o. rewrite str_drop_drop.
      destruct (decide (chunk k ≤ String.length rest)); [f_equal; lia|]. by rewrite !str_drop_ge by lia.
Qed.

(** The whole content, for every way in which the reads are cut. *)
Lemma Copy_spec fuel s ks c fr k acc :
  reads s ks c fr → 0 < k → String.length c - Z.to_nat (fr_offset fr) < fuel →
  ∃ fr', Copy chunk fuel k acc (s, fr) = (Ret (acc +:+ str_drop (Z.to_nat (fr_offset fr)) c), (s, fr')).
Proof.
  intros Hr Hk. revert fr acc Hr. induction fuel as [|fuel IH]; intros fr acc Hr Hf; [lia|]. cbn [Copy].
  destruct (Read_exact s ks c fr k Hr Hk) as (fr' & HR & Hr' & Ho). rewrite (bind_Ret _ _ _ _ _ HR). clear HR.
  pose proof (rd_offset _ _ _ _ Hr) as Hb0. pose proof (rd_offset _ _ _ _ Hr') as Hb1.
  set (rest := str_drop (Z.to_nat (fr_offset fr)) c) in *. destruct (Hchunk k Hk) as [Hc0 _].
  assert (String.length rest = String.length c - Z.to_nat (fr_offset fr)) as Hlen by apply str_length_drop.
  rewrite <-Ho. rewrite str_length_take in Ho. cbn [fst snd]. destruct (Z.leb_spec (Z.of_nat (String.length c)) (fr_offset fr')).
  - exists fr'. cbn. rewrite str_take_ge by lia. done.
  - destruct (IH fr' (acc +:+ str_take (chunk k) rest) Hr') as (fr2 & H2); [lia|]. exists fr2. rewrite H2.
    rewrite <-str_app_assoc. repeat f_equal. rewrite <-(str_take_drop (chunk k) rest) at 2. f_equal.
    unfold rest. rewrite str_drop_drop. f_equal. lia.
Qed.

(** A seek to an offset in the file. *)
Definition seek_to (w : whence) (size cur offset : Z) : Z :=
  match w with SeekStart => offset | SeekCurrent => cur + offset | SeekEnd => size + offset end%Z.
Lemma Seek_spec s ks c fr offset w :
  reads s ks c fr →
  let o := seek_to w (Z.of_nat (String.length c)) (fr_offset fr) offset in
  (o ≤ Z.of_nat (String.length c))%Z →
  if (o <? 0)%Z
  then Seek offset w (s, fr) = (Ret (fr_offset fr, Some (errors_New "cannot seek to negative position")), (s, fr))
  else ∃ fr', Seek offset w (s, fr) = (Ret (o, None), (s, fr')) ∧ reads s ks c fr' ∧ fr_offset fr' = o.
Proof.
  intros [Hi Hok Hv Hp Hs He Hof Hrc] o Ho. unfold Seek. rewrite (bind_Ret _ _ _ fr (s, fr)) by done. rewrite He.
  replace (match w with SeekCurrent => fr_offset fr + offset | SeekEnd => fr_size fr + offset | SeekStart => offset end%Z)
    with o by (unfold o, seek_to; rewrite Hs; by destruct w).
  destruct (Z.ltb_spec o 0); [done|].
  eexists. split; [done|]. split; [|done]. unfold reset. cbn. rewrite He.
  case_bool_decide as Hne; constructor; try done; cbn; try lia.
  intros rest Hrest. rewrite (Hrc rest Hrest). repeat f_equal. lia.
Qed.

End spec.

(** ** The reader is a cursor on the content *)

Inductive rop := ORead (k : nat) | OSeek (offset : Z) (w : whence).
Inductive ranswer := ABytes (b : bytes) (e : option error) | AOffset (o : Z) (e : option error) | ABroken.

Section refinement.
Context {St : Type} {D : StorageDriver St} (chunk : nat → nat).

Definition run_rop (op : rop) (st : St * fileReader) : ranswer * (St * fileReader) :=
  match op with
  | ORead k => let '(o, st) := Read chunk k st in (match o with Ret (b, e) => ABytes b e | _ => ABroken end, st)
  | OSeek off w => let '(o, st) := Seek off w st in (match o with Ret (n, e) => AOffset n e | _ => ABroken end, st)
  end.
Fixpoint run_rops (ops : list rop) (st : St * fileReader) : list ranswer * (St * fileReader) :=
  match ops with
  | [] => ([], st)
  | op :: ops => let '(a, st1) := run_rop op st in let '(l, st2) := run_rops ops st1 in (a :: l, st2)
  end.

(** The cursor: the content and an offset in it. *)
Definition cursor_rop (c : bytes) (op : rop) (off : Z) : ranswer * Z :=
  match op with
  | ORead k =>
      let b := str_take (chunk k) (str_drop (Z.to_nat off) c) in
      let off := (off + Z.of_nat (String.length b))%Z in
      (ABytes b (if (Z.of_nat (String.length c) <=? off)%Z then Some EOF else None), off)
  | OSeek d w =>
      let o := seek_to w (Z.of_nat (String.length c)) off d in
      if (o <? 0)%Z then (AOffset off (Some (errors_New "cannot seek to negative position")), off)
      else (AOffset o None, o)
  end.
Fixpoint cursor_rops (c : bytes) (ops : list rop) (off : Z) : list ranswer :=
  match ops with
  | [] => []
  | op :: ops => let '(a, off) := cursor_rop c op off in a :: cursor_rops c ops off
  end.
(** No seek leaves the file, and no read is into an empty buffer. *)
Fixpoint in_range (c : bytes) (ops : list rop) (off : Z) : bool :=
  match ops with
  | [] => true
  | op :: ops =>
      match op with
      | ORead k => 0 <? k
      | OSeek d w => (seek_to w (Z.of_nat (String.length c)) off d <=? Z.of_nat (String.length c))%Z
      end && in_range c ops (cursor_rop c op off).2
  end.

Context {view : St → fs} {inv : St → Prop} {ok : fpath → Prop} {L : DriverLaws D view inv ok}.
Hypothesis Hchunk : ∀ k, 0 < k → 0 < chunk k ≤ k.

(** C26: reading a stored file is moving a cursor on its content: for every
    sequence of reads and seeks in the file, each read returns the bytes at the
    offset that the reads and seeks before it lead to, and the end of the file
    is reported exactly when the last byte has been returned. *)
Theorem file_reader_refines_cursor s ks c ops :
  inv s → ok ks → view s ks = Some (EFile c) → in_range c ops 0 = true →
  ∃ fr, run_rops ops (s, newFileReader (abspath ks) (Z.of_nat (String.length c))) = (cursor_rops c ops 0, (s, fr)).
Proof.
  intros Hi Hok Hv. pose proof (new_reads s ks c Hi Hok Hv) as Hr.
  set (fr := newFileReader _ _) in *. change 0%Z with (fr_offset fr). clearbody fr. revert fr Hr.
  induction ops as [|op ops IH]; intros fr Hr Hin; [by exists fr|]. cbn [in_range] in Hin.
  apply andb_true_iff in Hin as [Hop Hin].
  assert (∃ fr', run_rop op (s, fr) = ((cursor_rop c op (fr_offset fr)).1, (s, fr')) ∧
    reads (view := view) (inv := inv) (ok := ok) s ks c fr' ∧ fr_offset fr' = (cursor_rop c op (fr_offset fr)).2) as (fr' & H1 & Hr' & Ho).
  { destruct op as [k|d w]; cbn [run_rop].
    - apply Nat.ltb_lt in Hop. destruct (Read_exact chunk Hchunk s ks c fr k Hr Hop) as (fr' & HR & Hr' & Ho).
      rewrite HR. by exists fr'.
    - apply Z.leb_le in Hop. pose proof (Seek_spec s ks c fr d w Hr Hop) as HS. cbn [cursor_rop].
      destruct (_ <? 0)%Z; [rewrite HS; by exists fr|]. destruct HS as (fr' & -> & ? & ?). by exists fr'. }
  rewrite <-Ho in Hin. destruct (IH fr' Hr' Hin) as (fr2 & H2). exists fr2. cbn [run_rops cursor_rops].
  rewrite H1, H2. destruct (cursor_rop c op (fr_offset fr)) as [a off] eqn:Hc. cbn [fst snd] in *. by rewrite Ho.
Qed.

End refinement.
End FileReader.
