(* ===== verification/ObjectStore.v ===== *)
(** * The objects of the registry on a storage driver

    The storage packages never name a file: they ask the path mapper for the
    path of an object and pass it to the driver.  This file combines the
    injectivity of the mapper with the contract of the driver: on a driver that
    only holds objects of the registry, the driver is a map from path
    specifications to contents.  The components above are verified over this
    map. *)

From S2P Require Import Prelude GoStd Digest Driver FileSystem Paths.

Module ObjectStore.
Import Paths.

#[export] Instance pathSpec_eq_dec : EqDecision pathSpec.
Proof. solve_decision. Defined.

(** The specifications of files; the others name directories. *)
Definition file_spec (spec : pathSpec) : bool :=
  match spec with
  | manifestRevisionLinkPathSpec _ _ | manifestTagCurrentPathSpec _ _ | manifestTagIndexEntryLinkPathSpec _ _ _
  | layerLinkPathSpec _ _ | blobDataPathSpec _ | uploadDataPathSpec _ _ | uploadStartedAtPathSpec _ _
  | uploadHashStatePathSpec _ _ _ _ false => true
  | _ => false
  end.

Section objects.
Context {GD : GoDigest}.

Definition is_object (spec : pathSpec) : bool := file_spec spec && safe spec.

(** Only objects: a file is the file of an object, and a directory is on the
    way to one. *)
Definition registry_fs (v : fs) : Prop := ∀ ks e, v ks = Some e →
  ∃ spec r, is_object spec = true ∧ layout spec = ks ++ r ∧
    match e with EFile _ => r = [] | EDir => r ≠ [] end.

(** The content of an object. *)
Definition object (v : fs) (spec : pathSpec) : option bytes :=
  match v (layout spec) with Some (EFile c) => Some c | _ => None end.

Context {GDL : GoDigestLaws}.

Lemma is_object_safe spec : is_object spec = true → safe spec = true ∧ normal spec = true.
Proof.
  unfold is_object. intros [Hf Hs]%andb_true_iff. split; [done|]. destruct spec; try done. by destruct lst.
Qed.

Lemma layout_pathFor spec : is_object spec = true → pathFor spec = Ret (abspath (layout spec)).
Proof. intros [Hs _]%is_object_safe. by apply pathFor_layout. Qed.

(** *** No object lies on the way to another *)

Lemma repos_prefix n1 n2 t1 t2 r :
  safe_name n1 = true → safe_name n2 = true → t1 ≠ [] → marked t1 = true → marked t2 = true →
  (repos n1 ++ t1) ++ r = repos n2 ++ t2 → n1 = n2 ∧ t1 ++ r = t2.
Proof.
  intros H1 H2 Hne Hm1 Hm2. rewrite <-app_assoc. intros Heq. apply repos_inj in Heq; try done.
  by destruct t1.
Qed.

Lemma below_prefix s1 s2 r n1 t1 n2 t2 :
  file_spec s1 = true → file_spec s2 = true → safe s1 = true → safe s2 = true →
  below s1 = (Some n1, t1) → below s2 = (Some n2, t2) → t1 ++ r = t2 → r = [].
Proof.
  intros Hf1 Hf2 Hs1 Hs2 Hb1 Hb2 Heq. subst t2.
  destruct s1, s2; try done; cbn [below file_spec] in *; repeat case_match; try done;
    unfold flat in *; simplify_eq/=; try done; destruct r; done.
Qed.

Lemma object_prefix s1 s2 :
  is_object s1 = true → is_object s2 = true → layout s1 `prefix_of` layout s2 → s1 = s2.
Proof.
  intros Ho1 Ho2 [r Hr]. pose proof (is_object_safe _ Ho1) as [Hs1 Hn1]. pose proof (is_object_safe _ Ho2) as [Hs2 Hn2].
  unfold is_object in *. breflect. assert (r = []) as ->; cycle 1.
  { rewrite app_nil_r in Hr. symmetry. by apply layout_inj. }
  rewrite !layout_below in Hr.
  destruct (below s1) as [[n1|] t1] eqn:Hb1, (below s2) as [[n2|] t2] eqn:Hb2.
  - destruct (below_marked _ _ _ Hb1 Hs1), (below_marked _ _ _ Hb2 Hs2).
    symmetry in Hr. apply repos_prefix in Hr as [-> Hr]; try done.
    + by apply (below_prefix s1 s2 r n2 t1 n2 t2).
    + intros ->. by destruct s1.
  - destruct (below_marked _ _ _ Hb1 Hs1) as [_ Hsn]. exfalso. apply (below_repos _ n1 _ Hb2 Hsn (t1 ++ r)).
    by rewrite app_assoc.
  - destruct (below_marked _ _ _ Hb2 Hs2) as [_ Hsn]. exfalso. destruct s1; try done. simplify_eq/=.
  - destruct s1, s2; try done. by simplify_eq/=.
Qed.

(** *** Consequences for a driver that holds only objects *)

Lemma registry_not_dir v spec : registry_fs v → is_object spec = true → v (layout spec) ≠ Some EDir.
Proof.
  intros Hv Ho Hd. destruct (Hv _ _ Hd) as (spec' & r & Ho' & Hl & Hr).
  assert (spec = spec') as <- by (apply object_prefix; [done..|by exists r]).
  apply (f_equal length) in Hl. rewrite length_app in Hl. destruct r; [done|]. simpl in Hl. lia.
Qed.
Lemma registry_not_blocked v spec : registry_fs v → is_object spec = true → ¬ blocked v (layout spec).
Proof.
  intros Hv Ho (q & [Hq Hne] & c & Hc). destruct (Hv _ _ Hc) as (spec' & r & Ho' & Hl & ->).
  rewrite app_nil_r in Hl. subst q. apply Hne. f_equal. by apply object_prefix.
Qed.
Lemma object_missing v spec : registry_fs v → is_object spec = true → object v spec = None → v (layout spec) = None.
Proof.
  intros Hv Ho. unfold object. pose proof (registry_not_dir v spec Hv Ho) as Hd.
  destruct (v (layout spec)) as [[]|]; [done|by destruct Hd|done].
Qed.
Lemma object_present v spec c : object v spec = Some c → v (layout spec) = Some (EFile c).
Proof. unfold object. repeat case_match; naive_solver. Qed.

Lemma put_registry v spec c : registry_fs v → is_object spec = true → registry_fs (fs_put v (layout spec) c).
Proof.
  intros Hv Ho ks e. unfold fs_put. case_decide as H1.
  - intros [= <-]. subst ks. exists spec, []. by rewrite app_nil_r.
  - case_decide as H2; [|apply Hv]. intros [= <-]. destruct H2 as [r Hr]. exists spec, r. split_and!; try done.
    intros ->. by rewrite app_nil_r in Hr.
Qed.
Lemma delete_registry v ks : registry_fs v → registry_fs (fs_delete v ks).
Proof. intros Hv q e. unfold fs_delete. case_decide; [done|apply Hv]. Qed.
Lemma move_registry v src spec c : registry_fs v → is_object spec = true → registry_fs (fs_move v src (layout spec) c).
Proof.
  intros Hv Ho ks e. unfold fs_move. case_decide as H1.
  - intros [= <-]. subst ks. exists spec, []. by rewrite app_nil_r.
  - case_decide as H2.
    + intros [= <-]. destruct H2 as [r Hr]. exists spec, r. split_and!; try done.
      intros ->. by rewrite app_nil_r in Hr.
    + case_decide; [done|apply Hv].
Qed.

(** The map of objects after each effect. *)
Lemma put_objects v spec c spec' :
  is_object spec = true → is_object spec' = true →
  object (fs_put v (layout spec) c) spec' = if decide (spec' = spec) then Some c else object v spec'.
Proof.
  intros Ho Ho'. unfold object, fs_put. destruct (decide (spec' = spec)) as [->|Hs]; [by rewrite decide_True|].
  rewrite !decide_False; [done|..].
  - intros Hp. by apply Hs, object_prefix.
  - intros Hl. apply Hs, object_prefix; [done..|]. by rewrite Hl.
Qed.
Lemma delete_objects v spec spec' :
  is_object spec = true → is_object spec' = true →
  object (fs_delete v (layout spec)) spec' = if decide (spec' = spec) then None else object v spec'.
Proof.
  intros Ho Ho'. unfold object, fs_delete.
  destruct (decide (layout spec `prefix_of` layout spec')) as [Hp|Hp], (decide (spec' = spec)) as [Hs|Hs]; try done.
  - destruct Hs. symmetry. by apply object_prefix.
  - by subst.
Qed.
Lemma delete_dir_objects v ks spec' :
  object (fs_delete v ks) spec' = if decide (ks `prefix_of` layout spec') then None else object v spec'.
Proof. unfold object, fs_delete. by case_decide. Qed.
Lemma move_objects v src dst c spec' :
  is_object src = true → is_object dst = true → is_object spec' = true →
  object (fs_move v (layout src) (layout dst) c) spec' =
    if decide (spec' = dst) then Some c else if decide (spec' = src) then None else object v spec'.
Proof.
  intros Hsrc Hdst Ho'. unfold object, fs_move. destruct (decide (spec' = dst)) as [->|Hs]; [by rewrite decide_True|].
  rewrite decide_False; [|intros Hl; apply Hs, object_prefix; [done..|by rewrite Hl]].
  rewrite decide_False; [|intros Hp; by apply Hs, object_prefix].
  destruct (decide (layout spec' = layout src)) as [Hq|Hq], (decide (spec' = src)) as [Hq'|Hq']; try done.
  - destruct Hq'. apply object_prefix; [done..|]. by rewrite Hq.
  - by subst.
Qed.

End objects.

(** ** Drivers *)

Section laws.
Context {GD : GoDigest} {GDL : GoDigestLaws}.
Context {St : Type} {D : StorageDriver St} {view : St → fs} {inv : St → Prop} {ok : fpath → Prop}.
Context {L : DriverLaws D view inv ok}.

Definition rinv (s : St) : Prop := inv s ∧ registry_fs (view s).
(** The path of the object is one the driver supports. *)
Definition supported (spec : pathSpec) : Prop := is_object spec = true ∧ ok (layout spec).

Lemma get_object s spec c :
  rinv s → supported spec → object (view s) spec = Some c → drv_GetContent (abspath (layout spec)) s = (Ret c, s).
Proof. intros [Hi Hr] [Ho Hok] Hv. apply law_get; [done..|]. by apply object_present. Qed.
Lemma get_object_missing s spec :
  rinv s → supported spec → object (view s) spec = None →
  ∃ n, drv_GetContent (abspath (layout spec)) s = (Fail (PathNotFoundError (abspath (layout spec)) n), s).
Proof. intros [Hi Hr] [Ho Hok] Hv. apply law_get_missing; [done..|]. by apply object_missing. Qed.
Lemma read_object s spec c :
  rinv s → supported spec → object (view s) spec = Some c →
  ∃ r, drv_Reader (abspath (layout spec)) 0 s = (Ret r, s) ∧ rd_ReadAll r s = (Ret c, s).
Proof.
  intros [Hi Hr] [Ho Hok] Hv. apply object_present in Hv.
  destruct (law_reader s (layout spec) c 0 Hi Hok Hv) as (r & H1 & H2); [lia|]. by exists r.
Qed.
Lemma read_object_missing s spec :
  rinv s → supported spec → object (view s) spec = None →
  ∃ n, drv_Reader (abspath (layout spec)) 0 s = (Fail (PathNotFoundError (abspath (layout spec)) n), s).
Proof.
  intros [Hi Hr] [Ho Hok] Hv. apply law_reader_missing; [done..| |done]. by apply object_missing.
Qed.
Lemma stat_object s spec c :
  rinv s → supported spec → object (view s) spec = Some c →
  ∃ t, drv_Stat (abspath (layout spec)) s =
    (Ret {| fi_Path := abspath (layout spec); fi_Size := Z.of_nat (String.length c); fi_ModTime := t; fi_IsDir := false |}, s).
Proof. intros [Hi Hr] [Ho Hok] Hv. apply law_stat_file; [done..|]. by apply object_present. Qed.
Lemma stat_object_missing s spec :
  rinv s → supported spec → object (view s) spec = None →
  ∃ n, drv_Stat (abspath (layout spec)) s = (Fail (PathNotFoundError (abspath (layout spec)) n), s).
Proof. intros [Hi Hr] [Ho Hok] Hv. apply law_stat_missing; [done..|]. by apply object_missing. Qed.

Lemma put_object s spec c :
  rinv s → supported spec →
  ∃ s', drv_PutContent (abspath (layout spec)) c s = (Ret tt, s') ∧ rinv s' ∧
    (∀ q, view s' q = fs_put (view s) (layout spec) c q) ∧
    ∀ spec', is_object spec' = true →
      object (view s') spec' = if decide (spec' = spec) then Some c else object (view s) spec'.
Proof.
  intros [Hi Hr] [Ho Hok].
  destruct (law_put s (layout spec) c Hi Hok) as (s' & Hs' & Hi' & Hv');
    [by apply registry_not_dir|by apply registry_not_blocked|].
  exists s'. split_and!; try done.
  - split; [done|]. intros ks e. rewrite Hv'. by apply put_registry.
  - intros spec' Ho'. rewrite <-put_objects by done. unfold object. by rewrite Hv'.
Qed.
Lemma delete_object s spec c :
  rinv s → supported spec → object (view s) spec = Some c →
  ∃ s', drv_Delete (abspath (layout spec)) s = (Ret tt, s') ∧ rinv s' ∧
    (∀ q, view s' q = fs_delete (view s) (layout spec) q) ∧
    ∀ spec', is_object spec' = true →
      object (view s') spec' = if decide (spec' = spec) then None else object (view s) spec'.
Proof.
  intros [Hi Hr] [Ho Hok] Hv. apply object_present in Hv.
  destruct (law_delete s (layout spec) Hi Hok) as (s' & Hs' & Hi' & Hv'); [by eexists|].
  exists s'. split_and!; try done.
  - split; [done|]. intros ks e. rewrite Hv'. by apply delete_registry.
  - intros spec' Ho'. rewrite <-delete_objects by done. unfold object. by rewrite Hv'.
Qed.
Lemma delete_object_missing s spec :
  rinv s → supported spec → object (view s) spec = None →
  ∃ n, drv_Delete (abspath (layout spec)) s = (Fail (PathNotFoundError (abspath (layout spec)) n), s).
Proof.
  intros [Hi Hr] [Ho Hok] Hv.
  apply law_delete_missing; [done..|by apply object_missing|by apply registry_not_blocked].
Qed.
(** Deleting a directory deletes the objects below it. *)
Lemma delete_dir s ks :
  rinv s → ok ks → is_Some (view s ks) →
  ∃ s', drv_Delete (abspath ks) s = (Ret tt, s') ∧ rinv s' ∧ (∀ q, view s' q = fs_delete (view s) ks q) ∧
    ∀ spec', object (view s') spec' = if decide (ks `prefix_of` layout spec') then None else object (view s) spec'.
Proof.
  intros [Hi Hr] Hok Hv. destruct (law_delete s ks Hi Hok Hv) as (s' & Hs' & Hi' & Hv').
  exists s'. split_and!; try done.
  - split; [done|]. intros q e. rewrite Hv'. by apply delete_registry.
  - intros spec'. rewrite <-delete_dir_objects. unfold object. by rewrite Hv'.
Qed.
(** Deleting several files. *)
Lemma delete_files s specs :
  rinv s → Forall supported specs →
  ∃ s', drv_DeleteFiles ((λ spec, abspath (layout spec)) <$> specs) s = (Ret (Z.of_nat (length specs), None), s') ∧
    rinv s' ∧ ∀ spec', is_object spec' = true →
      object (view s') spec' = if decide (spec' ∈ specs) then None else object (view s) spec'.
Proof.
  intros [Hi Hr] Hs.
  destruct (law_delete_files s (layout <$> specs) Hi) as (s' & Hs' & Hi' & Hv').
  { apply Forall_fmap. eapply Forall_impl; [done|]. intros spec [Ho Hok]. split; [done|]. by apply registry_not_blocked. }
  rewrite <-list_fmap_compose, length_fmap in Hs'. exists s'. split; [done|]. split.
  - split; [done|]. intros q e. rewrite Hv'. unfold fs_delete_all. case_decide; [done|apply Hr].
  - intros spec' Ho'. unfold object. rewrite Hv'. unfold fs_delete_all.
    destruct (decide (spec' ∈ specs)) as [Hin|Hin].
    + rewrite decide_True; [done|]. apply Exists_fmap, Exists_exists. exists spec'. split; [done|]. unfold compose. reflexivity.
    + rewrite decide_False; [done|]. intros (ks & Hks & Hp)%Exists_exists.
      apply list_elem_of_fmap in Hks as (spec & -> & Hspec).
      rewrite Forall_forall in Hs. apply Hin. by rewrite <-(object_prefix spec spec') by (done || by apply Hs).
Qed.
Lemma move_object s src dst c :
  rinv s → supported src → supported dst → object (view s) src = Some c →
  ∃ s', drv_Move (abspath (layout src)) (abspath (layout dst)) s = (Ret tt, s') ∧ rinv s' ∧
    ∀ spec', is_object spec' = true → object (view s') spec' =
      if decide (spec' = dst) then Some c else if decide (spec' = src) then None else object (view s) spec'.
Proof.
  intros [Hi Hr] [Hos Hoks] [Hod Hokd] Hv. apply object_present in Hv.
  destruct (law_move s (layout src) (layout dst) c Hi Hoks Hokd Hv) as (s' & Hs' & Hi' & Hv');
    [by apply registry_not_dir|by apply registry_not_blocked|].
  exists s'. split_and!; try done.
  - split; [done|]. intros ks e. rewrite Hv'. by apply move_registry.
  - intros spec' Ho'. rewrite <-move_objects by done. unfold object. by rewrite Hv'.
Qed.
End laws.
End ObjectStore.
