(* ===== verification/BlobStore.v ===== *)
(** * Blobs and the links of a repository

    Models registry/storage/blobstore.go, linkedblobstore.go, io.go and
    util.go over any storage driver.  The theorems are stated on the map of
    objects of ObjectStore.v: what is put is what is read, a repository sees
    the blobs linked in it and no others, and deleting a blob from one
    repository removes its link there and nothing else. *)

From S2P Require Import Prelude GoStd Digest Driver FileSystem Paths ObjectStore.

(** ** The limited reader of io.go *)

Module LimitedReader.

Definition EOF : error := errors_New "EOF".
Definition errLimit : error := errors_New "storage: read exceeds limit".

(** A [limitedReader] over a reader whose unread bytes are [lr_rest]. *)
Record limitedReader := { lr_rest : bytes; lr_n : Z; lr_err : option error }.

(** The underlying [Read] into a buffer of [k] bytes. *)
Definition bytes_Read (k : nat) (rest : bytes) : bytes * option error * bytes :=
  match rest with
  | "" => ("", Some EOF, "")
  | _ => (str_take k rest, None, str_drop k rest)
  end.

Definition Read (k : nat) (l : limitedReader) : bytes * option error * limitedReader :=
  match lr_err l with
  | Some err => ("", Some err, l)
  | None =>
      if bool_decide (k = 0) then ("", None, l)
      else
        let k := if bool_decide (lr_n l + 1 < Z.of_nat k)%Z then Z.to_nat (lr_n l + 1) else k in
        let '(b, err, rest) := bytes_Read k (lr_rest l) in
        let n := Z.of_nat (String.length b) in
        if bool_decide (n ≤ lr_n l)%Z
        then (b, err, {| lr_rest := rest; lr_n := (lr_n l - n)%Z; lr_err := err |})
        else (str_take (Z.to_nat (lr_n l)) b, Some errLimit,
              {| lr_rest := rest; lr_n := 0; lr_err := Some errLimit |})
  end.

(** [ioutil.ReadAll]: [bufs] are the sizes of the free space of its buffer at
    each read, whatever its growth policy. *)
Fixpoint ReadAll (fuel : nat) (bufs : nat → nat) (acc : bytes) (l : limitedReader) : outcome error bytes :=
  match fuel with
  | 0 => Panic
  | S fuel =>
      let '(b, err, l) := Read (bufs 0) l in
      let acc := acc +:+ b in
      match err with
      | None => ReadAll fuel (λ i, bufs (S i)) acc l
      | Some err => if err_eq err EOF then Ret acc else Fail err
      end
  end.
Definition readAllLimited (bufs : nat → nat) (content : bytes) (limit : Z) : outcome error bytes :=
  ReadAll (String.length content + 2) bufs "" {| lr_rest := content; lr_n := limit; lr_err := None |}.

(** One read of a reader with bytes left. *)
Lemma Read_step k rest n :
  0 < k → (0 ≤ n)%Z → rest ≠ "" →
  let k' := Nat.min k (Z.to_nat (n + 1)) in
  Read k {| lr_rest := rest; lr_n := n; lr_err := None |} =
    if bool_decide (Z.of_nat (Nat.min k' (String.length rest)) ≤ n)%Z
    then (str_take k' rest, None,
          {| lr_rest := str_drop k' rest; lr_n := (n - Z.of_nat (Nat.min k' (String.length rest)))%Z; lr_err := None |})
    else (str_take (Z.to_nat n) (str_take k' rest), Some errLimit,
          {| lr_rest := str_drop k' rest; lr_n := 0; lr_err := Some errLimit |}).
Proof.
  intros Hk Hn Hr k'. unfold Read. cbn [lr_err lr_n lr_rest]. rewrite bool_decide_false by lia.
  replace (if bool_decide (n + 1 < Z.of_nat k)%Z then Z.to_nat (n + 1) else k) with k'
    by (unfold k'; case_bool_decide; lia).
  destruct rest as [|c rest]; [done|]. cbn [bytes_Read]. by rewrite str_length_take.
Qed.

Lemma ReadAll_spec fuel bufs acc rest n :
  (∀ i, 0 < bufs i) → (0 ≤ n)%Z → String.length rest + 1 < fuel →
  ReadAll fuel bufs acc {| lr_rest := rest; lr_n := n; lr_err := None |} =
    if bool_decide (Z.of_nat (String.length rest) ≤ n)%Z then Ret (acc +:+ rest) else Fail errLimit.
Proof.
  intros Hb. revert fuel bufs Hb acc rest n. fix IH 1. intros fuel bufs Hb acc rest n Hn Hf.
  destruct fuel as [|fuel]; [lia|]. cbn [ReadAll].
  destruct (decide (rest = "")) as [->|Hr].
  - unfold Read. cbn [lr_err lr_n lr_rest bytes_Read]. rewrite bool_decide_false by (specialize (Hb 0); lia).
    cbn [String.length Z.of_nat]. by rewrite !bool_decide_true by lia.
  - rewrite Read_step by (done || apply Hb). set (k := Nat.min (bufs 0) (Z.to_nat (n + 1))).
    assert (0 < k) as Hk by (unfold k; specialize (Hb 0); lia).
    assert (0 < String.length rest) as Hlr by (destruct rest; [done|simpl; lia]).
    case_bool_decide as Hle.
    + rewrite IH; [|intros; apply Hb|lia|rewrite str_length_drop; lia].
      rewrite str_length_drop, <-str_app_assoc, str_take_drop. repeat case_bool_decide; try done; lia.
    + rewrite bool_decide_false by lia. done.
Qed.

End LimitedReader.

Module BlobStore.
Import Paths ObjectStore LimitedReader.

(** The fields of [distribution.Descriptor] that the store reads or sets. *)
Record Descriptor := { MediaType : string; Size : Z; desc_Digest : digest }.

(** [maxBlobGetSize]. *)
Definition maxBlobGetSize : Z := Z.shiftl 4 20.

Section store.
Context {GD : GoDigest} {St : Type} {D : StorageDriver St}.
(** The growth policy of the buffer of [ioutil.ReadAll]. *)
Context (bufs : nat → nat).

Abbreviation M := (GoM St error) (only parsing).
(** A [BlobStatter]: the stat call of the store below. *)
Abbreviation statter := (digest → GoM St error Descriptor) (only parsing).

Definition path_of (spec : pathSpec) : M string := lift (omap_err ErrDigest (pathFor spec)).

(** *** util.go and io.go *)

Definition exists_ (path : string) : M bool :=
  r ← attempt (drv_Stat path);
  match r with
  | inl (PathNotFoundError _ _) => mret false
  | inl err => fail err
  | inr _ => mret true
  end.

Definition getContent (p : string) : M bytes :=
  r ← drv_Reader p 0;
  content ← rd_ReadAll r;
  lift (readAllLimited bufs content maxBlobGetSize).

(** *** blobStore *)

Definition path (dgst : digest) : M string := path_of (blobDataPathSpec dgst).

Definition link (path : string) (dgst : digest) : M unit := drv_PutContent path dgst.

Definition readlink (path : string) : M digest :=
  content ← drv_GetContent path;
  match digest_Parse content with
  | (_, Some err) => fail (ErrDigest err)
  | (linked, None) => mret linked
  end.

Definition resolve (p : string) : M string := dgst ← readlink p; path dgst.

Definition Get (dgst : digest) : M bytes :=
  bp ← path dgst;
  r ← attempt (getContent bp);
  match r with
  | inl (PathNotFoundError _ _) => fail ErrBlobUnknown
  | inl err => fail err
  | inr p => mret p
  end.

Definition Put (stat : statter) (mediaType : string) (p : bytes) : M Descriptor :=
  let dgst := digest_FromBytes p in
  r ← attempt (stat dgst);
  match r with
  | inr desc => mret desc
  | inl err =>
      if negb (err_eq err ErrBlobUnknown) then fail err
      else
        bp ← path dgst;
        _ ← drv_PutContent bp p;
        mret {| Size := Z.of_nat (String.length p); MediaType := "application/octet-stream"; desc_Digest := dgst |}
  end.

(** [blobStatter.Stat]. *)
Definition blobStatter_Stat (dgst : digest) : M Descriptor :=
  path ← path_of (blobDataPathSpec dgst);
  r ← attempt (drv_Stat path);
  match r with
  | inl (PathNotFoundError _ _) => fail ErrBlobUnknown
  | inl err => fail err
  | inr fi =>
      if fi_IsDir fi then fail ErrBlobUnknown
      else mret {| Size := fi_Size fi; MediaType := "application/octet-stream"; desc_Digest := dgst |}
  end.

(** *** Links *)

(** A [linkPathFunc]. *)
Abbreviation linkPathFunc := (string → digest → outcome digest_err string) (only parsing).
Definition blobLinkPath : linkPathFunc := λ name dgst, pathFor (layerLinkPathSpec name dgst).
Definition manifestRevisionLinkPath : linkPathFunc := λ name dgst, pathFor (manifestRevisionLinkPathSpec name dgst).

(** The loop of [linkBlob]. *)
Fixpoint linkBlob_loop (linkPathFn : linkPathFunc) (name : string) (canonical : digest)
    (seenDigests : gset digest) (dgsts : list digest) : M unit :=
  match dgsts with
  | [] => mret tt
  | dgst :: dgsts =>
      if bool_decide (dgst ∈ seenDigests) then linkBlob_loop linkPathFn name canonical seenDigests dgsts
      else
        blobLinkPath ← lift (omap_err ErrDigest (linkPathFn name dgst));
        _ ← link blobLinkPath canonical;
        linkBlob_loop linkPathFn name canonical ({[dgst]} ∪ seenDigests) dgsts
  end.
Definition linkBlob (linkPathFns : list linkPathFunc) (name : string) (canonical : Descriptor) (aliases : list digest) :
    M unit :=
  match linkPathFns with
  | [] => panic
  | linkPathFn :: _ =>
      linkBlob_loop linkPathFn name (desc_Digest canonical) ∅ (desc_Digest canonical :: aliases)
  end.

(** *** linkedBlobStatter *)

Definition resolveWithLinkFunc (name : string) (dgst : digest) (linkPathFn : linkPathFunc) : M digest :=
  blobLinkPath ← lift (omap_err ErrDigest (linkPathFn name dgst));
  readlink blobLinkPath.

Fixpoint linkedBlobStatter_target (linkPathFns : list linkPathFunc) (name : string) (dgst : digest) : M (option digest) :=
  match linkPathFns with
  | [] => mret None
  | linkPathFn :: linkPathFns =>
      r ← attempt (resolveWithLinkFunc name dgst linkPathFn);
      match r with
      | inr target => mret (Some target)
      | inl (PathNotFoundError _ _) => linkedBlobStatter_target linkPathFns name dgst
      | inl err => fail err
      end
  end.
Definition linkedBlobStatter_Stat (stat : statter) (linkPathFns : list linkPathFunc) (name : string) (dgst : digest) :
    M Descriptor :=
  r ← linkedBlobStatter_target linkPathFns name dgst;
  match r with
  | None => fail ErrBlobUnknown
  | Some target => stat target
  end.

Fixpoint linkedBlobStatter_Clear (linkPathFns : list linkPathFunc) (name : string) (dgst : digest) : M unit :=
  match linkPathFns with
  | [] => mret tt
  | linkPathFn :: linkPathFns =>
      blobLinkPath ← lift (omap_err ErrDigest (linkPathFn name dgst));
      r ← attempt (drv_Delete blobLinkPath);
      match r with
      | inl (PathNotFoundError _ _) | inr _ => linkedBlobStatter_Clear linkPathFns name dgst
      | inl err => fail err
      end
  end.
Definition linkedBlobStatter_SetDescriptor (dgst : digest) (desc : Descriptor) : M unit := mret tt.

(** *** linkedBlobStore *)

(** The fields of a [linkedBlobStore] that its methods use; the access
    controller is the [linkedBlobStatter] of the same links. *)
Record linkedBlobStore := {
  lbs_statter : statter;
  lbs_name : string;
  lbs_deleteEnabled : bool;
  lbs_linkPathFns : list linkPathFunc;
}.

Definition lbs_Stat (lbs : linkedBlobStore) (dgst : digest) : M Descriptor :=
  linkedBlobStatter_Stat (lbs_statter lbs) (lbs_linkPathFns lbs) (lbs_name lbs) dgst.
Definition lbs_Get (lbs : linkedBlobStore) (dgst : digest) : M bytes :=
  canonical ← lbs_Stat lbs dgst; Get (desc_Digest canonical).
Definition lbs_Put (lbs : linkedBlobStore) (mediaType : string) (p : bytes) : M Descriptor :=
  let dgst := digest_FromBytes p in
  desc ← Put (lbs_statter lbs) mediaType p;
  _ ← linkedBlobStatter_SetDescriptor dgst desc;
  _ ← linkBlob (lbs_linkPathFns lbs) (lbs_name lbs) desc [];
  mret desc.
Definition lbs_Delete (lbs : linkedBlobStore) (dgst : digest) : M unit :=
  if negb (lbs_deleteEnabled lbs) then fail ErrUnsupported
  else
    _ ← lbs_Stat lbs dgst;
    linkedBlobStatter_Clear (lbs_linkPathFns lbs) (lbs_name lbs) dgst.

(** [mount]: the blob is looked up in the source repository unless its
    descriptor is given. *)
Definition lbs_mount (lbs source : linkedBlobStore) (dgst : digest) (sourceStat : option Descriptor) : M Descriptor :=
  stat ← match sourceStat with
         | None => lbs_Stat source dgst
         | Some stat => mret stat
         end;
  let desc := {| Size := Size stat; MediaType := "application/octet-stream"; desc_Digest := dgst |} in
  _ ← linkBlob (lbs_linkPathFns lbs) (lbs_name lbs) desc [];
  mret desc.

(** *** The stores of a repository, without a descriptor cache *)

(** [repository.Blobs] and the blob store of [repository.Manifests]. *)
Definition repository_Blobs (name : string) (deleteEnabled : bool) : linkedBlobStore :=
  {| lbs_statter := blobStatter_Stat; lbs_name := name; lbs_deleteEnabled := deleteEnabled;
     lbs_linkPathFns := [blobLinkPath] |}.
Definition repository_Manifests (name : string) (deleteEnabled : bool) : linkedBlobStore :=
  {| lbs_statter := blobStatter_Stat; lbs_name := name; lbs_deleteEnabled := deleteEnabled;
     lbs_linkPathFns := [manifestRevisionLinkPath; blobLinkPath] |}.

End store.

(** ** The stores on the map of objects *)

Section spec.
Context {GD : GoDigest} {GDL : GoDigestLaws}.
Context {St : Type} {D : StorageDriver St} {view : St → fs} {inv : St → Prop} {ok : fpath → Prop}.
Context {L : DriverLaws D view inv ok}.

Abbreviation rinv := (ObjectStore.rinv (view := view) (inv := inv)).
Abbreviation supported := (ObjectStore.supported (ok := ok)).
Abbreviation M := (GoM St error) (only parsing).
Abbreviation obj s := (object (view s)).

Lemma path_of_spec spec (s : St) : is_object spec = true → path_of spec s = (Ret (abspath (layout spec)), s).
Proof. intros Ho. unfold path_of, lift. by rewrite layout_pathFor. Qed.
Lemma link_path_spec spec (s : St) :
  is_object spec = true → lift (E := error) (omap_err ErrDigest (pathFor spec)) s = (Ret (abspath (layout spec)), s).
Proof. apply path_of_spec. Qed.

Lemma limited_spec (bufs : nat → nat) content :
  (∀ i, 0 < bufs i) →
  readAllLimited bufs content maxBlobGetSize =
    if bool_decide (Z.of_nat (String.length content) ≤ maxBlobGetSize)%Z then Ret content else Fail errLimit.
Proof. intros Hb. unfold readAllLimited. rewrite ReadAll_spec by (done || lia). by rewrite str_app_nil_l. Qed.

Lemma readlink_Ret s spec c :
  rinv s → supported spec → obj s spec = Some c → digest_Validate c = None →
  readlink (abspath (layout spec)) s = (Ret c, s).
Proof.
  intros Hr Hs Ho Hc. unfold readlink. rewrite (bind_Ret _ _ _ _ _ (get_object s spec c Hr Hs Ho)).
  by rewrite digest_Parse_spec, Hc.
Qed.
Lemma readlink_invalid s spec c e :
  rinv s → supported spec → obj s spec = Some c → digest_Validate c = Some e →
  readlink (abspath (layout spec)) s = (Fail (ErrDigest e), s).
Proof.
  intros Hr Hs Ho Hc. unfold readlink. rewrite (bind_Ret _ _ _ _ _ (get_object s spec c Hr Hs Ho)).
  by rewrite digest_Parse_spec, Hc.
Qed.
Lemma readlink_missing s spec :
  rinv s → supported spec → obj s spec = None →
  ∃ n, readlink (abspath (layout spec)) s = (Fail (PathNotFoundError (abspath (layout spec)) n), s).
Proof.
  intros Hr Hs Ho. destruct (get_object_missing s spec Hr Hs Ho) as [n Hn]. exists n.
  unfold readlink. by rewrite (bind_Fail _ _ _ _ _ Hn).
Qed.

Lemma blobStatter_spec s d :
  rinv s → supported (blobDataPathSpec d) →
  blobStatter_Stat d s =
    (match obj s (blobDataPathSpec d) with
     | Some c => Ret {| Size := Z.of_nat (String.length c); MediaType := "application/octet-stream"; desc_Digest := d |}
     | None => Fail ErrBlobUnknown
     end, s).
Proof.
  intros Hr Hs. unfold blobStatter_Stat. rewrite (bind_Ret _ _ _ _ _ (path_of_spec _ s (proj1 Hs))).
  unfold attempt, mbind, gom_bind. destruct (obj s (blobDataPathSpec d)) as [c|] eqn:Ho.
  - by destruct (stat_object s _ c Hr Hs Ho) as [t ->].
  - by destruct (stat_object_missing s _ Hr Hs Ho) as [n ->].
Qed.

Lemma blob_Get_spec (bufs : nat → nat) s d :
  (∀ i, 0 < bufs i) → rinv s → supported (blobDataPathSpec d) →
  Get bufs d s =
    (match obj s (blobDataPathSpec d) with
     | Some c => if bool_decide (Z.of_nat (String.length c) ≤ maxBlobGetSize)%Z then Ret c else Fail errLimit
     | None => Fail ErrBlobUnknown
     end, s).
Proof.
  intros Hb Hr Hs. unfold Get, path. rewrite (bind_Ret _ _ _ _ _ (path_of_spec _ s (proj1 Hs))).
  unfold attempt, getContent, mbind, gom_bind. destruct (obj s (blobDataPathSpec d)) as [c|] eqn:Ho.
  - destruct (read_object s _ c Hr Hs Ho) as (r & -> & ->). unfold lift. rewrite limited_spec by done. by case_bool_decide.
  - by destruct (read_object_missing s _ Hr Hs Ho) as [n ->].
Qed.

(** The bytes that are stored under a digest after a [Put]. *)
Definition stored (v : fs) (p : bytes) : bytes :=
  default p (object v (blobDataPathSpec (digest_FromBytes p))).

Lemma Put_spec s mt p :
  let d := digest_FromBytes p in
  rinv s → supported (blobDataPathSpec d) →
  ∃ s', Put blobStatter_Stat mt p s =
      (Ret {| Size := Z.of_nat (String.length (stored (view s) p)); MediaType := "application/octet-stream";
              desc_Digest := d |}, s') ∧
    rinv s' ∧ ∀ spec, is_object spec = true →
      obj s' spec = if decide (spec = blobDataPathSpec d) then Some (stored (view s) p) else obj s spec.
Proof.
  intros d Hr Hs. unfold Put. fold d. unfold attempt, mbind, gom_bind. rewrite blobStatter_spec by done.
  unfold stored. fold d. destruct (obj s (blobDataPathSpec d)) as [c|] eqn:Ho.
  - exists s. split_and!; try done. intros spec _. case_decide; [by subst|done].
  - cbn [err_eq negb]. unfold path. rewrite path_of_spec by apply Hs.
    destruct (put_object s _ p Hr Hs) as (s' & -> & Hr' & _ & Hv'). exists s'. split_and!; try done.
Qed.

Lemma linkBlob_spec s spec fn fns name d desc :
  rinv s → supported spec → fn name d = pathFor spec → desc_Digest desc = d →
  ∃ s', linkBlob (fn :: fns) name desc [] s = (Ret tt, s') ∧ rinv s' ∧
    ∀ spec', is_object spec' = true → obj s' spec' = if decide (spec' = spec) then Some d else obj s spec'.
Proof.
  intros Hr Hs Hfn Hd. cbn [linkBlob linkBlob_loop]. rewrite Hd, bool_decide_false by set_solver. rewrite Hfn.
  rewrite (bind_Ret _ _ _ _ _ (link_path_spec _ s (proj1 Hs))). unfold link.
  destruct (put_object s spec d Hr Hs) as (s' & Hp & Hr' & _ & Hv'). exists s'. split_and!; try done.
  by rewrite (bind_Ret _ _ _ _ _ Hp).
Qed.

(** *** Several links *)

Abbreviation linkSpec := (string → digest → pathSpec) (only parsing).
Definition link_fns (gs : list linkSpec) : list (string → digest → outcome digest_err string) :=
  (λ g name d, pathFor (g name d)) <$> gs.

(** The first of the links that exists. *)
Fixpoint first_link (v : fs) (specs : list pathSpec) : outcome error (option digest) :=
  match specs with
  | [] => Ret None
  | spec :: specs =>
      match object v spec with
      | None => first_link v specs
      | Some c => match digest_Validate c with Some e => Fail (ErrDigest e) | None => Ret (Some c) end
      end
  end.

Lemma target_spec s gs name d :
  rinv s → Forall (λ g, supported (g name d)) gs →
  linkedBlobStatter_target (link_fns gs) name d s = (first_link (view s) ((λ g, g name d) <$> gs), s).
Proof.
  intros Hr. induction 1 as [|g gs Hg _ IH]; [done|]. unfold link_fns in *. rewrite !fmap_cons.
  cbn [linkedBlobStatter_target first_link]. unfold resolveWithLinkFunc, attempt, mbind, gom_bind in *.
  rewrite link_path_spec by apply Hg. destruct (obj s (g name d)) as [c|] eqn:Ho.
  - destruct (digest_Validate c) as [e|] eqn:Hc; [by rewrite (readlink_invalid s _ c e)|by rewrite (readlink_Ret s _ c)].
  - by destruct (readlink_missing s _ Hr Hg Ho) as [n ->].
Qed.

(** The repository has a link for the digest, and the blob it points to. *)
Definition visible (v : fs) (specs : list pathSpec) (t : digest) (b : bytes) : Prop :=
  first_link v specs = Ret (Some t) ∧ object v (blobDataPathSpec t) = Some b.

Lemma stat_visible s gs name d t b :
  rinv s → Forall (λ g, supported (g name d)) gs → supported (blobDataPathSpec t) →
  visible (view s) ((λ g, g name d) <$> gs) t b →
  linkedBlobStatter_Stat blobStatter_Stat (link_fns gs) name d s =
    (Ret {| Size := Z.of_nat (String.length b); MediaType := "application/octet-stream"; desc_Digest := t |}, s).
Proof.
  intros Hr Hg Ht [Hf Hb]. unfold linkedBlobStatter_Stat, mbind, gom_bind.
  rewrite target_spec, Hf by done. by rewrite blobStatter_spec, Hb.
Qed.
Lemma stat_unlinked s gs name d :
  rinv s → Forall (λ g, supported (g name d)) gs → Forall (λ g, obj s (g name d) = None) gs →
  linkedBlobStatter_Stat blobStatter_Stat (link_fns gs) name d s = (Fail ErrBlobUnknown, s).
Proof.
  intros Hr Hg Hn. unfold linkedBlobStatter_Stat, mbind, gom_bind. rewrite target_spec by done.
  assert (first_link (view s) ((λ g, g name d) <$> gs) = Ret None) as ->; [|done].
  induction Hn as [|g gs Hn _ IH]; [done|]. rewrite fmap_cons. cbn [first_link]. rewrite Hn. apply IH.
  by apply Forall_cons in Hg as [_ ?].
Qed.

Lemma Clear_spec s gs name d :
  rinv s → Forall (λ g, supported (g name d)) gs →
  ∃ s', linkedBlobStatter_Clear (link_fns gs) name d s = (Ret tt, s') ∧ rinv s' ∧
    ∀ spec, is_object spec = true →
      obj s' spec = if decide (spec ∈ (λ g, g name d) <$> gs) then None else obj s spec.
Proof.
  intros Hr Hg. revert s Hr. induction Hg as [|g gs Hg _ IH]; intros s Hr; [by exists s|].
  unfold link_fns in *. rewrite !fmap_cons. cbn [linkedBlobStatter_Clear]. unfold attempt, mbind, gom_bind in *.
  rewrite link_path_spec by apply Hg. destruct (obj s (g name d)) as [c|] eqn:Ho.
  - destruct (delete_object s _ c Hr Hg Ho) as (s1 & -> & Hr1 & _ & Hv1).
    destruct (IH s1 Hr1) as (s2 & Hs2 & Hr2 & Hv2). exists s2. split_and!; try done.
    intros spec Hspec. rewrite Hv2, Hv1 by done. repeat case_decide; set_solver.
  - destruct (delete_object_missing s _ Hr Hg Ho) as [n ->].
    destruct (IH s Hr) as (s2 & Hs2 & Hr2 & Hv2). exists s2. split_and!; try done.
    intros spec Hspec. rewrite Hv2 by done. repeat case_decide; set_solver.
Qed.

End spec.

(** ** Properties *)

Section properties.
Context {GD : GoDigest} {GDL : GoDigestLaws}.
Context {St : Type} {D : StorageDriver St} {view : St → fs} {inv : St → Prop} {ok : fpath → Prop}.
Context {L : DriverLaws D view inv ok}.

Abbreviation rinv := (ObjectStore.rinv (view := view) (inv := inv)).
Abbreviation supported := (ObjectStore.supported (ok := ok)).
Abbreviation obj s := (object (view s)).

Lemma Blobs_Stat name del d :
  lbs_Stat (repository_Blobs name del) d = linkedBlobStatter_Stat blobStatter_Stat (link_fns [layerLinkPathSpec]) name d.
Proof. done. Qed.

(** What is put into a repository is what is read from it.  [Put] stores
    the bytes under their digest, links the digest into the repository and
    changes no other object; [Get] of the digest then returns the bytes, or
    reports that they exceed the limit on what is read into memory. *)
Theorem repository_put_get (bufs : nat → nat) s name del mt p :
  (∀ i, 0 < bufs i) → rinv s →
  let d := digest_FromBytes p in
  supported (blobDataPathSpec d) → supported (layerLinkPathSpec name d) →
  (∀ c, obj s (blobDataPathSpec d) = Some c → c = p) →
  ∃ s', lbs_Put (repository_Blobs name del) mt p s =
      (Ret {| Size := Z.of_nat (String.length p); MediaType := "application/octet-stream"; desc_Digest := d |}, s') ∧
    rinv s' ∧
    (∀ spec, is_object spec = true → obj s' spec =
       if decide (spec = layerLinkPathSpec name d) then Some d
       else if decide (spec = blobDataPathSpec d) then Some p else obj s spec) ∧
    lbs_Get bufs (repository_Blobs name del) d s' =
      (if bool_decide (Z.of_nat (String.length p) ≤ maxBlobGetSize)%Z then Ret p else Fail errLimit, s').
Proof.
  intros Hb Hr d Hsb Hsl Hc.
  assert (stored (view s) p = p) as Hst.
  { unfold stored. fold d. destruct (obj s (blobDataPathSpec d)) as [c|] eqn:Ho; [by apply Hc|done]. }
  destruct (Put_spec s mt p Hr Hsb) as (s1 & Hput & Hr1 & Hv1). rewrite Hst in *. fold d in Hput, Hv1.
  set (desc := {| Size := Z.of_nat (String.length p); MediaType := "application/octet-stream"; desc_Digest := d |}) in *.
  destruct (linkBlob_spec s1 (layerLinkPathSpec name d) blobLinkPath [] name d desc Hr1 Hsl) as (s2 & Hlink & Hr2 & Hv2);
    [done..|].
  assert (∀ spec, is_object spec = true → obj s2 spec =
       if decide (spec = layerLinkPathSpec name d) then Some d
       else if decide (spec = blobDataPathSpec d) then Some p else obj s spec) as Hv.
  { intros spec Hspec. rewrite Hv2, Hv1 by done. done. }
  exists s2. split_and!; try done.
  - unfold lbs_Put, mbind, gom_bind. cbn [repository_Blobs lbs_statter lbs_linkPathFns lbs_name]. rewrite Hput.
    cbn [linkedBlobStatter_SetDescriptor mret gom_ret]. by rewrite Hlink.
  - unfold lbs_Get, mbind, gom_bind. rewrite Blobs_Stat.
    rewrite (stat_visible s2 [layerLinkPathSpec] name d d p); [|done|by apply Forall_singleton|done|].
    + rewrite blob_Get_spec by done. rewrite Hv by apply Hsb. rewrite decide_False, decide_True by done. done.
    + split.
      * cbn [fmap list_fmap first_link]. rewrite Hv, decide_True by (done || apply Hsl).
        unfold d. by rewrite digest_FromBytes_valid.
      * rewrite Hv, decide_False, decide_True by (done || apply Hsb). done.
Qed.

(** Deleting a blob from a repository removes its link in that
    repository, so that the repository no longer knows it, and changes no
    other object: the bytes and the links of the other repositories stay. *)
Theorem repository_delete s name d t b :
  rinv s → supported (layerLinkPathSpec name d) → supported (blobDataPathSpec t) →
  visible (view s) [layerLinkPathSpec name d] t b →
  ∃ s', lbs_Delete (repository_Blobs name true) d s = (Ret tt, s') ∧ rinv s' ∧
    lbs_Stat (repository_Blobs name true) d s' = (Fail ErrBlobUnknown, s') ∧
    ∀ spec, is_object spec = true → spec ≠ layerLinkPathSpec name d → obj s' spec = obj s spec.
Proof.
  intros Hr Hsl Hst Hvis.
  destruct (Clear_spec s [layerLinkPathSpec] name d Hr) as (s' & Hc & Hr' & Hv'); [by apply Forall_singleton|].
  exists s'. split_and!; try done.
  - unfold lbs_Delete, mbind, gom_bind. rewrite Blobs_Stat. cbn [repository_Blobs lbs_deleteEnabled lbs_linkPathFns lbs_name negb].
    by rewrite (stat_visible s [layerLinkPathSpec] name d t b) by (done || by apply Forall_singleton).
  - apply (stat_unlinked s' [layerLinkPathSpec]); [done|by apply Forall_singleton|].
    constructor; [|constructor]. rewrite Hv' by apply Hsl. rewrite decide_True; [done|]. cbn. set_solver.
  - intros spec Hspec Hne. rewrite Hv' by done. rewrite decide_False; [done|]. cbn. set_solver.
Qed.

(** Mounting a blob that a source repository sees makes it visible in
    the target repository with the same size, and changes only the target's
    link. *)
Theorem repository_mount s source target d t b del :
  rinv s → supported (layerLinkPathSpec source d) → supported (layerLinkPathSpec target d) →
  supported (blobDataPathSpec d) → supported (blobDataPathSpec t) → digest_Validate d = None →
  visible (view s) [layerLinkPathSpec source d] t b → obj s (blobDataPathSpec d) = Some b →
  ∃ s' desc, lbs_mount (repository_Blobs target del) (repository_Blobs source del) d None s = (Ret desc, s') ∧ rinv s' ∧
    desc_Digest desc = d ∧ Size desc = Z.of_nat (String.length b) ∧
    lbs_Stat (repository_Blobs target del) d s' = (Ret desc, s') ∧
    ∀ spec, is_object spec = true → spec ≠ layerLinkPathSpec target d → obj s' spec = obj s spec.
Proof.
  intros Hr Hs1 Hs2 Hsd Hst Hd Hvis Hb.
  set (desc := {| Size := Z.of_nat (String.length b); MediaType := "application/octet-stream"; desc_Digest := d |}).
  destruct (linkBlob_spec s (layerLinkPathSpec target d) blobLinkPath [] target d desc Hr Hs2) as (s' & Hlink & Hr' & Hv');
    [done..|].
  exists s', desc. split_and!; try done.
  - unfold lbs_mount, mbind, gom_bind. rewrite Blobs_Stat. cbn [repository_Blobs lbs_linkPathFns lbs_name].
    rewrite (stat_visible s [layerLinkPathSpec] source d t b) by (done || by apply Forall_singleton).
    cbn [Size]. fold desc. by rewrite Hlink.
  - apply (stat_visible s' [layerLinkPathSpec] target d d b); [done|by apply Forall_singleton|done|]. split.
    + cbn [fmap list_fmap first_link]. rewrite Hv', decide_True by (done || apply Hs2). by rewrite Hd.
    + by rewrite Hv', decide_False by (done || apply Hsd).
  - intros spec Hspec Hne. rewrite Hv' by done. by rewrite decide_False.
Qed.

End properties.

(** Reading through the limited reader returns the whole content or the
    error of the limit, for every way in which the reading buffer grows; it
    never returns a truncated content. *)
Theorem readAllLimited_exact bufs content limit :
  (∀ i, 0 < bufs i) → (0 ≤ limit)%Z →
  readAllLimited bufs content limit =
    if bool_decide (Z.of_nat (String.length content) ≤ limit)%Z then Ret content else Fail errLimit.
Proof. intros Hb Hl. unfold readAllLimited. rewrite ReadAll_spec by (done || lia). by rewrite str_app_nil_l. Qed.

End BlobStore.
