(* ===== verification/Upload.v ===== *)
(** * Blob uploads

    Models registry/storage/blobwriter.go and blobwriter_resumable.go, and the
    methods of linkedblobstore.go that start and resume an upload, over any
    storage driver.  A blob writer is a part of the state of its methods, beside
    the state of the driver.

    The incremental hash is the one of github.com/opencontainers/go-digest over
    the standard library: the operations that the code calls are the fields of
    the class [GoHash], and what it relies on are the laws of [GoHashLaws].  A
    write of a driver that fails is taken to report no bytes, as the in-memory
    driver does. *)

From S2P Require Import Prelude GoStd Digest GoText Driver FileSystem Paths ObjectStore FileReader BlobStore.

(** ** Incremental hashes *)

Class GoHash {GD : GoDigest} := {
  hash : Type;
  (** [digest.Canonical.Digester()], and the state after [Reset]. *)
  hash_New : hash;
  hash_Write : hash → bytes → hash;
  hash_Digest : hash → digest;
  (** The hash implements the interfaces of the package encoding. *)
  hash_Binary : bool;
  hash_MarshalBinary : hash → outcome error bytes;
  hash_UnmarshalBinary : bytes → outcome error hash;
  digest_Canonical : string;
  (** [alg.FromBytes]. *)
  digest_AlgFromBytes : string → bytes → digest;
  (** [dgst.Verifier()], written to and asked for its verdict; it panics if the
      algorithm is not available. *)
  digest_Verified : digest → bytes → outcome error bool;
}.

Class GoHashLaws {GD : GoDigest} {GH : GoHash} : Prop := {
  hash_Write_nil h : hash_Write h "" = h;
  hash_Write_app h a b : hash_Write (hash_Write h a) b = hash_Write h (a +:+ b);
  hash_Digest_spec b : hash_Digest (hash_Write hash_New b) = digest_FromBytes b;
  hash_Digest_Algorithm h : digest_Algorithm (hash_Digest h) = digest_Canonical;
  hash_Marshal h : ∃ m, hash_MarshalBinary h = Ret m ∧ hash_UnmarshalBinary m = Ret h;
  digest_FromBytes_Canonical b : digest_FromBytes b = digest_AlgFromBytes digest_Canonical b;
  digest_Verified_spec d b : digest_Validate d = None →
    digest_Verified d b = Ret (bool_decide (d = digest_AlgFromBytes (digest_Algorithm d) b));
}.

Module Upload.
Import GoText Paths ObjectStore BlobStore.

Definition errResumableDigestNotAvailable : error := errors_New "resumable digest not available".
Definition digestSha256Empty : digest := "sha256:e3b0c44298fc1c149afbf4c8996fb92427ae41e4649b934ca495991b7852b855".

Section upload.
Context {GD : GoDigest} {GH : GoHash} {St : Type} {D : StorageDriver St}.
(** The sizes of the reads of a buffered reader, and of the buffer of [io.Copy]. *)
Context (chunk : nat → nat) (bufsize : nat).

(** The fields of a [linkedBlobStore] that only uploads use. *)
Record options := { opt_resumableDigestEnabled : bool; opt_mirrorFS : bool }.

Record blobWriter := {
  bw_blobStore : linkedBlobStore (St := St);
  bw_id : string;
  bw_startedAt : Z;
  bw_digester : hash;
  bw_written : Z;
  bw_fileWriter : drv_writer;
  bw_path : string;
  bw_resumableDigestEnabled : bool;
  bw_mirrorFS : bool;
  bw_committed : bool;
}.
Definition set_digester (h : hash) (bw : blobWriter) : blobWriter :=
  {| bw_blobStore := bw_blobStore bw; bw_id := bw_id bw; bw_startedAt := bw_startedAt bw; bw_digester := h;
     bw_written := bw_written bw; bw_fileWriter := bw_fileWriter bw; bw_path := bw_path bw;
     bw_resumableDigestEnabled := bw_resumableDigestEnabled bw; bw_mirrorFS := bw_mirrorFS bw;
     bw_committed := bw_committed bw |}.
Definition set_written (n : Z) (bw : blobWriter) : blobWriter :=
  {| bw_blobStore := bw_blobStore bw; bw_id := bw_id bw; bw_startedAt := bw_startedAt bw; bw_digester := bw_digester bw;
     bw_written := n; bw_fileWriter := bw_fileWriter bw; bw_path := bw_path bw;
     bw_resumableDigestEnabled := bw_resumableDigestEnabled bw; bw_mirrorFS := bw_mirrorFS bw;
     bw_committed := bw_committed bw |}.
Definition set_committed (bw : blobWriter) : blobWriter :=
  {| bw_blobStore := bw_blobStore bw; bw_id := bw_id bw; bw_startedAt := bw_startedAt bw; bw_digester := bw_digester bw;
     bw_written := bw_written bw; bw_fileWriter := bw_fileWriter bw; bw_path := bw_path bw;
     bw_resumableDigestEnabled := bw_resumableDigestEnabled bw; bw_mirrorFS := bw_mirrorFS bw;
     bw_committed := true |}.

(** A method of the writer. *)
Abbreviation U := (GoM (St * blobWriter) error) (only parsing).
Definition this : U blobWriter := on_snd (gets id).
Definition update (f : blobWriter → blobWriter) : U unit := on_snd (modify f).

(** A call whose only tolerated error is that there is no resumable digest. *)
Definition tolerant (m : U unit) : U unit :=
  r ← attempt m;
  match r with
  | inl err => if err_eq err errResumableDigestNotAvailable then mret tt else fail err
  | inr _ => mret tt
  end.

Definition bw_name (bw : blobWriter) : string := lbs_name (bw_blobStore bw).

(** *** blobwriter_resumable.go *)

Record hashStateEntry := { hs_offset : Z; hs_path : string }.

(** An offset that cannot be parsed is logged, and taken as [ParseInt] returns it. *)
Definition getStoredHashStates : U (list hashStateEntry) :=
  bw ← this;
  prefix ← on_fst (path_of (uploadHashStatePathSpec (bw_name bw) (bw_id bw) (digest_Algorithm (hash_Digest (bw_digester bw))) 0 true));
  r ← attempt (on_fst (drv_List prefix));
  match r with
  | inl (PathNotFoundError _ _) => mret []
  | inl err => fail err
  | inr paths => mret ((λ p, {| hs_offset := (ParseInt (path_Base p)).1; hs_path := p |}) <$> paths)
  end.

Definition resumeDigest : U unit :=
  bw ← this;
  if negb (bw_resumableDigestEnabled bw) then fail errResumableDigestNotAvailable
  else if negb hash_Binary then fail errResumableDigestNotAvailable
  else
    offset ← on_fst (wr_Size (bw_fileWriter bw));
    if (offset =? bw_written bw)%Z then mret tt
    else
      hashStates ← wrap_err (ErrWrap "unable to get stored hash states") getStoredHashStates;
      let hashStateMatch :=
        default {| hs_offset := 0; hs_path := "" |} (List.find (λ e, hs_offset e =? offset)%Z hashStates) in
      _ ← (if (hs_offset hashStateMatch =? 0)%Z then update (set_digester hash_New)
           else
             storedState ← on_fst (drv_GetContent (hs_path hashStateMatch));
             h ← lift (hash_UnmarshalBinary storedState);
             update (λ bw, set_written (hs_offset hashStateMatch) (set_digester h bw)));
      bw ← this;
      if (0 <? offset - bw_written bw)%Z then fail errResumableDigestNotAvailable else mret tt.

Definition storeHashState : U unit :=
  bw ← this;
  if negb (bw_resumableDigestEnabled bw) then fail errResumableDigestNotAvailable
  else if negb hash_Binary then fail errResumableDigestNotAvailable
  else
    state ← lift (hash_MarshalBinary (bw_digester bw));
    uploadHashStatePath ← on_fst (path_of (uploadHashStatePathSpec (bw_name bw) (bw_id bw)
      (digest_Algorithm (hash_Digest (bw_digester bw))) (bw_written bw) false));
    on_fst (drv_PutContent uploadHashStatePath state).

(** *** blobwriter.go *)

Definition Size : U Z := bw ← this; on_fst (wr_Size (bw_fileWriter bw)).

Definition Write (p : bytes) : U Z :=
  _ ← tolerant resumeDigest;
  bw ← this;
  _ ← on_fst (wr_Write (bw_fileWriter bw) p);
  let n := Z.of_nat (String.length p) in
  _ ← update (λ bw, set_written (bw_written bw + n) (set_digester (hash_Write (bw_digester bw) p) bw));
  mret n.

(** The loop of [io.Copy] from a reader that returns [reads] one after the
    other and ends with the error [err], or the end of the file, through the
    tee into the file: what was copied, and the error. *)
Fixpoint ReadFrom_loop (reads : list bytes) (err : option error) (nn : Z) : U (Z * option error) :=
  match reads with
  | [] => mret (nn, err)
  | p :: reads =>
      if bool_decide (p = "") then ReadFrom_loop reads err nn
      else
        bw ← this;
        r ← attempt (on_fst (wr_Write (bw_fileWriter bw) p));
        match r with
        | inl err => mret (nn, Some err)
        | inr _ =>
            _ ← update (λ bw, set_digester (hash_Write (bw_digester bw) p) bw);
            ReadFrom_loop reads err (nn + Z.of_nat (String.length p))%Z
        end
  end.
Definition ReadFrom (reads : list bytes) (err : option error) : U (Z * option error) :=
  r ← attempt (tolerant resumeDigest);
  match r with
  | inl err => mret (0%Z, Some err)
  | inr _ =>
      res ← ReadFrom_loop reads err 0;
      _ ← update (λ bw, set_written (bw_written bw + res.1) bw);
      mret res
  end.

Definition Close : U unit :=
  bw ← this;
  if bw_committed bw then fail (errors_New "blobwriter close after commit")
  else
    _ ← tolerant storeHashState;
    bw ← this;
    on_fst (wr_Close (bw_fileWriter bw)).

(** The content that [io.Copy] reads from a fresh reader of the file: it makes
    one read more than there are bytes at most. *)
Definition read_back (path : string) (size : Z) : GoM St error bytes := λ s,
  let '(o, (s, _)) := FileReader.Copy chunk (Z.to_nat size + 1) bufsize "" (s, FileReader.newFileReader path size) in (o, s).

(** The canonical digest of the content and whether [dgst] is a digest of it,
    the second half of [validateBlob].  The tee hashes what is read. *)
Definition verifyDigest (dgst : digest) (descSize size : Z) : U (digest * bool) :=
  r ← attempt resumeDigest;
  bw ← this;
  v ← match r with
      | inr _ =>
          let canonical := hash_Digest (bw_digester bw) in
          if bool_decide (digest_Algorithm canonical = digest_Algorithm dgst)
          then mret (canonical, bool_decide (dgst = canonical), false)
          else mret (canonical, false, true)
      | inl err =>
          if err_eq err errResumableDigestNotAvailable then mret ("", false, true) else fail err
      end;
  let '(canonical, verified, fullHash) := v in
  if negb fullHash then mret (canonical, verified)
  else
    let '(canonical, verified) :=
      if (bw_written bw =? size)%Z && bool_decide (digest_Canonical = digest_Algorithm dgst)
      then (hash_Digest (bw_digester bw), bool_decide (dgst = hash_Digest (bw_digester bw)))
      else (canonical, verified) in
    if (verified : bool) then mret (canonical, verified)
    else
      content ← on_fst (read_back (bw_path bw) descSize);
      verified ← lift (digest_Verified dgst content);
      mret (hash_Digest (hash_Write hash_New content), verified).

Definition validateBlob (desc : Descriptor) : U Descriptor :=
  let dgst := desc_Digest desc in
  if bool_decide (dgst = "")
  then fail (ErrBlobInvalidDigest "" (errors_New "cannot validate against empty digest"))
  else
    bw ← this;
    st ← attempt (on_fst (drv_Stat (bw_path bw)));
    sizes ← match st with
            | inl (PathNotFoundError _ _) => mret (0, 0)%Z
            | inl err => fail err
            | inr fi =>
                if fi_IsDir fi then fail (errors_New "unexpected directory at upload location")
                else mret (BlobStore.Size desc, fi_Size fi)
            end;
    let '(descSize, size) := sizes in
    descSize ← (if (0 <? descSize)%Z
                then if negb (descSize =? size)%Z then fail ErrBlobInvalidLength else mret descSize
                else mret size);
    v ← verifyDigest dgst descSize size;
    let '(canonical, verified) := v in
    if negb verified then fail (ErrBlobInvalidDigest dgst (errors_New "content does not match digest"))
    else mret {| MediaType := if bool_decide (MediaType desc = "") then "application/octet-stream" else MediaType desc;
                 BlobStore.Size := descSize; desc_Digest := canonical |}.

Definition moveBlob (desc : Descriptor) : U unit :=
  blobPath ← on_fst (path_of (blobDataPathSpec (desc_Digest desc)));
  r ← attempt (on_fst (drv_Stat blobPath));
  match r with
  | inr _ => mret tt
  | inl (PathNotFoundError _ _) =>
      bw ← this;
      r ← attempt (on_fst (drv_Stat (bw_path bw)));
      match r with
      | inl (PathNotFoundError _ _) =>
          if bool_decide (desc_Digest desc = digestSha256Empty) then on_fst (drv_PutContent blobPath "")
          else on_fst (drv_Move (bw_path bw) blobPath)
      | inl err => fail err
      | inr _ => on_fst (drv_Move (bw_path bw) blobPath)
      end
  | inl err => fail err
  end.

Definition removeResources : U unit :=
  bw ← this;
  dataPath ← on_fst (path_of (uploadDataPathSpec (bw_name bw) (bw_id bw)));
  let dirPath := path_Dir dataPath in
  r ← attempt (on_fst (drv_Delete dirPath));
  match r with
  | inl (PathNotFoundError _ _) | inr _ => mret tt
  | inl err => fail err
  end.

Definition Commit (desc : Descriptor) : U Descriptor :=
  bw ← this;
  _ ← on_fst (wr_Commit (bw_fileWriter bw));
  _ ← attempt Close;
  size ← Size;
  let desc := {| MediaType := MediaType desc; BlobStore.Size := size; desc_Digest := desc_Digest desc |} in
  canonical ← validateBlob desc;
  _ ← moveBlob canonical;
  bw ← this;
  let lbs := bw_blobStore bw in
  _ ← (if bw_mirrorFS bw
       then on_fst (linkBlob (lbs_linkPathFns lbs) (lbs_name lbs) canonical [desc_Digest desc])
       else mret tt);
  _ ← removeResources;
  _ ← on_fst (linkedBlobStatter_SetDescriptor (desc_Digest canonical) canonical);
  _ ← update set_committed;
  mret canonical.

Definition Cancel : U unit :=
  bw ← this;
  _ ← on_fst (wr_Cancel (bw_fileWriter bw));
  _ ← attempt Close;
  removeResources.

(** [Reader]: up to five attempts to find the file. *)
Fixpoint Reader_wait (tries : nat) : U unit :=
  match tries with
  | 0 => mret tt
  | S tries =>
      bw ← this;
      r ← attempt (on_fst (drv_Stat (bw_path bw)));
      match r with
      | inr _ => mret tt
      | inl (PathNotFoundError _ _) => Reader_wait tries
      | inl err => fail err
      end
  end.
Definition Reader : U drv_reader :=
  _ ← Reader_wait 5;
  bw ← this;
  on_fst (drv_Reader (bw_path bw) 0).

(** *** linkedblobstore.go *)

Definition newBlobUpload (lbs : linkedBlobStore) (opts : options) (uuid path : string) (startedAt : Z) (append : bool) :
    GoM St error blobWriter :=
  fw ← drv_Writer path append;
  mret {| bw_blobStore := lbs; bw_id := uuid; bw_startedAt := startedAt; bw_digester := hash_New; bw_written := 0;
          bw_fileWriter := fw; bw_path := path; bw_resumableDigestEnabled := opt_resumableDigestEnabled opts;
          bw_mirrorFS := opt_mirrorFS opts; bw_committed := false |}.

(** [Create]: [mount] is the option to mount a blob of another repository; a
    mounted blob is reported by its descriptor in place of a writer. *)
Definition Create (lbs : linkedBlobStore) (opts : options) (mount : option (linkedBlobStore * digest * option Descriptor))
    (uuid : string) (now : Z) : GoM St error (Descriptor + blobWriter) :=
  mounted ← match mount with
            | None => mret None
            | Some (source, dgst, stat) =>
                r ← attempt (lbs_mount lbs source dgst stat);
                mret (match r with inr desc => Some desc | inl _ => None end)
            end;
  match mounted with
  | Some desc => mret (inl desc)
  | None =>
      path ← path_of (uploadDataPathSpec (lbs_name lbs) uuid);
      startedAtPath ← path_of (uploadStartedAtPathSpec (lbs_name lbs) uuid);
      _ ← drv_PutContent startedAtPath (Format now);
      bw ← newBlobUpload lbs opts uuid path now false;
      mret (inr bw)
  end.

Definition Resume (lbs : linkedBlobStore) (opts : options) (id : string) : GoM St error blobWriter :=
  startedAtPath ← path_of (uploadStartedAtPathSpec (lbs_name lbs) id);
  r ← attempt (drv_GetContent startedAtPath);
  match r with
  | inl (PathNotFoundError _ _) => fail ErrBlobUploadUnknown
  | inl err => fail err
  | inr startedAtBytes =>
      match Parse startedAtBytes with
      | None => fail (errors_New "parsing time")
      | Some startedAt =>
          path ← path_of (uploadDataPathSpec (lbs_name lbs) id);
          newBlobUpload lbs opts id path startedAt true
      end
  end.
End upload.
End Upload.
