(* ===== verification/UploadSpec.v ===== *)
(** * What an upload does to the registry

    The invariant of an upload: the bytes that were written are in its data
    file, and every hash state that is stored for it is one from which the hash
    of the whole content can be taken up.  Each method of the writer keeps it;
    committing with the digest of the content stores the content under its
    digest and links it into the repository, and any other digest is refused. *)

From stdpp Require Import pretty.
From S2P Require Import Prelude GoStd Digest GoText Driver FileSystem Paths ObjectStore FileReader BlobStore Upload.

Module UploadSpec.
Import GoText Paths ObjectStore BlobStore Upload.

(** ** The objects of an upload *)

Section objects.
Context {GD : GoDigest} {GDL : GoDigestLaws} {GH : GoHash} {GHL : GoHashLaws}.

Definition state (name id : string) (o : Z) : pathSpec := uploadHashStatePathSpec name id digest_Canonical o false.
Definition upload_dir (name id : string) : fpath := repos name ++ ["_uploads"; id].
Definition states_dir (name id : string) : fpath := repos name ++ ["_uploads"; id; "hashstates"; digest_Canonical].

Definition of_upload (name id : string) (spec : pathSpec) : bool :=
  match spec with
  | uploadDataPathSpec n i | uploadStartedAtPathSpec n i | uploadHashStatePathSpec n i _ _ _ =>
      bool_decide (n = name) && bool_decide (i = id)
  | _ => false
  end.

Lemma state_layout name id o : layout (state name id o) = states_dir name id ++ [pretty o].
Proof. unfold states_dir. cbn [state layout]. by rewrite <-app_assoc. Qed.

(** An object below a directory of a repository. *)
Lemma object_below spec name t r :
  is_object spec = true → safe_name name = true → marked t = true → t ≠ [] → layout spec = (repos name ++ t) ++ r →
  below spec = (Some name, t ++ r).
Proof.
  intros Ho Hn Hm Ht Hl. apply is_object_safe in Ho as [Hs _]. rewrite layout_below in Hl.
  destruct (below spec) as [[n|] u] eqn:Hb.
  - destruct (below_marked _ _ _ Hb Hs) as [Hu Hn']. rewrite <-app_assoc in Hl.
    apply repos_inj in Hl as [-> ->]; [done..| |]; [done|]. by destruct t.
  - exfalso. apply (below_repos _ name _ Hb Hn (t ++ r)). by rewrite Hl, app_assoc.
Qed.

Lemma upload_dir_objects name id spec :
  is_object spec = true → safe_name name = true →
  upload_dir name id `prefix_of` layout spec ↔ of_upload name id spec = true.
Proof.
  intros Ho Hn. split.
  - intros [r Hr]. apply object_below in Hr; try done. unfold is_object in Ho. breflect.
    destruct spec; simplify_eq/=; try done; by rewrite !bool_decide_true.
  - intros Hu. destruct spec; try done; cbn [of_upload] in Hu; breflect; subst; unfold upload_dir; cbn [layout].
    + exists ["data"]. by rewrite <-app_assoc.
    + exists ["startedat"]. by rewrite <-app_assoc.
    + eexists. rewrite <-app_assoc. done.
Qed.
Lemma states_dir_objects name id spec x r :
  is_object spec = true → safe_name name = true → layout spec = (states_dir name id ++ [x]) ++ r →
  ∃ o, spec = state name id o ∧ x = pretty o ∧ r = [].
Proof.
  intros Ho Hn Hl. unfold states_dir in Hl. rewrite <-(app_assoc (repos name)) in Hl.
  apply object_below in Hl; try done. unfold is_object in Ho. breflect.
  destruct spec; simplify_eq/=; try done. destruct lst; [done|]. simplify_eq/=. by eexists.
Qed.
(** The way to an object is free. *)
Lemma prefix_not_blocked v spec ks :
  registry_fs v → is_object spec = true → ks `prefix_of` layout spec → ¬ blocked v ks.
Proof.
  intros Hv Ho Hp (q & [Hq Hne] & Hf). apply (registry_not_blocked v spec Hv Ho). exists q. split; [|done].
  split; [by etrans|]. intros ->. apply Hne. by apply (anti_symm prefix).
Qed.
(** The text of a number does not start with a letter. *)
Lemma letter_not_pretty c s (o : Z) : is_lower c = true → String c s ≠ pretty o.
Proof.
  intros Hc. destruct o as [|p|p]; [by intros [= -> _]| |by intros [= -> _]].
  change (pretty (Z.pos p)) with (pretty_N_go (N.pos p) "").
  destruct (pretty_N_go_head (N.pos p) "") as (c' & s' & -> & Hc' & _); [lia|]. intros [= -> _].
  by destruct c' as [[] [] [] [] [] [] [] []].
Qed.
Lemma Canonical_safe : safe_comp digest_Canonical = true.
Proof.
  rewrite <-(hash_Digest_Algorithm (hash_Write hash_New "")), hash_Digest_spec. apply safe_Algorithm.
  unfold valid. by rewrite digest_FromBytes_valid.
Qed.
Lemma pathFor_states name id :
  safe_name name = true → safe_comp id = true →
  pathFor (uploadHashStatePathSpec name id digest_Canonical 0 true) = Ret (abspath (states_dir name id)).
Proof.
  intros Hn Hid. rewrite pathFor_layout; [done|]. cbn [safe]. by rewrite Hn, Hid, Canonical_safe.
Qed.
End objects.

Section spec.
Context {GD : GoDigest} {GDL : GoDigestLaws} {GH : GoHash} {GHL : GoHashLaws}.
Context {St : Type} {D : StorageDriver St} {view : St → fs} {inv : St → Prop} {ok : fpath → Prop}.
Context {L : DriverLaws D view inv ok} {opened : St → drv_writer → fpath → bytes → wstate → Prop}.
Context {WL : WriterLaws D view inv ok opened}.

Abbreviation rinv := (ObjectStore.rinv (view := view) (inv := inv)).
Abbreviation supported := (ObjectStore.supported (ok := ok)).
Abbreviation obj s := (object (view s)).
Abbreviation len b := (Z.of_nat (String.length b)).
Abbreviation H b := (hash_Write hash_New b).

(** The paths of the upload are ones the driver supports. *)
Record upload_paths (name id : string) : Prop := {
  up_data : supported (uploadDataPathSpec name id);
  up_started : supported (uploadStartedAtPathSpec name id);
  up_state o : (0 ≤ o)%Z → supported (state name id o);
  up_dir : ok (upload_dir name id);
  up_states : ok (states_dir name id);
}.
Lemma up_names name id : upload_paths name id → safe_name name = true ∧ safe_comp id = true.
Proof.
  intros Hp. destruct (up_data _ _ Hp) as [Ho _]. apply is_object_safe in Ho as [Hs _]. cbn [safe] in Hs. by breflect.
Qed.

(** A stored hash state that is at the end of the content [b] is the state of
    the hash of [b]; the others are before it. *)
Definition states_ok (s : St) (name id : string) (b : bytes) : Prop := ∀ o c,
  is_object (state name id o) = true → obj s (state name id o) = Some c →
  (0 ≤ o ≤ len b)%Z ∧ (o = len b → hash_UnmarshalBinary c = Ret (H b)).

(** What an upload with the content [b] has in the storage. *)
Record persisted (s : St) (name id : string) (b : bytes) : Prop := {
  ps_rinv : rinv s;
  ps_paths : upload_paths name id;
  ps_data : obj s (uploadDataPathSpec name id) = Some b;
  ps_started : ∃ c t, obj s (uploadStartedAtPathSpec name id) = Some c ∧ Parse c = Some t;
  ps_states : states_ok s name id b;
}.

(** A writer of the upload, in the state [st]. *)
Record writing (s : St) (bw : blobWriter) (b : bytes) (st : wstate) : Prop := {
  wr_persisted : persisted s (bw_name bw) (bw_id bw) b;
  wr_opened : opened s (bw_fileWriter bw) (layout (uploadDataPathSpec (bw_name bw) (bw_id bw))) b st;
  wr_path : bw_path bw = abspath (layout (uploadDataPathSpec (bw_name bw) (bw_id bw)));
  wr_written : (0 ≤ bw_written bw ≤ len b)%Z;
  wr_hash : bw_written bw = len b → bw_digester bw = H b;
}.

Lemma this_bind {A} (k : blobWriter → GoM (St * blobWriter) error A) s bw : (this ≫= k) (s, bw) = k bw (s, bw).
Proof. done. Qed.
Lemma find_Some_eq {A} f (l : list A) x : List.find f l = Some x → x ∈ l ∧ f x = true.
Proof. intros [H1 H2]%find_some. split; [by apply list_elem_of_In|done]. Qed.

(** The offsets of the hash states that are stored. *)
Lemma getStoredHashStates_spec s (bw : blobWriter) b :
  persisted s (bw_name bw) (bw_id bw) b → (len b < 2 ^ 63)%Z →
  ∃ es, getStoredHashStates (s, bw) = (Ret es, (s, bw)) ∧
    ∀ e, e ∈ es → ∃ o, hs_offset e = o ∧ hs_path e = abspath (layout (state (bw_name bw) (bw_id bw) o)) ∧
      supported (state (bw_name bw) (bw_id bw) o) ∧ is_Some (obj s (state (bw_name bw) (bw_id bw) o)).
Proof.
  intros [[Hi Hr] Hp Hd _ Hst] Hlen. destruct (up_names _ _ Hp) as [Hn Hid]. unfold getStoredHashStates, this.
  set (name := bw_name bw) in *. set (id := bw_id bw) in *. set (dir := states_dir name id).
  rewrite (bind_Ret _ _ _ bw (s, bw)) by done. fold name id. rewrite hash_Digest_Algorithm.
  rewrite (bind_Ret _ _ _ (abspath dir) (s, bw)).
  2: { unfold on_fst, path_of, lift. rewrite pathFor_states by done. done. }
  assert (∀ x, is_Some (view s (dir ++ [x])) → ∃ o, x = pretty o ∧ supported (state name id o) ∧
    is_Some (obj s (state name id o)) ∧ (0 ≤ o ≤ len b)%Z) as Hx.
  { intros x [e He]. destruct (Hr _ _ He) as (spec & r & Ho & Hl & Hre).
    destruct (states_dir_objects name id spec x r Ho Hn Hl) as (o & -> & -> & ->). destruct e as [c|]; [|done].
    assert (obj s (state name id o) = Some c) as Hc by (unfold object; rewrite Hl, app_nil_r, He; done).
    exists o. destruct (Hst o c Ho Hc) as [Hb _]. split_and!; [done| |by eexists|lia..]. apply up_state; [done|lia]. }
  destruct (view s dir) as [e|] eqn:He.
  - assert (e = EDir) as ->.
    { destruct e as [c|]; [|done]. destruct (Hr _ _ He) as (spec & r & Ho & Hl & ->).
      unfold dir, states_dir in Hl. apply object_below in Hl; try done. unfold is_object in Ho. breflect.
      destruct spec; simplify_eq/=; try done. by destruct lst. }
    destruct (law_list_names s dir Hi) as (names & Hl & _ & Hc); [apply up_states, Hp|done| |].
    { intros k [= <-]. destruct (view s (dir ++ ["docker"])) as [e|] eqn:Hk; [|done].
      destruct (Hx "docker") as (o & Ho & _); [by eexists|]. by apply letter_not_pretty in Ho. }
    eexists. split.
    { unfold attempt, on_fst, mbind, gom_bind. cbn [fst snd]. rewrite Hl. reflexivity. }
    intros e (p & -> & (x & -> & Hin)%list_elem_of_fmap)%list_elem_of_fmap. apply Hc, Hx in Hin as (o & -> & Hs & Ho & Hb).
    exists o. cbn [hs_offset hs_path]. split_and!; [|by rewrite state_layout|done..].
    rewrite path_Base_abspath by (apply safe_good, safe_offset). by rewrite ParseInt_pretty by lia.
  - exists []. split; [|set_solver].
    destruct (law_list_missing s dir Hi) as [n Hl]; [apply up_states, Hp|done| |].
    { apply (prefix_not_blocked _ (state name id 0)); [done|apply up_state; [done|lia]|].
      exists [pretty 0%Z]. by rewrite state_layout. }
    unfold attempt, on_fst, mbind, gom_bind. cbn [fst snd]. by rewrite Hl.
Qed.

(** Only the hash and its offset have changed. *)
Definition same_upload (bw bw' : blobWriter (St := St)) : Prop :=
  bw' = set_written (bw_written bw') (set_digester (bw_digester bw') bw).
Lemma same_upload_fields bw bw' : same_upload bw bw' →
  bw_name bw' = bw_name bw ∧ bw_id bw' = bw_id bw ∧ bw_path bw' = bw_path bw ∧ bw_fileWriter bw' = bw_fileWriter bw ∧
  bw_committed bw' = bw_committed bw ∧ bw_mirrorFS bw' = bw_mirrorFS bw ∧ bw_blobStore bw' = bw_blobStore bw ∧
  bw_resumableDigestEnabled bw' = bw_resumableDigestEnabled bw.
Proof. intros ->. by split_and!. Qed.
Lemma same_upload_refl bw : same_upload bw bw.
Proof. by destruct bw. Qed.
Lemma same_upload_trans bw1 bw2 bw3 : same_upload bw1 bw2 → same_upload bw2 bw3 → same_upload bw1 bw3.
Proof. unfold same_upload. intros -> ->. done. Qed.

Lemma writing_update s bw b st n h :
  writing s bw b st → (0 ≤ n ≤ len b)%Z → (n = len b → h = H b) →
  writing s (set_written n (set_digester h bw)) b st.
Proof. intros [Hp Ho Hpa _ _] Hn Hh. by constructor. Qed.

(** Taking up the hash: it is at the end of the content, or not available. *)
Lemma resumeDigest_spec s bw b st :
  writing s bw b st → has_file st = true → (len b < 2 ^ 63)%Z →
  ∃ r bw', resumeDigest (s, bw) = (r, (s, bw')) ∧ same_upload bw bw' ∧ writing s bw' b st ∧
    (r = Ret tt ∧ bw_written bw' = len b ∨ r = Fail errResumableDigestNotAvailable).
Proof.
  intros Hw Hst Hlen. pose proof Hw as [Hp Ho Hpa Hwr Hh]. unfold resumeDigest.
  rewrite this_bind.
  destruct (negb (bw_resumableDigestEnabled bw)); [by eexists _, bw; split_and!; eauto using same_upload_refl|].
  destruct (negb hash_Binary); [by eexists _, bw; split_and!; eauto using same_upload_refl|].
  rewrite (bind_Ret _ _ _ (len b) (s, bw)).
  2: { unfold on_fst. cbn [fst snd]. by rewrite (wlaw_size s _ _ b st (proj1 (ps_rinv _ _ _ _ Hp)) Ho Hst). }
  destruct (Z.eqb_spec (len b) (bw_written bw)) as [Heq|Hne].
  { eexists _, bw. split_and!; [done|apply same_upload_refl|done|]. left. split; [done|lia]. }
  destruct (getStoredHashStates_spec s bw b Hp Hlen) as (es & Hes & Hin).
  rewrite (bind_Ret _ _ _ es (s, bw)) by (unfold wrap_err; by rewrite Hes).
  destruct (List.find _ es) as [e|] eqn:Hf; cbn [from_option id].
  - apply find_Some_eq in Hf as [Hine Hoff%Z.eqb_eq]. destruct (Hin e Hine) as (o & He & Hpath & Hs & [c Hc]).
    assert (o = len b) as -> by congruence. destruct (ps_states _ _ _ _ Hp _ c (proj1 Hs) Hc) as [_ Hun].
    rewrite Hoff, (proj2 (Z.eqb_neq (len b) 0)) by lia.
    eexists _, (set_written (len b) (set_digester (H b) bw)). split_and!; [|done|by apply writing_update; [|lia|]|by left].
    rewrite (bind_Ret _ _ _ tt (s, set_written (len b) (set_digester (H b) bw))).
    + rewrite this_bind. cbn [bw_written set_written]. by rewrite Z.sub_diag.
    + unfold on_fst, lift, update, on_snd, mbind, gom_bind. cbn [fst snd].
      rewrite Hpath, (get_object s _ c (ps_rinv _ _ _ _ Hp) Hs Hc). by rewrite Hun.
  - cbn [hs_offset Z.eqb]. eexists _, (set_digester hash_New bw).
    split_and!; [|by destruct bw|by apply (writing_update s bw b st (bw_written bw)); [|lia..]|by right].
    rewrite (bind_Ret _ _ _ tt (s, set_digester hash_New bw)) by done. rewrite this_bind. cbn [bw_written set_digester].
    by rewrite (proj2 (Z.ltb_lt _ _)) by lia.
Qed.
Lemma tolerant_resume s bw b st :
  writing s bw b st → has_file st = true → (len b < 2 ^ 63)%Z →
  ∃ bw', tolerant resumeDigest (s, bw) = (Ret tt, (s, bw')) ∧ same_upload bw bw' ∧ writing s bw' b st.
Proof.
  intros Hw Hst Hlen. destruct (resumeDigest_spec s bw b st Hw Hst Hlen) as (r & bw' & Hr & Hs & Hw' & Hc).
  exists bw'. split_and!; try done. unfold tolerant, attempt, mbind, gom_bind. rewrite Hr.
  by destruct Hc as [[-> _]| ->].
Qed.

(** ** Writing *)

(** The objects of the upload decide what an upload has in the storage. *)
Lemma persisted_frame s s' name id b :
  persisted s name id b → rinv s' →
  (∀ spec, is_object spec = true → of_upload name id spec = true → obj s' spec = obj s spec) →
  persisted s' name id b.
Proof.
  intros [Hr Hp Hd Hst Hss] Hr' Hf.
  assert (∀ n i, n = name → i = id → bool_decide (n = name) && bool_decide (i = id) = true) as Hu
    by (intros; by rewrite !bool_decide_true).
  constructor; try done.
  - rewrite Hf; [done|apply Hp|by apply Hu].
  - rewrite Hf; [done|apply Hp|by apply Hu].
  - intros o c Ho. rewrite Hf; [by apply Hss|done|by apply Hu].
Qed.

(** More bytes in the data file. *)
Lemma writing_append s s' bw b p :
  writing s bw b WOpen → inv s' →
  opened s' (bw_fileWriter bw) (layout (uploadDataPathSpec (bw_name bw) (bw_id bw))) (b +:+ p) WOpen →
  (∀ q, view s' q = if decide (q = layout (uploadDataPathSpec (bw_name bw) (bw_id bw))) then Some (EFile (b +:+ p)) else view s q) →
  (bw_written bw = len b → bw_digester bw = H b) →
  writing s' (set_written (bw_written bw + len p) (set_digester (hash_Write (bw_digester bw) p) bw)) (b +:+ p) WOpen ∧
  ∀ spec, is_object spec = true → spec ≠ uploadDataPathSpec (bw_name bw) (bw_id bw) → obj s' spec = obj s spec.
Proof.
  intros [[[Hi Hr] Hp Hd Hst Hss] Ho Hpa Hwr _] Hi' Ho' Hv Hh.
  set (data := uploadDataPathSpec (bw_name bw) (bw_id bw)) in *. pose proof (up_data _ _ Hp) as [Hdo _]. fold data in Hdo.
  assert (∀ spec, is_object spec = true → obj s' spec = if decide (spec = data) then Some (b +:+ p) else obj s spec) as Hobj.
  { intros spec Hspec. unfold object. rewrite Hv. destruct (decide (spec = data)) as [->|Hne]; [by rewrite decide_True|].
    rewrite decide_False; [done|]. intros Hl. apply Hne, object_prefix; [done..|]. by rewrite Hl. }
  split; [|intros spec Hspec Hne; by rewrite Hobj, decide_False].
  constructor; try done; cbn.
  - constructor; try done.
    + split; [done|]. intros ks e. rewrite Hv. case_decide as Hk; [|apply Hr]. intros [= <-]. subst ks.
      exists data, []. by rewrite app_nil_r.
    + by rewrite Hobj, decide_True.
    + destruct Hst as (c & t & Hc & Ht). exists c, t. rewrite Hobj, decide_False by (done || apply Hp). done.
    + intros o c Hoo. rewrite Hobj, decide_False by done. intros Hc. destruct (Hss o c Hoo Hc) as [Hb Hun].
      rewrite str_length_app. split; [lia|]. intros Heq. destruct (decide (p = "")) as [->|Hpne].
      * rewrite str_app_nil_r. apply Hun. cbn in Heq. lia.
      * exfalso. assert (0 < String.length p) by (destruct p; [done|cbn; lia]). lia.
  - rewrite str_length_app. lia.
  - rewrite str_length_app. intros Heq. rewrite Hh by lia. by rewrite hash_Write_app.
Qed.

Lemma blob_Write_spec s bw b p :
  writing s bw b WOpen → (len b < 2 ^ 63)%Z →
  ∃ s' bw', Write p (s, bw) = (Ret (len p), (s', bw')) ∧ same_upload bw bw' ∧ writing s' bw' (b +:+ p) WOpen ∧
    ∀ spec, is_object spec = true → spec ≠ uploadDataPathSpec (bw_name bw) (bw_id bw) → obj s' spec = obj s spec.
Proof.
  intros Hw Hlen. destruct (tolerant_resume s bw b WOpen Hw) as (bw1 & H1 & Hs1 & Hw1); [done..|].
  destruct (same_upload_fields _ _ Hs1) as (Hn & Hid & _ & _).
  destruct (wlaw_write s (bw_fileWriter bw1) _ b p (proj1 (ps_rinv _ _ _ _ (wr_persisted _ _ _ _ Hw1))) (wr_opened _ _ _ _ Hw1))
    as (s' & H2 & Hi' & Ho' & Hv').
  destruct (writing_append s s' bw1 b p Hw1 Hi' Ho' Hv' (wr_hash _ _ _ _ Hw1)) as [Hw' Hf].
  eexists s', _. split_and!; [|eapply same_upload_trans; [exact Hs1|]|exact Hw'|by rewrite <-Hn, <-Hid].
  - unfold Write. rewrite (bind_Ret _ _ _ _ _ H1). rewrite this_bind.
    rewrite (bind_Ret _ _ _ (len p) (s', bw1)) by (unfold on_fst; cbn [fst snd]; by rewrite H2). done.
  - by destruct bw1.
Qed.

Definition joined (reads : list bytes) : bytes := foldr String.append "" reads.

Lemma ReadFrom_loop_spec reads err nn s bw ks c :
  inv s → opened s (bw_fileWriter bw) ks c WOpen →
  ∃ s', ReadFrom_loop reads err nn (s, bw) =
      (Ret ((nn + len (joined reads))%Z, err), (s', set_digester (hash_Write (bw_digester bw) (joined reads)) bw)) ∧
    inv s' ∧ opened s' (bw_fileWriter bw) ks (c +:+ joined reads) WOpen ∧
    ∀ q, view s' q = if decide (q = ks) then Some (EFile (c +:+ joined reads)) else view s q.
Proof.
  revert nn s bw c. induction reads as [|p reads IH]; intros nn s bw c Hi Ho; cbn [ReadFrom_loop joined foldr].
  - exists s. rewrite str_app_nil_r, hash_Write_nil. cbn [String.length Z.of_nat]. rewrite Z.add_0_r.
    split_and!; [by destruct bw|done|done|]. intros q. case_decide; [subst q; by eapply (wlaw_view s (bw_fileWriter bw) ks c WOpen)|done].
  - fold (joined reads). case_bool_decide as Hpe.
    { subst p. rewrite str_app_nil_l. by apply IH. }
    destruct (wlaw_write s (bw_fileWriter bw) ks c p Hi Ho) as (s1 & H1 & Hi1 & Ho1 & Hv1).
    set (bw1 := set_digester (hash_Write (bw_digester bw) p) bw).
    destruct (IH (nn + len p)%Z s1 bw1 (c +:+ p) Hi1 Ho1) as (s2 & H2 & Hi2 & Ho2 & Hv2). exists s2.
    rewrite <-str_app_assoc in Ho2. split_and!; [|done|exact Ho2|].
    + rewrite this_bind. rewrite (bind_Ret _ _ _ (inr (len p)) (s1, bw)).
      2: { unfold attempt, on_fst. cbn [fst snd]. by rewrite H1. }
      rewrite (bind_Ret _ _ _ tt (s1, bw1)) by done. rewrite H2. cbn [bw_digester bw1 set_digester].
      rewrite hash_Write_app, str_length_app. do 3 f_equal. lia.
    + intros q. rewrite Hv2, Hv1, <-str_app_assoc. by case_decide.
Qed.

(** Reading from a request writes all that it returns. *)
Lemma ReadFrom_spec s bw b reads err :
  writing s bw b WOpen → (len b < 2 ^ 63)%Z →
  ∃ s' bw', ReadFrom reads err (s, bw) = (Ret (len (joined reads), err), (s', bw')) ∧ same_upload bw bw' ∧
    writing s' bw' (b +:+ joined reads) WOpen ∧
    ∀ spec, is_object spec = true → spec ≠ uploadDataPathSpec (bw_name bw) (bw_id bw) → obj s' spec = obj s spec.
Proof.
  intros Hw Hlen. destruct (tolerant_resume s bw b WOpen Hw) as (bw1 & H1 & Hs1 & Hw1); [done..|].
  destruct (same_upload_fields _ _ Hs1) as (Hn & Hid & _ & _). set (p := joined reads).
  destruct (ReadFrom_loop_spec reads err 0 s bw1 _ b (proj1 (ps_rinv _ _ _ _ (wr_persisted _ _ _ _ Hw1))) (wr_opened _ _ _ _ Hw1))
    as (s' & H2 & Hi' & Ho' & Hv'). fold p in H2, Ho', Hv'.
  destruct (writing_append s s' bw1 b p Hw1 Hi' Ho' Hv' (wr_hash _ _ _ _ Hw1)) as [Hw' Hf].
  eexists s', _. split_and!; [|eapply same_upload_trans; [exact Hs1|]|exact Hw'|by rewrite <-Hn, <-Hid].
  - unfold ReadFrom. rewrite (bind_Ret _ _ _ (inr tt) (s, bw1)) by (unfold attempt; by rewrite H1).
    rewrite (bind_Ret _ _ _ _ _ H2). done.
  - by destruct bw1.
Qed.

(** ** Closing *)

(** Nothing but the hash states of the upload changes. *)
Definition same_but_states (s s' : St) (name id : string) : Prop := ∀ spec, is_object spec = true →
  (∀ o, spec ≠ state name id o) → obj s' spec = obj s spec.

(** Storing the hash state: nothing, or one object. *)
Definition stores (bw : blobWriter (St := St)) : bool := bw_resumableDigestEnabled bw && hash_Binary.
Lemma storeHashState_cases s bw :
  rinv s → upload_paths (bw_name bw) (bw_id bw) → (0 ≤ bw_written bw)%Z →
  ∃ s', tolerant storeHashState (s, bw) = (Ret tt, (s', bw)) ∧ rinv s' ∧
    if stores bw
    then ∃ c, hash_UnmarshalBinary c = Ret (bw_digester bw) ∧
      drv_PutContent (abspath (layout (state (bw_name bw) (bw_id bw) (bw_written bw)))) c s = (Ret tt, s') ∧
      (∀ spec, is_object spec = true → obj s' spec =
        if decide (spec = state (bw_name bw) (bw_id bw) (bw_written bw)) then Some c else obj s spec)
    else s' = s.
Proof.
  intros Hr Hp Hwr. unfold tolerant, storeHashState, attempt, stores. unfold mbind at 1, gom_bind at 1. rewrite this_bind.
  destruct (bw_resumableDigestEnabled bw && hash_Binary) eqn:He; cycle 1.
  { exists s. split; [|done]. apply andb_false_iff in He as [->| ->]; [done|]. by destruct (negb (bw_resumableDigestEnabled bw)). }
  apply andb_true_iff in He as [-> ->]. destruct (hash_Marshal (bw_digester bw)) as (c & Hm & Hun).
  destruct (up_state _ _ Hp (bw_written bw)) as [Hso Hsk]; [lia|].
  destruct (put_object s _ c Hr (conj Hso Hsk)) as (s' & Hput & Hr' & _ & Hobj).
  exists s'. split_and!; [|done|by exists c]. cbn [negb]. rewrite (bind_Ret _ _ _ c (s, bw)) by (unfold lift; by rewrite Hm).
  rewrite (bind_Ret _ _ _ (abspath (layout (state (bw_name bw) (bw_id bw) (bw_written bw)))) (s, bw)).
  2: { rewrite hash_Digest_Algorithm. unfold on_fst. cbn [fst snd]. by rewrite path_of_spec. }
  unfold on_fst. cbn [fst snd]. by rewrite Hput.
Qed.
(** A writer stays open while the hash state is stored. *)
Lemma storeHashState_opened s bw s' w b st :
  rinv s → upload_paths (bw_name bw) (bw_id bw) → (0 ≤ bw_written bw)%Z →
  opened s w (layout (uploadDataPathSpec (bw_name bw) (bw_id bw))) b st →
  tolerant storeHashState (s, bw) = (Ret tt, (s', bw)) →
  opened s' w (layout (uploadDataPathSpec (bw_name bw) (bw_id bw))) b st.
Proof.
  intros Hr Hpp Hwr Ho H1. destruct (storeHashState_cases s bw Hr Hpp Hwr) as (s1 & H1' & _ & Hc).
  rewrite H1 in H1'. injection H1' as <-. destruct (stores bw); [|by subst s']. destruct Hc as (c & _ & Hput & _).
  destruct (up_state _ _ Hpp (bw_written bw)) as [Hso Hsk]; [lia|]. pose proof (is_object_safe _ Hso) as [Hs1 Hs2].
  pose proof (is_object_safe _ (proj1 (up_data _ _ Hpp))) as [Hd1 Hd2].
  eapply wlaw_put; [apply Hr|exact Ho|exact Hsk|..|exact Hput].
  - intros Heq. by apply layout_inj in Heq.
  - apply registry_not_dir; [apply Hr|done].
  - apply registry_not_blocked; [apply Hr|done].
Qed.
Lemma writing_put_state s bw b st c s' :
  writing s bw b st → (bw_written bw = len b → hash_UnmarshalBinary c = Ret (H b)) → rinv s' →
  opened s' (bw_fileWriter bw) (layout (uploadDataPathSpec (bw_name bw) (bw_id bw))) b st →
  (∀ spec, is_object spec = true → obj s' spec =
    if decide (spec = state (bw_name bw) (bw_id bw) (bw_written bw)) then Some c else obj s spec) →
  writing s' bw b st.
Proof.
  intros [[Hr Hpp Hd Hst Hss] Ho Hpa Hwr Hh] Hc Hr' Ho' Hobj. constructor; try done. constructor; try done.
  - by rewrite Hobj, decide_False by (done || apply Hpp).
  - destruct Hst as (x & t & Hx & Ht). exists x, t. by rewrite Hobj, decide_False by (done || apply Hpp).
  - intros o x Hoo. rewrite Hobj by done. case_decide as Heq; [|by apply Hss].
    intros [= <-]. unfold state in Heq. simplify_eq. split; [lia|]. done.
Qed.
Lemma storeHashState_spec s bw b st :
  writing s bw b st →
  ∃ s', tolerant storeHashState (s, bw) = (Ret tt, (s', bw)) ∧ writing s' bw b st ∧
    same_but_states s s' (bw_name bw) (bw_id bw).
Proof.
  intros Hw. pose proof Hw as [[Hr Hpp _ _ _] Ho _ [Hwr _] Hh].
  destruct (storeHashState_cases s bw Hr Hpp Hwr) as (s' & H1 & Hr' & Hc). exists s'. split; [done|].
  destruct (stores bw); [|by subst s'; split; [|intros ???]]. destruct Hc as (c & Hun & Hput & Hobj). split.
  - eapply writing_put_state; try done; [intros Heq; by rewrite Hun, Hh|]. by apply (storeHashState_opened s).
  - intros spec Hspec Hne. by rewrite Hobj, decide_False.
Qed.

Lemma Close_spec s bw b st :
  writing s bw b st → st = WOpen ∨ st = WCommitted → bw_committed bw = false →
  ∃ s', Close (s, bw) = (Ret tt, (s', bw)) ∧ writing s' bw b WClosed ∧ same_but_states s s' (bw_name bw) (bw_id bw).
Proof.
  intros Hw Hst Hc. destruct (storeHashState_spec s bw b st Hw) as (s1 & H1 & Hw1 & Hf1).
  destruct Hw1 as [[[Hi Hr] Hpp Hd Hs Hss] Ho Hpa Hwr Hh].
  destruct (wlaw_close s1 (bw_fileWriter bw) _ b st Hi Ho) as (s2 & H2 & Hi2 & Ho2 & Hv2); [by destruct Hst as [-> | ->]|].
  assert (∀ spec, obj s2 spec = obj s1 spec) as Hobj by (intros spec; unfold object; by rewrite Hv2).
  exists s2. split_and!.
  - unfold Close. rewrite this_bind, Hc, (bind_Ret _ _ _ _ _ H1), this_bind. unfold on_fst. cbn [fst snd]. by rewrite H2.
  - constructor; try done; [|by destruct Hst as [-> | ->]]. apply (persisted_frame s1); [done| |].
    + split; [done|]. intros ks e. rewrite Hv2. apply Hr.
    + intros spec _ _. apply Hobj.
  - intros spec Hspec Hne. rewrite Hobj. by apply Hf1.
Qed.

(** ** Committing *)

Lemma moveBlob_spec s bw b st desc :
  writing s bw b st → supported (blobDataPathSpec (desc_Digest desc)) →
  let blob := blobDataPathSpec (desc_Digest desc) in
  ∃ s', moveBlob desc (s, bw) = (Ret tt, (s', bw)) ∧ rinv s' ∧
    ∀ spec, is_object spec = true → of_upload (bw_name bw) (bw_id bw) spec = false →
      obj s' spec = if decide (spec = blob) then Some (default b (obj s blob)) else obj s spec.
Proof.
  intros [Hp _ Hpa _ _] Hs blob. pose proof (ps_rinv _ _ _ _ Hp) as Hr. pose proof (up_data _ _ (ps_paths _ _ _ _ Hp)) as Hsd.
  pose proof (ps_data _ _ _ _ Hp) as Hd. unfold moveBlob.
  rewrite (bind_Ret _ _ _ (abspath (layout blob)) (s, bw)).
  2: { unfold on_fst. cbn [fst snd]. by rewrite path_of_spec by apply Hs. }
  unfold attempt, on_fst. destruct (obj s blob) as [c|] eqn:Hb.
  - destruct (stat_object s blob c Hr Hs Hb) as [t Ht]. exists s. unfold mbind, gom_bind. cbn [fst snd]. rewrite Ht.
    split_and!; try done. intros spec _ _. case_decide; [by subst|done].
  - destruct (stat_object_missing s blob Hr Hs Hb) as [n Hn]. unfold mbind at 1, gom_bind at 1. cbn [fst snd].
    rewrite Hn, this_bind, Hpa. destruct (stat_object s _ b Hr Hsd Hd) as [t Ht]. unfold mbind, gom_bind. cbn [fst snd]. rewrite Ht.
    destruct (move_object s _ blob b Hr Hsd Hs Hd) as (s' & Hm & Hr' & Hv'). cbn [fst snd]. rewrite Hm. exists s'.
    split_and!; try done. intros spec Hspec Hu. rewrite Hv' by done. case_decide; [done|]. rewrite decide_False; [done|].
    intros ->. cbn [of_upload] in Hu. by rewrite !bool_decide_true in Hu by done.
Qed.

Lemma upload_dir_path name id :
  upload_paths name id → path_Dir (abspath (layout (uploadDataPathSpec name id))) = abspath (upload_dir name id).
Proof.
  intros Hp. destruct (up_data _ _ Hp) as [Ho _]. apply is_object_safe in Ho as [Hs _]. apply layout_good in Hs.
  assert (layout (uploadDataPathSpec name id) = upload_dir name id ++ ["data"]) as Hl
    by (unfold upload_dir; cbn [layout]; by rewrite <-app_assoc).
  rewrite Hl in *. apply path_Dir_abspath; [done|]. unfold upload_dir. by destruct (repos name).
Qed.

Lemma removeResources_spec s bw :
  rinv s → upload_paths (bw_name bw) (bw_id bw) →
  ∃ s', removeResources (s, bw) = (Ret tt, (s', bw)) ∧ rinv s' ∧
    (∀ w ks b st, opened s w ks b st → has_file st = false → opened s' w ks b st) ∧
    ∀ spec, is_object spec = true →
      obj s' spec = if of_upload (bw_name bw) (bw_id bw) spec then None else obj s spec.
Proof.
  intros Hr Hp. destruct (up_names _ _ Hp) as [Hn _]. set (name := bw_name bw) in *. set (id := bw_id bw) in *.
  pose proof (upload_dir_objects name id) as Hdir. unfold removeResources. rewrite this_bind. fold name id.
  rewrite (bind_Ret _ _ _ (abspath (layout (uploadDataPathSpec name id))) (s, bw)).
  2: { unfold on_fst. cbn [fst snd]. by rewrite path_of_spec by apply Hp. }
  rewrite upload_dir_path by done. unfold attempt, on_fst, mbind, gom_bind. cbn [fst snd].
  destruct (view s (upload_dir name id)) as [e|] eqn:He.
  - destruct (delete_dir s _ Hr (up_dir _ _ Hp)) as (s' & Hs' & Hr' & _ & Hv'); [by eexists|]. rewrite Hs'. exists s'.
    split_and!; try done; [intros w ks b st Ho Hf; eapply wlaw_delete; [apply Hr|done|done|apply (up_dir _ _ Hp)|done]|].
    intros spec Ho. rewrite Hv'. destruct (of_upload name id spec) eqn:Hu.
    + rewrite decide_True; [done|]. by apply Hdir.
    + rewrite decide_False; [done|]. rewrite Hdir by done. by rewrite Hu.
  - destruct (law_delete_missing s (upload_dir name id) (proj1 Hr) (up_dir _ _ Hp) He) as [n Hd].
    { apply (prefix_not_blocked _ (uploadDataPathSpec name id)); [apply Hr|apply Hp|]. apply Hdir; [apply Hp|done|].
      cbn [of_upload]. by rewrite !bool_decide_true. }
    rewrite Hd. exists s. split_and!; try done. intros spec Ho. destruct (of_upload name id spec) eqn:Hu; [|done].
    apply Hdir in Hu as [r Hl]; [|done..]. destruct (obj s spec) as [c|] eqn:Hc; [|done]. apply object_present in Hc.
    rewrite Hl in Hc. destruct (decide (r = [])) as [->|Hne]; [by rewrite app_nil_r, He in Hc|].
    by rewrite (law_prefix s _ r) in He by (done || apply Hr || by eexists).
Qed.

Lemma linkBlob_alias s fns name desc alias :
  rinv s → supported (layerLinkPathSpec name (desc_Digest desc)) → supported (layerLinkPathSpec name alias) →
  let d := desc_Digest desc in
  ∃ s', linkBlob (blobLinkPath :: fns) name desc [alias] s = (Ret tt, s') ∧ rinv s' ∧
    ∀ spec, is_object spec = true →
      obj s' spec = if decide (spec = layerLinkPathSpec name d ∨ spec = layerLinkPathSpec name alias) then Some d else obj s spec.
Proof.
  intros Hr H1 H2 d. cbn [linkBlob linkBlob_loop]. fold d. rewrite bool_decide_false by set_solver.
  unfold blobLinkPath. rewrite (bind_Ret _ _ _ _ _ (link_path_spec _ s (proj1 H1))). unfold link.
  destruct (put_object s _ d Hr H1) as (s1 & Hp1 & Hr1 & _ & Hv1). rewrite (bind_Ret _ _ _ _ _ Hp1).
  case_bool_decide as Hseen.
  - assert (alias = d) as -> by set_solver. exists s1. split_and!; try done. intros spec Ho. rewrite Hv1 by done.
    repeat case_decide; naive_solver.
  - rewrite (bind_Ret _ _ _ _ _ (link_path_spec _ s1 (proj1 H2))).
    destruct (put_object s1 _ d Hr1 H2) as (s2 & Hp2 & Hr2 & _ & Hv2). rewrite (bind_Ret _ _ _ _ _ Hp2). exists s2.
    split_and!; try done. intros spec Ho. rewrite Hv2, Hv1 by done. repeat case_decide; naive_solver.
Qed.

Context (chunk : nat → nat) (bufsize : nat).

(** The state in which the content is validated: the writer is closed, and the
    storage has changed in the hash states alone. *)
Lemma Commit_closed s bw b :
  writing s bw b WOpen → bw_committed bw = false →
  ∃ s', writing s' bw b WClosed ∧ same_but_states s s' (bw_name bw) (bw_id bw) ∧
    ∀ desc, Commit chunk bufsize desc (s, bw) =
      (canonical ← validateBlob chunk bufsize {| MediaType := MediaType desc; BlobStore.Size := len b; desc_Digest := desc_Digest desc |};
       _ ← moveBlob canonical;
       bw ← this;
       let lbs := bw_blobStore bw in
       _ ← (if bw_mirrorFS bw
            then on_fst (linkBlob (lbs_linkPathFns lbs) (lbs_name lbs) canonical [desc_Digest desc]) else mret tt);
       _ ← removeResources;
       _ ← on_fst (linkedBlobStatter_SetDescriptor (desc_Digest canonical) canonical);
       _ ← update set_committed;
       mret canonical) (s', bw).
Proof.
  intros Hw Hc. pose proof Hw as [[[Hi Hr] Hpp Hd Hs Hss] Ho Hpa Hwr Hh].
  destruct (wlaw_commit s (bw_fileWriter bw) _ b Hi Ho) as (s1 & H1 & Hi1 & Ho1 & Hv1).
  assert (∀ spec, obj s1 spec = obj s spec) as Hobj by (intros spec; unfold object; by rewrite Hv1).
  assert (writing s1 bw b WCommitted) as Hw1.
  { constructor; try done. apply (persisted_frame s); [done| |intros; apply Hobj].
    split; [done|]. intros ks e. rewrite Hv1. apply Hr. }
  destruct (Close_spec s1 bw b WCommitted Hw1) as (s2 & H2 & Hw2 & Hf2); [by right|done|].
  exists s2. split_and!; [done|intros spec Hspec Hne; rewrite <-Hobj; by apply Hf2|]. intros desc. unfold Commit at 1.
  rewrite this_bind. rewrite (bind_Ret _ _ _ tt (s1, bw)) by (unfold on_fst; cbn [fst snd]; by rewrite H1).
  rewrite (bind_Ret _ _ _ (inr tt) (s2, bw)) by (unfold attempt; by rewrite H2).
  unfold Size. rewrite (bind_Ret (this ≫= _) _ _ (len b) (s2, bw)); [done|]. rewrite this_bind. unfold on_fst. cbn [fst snd].
  by rewrite (wlaw_size s2 _ _ b WClosed (proj1 (ps_rinv _ _ _ _ (wr_persisted _ _ _ _ Hw2))) (wr_opened _ _ _ _ Hw2)).
Qed.

(** ** Canceling *)

(** What is left of a cancellation when the file of the writer is gone. *)
Lemma canceled_rest s bw b st :
  let data := layout (uploadDataPathSpec (bw_name bw) (bw_id bw)) in
  rinv s → upload_paths (bw_name bw) (bw_id bw) → (0 ≤ bw_written bw)%Z → bw_committed bw = false →
  opened s (bw_fileWriter bw) data b st → has_file st = false →
  ∃ o s' s'', attempt Close (s, bw) = (Ret o, (s', bw)) ∧ removeResources (s', bw) = (Ret tt, (s'', bw)) ∧ rinv s'' ∧
    opened s'' (bw_fileWriter bw) data b WDone ∧
    ∀ spec, is_object spec = true →
      obj s'' spec = if of_upload (bw_name bw) (bw_id bw) spec then None else obj s spec.
Proof.
  intros data Hr Hpp Hwr Hc Ho Hst. destruct (storeHashState_cases s bw Hr Hpp Hwr) as (s1 & H1 & Hr1 & Hc1).
  pose proof (storeHashState_opened s bw s1 _ b st Hr Hpp Hwr Ho H1) as Ho1.
  assert (∃ o s2, attempt Close (s, bw) = (Ret o, (s2, bw)) ∧ rinv s2 ∧ opened s2 (bw_fileWriter bw) data b WDone ∧
    ∀ q, view s2 q = view s1 q) as (o & s2 & H2 & Hr2 & Ho2 & Hv2).
  { unfold attempt, Close. rewrite this_bind, Hc, (bind_Ret _ _ _ _ _ H1), this_bind. unfold on_fst. cbn [fst snd].
    destruct (is_closed st) eqn:Hcl.
    - destruct (wlaw_closed s1 (bw_fileWriter bw) _ b st (proj1 Hr1) Ho1 Hcl) as (r & Hrc & Hnp). rewrite Hrc.
      assert (st = WDone) as -> by (by destruct st). destruct r as [[]|e|]; [by eexists _, s1..|done].
    - destruct (wlaw_close s1 (bw_fileWriter bw) _ b st (proj1 Hr1) Ho1 Hcl) as (s2 & Hs2 & Hi2 & Ho2 & Hv2). rewrite Hs2.
      rewrite Hst in Ho2. eexists _, s2. split_and!; try done. split; [done|]. intros ks e. rewrite Hv2. apply Hr1. }
  destruct (removeResources_spec s2 bw Hr2 Hpp) as (s3 & H3 & Hr3 & Ho3 & Hv3). exists o, s2, s3. split_and!; try done; [by apply Ho3|].
  intros spec Hspec. rewrite Hv3 by done. destruct (of_upload _ _ spec) eqn:Hu; [done|].
  transitivity (obj s1 spec); [unfold object; by rewrite Hv2|]. destruct (stores bw); [|by subst s1].
  destruct Hc1 as (c & _ & _ & Hobj1). rewrite Hobj1 by done.
  rewrite decide_False; [done|]. intros ->. cbn in Hu. by rewrite !bool_decide_true in Hu.
Qed.
(** An upload is removed when the file writer lets itself be canceled. *)
Lemma Cancel_removes s s1 bw b st st' :
  writing s bw b st → bw_committed bw = false → wr_Cancel (bw_fileWriter bw) s = (Ret tt, s1) → inv s1 →
  opened s1 (bw_fileWriter bw) (layout (uploadDataPathSpec (bw_name bw) (bw_id bw))) b st' → has_file st' = false →
  (∀ q, view s1 q = fs_delete (view s) (layout (uploadDataPathSpec (bw_name bw) (bw_id bw))) q) →
  ∃ s', Cancel (s, bw) = (Ret tt, (s', bw)) ∧ rinv s' ∧
    opened s' (bw_fileWriter bw) (layout (uploadDataPathSpec (bw_name bw) (bw_id bw))) b WDone ∧
    ∀ spec, is_object spec = true →
      obj s' spec = if of_upload (bw_name bw) (bw_id bw) spec then None else obj s spec.
Proof.
  intros [[[Hi Hr] Hpp _ _ _] _ _ [Hwr _] _] Hc H1 Hi1 Ho1 Hst Hv1.
  assert (rinv s1) as Hr1 by (split; [done|]; intros ks e; rewrite Hv1; by apply delete_registry).
  destruct (canceled_rest s1 bw b st' Hr1 Hpp Hwr Hc Ho1 Hst) as (o & s2 & s3 & H2 & H3 & Hr3 & Ho3 & Hv3).
  exists s3. split_and!; [|done..|].
  - unfold Cancel. rewrite this_bind.
    rewrite (bind_Ret _ _ _ tt (s1, bw)) by (unfold on_fst; cbn [fst snd]; by rewrite H1).
    by rewrite (bind_Ret _ _ _ _ _ H2).
  - intros spec Hspec. rewrite Hv3 by done. destruct (of_upload _ _ spec) eqn:Hu; [done|].
    unfold object. rewrite Hv1. destruct (up_data _ _ Hpp) as [Hdo _].
    fold (object (fs_delete (view s) (layout (uploadDataPathSpec (bw_name bw) (bw_id bw)))) spec).
    rewrite delete_objects by done.
    rewrite decide_False; [done|]. intros ->. cbn in Hu. by rewrite !bool_decide_true in Hu.
Qed.
Lemma Cancel_spec s bw b :
  writing s bw b WOpen → bw_committed bw = false →
  ∃ s', Cancel (s, bw) = (Ret tt, (s', bw)) ∧ rinv s' ∧
    opened s' (bw_fileWriter bw) (layout (uploadDataPathSpec (bw_name bw) (bw_id bw))) b WDone ∧
    ∀ spec, is_object spec = true →
      obj s' spec = if of_upload (bw_name bw) (bw_id bw) spec then None else obj s spec.
Proof.
  intros Hw Hc. pose proof Hw as [[[Hi _] Hpp _ _ _] Ho _ _ _].
  destruct (wlaw_cancel s (bw_fileWriter bw) _ b Hi (proj2 (up_data _ _ Hpp)) Ho) as (s1 & H1 & Hi1 & Ho1 & Hv1).
  by apply (Cancel_removes s s1 bw b WOpen WCanceled).
Qed.
(** A writer that is closed refuses to be canceled, and then nothing happens, or
    the upload is removed. *)
Lemma Cancel_closed s bw b :
  writing s bw b WClosed → bw_committed bw = false →
  (∃ e, wr_Cancel (bw_fileWriter bw) s = (Fail e, s) ∧ Cancel (s, bw) = (Fail e, (s, bw))) ∨
  (∃ s1 s', wr_Cancel (bw_fileWriter bw) s = (Ret tt, s1) ∧ Cancel (s, bw) = (Ret tt, (s', bw)) ∧ rinv s' ∧
    opened s' (bw_fileWriter bw) (layout (uploadDataPathSpec (bw_name bw) (bw_id bw))) b WDone ∧
    ∀ spec, is_object spec = true →
      obj s' spec = if of_upload (bw_name bw) (bw_id bw) spec then None else obj s spec).
Proof.
  intros Hw Hc. pose proof Hw as [[[Hi _] Hpp _ _ _] Ho _ _ _].
  destruct (wlaw_cancel_closed s (bw_fileWriter bw) _ b Hi (proj2 (up_data _ _ Hpp)) Ho) as [[e He]|(s1 & H1 & Hi1 & Ho1 & Hv1)].
  - left. exists e. split; [done|]. unfold Cancel. rewrite this_bind. unfold mbind, gom_bind, on_fst. cbn [fst snd]. by rewrite He.
  - right. destruct (Cancel_removes s s1 bw b WClosed WDone) as (s' & ?); try done. by exists s1, s'.
Qed.

(** ** Starting and resuming *)

Lemma open_writer s lbs opts id (ap : bool) t b :
  let name := lbs_name lbs in let data := uploadDataPathSpec name id in
  rinv s → upload_paths name id → b = (if ap then default "" (obj s data) else "") →
  (∃ c t, obj s (uploadStartedAtPathSpec name id) = Some c ∧ Parse c = Some t) → states_ok s name id b →
  ∃ bw s', newBlobUpload lbs opts id (abspath (layout data)) t ap s = (Ret bw, s') ∧ writing s' bw b WOpen ∧
    bw_blobStore bw = lbs ∧ bw_id bw = id ∧ bw_committed bw = false ∧ bw_mirrorFS bw = opt_mirrorFS opts ∧
    ∀ spec, is_object spec = true → obj s' spec = if decide (spec = data) then Some b else obj s spec.
Proof.
  intros name data [Hi Hr] Hp Hb Hst Hss. destruct (up_data _ _ Hp) as [Hdo Hdk]. fold data in Hdo, Hdk.
  destruct (wlaw_open s (layout data) ap Hi Hdk) as (w & s' & Hw & Hi' & Ho & Hv);
    [by apply registry_not_dir|by apply registry_not_blocked|].
  assert ((if ap then old_bytes (view s) (layout data) else "") = b) as Hold.
  { subst b. destruct ap; [|done]. unfold old_bytes, object. by destruct (view s (layout data)) as [[]|]. }
  rewrite Hold in Ho, Hv.
  assert (∀ spec, is_object spec = true → obj s' spec = if decide (spec = data) then Some b else obj s spec) as Hobj.
  { intros spec Hspec. rewrite <-put_objects by done. unfold object. by rewrite Hv. }
  assert (rinv s') as Hr' by (split; [done|]; intros ks e; rewrite Hv; by apply put_registry).
  unfold newBlobUpload. rewrite (bind_Ret _ _ _ _ _ Hw). do 2 eexists. split; [reflexivity|]. split_and!; try done.
  constructor; try done; cbn.
  - constructor; try done.
    + by rewrite Hobj, decide_True.
    + destruct Hst as (c & t0 & Hc & Ht). exists c, t0. by rewrite Hobj, decide_False by (done || apply Hp).
    + intros o c Hoo. rewrite Hobj, decide_False by done. by apply Hss.
  - lia.
  - intros Heq. assert (b = "") as -> by (apply str_length_nil; lia). by rewrite hash_Write_nil.
Qed.

(** Resuming: a writer at the end of what was written. *)
Lemma Resume_spec s lbs opts id b :
  persisted s (lbs_name lbs) id b →
  ∃ bw s', Resume lbs opts id s = (Ret bw, s') ∧ writing s' bw b WOpen ∧
    bw_blobStore bw = lbs ∧ bw_id bw = id ∧ bw_committed bw = false ∧ bw_mirrorFS bw = opt_mirrorFS opts ∧
    ∀ spec, is_object spec = true → obj s' spec = obj s spec.
Proof.
  intros [Hr Hp Hd Hst Hss]. pose proof Hst as (c & t & Hc & Ht).
  destruct (open_writer s lbs opts id true t b Hr Hp) as (bw & s' & H1 & Hw & H2 & H3 & H4 & H5 & Hobj); [by rewrite Hd|done..|].
  exists bw, s'. split_and!; try done.
  - unfold Resume. rewrite (bind_Ret _ _ _ _ _ (path_of_spec _ s (proj1 (up_started _ _ Hp)))).
    rewrite (bind_Ret _ _ _ (inr c) s) by (unfold attempt; by rewrite (get_object s _ c Hr (up_started _ _ Hp) Hc)).
    by rewrite Ht, (bind_Ret _ _ _ _ _ (path_of_spec _ s (proj1 (up_data _ _ Hp)))).
  - intros spec Ho. rewrite Hobj by done. case_decide; [by subst spec|done].
Qed.
Lemma Resume_unknown s lbs opts id :
  rinv s → upload_paths (lbs_name lbs) id → obj s (uploadStartedAtPathSpec (lbs_name lbs) id) = None →
  Resume lbs opts id s = (Fail ErrBlobUploadUnknown, s).
Proof.
  intros Hr Hp Hc. destruct (get_object_missing s _ Hr (up_started _ _ Hp) Hc) as [n Hn].
  unfold Resume. rewrite (bind_Ret _ _ _ _ _ (path_of_spec _ s (proj1 (up_started _ _ Hp)))).
  unfold attempt, mbind, gom_bind. by rewrite Hn.
Qed.

(** Starting: an empty upload under a new identifier. *)
Lemma Create_spec s lbs opts id now :
  rinv s → upload_paths (lbs_name lbs) id → formattable now = true →
  (∀ o, is_object (state (lbs_name lbs) id o) = true → obj s (state (lbs_name lbs) id o) = None) →
  ∃ bw s', Create lbs opts None id now s = (Ret (inr bw), s') ∧ writing s' bw "" WOpen ∧
    bw_blobStore bw = lbs ∧ bw_id bw = id ∧ bw_committed bw = false ∧ bw_mirrorFS bw = opt_mirrorFS opts ∧
    ∀ spec, is_object spec = true → of_upload (lbs_name lbs) id spec = false → obj s' spec = obj s spec.
Proof.
  intros Hr Hp Hf Hfresh.
  destruct (put_object s _ (Format now) Hr (up_started _ _ Hp)) as (s1 & Hput & Hr1 & _ & Hv1).
  destruct (open_writer s1 lbs opts id false now "" Hr1 Hp) as (bw & s' & H1 & Hw & H2 & H3 & H4 & H5 & Hobj); [done|..].
  { exists (Format now), (now / second * second)%Z. rewrite Hv1, decide_True by (done || apply Hp). split; [done|]. by apply Parse_Format. }
  { intros o c Ho. rewrite Hv1, decide_False by done. by rewrite Hfresh. }
  exists bw, s'. split_and!; try done.
  - unfold Create. rewrite (bind_Ret _ _ _ None s) by done.
    rewrite (bind_Ret _ _ _ _ _ (path_of_spec _ s (proj1 (up_data _ _ Hp)))).
    rewrite (bind_Ret _ _ _ _ _ (path_of_spec _ s (proj1 (up_started _ _ Hp)))).
    by rewrite (bind_Ret _ _ _ _ _ Hput), (bind_Ret _ _ _ _ _ H1).
  - intros spec Ho Hu. rewrite Hobj, Hv1 by done.
    rewrite !decide_False; [done|..]; intros ->; cbn [of_upload] in Hu; by rewrite !bool_decide_true in Hu.
Qed.

(** ** Validating *)

Hypothesis Hchunk : ∀ k, 0 < k → 0 < chunk k ≤ k.
Hypothesis Hbufsize : 0 < bufsize.

(** The digest of a content by the algorithm of the digest. *)
Definition matches (d : digest) (b : bytes) : Prop := d = digest_AlgFromBytes (digest_Algorithm d) b.
#[export] Instance matches_dec d b : Decision (matches d b) := decide (_ = _).

Lemma valid_ne d : digest_Validate d = None → d ≠ "".
Proof. intros Hd ->. by rewrite digest_no_colon in Hd. Qed.

Lemma read_back_spec s name id b :
  persisted s name id b → read_back chunk bufsize (abspath (layout (uploadDataPathSpec name id))) (len b) s = (Ret b, s).
Proof.
  intros [[Hi Hr] Hp Hd _ _]. destruct (up_data _ _ Hp) as [_ Hok].
  pose proof (FileReader.new_reads s _ b Hi Hok (object_present _ _ _ Hd)) as Hrd.
  destruct (FileReader.Copy_spec chunk Hchunk (Z.to_nat (len b) + 1) s _ b _ bufsize "" Hrd Hbufsize) as (fr & Hc); [cbn; lia|].
  unfold read_back. rewrite Hc. cbn. by rewrite str_app_nil_l.
Qed.

(** The verdict: the descriptor of the content, or the error of a digest that
    is not one of the content. *)
Definition verdict (desc : Descriptor) (b : bytes) : outcome error Descriptor :=
  let d := desc_Digest desc in
  if decide (matches d b)
  then Ret {| MediaType := if bool_decide (MediaType desc = "") then "application/octet-stream" else MediaType desc;
              BlobStore.Size := len b; desc_Digest := digest_FromBytes b |}
  else Fail (ErrBlobInvalidDigest d (errors_New "content does not match digest")).

Lemma verifyDigest_spec s bw b st d :
  writing s bw b st → has_file st = true → (len b < 2 ^ 63)%Z → digest_Validate d = None →
  ∃ c bw', verifyDigest chunk bufsize d (len b) (len b) (s, bw) = (Ret (c, bool_decide (matches d b)), (s, bw')) ∧
    (matches d b → c = digest_FromBytes b) ∧ same_upload bw bw' ∧ writing s bw' b st.
Proof.
  intros Hw Hst Hlen Hd. pose proof Hw as [Hp _ Hpa _ _].
  destruct (resumeDigest_spec s bw b st Hw Hst Hlen) as (r & bw' & Hr & Hs & Hw' & Hc).
  destruct (same_upload_fields _ _ Hs) as (Hn & Hid & Hpath & _). pose proof (wr_hash _ _ _ _ Hw') as Hh'.
  pose proof (read_back_spec _ _ _ _ Hp) as Hback. rewrite <-Hpa, <-Hpath in Hback.
  assert (∀ k : bytes → GoM (St * blobWriter) error (digest * bool),
    (on_fst (read_back chunk bufsize (bw_path bw') (len b)) ≫= k) (s, bw') = k b (s, bw')) as Hb2.
  { intros k. apply bind_Ret. unfold on_fst. cbn [fst snd]. by rewrite Hback. }
  assert (digest_Verified d b = Ret (bool_decide (matches d b))) as Hver by (by apply digest_Verified_spec).
  pose proof (digest_FromBytes_Canonical b) as Hcan. pose proof (hash_Digest_Algorithm (H b)) as Halg.
  rewrite hash_Digest_spec in Halg.
  assert (digest_Canonical = digest_Algorithm d → bool_decide (d = digest_FromBytes b) = bool_decide (matches d b)) as Hsame.
  { intros Heq. apply bool_decide_ext. unfold matches. by rewrite <-Heq, Hcan. }
  assert (∀ cv, (∃ c, cv = (c, false)) ∨ cv = (digest_FromBytes b, bool_decide (matches d b)) →
    ∃ c, (let '(canonical, verified) := cv in if (verified : bool) then mret (canonical, verified)
       else content ← on_fst (read_back chunk bufsize (bw_path bw') (len b));
            verified ← lift (digest_Verified d content);
            mret (hash_Digest (H content), verified)) (s, bw') =
      (Ret (c, bool_decide (matches d b)), (s, bw')) ∧ (matches d b → c = digest_FromBytes b)) as Hfull.
  { intros cv Hcv. destruct Hcv as [[c ->]| ->]; [|destruct (bool_decide (matches d b)) eqn:Hm; [by eauto|]];
      exists (digest_FromBytes b); (split; [|done]); rewrite Hb2; unfold lift, mbind, gom_bind;
      by rewrite Hver, hash_Digest_spec, ?Hm. }
  unfold verifyDigest.
  rewrite (bind_Ret (attempt resumeDigest) _ _ (match r with Ret x => inr x | Fail e => inl e | Panic => inr tt end) (s, bw'))
    by (unfold attempt; rewrite Hr; by destruct Hc as [[-> _]| ->]).
  rewrite this_bind. destruct Hc as [[-> Hwritten]| ->].
  - rewrite Hh' by done. rewrite hash_Digest_spec, Halg.
    destruct (decide (digest_Canonical = digest_Algorithm d)) as [Heq|Heq];
      [rewrite (bool_decide_true (_ = digest_Algorithm d)) by done|rewrite (bool_decide_false (_ = digest_Algorithm d)) by done].
    + exists (digest_FromBytes b), bw'. split_and!; [|done..].
      rewrite (bind_Ret _ _ _ (digest_FromBytes b, bool_decide (d = digest_FromBytes b), false) (s, bw')) by done.
      cbn beta iota. cbn [negb]. by rewrite (Hsame Heq).
    + rewrite (bind_Ret _ _ _ (digest_FromBytes b, false, true) (s, bw')) by done. cbn beta iota. cbn [negb].
      rewrite andb_false_r. destruct (Hfull (digest_FromBytes b, false)) as (c & H1 & H2); [by left; eauto|].
      exists c, bw'. by rewrite H1.
  - rewrite (bind_Ret _ _ _ ("", false, true) (s, bw')) by done. cbn beta iota. cbn [negb].
    match goal with |- context [let '(canonical, verified) := ?x in _] => destruct (Hfull x) as (c & H1 & H2) end.
    + destruct (Z.eqb_spec (bw_written bw') (len b)) as [Heq|]; [|by left; eauto].
      destruct (decide (digest_Canonical = digest_Algorithm d)) as [Ha|Ha];
        [rewrite (bool_decide_true (_ = digest_Algorithm d)) by done|rewrite (bool_decide_false (_ = digest_Algorithm d)) by done; by left; eauto].
      right. cbn [andb]. by rewrite Hh', hash_Digest_spec, (Hsame Ha).
    + exists c, bw'. by rewrite H1.
Qed.

Lemma validateBlob_spec s bw b st desc :
  writing s bw b st → has_file st = true → (len b < 2 ^ 63)%Z → digest_Validate (desc_Digest desc) = None →
  BlobStore.Size desc = len b →
  ∃ bw', validateBlob chunk bufsize desc (s, bw) = (verdict desc b, (s, bw')) ∧ same_upload bw bw' ∧ writing s bw' b st.
Proof.
  intros Hw Hst Hlen Hd Hsize. pose proof Hw as [Hp Ho Hpa Hwr Hh]. set (d := desc_Digest desc) in *.
  destruct (stat_object s _ b (ps_rinv _ _ _ _ Hp) (up_data _ _ (ps_paths _ _ _ _ Hp)) (ps_data _ _ _ _ Hp)) as [t Ht].
  destruct (verifyDigest_spec s bw b st d Hw Hst Hlen Hd) as (c & bw' & Hv & Hc & Hs & Hw').
  exists bw'. split; [|done]. unfold validateBlob. fold d. rewrite bool_decide_false by (by apply valid_ne).
  rewrite this_bind, Hpa. match type of Ht with _ = (Ret ?f, _) => set (fi := f) in Ht end.
  rewrite (bind_Ret _ _ _ (inr fi) (s, bw)) by (unfold attempt, on_fst; cbn [fst snd]; by rewrite Ht).
  rewrite (bind_Ret _ _ _ (len b, len b) (s, bw)) by (cbn [fi fi_IsDir fi_Size]; by rewrite Hsize). cbn beta iota.
  rewrite (bind_Ret _ _ _ (len b) (s, bw)) by (destruct (0 <? len b)%Z; [by rewrite Z.eqb_refl|done]).
  rewrite (bind_Ret _ _ _ _ _ Hv). unfold verdict. fold d. case_bool_decide as Hm; cbn [negb].
  - rewrite decide_True by done. by rewrite Hc.
  - by rewrite decide_False by done.
Qed.

End spec.
End UploadSpec.
