(* ===== verification/Hmac.v ===== *)
(** * Upload state tokens

    Models registry/handlers/hmac.go: the state of an upload travels to the
    client and back as a signed token.  The encoding base64.URLEncoding of the
    standard library is modelled; the message authentication code and the JSON
    encoding of the state are parameters. *)

From S2P Require Import Prelude GoStd Digest Driver.

(** ** base64.URLEncoding *)

Module Base64.

Definition encode_char (n : nat) : ascii :=
  Ascii.ascii_of_nat
    (if n <? 26 then 65 + n
     else if n <? 52 then 97 + (n - 26)
     else if n <? 62 then 48 + (n - 52)
     else if n =? 62 then 45 else 95).
Definition decode_char (c : ascii) : option nat :=
  let k := Ascii.nat_of_ascii c in
  if (65 <=? k) && (k <=? 90) then Some (k - 65)
  else if (97 <=? k) && (k <=? 122) then Some (k - 97 + 26)
  else if (48 <=? k) && (k <=? 57) then Some (k - 48 + 52)
  else if k =? 45 then Some 62
  else if k =? 95 then Some 63
  else None.

Definition pad : ascii := "="%char.

(** Three bytes are four numbers of six bits. *)
Definition sextet1 (a : ascii) : nat := Ascii.nat_of_ascii a / 4.
Definition sextet2 (a b : ascii) : nat := (Ascii.nat_of_ascii a mod 4) * 16 + Ascii.nat_of_ascii b / 16.
Definition sextet3 (b c : ascii) : nat := (Ascii.nat_of_ascii b mod 16) * 4 + Ascii.nat_of_ascii c / 64.
Definition sextet4 (c : ascii) : nat := Ascii.nat_of_ascii c mod 64.
Definition byte1 (i j : nat) : ascii := Ascii.ascii_of_nat (i * 4 + j / 16).
Definition byte2 (j k : nat) : ascii := Ascii.ascii_of_nat ((j mod 16) * 16 + k / 4).
Definition byte3 (k l : nat) : ascii := Ascii.ascii_of_nat ((k mod 4) * 64 + l).

Fixpoint EncodeToString (b : bytes) : string :=
  match b with
  | "" => ""
  | String a "" =>
      String (encode_char (sextet1 a)) (String (encode_char (sextet2 a "000")) (String pad (String pad "")))
  | String a (String b "") =>
      String (encode_char (sextet1 a)) (String (encode_char (sextet2 a b))
        (String (encode_char (sextet3 b "000")) (String pad "")))
  | String a (String b (String c rest)) =>
      String (encode_char (sextet1 a)) (String (encode_char (sextet2 a b))
        (String (encode_char (sextet3 b c)) (String (encode_char (sextet4 c)) (EncodeToString rest))))
  end.

(** The decoder skips line breaks. *)
Fixpoint strip (s : string) : string :=
  match s with
  | "" => ""
  | String c s => if bool_decide (c = "010"%char) || bool_decide (c = "013"%char) then strip s else String c (strip s)
  end.

(** Groups of four; the padding ends the input, and the bits that it cuts off
    are not checked. *)
Fixpoint decode (s : string) : option bytes :=
  match s with
  | "" => Some ""
  | String w (String x (String y (String z rest))) =>
      match decode_char w, decode_char x, decode_char y, decode_char z with
      | Some i, Some j, Some k, Some l =>
          r ← decode rest; Some (String (byte1 i j) (String (byte2 j k) (String (byte3 k l) r)))
      | Some i, Some j, Some k, None =>
          if bool_decide (z = pad) && bool_decide (rest = "") then Some (String (byte1 i j) (String (byte2 j k) ""))
          else None
      | Some i, Some j, None, None =>
          if bool_decide (y = pad) && bool_decide (z = pad) && bool_decide (rest = "") then Some (String (byte1 i j) "")
          else None
      | _, _, _, _ => None
      end
  | _ => None
  end.
Definition DecodeString (s : string) : option bytes := decode (strip s).

(** *** Decoding an encoding *)

Definition char_ok (n : nat) : bool :=
  bool_decide (decode_char (encode_char n) = Some n) &&
  bool_decide (encode_char n ≠ "010"%char) && bool_decide (encode_char n ≠ "013"%char).
Lemma chars_ok : forallb char_ok (seq 0 64) = true.
Proof. vm_compute. reflexivity. Qed.
Lemma encode_char_spec n : n < 64 →
  decode_char (encode_char n) = Some n ∧ ∀ s, strip (String (encode_char n) s) = String (encode_char n) (strip s).
Proof.
  intros Hn. pose proof chars_ok as H. rewrite forallb_forall in H. specialize (H n).
  rewrite in_seq in H. unfold char_ok in H. destruct (proj1 (andb_true_iff _ _) (H ltac:(lia))) as [H1 H2].
  breflect. split; [done|]. intros s. cbn [strip]. by rewrite !bool_decide_false.
Qed.
Lemma strip_pad s : strip (String pad s) = String pad (strip s).
Proof. done. Qed.

Lemma sextets_lt a b :
  sextet1 a < 64 ∧ sextet2 a b < 64 ∧ sextet3 a b < 64 ∧ sextet4 a < 64.
Proof.
  unfold sextet1, sextet2, sextet3, sextet4. pose proof (Ascii.nat_ascii_bounded a). pose proof (Ascii.nat_ascii_bounded b).
  pose proof (Nat.mod_upper_bound (Ascii.nat_of_ascii a) 4). pose proof (Nat.mod_upper_bound (Ascii.nat_of_ascii a) 16).
  pose proof (Nat.mod_upper_bound (Ascii.nat_of_ascii a) 64).
  assert (Ascii.nat_of_ascii a / 4 < 64) by (apply Nat.Div0.div_lt_upper_bound; lia).
  assert (Ascii.nat_of_ascii b / 16 < 16) by (apply Nat.Div0.div_lt_upper_bound; lia).
  assert (Ascii.nat_of_ascii b / 64 < 4) by (apply Nat.Div0.div_lt_upper_bound; lia). lia.
Qed.

(** The bytes of the numbers of the bytes. *)
Lemma byte1_spec a b : byte1 (sextet1 a) (sextet2 a b) = a.
Proof.
  unfold byte1, sextet1, sextet2. rewrite <-(Ascii.ascii_nat_embedding a) at 3. f_equal.
  pose proof (Ascii.nat_ascii_bounded b). rewrite Nat.div_add_l by lia. rewrite (Nat.div_small (_ / 16)).
  - pose proof (Nat.div_mod_eq (Ascii.nat_of_ascii a) 4). lia.
  - apply Nat.Div0.div_lt_upper_bound. lia.
Qed.
Lemma byte2_spec a b c : byte2 (sextet2 a b) (sextet3 b c) = b.
Proof.
  unfold byte2, sextet2, sextet3. rewrite <-(Ascii.ascii_nat_embedding b) at 3. f_equal.
  pose proof (Ascii.nat_ascii_bounded b). pose proof (Ascii.nat_ascii_bounded c).
  rewrite (Nat.add_comm (_ * 16) (_ / 16)), Nat.Div0.mod_add, Nat.div_add_l by lia.
  assert (Ascii.nat_of_ascii b / 16 < 16) by (apply Nat.Div0.div_lt_upper_bound; lia).
  assert (Ascii.nat_of_ascii c / 64 < 4) by (apply Nat.Div0.div_lt_upper_bound; lia).
  rewrite (Nat.mod_small (_ / 16)), (Nat.div_small (_ / 64)) by done.
  pose proof (Nat.div_mod_eq (Ascii.nat_of_ascii b) 16). lia.
Qed.
Lemma byte3_spec b c : byte3 (sextet3 b c) (sextet4 c) = c.
Proof.
  unfold byte3, sextet3, sextet4. rewrite <-(Ascii.ascii_nat_embedding c) at 3. f_equal.
  pose proof (Ascii.nat_ascii_bounded c). rewrite (Nat.add_comm (_ * 4) (_ / 64)), Nat.Div0.mod_add.
  rewrite (Nat.mod_small (_ / 64)) by (apply Nat.Div0.div_lt_upper_bound; lia).
  pose proof (Nat.div_mod_eq (Ascii.nat_of_ascii c) 64). lia.
Qed.

Lemma decode_encode b : decode (EncodeToString b) = Some b ∧ strip (EncodeToString b) = EncodeToString b.
Proof.
  revert b. fix IH 1. intros [|a [|b [|c rest]]]; [by clear IH| | |]; cbn [EncodeToString].
  - destruct (sextets_lt a "000") as (H1 & H2 & _). destruct (encode_char_spec _ H1) as [E1 S1], (encode_char_spec _ H2) as [E2 S2].
    rewrite S1, S2. split; [|done]. cbn [decode]. rewrite E1, E2. change (decode_char pad) with (@None nat).
    rewrite !bool_decide_true by done. cbn [andb]. by rewrite byte1_spec.
  - destruct (sextets_lt a b) as (H1 & H2 & _). destruct (sextets_lt b "000") as (_ & _ & H3 & _).
    destruct (encode_char_spec _ H1) as [E1 S1], (encode_char_spec _ H2) as [E2 S2], (encode_char_spec _ H3) as [E3 S3].
    rewrite S1, S2, S3. split; [|done]. cbn [decode]. rewrite E1, E2, E3. change (decode_char pad) with (@None nat).
    rewrite !bool_decide_true by done. cbn [andb]. by rewrite byte1_spec, byte2_spec.
  - destruct (sextets_lt a b) as (H1 & H2 & _). destruct (sextets_lt b c) as (_ & _ & H3 & _).
    destruct (sextets_lt c c) as (_ & _ & _ & H4). destruct (IH rest) as [E S].
    destruct (encode_char_spec _ H1) as [E1 S1], (encode_char_spec _ H2) as [E2 S2],
      (encode_char_spec _ H3) as [E3 S3], (encode_char_spec _ H4) as [E4 S4].
    rewrite S1, S2, S3, S4, S. split; [|done]. cbn [decode]. rewrite E1, E2, E3, E4, E. cbn [mbind option_bind].
    by rewrite byte1_spec, byte2_spec, byte3_spec.
Qed.
Lemma DecodeString_EncodeToString b : DecodeString (EncodeToString b) = Some b.
Proof. unfold DecodeString. destruct (decode_encode b) as [H ->]. done. Qed.

End Base64.

(** ** Tokens *)

Module Hmac.

Record blobUploadState := { st_Name : string; st_UUID : string; st_Offset : Z; st_StartedAt : Z }.

(** [hmac.New(sha256.New, secret)] of a message, and [json.Marshal] and
    [json.Unmarshal] of a state.  The states of the registry have names and
    identifiers that the routes of the API admit, which are ASCII: the encoder,
    which replaces bytes that are not UTF-8, loses nothing of them. *)
Class GoToken := {
  mac : string → bytes → bytes;
  json_Marshal : blobUploadState → outcome error bytes;
  json_Unmarshal : bytes → outcome error blobUploadState;
}.
Class GoTokenLaws {GT : GoToken} : Prop := {
  mac_Size secret m : String.length (mac secret m) = 32;
  json_roundtrip st m : json_Marshal st = Ret m → json_Unmarshal m = Ret st;
}.

Section token.
Context {GT : GoToken}.

Definition errInvalidSecret : error := errors_New "invalid secret".

Definition unpackUploadState (secret token : string) : outcome error blobUploadState :=
  match Base64.DecodeString token with
  | None => Fail (errors_New "illegal base64 data")
  | Some tokenBytes =>
      if String.length tokenBytes <? 32 then Fail errInvalidSecret
      else
        let macBytes := str_take 32 tokenBytes in
        let messageBytes := str_drop 32 tokenBytes in
        if negb (bool_decide (mac secret messageBytes = macBytes)) then Fail errInvalidSecret
        else json_Unmarshal messageBytes
  end.

Definition packUploadState (secret : string) (lus : blobUploadState) : outcome error string :=
  match json_Marshal lus with
  | Ret p => Ret (Base64.EncodeToString (mac secret p +:+ p))
  | Fail err => Fail err
  | Panic => Panic
  end.

Context {GTL : GoTokenLaws}.

Lemma unpack_pack secret st token : packUploadState secret st = Ret token → unpackUploadState secret token = Ret st.
Proof.
  unfold packUploadState. destruct (json_Marshal st) as [p| |] eqn:Hj; [|done..]. intros [= <-].
  unfold unpackUploadState. rewrite Base64.DecodeString_EncodeToString, str_length_app, mac_Size.
  rewrite (proj2 (Nat.ltb_ge _ _)) by lia.
  rewrite <-(mac_Size secret p), str_take_app, str_drop_app. rewrite bool_decide_true by done. by apply json_roundtrip.
Qed.

(** C30: a token carries the state that was packed, and a token is accepted only
    with the authentication code of its message under the secret: it is the
    encoding of a state that someone who can authenticate messages with the
    secret has packed. *)
Theorem upload_token_authentic secret token :
  (∀ st, packUploadState secret st = Ret token → unpackUploadState secret token = Ret st) ∧
  (∀ st, unpackUploadState secret token = Ret st →
     ∃ message, Base64.DecodeString token = Some (mac secret message +:+ message) ∧ json_Unmarshal message = Ret st).
Proof.
  split; [intros st; apply unpack_pack|]. intros st. unfold unpackUploadState.
  destruct (Base64.DecodeString token) as [tb|]; [|done]. destruct (String.length tb <? 32); [done|].
  case_bool_decide as Hm; [|done]. cbn [negb]. intros Hj. exists (str_drop 32 tb). rewrite Hm, str_take_drop. done.
Qed.

End token.
End Hmac.
