(* ===== verification/ErrCode.v ===== *)
(** * The error codes of the API

    Models registry/api/errcode (errors.go, register.go, handler.go) and
    registry/api/v2/errors.go: the codes, what they are written as, and the
    status of the responses that carry them.  Messages and details are left
    out. *)

From S2P Require Import Prelude GoStd.

Module ErrCode.

Inductive code :=
  | ErrorCodeUnknown
  | ErrorCodeUnsupported
  | ErrorCodeUnauthorized
  | ErrorCodeDenied
  | ErrorCodeUnavailable
  | ErrorCodeTooManyRequests
  | ErrorCodeDigestInvalid
  | ErrorCodeSizeInvalid
  | ErrorCodeNameInvalid
  | ErrorCodeTagInvalid
  | ErrorCodeNameUnknown
  | ErrorCodeManifestUnknown
  | ErrorCodeManifestInvalid
  | ErrorCodeManifestUnverified
  | ErrorCodeManifestBlobUnknown
  | ErrorCodeBlobUnknown
  | ErrorCodeBlobUploadUnknown
  | ErrorCodeBlobUploadInvalid
  | ErrorCodeManifestReferencedInList.
#[export] Instance code_eq_dec : EqDecision code.
Proof. solve_decision. Defined.

Record ErrorDescriptor := { Code : code; Value : string; HTTPStatusCode : Z }.
Definition register (c : code) (value : string) (status : Z) : ErrorDescriptor :=
  {| Code := c; Value := value; HTTPStatusCode := status |}.

(** [errorCodeToDescriptors]. *)
Definition Descriptor (ec : code) : ErrorDescriptor :=
  match ec with
  | ErrorCodeUnknown => register ec "UNKNOWN" 500
  | ErrorCodeUnsupported => register ec "UNSUPPORTED" 405
  | ErrorCodeUnauthorized => register ec "UNAUTHORIZED" 401
  | ErrorCodeDenied => register ec "DENIED" 403
  | ErrorCodeUnavailable => register ec "UNAVAILABLE" 503
  | ErrorCodeTooManyRequests => register ec "TOOMANYREQUESTS" 429
  | ErrorCodeDigestInvalid => register ec "DIGEST_INVALID" 400
  | ErrorCodeSizeInvalid => register ec "SIZE_INVALID" 400
  | ErrorCodeNameInvalid => register ec "NAME_INVALID" 400
  | ErrorCodeTagInvalid => register ec "TAG_INVALID" 400
  | ErrorCodeNameUnknown => register ec "NAME_UNKNOWN" 404
  | ErrorCodeManifestUnknown => register ec "MANIFEST_UNKNOWN" 404
  | ErrorCodeManifestInvalid => register ec "MANIFEST_INVALID" 400
  | ErrorCodeManifestUnverified => register ec "MANIFEST_UNVERIFIED" 400
  | ErrorCodeManifestBlobUnknown => register ec "MANIFEST_BLOB_UNKNOWN" 400
  | ErrorCodeBlobUnknown => register ec "BLOB_UNKNOWN" 404
  | ErrorCodeBlobUploadUnknown => register ec "BLOB_UPLOAD_UNKNOWN" 404
  | ErrorCodeBlobUploadInvalid => register ec "BLOB_UPLOAD_INVALID" 404
  | ErrorCodeManifestReferencedInList => register ec "MANIFEST_REFERENCED" 409
  end.
Definition codes : list code :=
  [ErrorCodeUnknown; ErrorCodeUnsupported; ErrorCodeUnauthorized; ErrorCodeDenied; ErrorCodeUnavailable;
   ErrorCodeTooManyRequests; ErrorCodeDigestInvalid; ErrorCodeSizeInvalid; ErrorCodeNameInvalid; ErrorCodeTagInvalid;
   ErrorCodeNameUnknown; ErrorCodeManifestUnknown; ErrorCodeManifestInvalid; ErrorCodeManifestUnverified;
   ErrorCodeManifestBlobUnknown; ErrorCodeBlobUnknown; ErrorCodeBlobUploadUnknown; ErrorCodeBlobUploadInvalid;
   ErrorCodeManifestReferencedInList].
Definition idToDescriptors : gmap string ErrorDescriptor := list_to_map ((λ ec, (Value (Descriptor ec), Descriptor ec)) <$> codes).

Definition MarshalText (ec : code) : string := Value (Descriptor ec).
Definition UnmarshalText (text : string) : code :=
  Code (default (Descriptor ErrorCodeUnknown) (idToDescriptors !! text)).
Definition ParseErrorCode (value : string) : code :=
  match idToDescriptors !! value with Some ed => Code ed | None => ErrorCodeUnknown end.

(** The status of a response with the errors of a request: of the first, 500 if
    it has no code. *)
Definition ServeJSON (errs : list (option code)) : Z :=
  match errs with
  | Some ec :: _ => HTTPStatusCode (Descriptor ec)
  | _ => 500
  end.

(** A code is read back from what it is written as; no two codes are written
    alike. *)
Lemma UnmarshalText_MarshalText ec : UnmarshalText (MarshalText ec) = ec ∧ ParseErrorCode (MarshalText ec) = ec.
Proof. by destruct ec. Qed.

End ErrCode.
