(* ===== verification/TokenAuth.v ===== *)
(** * Bearer tokens

    Models the access controller of registry/auth/token: the parsing of JSON web
    tokens (token.go, util.go), their verification with the key that signed them,
    and the decision whether they grant what a request needs
    (accesscontroller.go), with the resources and accesses of auth.go.

    The decoders of JSON, the certificates of crypto/x509 and the keys of libtrust
    are operations of the class [TokenCrypto]. *)

From S2P Require Import Prelude GoStd Digest DigestSet Regexp Reference Driver Hmac.

(** ** Resources *)

Module Auth.

Record Resource := { Type_ : string; Class_ : string; Name : string }.
Record Access := { Resource_ : Resource; Action : string }.
#[export] Instance Resource_eq_dec : EqDecision Resource.
Proof. solve_decision. Defined.
#[export] Instance Resource_countable : Countable Resource.
Proof.
  refine (inj_countable' (λ r, (Type_ r, Class_ r, Name r)) (λ '(t, c, n), {| Type_ := t; Class_ := c; Name := n |}) _).
  by intros [].
Defined.
#[export] Instance Access_eq_dec : EqDecision Access.
Proof. solve_decision. Defined.

End Auth.

Module TokenAuth.
Import Auth.

(** ** Tokens *)

Inductive token_err := ErrMalformedToken | ErrInvalidToken | ErrInsufficientScope | ErrTokenRequired.
#[export] Instance token_err_eq_dec : EqDecision token_err.
Proof. solve_decision. Defined.

Record ResourceActions := { ra_Type : string; ra_Class : string; ra_Name : string; Actions : list string }.
#[export] Instance ResourceActions_eq_dec : EqDecision ResourceActions.
Proof. solve_decision. Defined.
(** An entry of the list of accesses may be null. *)
Record ClaimSet := {
  Issuer : string;
  Subject : string;
  Audience : string;
  Expiration : Z;
  NotBefore : Z;
  IssuedAt : Z;
  JWTID : string;
  Access : list (option ResourceActions);
}.
Record Header := { h_Type : string; SigningAlg : string; KeyID : string; X5c : list string; RawJWK : option bytes }.
Record Token := { Raw : string; t_Header : Header; Claims : ClaimSet; Signature : bytes }.

(** Keys and certificates.  The chain that a JSON web key may have is a list of
    strings, in which [None] is a value that is not a string. *)
Class TokenCrypto := {
  json_Header : bytes → option Header;
  json_ClaimSet : bytes → option ClaimSet;
  PublicKey : Type;
  key_KeyID : PublicKey → string;
  key_Verify : PublicKey → string → string → bytes → bool;
  UnmarshalPublicKeyJWK : bytes → option PublicKey;
  jwk_x5c : PublicKey → option (list (option string));
  Certificate : Type;
  ParseCertificate : bytes → option Certificate;
  (** [Verify] with intermediates and roots, at a time. *)
  cert_Verify : Z → Certificate → list Certificate → list Certificate → bool;
  cert_PublicKey : Certificate → option PublicKey;
}.

(** *** util.go *)

Fixpoint trim_right (c : ascii) (s : string) : string :=
  match s with
  | "" => ""
  | String a s =>
      match trim_right c s with
      | "" => if bool_decide (a = c) then "" else String a ""
      | s => String a s
      end
  end.
Definition joseBase64UrlEncode (b : bytes) : string := trim_right Base64.pad (Base64.EncodeToString b).
Definition joseBase64UrlDecode (s : string) : option bytes :=
  match String.length s mod 4 with
  | 0 => Base64.DecodeString s
  | 2 => Base64.DecodeString (s +:+ "==")
  | 3 => Base64.DecodeString (s +:+ "=")
  | _ => None
  end.
(** [base64.StdEncoding], which has other characters for 62 and 63. *)
Definition std_char (c : ascii) : option ascii :=
  if bool_decide (c = "-"%char ∨ c = "_"%char) then None
  else Some (if bool_decide (c = "+"%char) then "-"%char else if bool_decide (c = "/"%char) then "_"%char else c).
Fixpoint std_chars (s : string) : option string :=
  match s with
  | "" => Some ""
  | String c s => c ← std_char c; s ← std_chars s; Some (String c s)
  end.
Definition StdEncoding_DecodeString (s : string) : option bytes := u ← std_chars s; Base64.DecodeString u.
Definition contains (ss : list string) (q : string) : bool := existsb (λ s, bool_decide (s = q)) ss.

Section token.
Context {TC : TokenCrypto}.

Definition dot : ascii := ".".
Definition NewToken (rawToken : string) : outcome token_err Token :=
  match Split dot rawToken with
  | [rawHeader; rawClaims; rawSignature] =>
      match joseBase64UrlDecode rawHeader, joseBase64UrlDecode rawClaims, joseBase64UrlDecode rawSignature with
      | Some headerJSON, Some claimsJSON, Some signature =>
          match json_Header headerJSON, json_ClaimSet claimsJSON with
          | Some header, Some claims =>
              Ret {| Raw := Join [rawHeader; rawClaims] "."; t_Header := header; Claims := claims; Signature := signature |}
          | _, _ => Fail ErrMalformedToken
          end
      | _, _, _ => Fail ErrMalformedToken
      end
  | _ => Fail ErrMalformedToken
  end.
Definition compactRaw (t : Token) : string := Raw t +:+ "." +:+ joseBase64UrlEncode (Signature t).

(** *** The signing key *)

Record VerifyOptions := {
  TrustedIssuers : list string;
  AcceptedAudiences : list string;
  Roots : list Certificate;
  TrustedKeys : gmap string PublicKey;
}.
Definition parse_cert (s : string) : option Certificate := der ← StdEncoding_DecodeString s; ParseCertificate der.
Definition parseAndVerifyCertChain (now : Z) (x5c : list string) (roots : list Certificate) : option PublicKey :=
  match x5c with
  | [] => None
  | leaf :: rest =>
      leafCert ← parse_cert leaf;
      intermediates ← mapM parse_cert rest;
      if cert_Verify now leafCert intermediates roots then cert_PublicKey leafCert else None
  end.
Definition cert_string (v : option string) : option string :=
  s ← v; if bool_decide (s = "") then None else Some s.
Definition parseAndVerifyRawJWK (now : Z) (rawJWK : bytes) (opts : VerifyOptions) : option PublicKey :=
  pubKey ← UnmarshalPublicKeyJWK rawJWK;
  match jwk_x5c pubKey with
  | None => match TrustedKeys opts !! key_KeyID pubKey with Some _ => Some pubKey | None => None end
  | Some x5cVal =>
      x5c ← mapM cert_string x5cVal;
      leafKey ← parseAndVerifyCertChain now x5c (Roots opts);
      if bool_decide (key_KeyID pubKey = key_KeyID leafKey) then Some pubKey else None
  end.
Definition VerifySigningKey (now : Z) (t : Token) (opts : VerifyOptions) : option PublicKey :=
  let h := t_Header t in
  match X5c h, RawJWK h with
  | _ :: _, _ => parseAndVerifyCertChain now (X5c h) (Roots opts)
  | [], Some rawJWK => parseAndVerifyRawJWK now rawJWK opts
  | [], None => if bool_decide (KeyID h = "") then None else TrustedKeys opts !! KeyID h
  end.

(** *** Times

    A time is the seconds since the year 1, which wrap around at 64 bits, and the
    nanoseconds; [Add] stops at the bounds. *)
Definition wrap64 (x : Z) : Z := ((x + 2 ^ 63) mod 2 ^ 64 - 2 ^ 63)%Z.
Definition unixToInternal : Z := 62135596800.
Definition Leeway : Z := 60.
Definition time_Unix (sec : Z) : Z := wrap64 (sec + unixToInternal).
Definition addSec (t d : Z) : Z :=
  let sum := wrap64 (t + d) in
  if Bool.eqb (t <? sum)%Z (0 <? d)%Z then sum else if (0 <? d)%Z then 2 ^ 63 - 1 else - (2 ^ 63 - 1).
(** The time of the check is in nanoseconds since 1970. *)
Definition After (now t : Z) : bool := (t * 10 ^ 9 <? now + unixToInternal * 10 ^ 9)%Z.
Definition Before (now t : Z) : bool := (now + unixToInternal * 10 ^ 9 <? t * 10 ^ 9)%Z.

Definition Verify (now : Z) (t : Token) (opts : VerifyOptions) : outcome token_err unit :=
  let c := Claims t in
  if negb (contains (TrustedIssuers opts) (Issuer c)) then Fail ErrInvalidToken
  else if negb (contains (AcceptedAudiences opts) (Audience c)) then Fail ErrInvalidToken
  else if After now (addSec (time_Unix (Expiration c)) Leeway) then Fail ErrInvalidToken
  else if Before now (addSec (time_Unix (NotBefore c)) (- Leeway)) then Fail ErrInvalidToken
  else if bool_decide (Signature t = "") then Fail ErrInvalidToken
  else
    match VerifySigningKey now t opts with
    | None => Fail ErrInvalidToken
    | Some signingKey =>
        if key_Verify signingKey (Raw t) (SigningAlg (t_Header t)) (Signature t) then Ret () else Fail ErrInvalidToken
    end.

(** *** Accesses *)

Abbreviation accessSet := (gmap Resource (gset string)).
Definition add_actions (actions : list string) (r : Resource) (s : accessSet) : accessSet :=
  <[r := default ∅ (s !! r) ∪ list_to_set actions]> s.
Definition newAccessSet (accessItems : list Auth.Access) : accessSet :=
  foldl (λ s a, add_actions [Action a] {| Type_ := Type_ (Resource_ a); Class_ := ""; Name := Name (Resource_ a) |} s) ∅ accessItems.
Definition actionSet_contains (s : gset string) (action : string) : bool := bool_decide ("*" ∈ s) || bool_decide (action ∈ s).
Definition accessSet_contains (s : accessSet) (access : Auth.Access) : bool :=
  match s !! Resource_ access with Some actions => actionSet_contains actions (Action access) | None => false end.

(** The entries of a token; a null one is a nil pointer. *)
Fixpoint add_entries (entries : list (option ResourceActions)) (s : accessSet) : outcome token_err accessSet :=
  match entries with
  | [] => Ret s
  | None :: _ => Panic
  | Some ra :: entries => add_entries entries (add_actions (Actions ra) {| Type_ := ra_Type ra; Class_ := ""; Name := ra_Name ra |} s)
  end.
Definition token_accessSet (t : Token) : outcome token_err accessSet := add_entries (Access (Claims t)) ∅.
(** In any order. *)
Definition token_resources (t : Token) : gset Resource :=
  list_to_set (omap (λ e, (λ ra, {| Type_ := ra_Type ra; Class_ := ra_Class ra; Name := ra_Name ra |}) <$> e) (Access (Claims t))).

(** *** The access controller *)

Record accessController := {
  realm : string;
  autoRedirect : bool;
  issuer : string;
  service : string;
  rootCerts : list Certificate;
  trustedKeys : gmap string PublicKey;
}.
(** The keys of the root certificates, of which there is at least one. *)
Fixpoint root_keys (certs : list Certificate) (keys : gmap string PublicKey) : option (gmap string PublicKey) :=
  match certs with
  | [] => Some keys
  | cert :: certs => pubKey ← cert_PublicKey cert; root_keys certs (<[key_KeyID pubKey := pubKey]> keys)
  end.
Definition newAccessController (realm : string) (autoRedirect : bool) (issuer service : string) (certs : list Certificate) : option accessController :=
  match certs with
  | [] => None
  | _ => keys ← root_keys certs ∅;
      Some {| realm := realm; autoRedirect := autoRedirect; issuer := issuer; service := service; rootCerts := certs; trustedKeys := keys |}
  end.
Definition verifyOpts (ac : accessController) : VerifyOptions :=
  {| TrustedIssuers := [issuer ac]; AcceptedAudiences := [service ac]; Roots := rootCerts ac; TrustedKeys := trustedKeys ac |}.

Context {Un : Reference.Unicode}.
Definition bearer (authorization : string) : option string :=
  match Split " " authorization with
  | [scheme; rawToken] => if bool_decide (Reference.ToLower scheme = "bearer") then Some rawToken else None
  | _ => None
  end.
(** The user and the resources of a request with that header; a failure is a
    challenge. *)
Definition Authorized (now : Z) (ac : accessController) (authorization : string) (accessItems : list Auth.Access) :
    outcome token_err (string * gset Resource) :=
  match bearer authorization with
  | None => Fail ErrTokenRequired
  | Some rawToken =>
      (let* token := NewToken rawToken in
       let* _ := Verify now token (verifyOpts ac) in
       let* set := token_accessSet token in
       if forallb (accessSet_contains set) accessItems
       then Ret (Subject (Claims token), token_resources token) else Fail ErrInsufficientScope)%go
  end.

(** ** Parsing what was serialized *)

Lemma trim_right_app c s t : trim_right c t ≠ "" → trim_right c (s +:+ t) = s +:+ trim_right c t.
Proof.
  intros Ht. induction s as [|a s IH]; [done|]. rewrite !str_app_cons. cbn [trim_right]. rewrite IH.
  destruct (s +:+ trim_right c t) eqn:He; [|done]. apply str_app_eq_nil in He as [_ ?]. done.
Qed.
(** The characters of an encoding are neither paddings nor separators. *)
Lemma encode_char_plain n : n < 64 → Base64.encode_char n ≠ Base64.pad ∧ Base64.encode_char n ≠ dot.
Proof.
  intros Hn. assert (forallb (λ n, bool_decide (Base64.encode_char n ≠ Base64.pad ∧ Base64.encode_char n ≠ dot)) (seq 0 64) = true) as H
    by (vm_compute; reflexivity).
  rewrite forallb_forall in H. specialize (H n). rewrite in_seq, bool_decide_eq_true in H. apply H. lia.
Qed.
Definition plain (s : string) : bool := str_all (λ c, bool_decide (c ≠ Base64.pad) && bool_decide (c ≠ dot)) s.
Lemma plain_encode n s : n < 64 → plain (String (Base64.encode_char n) s) = plain s.
Proof. intros [H1 H2]%encode_char_plain. unfold plain. cbn [str_all]. by rewrite !bool_decide_true. Qed.
Lemma trim_right_plain s p : plain s = true → str_all (λ c, bool_decide (c = Base64.pad)) p = true → trim_right Base64.pad (s +:+ p) = s.
Proof.
  intros Hs Hp. assert (trim_right Base64.pad p = "") as Hp0.
  { clear Hs. induction p as [|c p IH]; [done|]. cbn in Hp |- *. apply andb_true_iff in Hp as [Hc Hp]. rewrite (IH Hp). by rewrite Hc. }
  induction s as [|c s IH]; [exact Hp0|]. unfold plain in Hs. cbn [str_all] in Hs. apply andb_true_iff in Hs as [Hc Hs].
  rewrite str_app_cons. cbn [trim_right]. rewrite (IH Hs). destruct s; [|done]. apply andb_true_iff in Hc as [Hc _]. apply bool_decide_eq_true in Hc. by rewrite bool_decide_false.
Qed.
(** An encoding is plain but for its padding. *)
Lemma encode_shape b : ∃ e p,
  Base64.EncodeToString b = e +:+ p ∧ plain e = true ∧
  ((p = "" ∧ String.length e mod 4 = 0) ∨ (p = "=" ∧ String.length e mod 4 = 3) ∨ (p = "==" ∧ String.length e mod 4 = 2)).
Proof.
  revert b. fix IH 1. intros [|a [|b [|c rest]]]; [clear IH; by exists "", ""; auto| | |]; cbn [Base64.EncodeToString].
  - clear IH. destruct (Base64.sextets_lt a "000") as (H1 & H2 & _).
    exists (String (Base64.encode_char (Base64.sextet1 a)) (String (Base64.encode_char (Base64.sextet2 a "000")) "")), "==".
    split; [done|]. rewrite !plain_encode by done. auto.
  - clear IH. destruct (Base64.sextets_lt a b) as (H1 & H2 & _), (Base64.sextets_lt b "000") as (_ & _ & H3 & _).
    exists (String (Base64.encode_char (Base64.sextet1 a)) (String (Base64.encode_char (Base64.sextet2 a b))
      (String (Base64.encode_char (Base64.sextet3 b "000")) ""))), "=".
    split; [done|]. rewrite !plain_encode by done. auto.
  - destruct (IH rest) as (e & p & He & Hp & Hl). clear IH.
    destruct (Base64.sextets_lt a b) as (H1 & H2 & _), (Base64.sextets_lt b c) as (_ & _ & H3 & _), (Base64.sextets_lt c a) as (_ & _ & _ & H4).
    exists (String (Base64.encode_char (Base64.sextet1 a)) (String (Base64.encode_char (Base64.sextet2 a b))
      (String (Base64.encode_char (Base64.sextet3 b c)) (String (Base64.encode_char (Base64.sextet4 c)) e)))), p.
    split; [by rewrite He|]. rewrite !plain_encode by done. split; [done|].
    assert (∀ c1 c2 c3 c4, String.length (String c1 (String c2 (String c3 (String c4 e)))) mod 4 = String.length e mod 4) as ->; [|done].
    intros. cbn [String.length]. replace (S (S (S (S (String.length e))))) with (String.length e + 1 * 4) by lia. apply Nat.Div0.mod_add.
Qed.
Lemma jose_roundtrip b : joseBase64UrlDecode (joseBase64UrlEncode b) = Some b ∧ no_byte dot (joseBase64UrlEncode b) = true.
Proof.
  destruct (encode_shape b) as (e & p & He & Hp & Hl). pose proof (Base64.DecodeString_EncodeToString b) as Hd.
  unfold joseBase64UrlEncode. rewrite He in Hd |- *. rewrite trim_right_plain; [|done|by destruct Hl as [[-> _]|[[-> _]|[-> _]]]].
  split.
  - unfold joseBase64UrlDecode. destruct Hl as [[-> Hm]|[[-> Hm]|[-> Hm]]]; rewrite Hm; rewrite ?str_app_nil_r in Hd; exact Hd.
  - unfold no_byte. revert Hp. apply str_all_impl. intros c [_ Hc]%andb_true_iff. exact Hc.
Qed.
Lemma Split_pieces sep s : Forall (λ w, no_byte sep w = true) (Split sep s).
Proof.
  induction s as [|c s IH]; cbn; [by repeat constructor|]. case_bool_decide as Hc; [by constructor|].
  destruct (Split sep s) as [|w ws] eqn:Hs; [by apply Split_ne_nil in Hs|]. apply Forall_cons in IH as [Hw Hws]. constructor; [|done].
  unfold no_byte in *. cbn. rewrite Hw. by rewrite bool_decide_true.
Qed.

(** A token that was parsed is parsed again from its compact form. *)
Lemma compactRaw_roundtrip raw t : NewToken raw = Ret t → NewToken (compactRaw t) = Ret t.
Proof.
  unfold NewToken at 1. pose proof (Split_pieces dot raw) as Hp. destruct (Split dot raw) as [|h [|c [|g [|]]]]; try done.
  apply Forall_cons in Hp as [Hh [Hc _]%Forall_cons].
  destruct (joseBase64UrlDecode h) as [hj|] eqn:Eh; [|done]. destruct (joseBase64UrlDecode c) as [cj|] eqn:Ec; [|done].
  destruct (joseBase64UrlDecode g) as [sig|] eqn:Eg; [|done]. destruct (json_Header hj) as [hd|] eqn:Jh; [|done].
  destruct (json_ClaimSet cj) as [cl|] eqn:Jc; [|done]. intros Ht. destruct (jose_roundtrip sig) as [Hd Hn].
  assert (t = {| Raw := Join [h; c] "."; t_Header := hd; Claims := cl; Signature := sig |}) as -> by congruence. clear Ht.
  assert (compactRaw {| Raw := Join [h; c] "."; t_Header := hd; Claims := cl; Signature := sig |} =
    Join [h; c; joseBase64UrlEncode sig] (String dot "")) as -> by (unfold compactRaw; cbn; by rewrite <-!str_app_assoc).
  unfold NewToken.
  rewrite Split_Join by (done || by repeat constructor). by rewrite Eh, Ec, Hd, Jh, Jc.
Qed.

(** ** What a token grants *)

(** The token lists the resource, without a class, with the action or with all
    actions. *)
Definition grants (t : Token) (a : Auth.Access) : Prop :=
  Class_ (Resource_ a) = "" ∧
  ∃ ra, Some ra ∈ Access (Claims t) ∧ ra_Type ra = Type_ (Resource_ a) ∧ ra_Name ra = Name (Resource_ a) ∧
        ("*" ∈ Actions ra ∨ Action a ∈ Actions ra).

Definition listed (s : accessSet) (r : Resource) (action : string) : Prop := ∃ actions, s !! r = Some actions ∧ action ∈ actions.
Lemma listed_add actions r s r' a :
  listed (add_actions actions r s) r' a ↔ (r = r' ∧ a ∈ actions) ∨ listed s r' a.
Proof.
  unfold listed, add_actions. destruct (decide (r = r')) as [->|Hne].
  - setoid_rewrite lookup_insert_eq. split.
    + intros (? & [= <-] & Ha). apply elem_of_union in Ha as [Ha|Ha]; [right|left; set_solver].
      destruct (s !! r') as [u|]; [by exists u|set_solver].
    + intros [[_ Ha]|(u & Hu & Ha)]; eexists; (split; [done|]); [set_solver|]. rewrite Hu. cbn. set_solver.
  - setoid_rewrite lookup_insert_ne; [|done]. naive_solver.
Qed.
Lemma accessSet_contains_listed s a :
  accessSet_contains s a = true ↔ listed s (Resource_ a) "*" ∨ listed s (Resource_ a) (Action a).
Proof.
  unfold accessSet_contains, actionSet_contains, listed. destruct (s !! Resource_ a) as [u|]; [|naive_solver].
  rewrite orb_true_iff, !bool_decide_eq_true. naive_solver.
Qed.
Lemma add_entries_listed entries : ∀ s s' r a,
  add_entries entries s = Ret s' →
  listed s' r a ↔ listed s r a ∨ (Class_ r = "" ∧ ∃ ra, Some ra ∈ entries ∧ ra_Type ra = Type_ r ∧ ra_Name ra = Name r ∧ a ∈ Actions ra).
Proof.
  induction entries as [|[ra|] entries IH]; intros s s' r a; cbn; [|intros H|done].
  - intros [= ->]. set_solver.
  - rewrite (IH _ _ r a H), listed_add. destruct r as [ty cl nm]. cbn. split.
    + intros [[[[= <- <- <-] Ha]|Hl]|(Hc & ra' & Hin & Hr)]; [right; split; [done|]; exists ra; set_solver|by left|].
      right. split; [done|]. exists ra'. set_solver.
    + intros [Hl|(-> & ra' & [->%(inj Some)|Hin]%elem_of_cons & <- & <- & Ha)]; [by left; right|by left; left|].
      right. split; [done|]. exists ra'. naive_solver.
Qed.
Lemma token_grants t s a : token_accessSet t = Ret s → accessSet_contains s a = true ↔ grants t a.
Proof.
  intros Hs. rewrite accessSet_contains_listed, !(add_entries_listed _ _ _ _ _ Hs). unfold grants, listed.
  setoid_rewrite lookup_empty. naive_solver.
Qed.
(** Without null entries the set can be built. *)
Lemma token_accessSet_ok t : None ∉ Access (Claims t) ↔ ∃ s, token_accessSet t = Ret s.
Proof.
  unfold token_accessSet. generalize (∅ : accessSet). induction (Access (Claims t)) as [|[ra|] es IH]; intros s; cbn.
  - split; [by eexists|]. intros _. apply not_elem_of_nil.
  - rewrite <-IH. rewrite not_elem_of_cons. naive_solver.
  - split; [set_solver|]. by intros [].
Qed.

(** ** The times *)

Lemma wrap64_small x : (- 2 ^ 63 ≤ x < 2 ^ 63)%Z → wrap64 x = x.
Proof. intros Hx. unfold wrap64. rewrite Z.mod_small; lia. Qed.
(** For dates that are not close to the bounds of 64 bits the check is the plain
    comparison, with a minute of leeway. *)
Lemma expiration_check now sec :
  (- 2 ^ 62 ≤ sec ≤ 2 ^ 62)%Z →
  (After now (addSec (time_Unix sec) Leeway) = false ↔ (now ≤ (sec + Leeway) * 10 ^ 9)%Z) ∧
  (Before now (addSec (time_Unix sec) (- Leeway)) = false ↔ ((sec - Leeway) * 10 ^ 9 ≤ now)%Z).
Proof.
  intros Hs. unfold time_Unix, addSec. rewrite !(wrap64_small (sec + unixToInternal)) by (unfold unixToInternal; lia).
  rewrite !wrap64_small by (unfold unixToInternal, Leeway; lia).
  replace (sec + unixToInternal <? sec + unixToInternal + Leeway)%Z with true by (symmetry; apply Z.ltb_lt; unfold Leeway; lia).
  replace (sec + unixToInternal <? sec + unixToInternal + - Leeway)%Z with false by (symmetry; apply Z.ltb_ge; unfold Leeway; lia).
  change (0 <? - Leeway)%Z with false. change (0 <? Leeway)%Z with true. cbn [Bool.eqb]. unfold After, Before. rewrite !Z.ltb_ge. unfold Leeway. lia.
Qed.

(** ** The decision *)

(** A key that a trusted certificate vouches for. *)
Definition certified (now : Z) (opts : VerifyOptions) (x5c : list string) (key : PublicKey) : Prop :=
  ∃ leaf rest leafCert intermediates,
    x5c = leaf :: rest ∧ parse_cert leaf = Some leafCert ∧ mapM parse_cert rest = Some intermediates ∧
    cert_Verify now leafCert intermediates (Roots opts) = true ∧ cert_PublicKey leafCert = Some key.
Lemma parseAndVerifyCertChain_spec now x5c opts key :
  parseAndVerifyCertChain now x5c (Roots opts) = Some key ↔ certified now opts x5c key.
Proof.
  unfold parseAndVerifyCertChain, certified. destruct x5c as [|leaf rest]; [naive_solver|]. split.
  - intros (leafCert & Hl & (ins & Hi & H)%bind_Some)%bind_Some. destruct (cert_Verify _ _ _ _) eqn:Hv; [|done]. by exists leaf, rest, leafCert, ins.
  - intros (? & ? & leafCert & ins & [= <- <-] & Hl & Hi & Hv & Hk). rewrite Hl. cbn. rewrite Hi. cbn. by rewrite Hv.
Qed.

(** A key that is trusted: a configured one, or one with the identifier of a key
    that a trusted certificate vouches for. *)
Definition trusted (now : Z) (ac : accessController) (key : PublicKey) : Prop :=
  (∃ key', trustedKeys ac !! key_KeyID key = Some key') ∨
  (∃ x5c key', certified now (verifyOpts ac) x5c key' ∧ key_KeyID key' = key_KeyID key).
(** The map of the trusted keys is by their identifiers. *)
Definition keyed (ac : accessController) : Prop := ∀ id key, trustedKeys ac !! id = Some key → key_KeyID key = id.
Lemma newAccessController_keyed r b i s certs ac : newAccessController r b i s certs = Some ac → keyed ac.
Proof.
  destruct certs as [|cert certs]; [done|]. unfold newAccessController. intros (keys & Hk & [= <-])%bind_Some.
  assert (∀ id key, (∅ : gmap string PublicKey) !! id = Some key → key_KeyID key = id) as H0 by done.
  unfold keyed. cbn. revert Hk H0. generalize (∅ : gmap string PublicKey). generalize (cert :: certs). clear.
  intros certs. induction certs as [|cert certs IH]; intros m; cbn; [by intros [= ->]|].
  intros (pk & Hpk & Hr)%bind_Some H0. apply (IH _ Hr). intros id key. rewrite lookup_insert_Some. naive_solver.
Qed.
Lemma VerifySigningKey_trusted now t ac key : keyed ac → VerifySigningKey now t (verifyOpts ac) = Some key → trusted now ac key.
Proof.
  intros Hk. unfold VerifySigningKey. destruct (X5c (t_Header t)) as [|c x5c]; [destruct (RawJWK (t_Header t)) as [jwk|]|].
  - unfold parseAndVerifyRawJWK. intros (pk & Hpk & Hc)%bind_Some. destruct (jwk_x5c pk) as [x5cVal|].
    + apply bind_Some in Hc as (x5c & Hx & (leaf & Hl & Hc)%bind_Some). case_bool_decide; [|done]. injection Hc as ->.
      right. exists x5c, leaf. split; [by apply parseAndVerifyCertChain_spec|done].
    + destruct (TrustedKeys _ !! _) as [key'|] eqn:Ht; [|done]. injection Hc as ->. left. by exists key'.
  - case_bool_decide; [done|]. intros Hl. left. exists key. by rewrite (Hk _ _ Hl).
  - intros H. right. exists (c :: x5c), key. by split; [apply parseAndVerifyCertChain_spec|].
Qed.

(** A token that is valid at a time, for the key that signed it. *)
Record valid (now : Z) (ac : accessController) (t : Token) (key : PublicKey) : Prop := {
  valid_issuer : Issuer (Claims t) = issuer ac;
  valid_audience : Audience (Claims t) = service ac;
  valid_expiration : After now (addSec (time_Unix (Expiration (Claims t))) Leeway) = false;
  valid_not_before : Before now (addSec (time_Unix (NotBefore (Claims t))) (- Leeway)) = false;
  valid_signed : Signature t ≠ "";
  valid_key : VerifySigningKey now t (verifyOpts ac) = Some key;
  valid_signature : key_Verify key (Raw t) (SigningAlg (t_Header t)) (Signature t) = true;
}.
Lemma contains_one s q : contains [s] q = true ↔ q = s.
Proof. unfold contains. cbn. rewrite orb_false_r, bool_decide_eq_true. naive_solver. Qed.
Lemma Verify_valid now ac t : Verify now t (verifyOpts ac) = Ret () ↔ ∃ key, valid now ac t key.
Proof.
  unfold Verify. cbn [TrustedIssuers AcceptedAudiences verifyOpts]. split.
  - destruct (contains [issuer ac] _) eqn:Hi; [|done]. destruct (contains [service ac] _) eqn:Ha; [|done]. cbn.
    destruct (After _ _) eqn:He; [done|]. destruct (Before _ _) eqn:Hn; [done|]. case_bool_decide; [done|].
    destruct (VerifySigningKey _ _ _) as [key|] eqn:Hk; [|done]. destruct (key_Verify _ _ _ _) eqn:Hv; [|done]. intros _.
    exists key. apply contains_one in Hi, Ha. by constructor.
  - intros [key []]. rewrite !(proj2 (contains_one _ _)) by done. cbn.
    by rewrite valid_expiration0, valid_not_before0, bool_decide_false, valid_key0, valid_signature0.
Qed.
Lemma Verify_fails now t opts : Verify now t opts = Ret () ∨ Verify now t opts = Fail ErrInvalidToken.
Proof. unfold Verify. repeat case_match; auto. Qed.
Lemma NewToken_fails raw : NewToken raw = Fail ErrMalformedToken ∨ ∃ t, NewToken raw = Ret t.
Proof. unfold NewToken. repeat case_match; eauto. Qed.

Lemma bearer_spec authorization raw :
  bearer authorization = Some raw ↔ ∃ scheme, Split " " authorization = [scheme; raw] ∧ Reference.ToLower scheme = "bearer".
Proof. unfold bearer. repeat case_match; try case_bool_decide; naive_solver. Qed.

Lemma forallb_grants t s items : token_accessSet t = Ret s → forallb (accessSet_contains s) items = true ↔ Forall (grants t) items.
Proof. intros Hs. rewrite forallb_forall, Forall_forall. setoid_rewrite list_elem_of_In. by setoid_rewrite (token_grants _ _ _ Hs). Qed.

Lemma Authorized_iff now ac authorization items user rs :
  Authorized now ac authorization items = Ret (user, rs) ↔
  ∃ scheme raw t key,
    (Split " " authorization = [scheme; raw] ∧ Reference.ToLower scheme = "bearer") ∧ NewToken raw = Ret t ∧ valid now ac t key ∧
    (None ∉ Access (Claims t)) ∧ Forall (grants t) items ∧ user = Subject (Claims t) ∧ rs = token_resources t.
Proof.
  split.
  - unfold Authorized. destruct (bearer authorization) as [raw|] eqn:Hb; [|done]. apply bearer_spec in Hb as (scheme & Hb).
    destruct (NewToken raw) as [t| |] eqn:Ht; [|done..]. cbn. destruct (Verify _ _ _) as [[]| |] eqn:Hv; [|done..]. cbn.
    apply Verify_valid in Hv as [key Hv]. destruct (token_accessSet t) as [s| |] eqn:Hs; [|done..]. cbn.
    destruct (forallb _ _) eqn:Hf; [|done]. intros [= <- <-]. exists scheme, raw, t, key.
    repeat (split; [first [done|by apply token_accessSet_ok; exists s|by apply (forallb_grants _ _ _ Hs)]|]); done.
  - intros (scheme & raw & t & key & Hb & Ht & Hv & Hn & Hg & -> & ->). unfold Authorized.
    rewrite (proj2 (bearer_spec _ raw)) by eauto. rewrite Ht. cbn. rewrite (proj2 (Verify_valid now ac t)) by eauto. cbn.
    apply token_accessSet_ok in Hn as [s Hs]. rewrite Hs. cbn. by rewrite (proj2 (forallb_grants _ _ _ Hs)).
Qed.

(** A request is authorized exactly if its header is a bearer token, which can
    be parsed, is of the issuer and for the service, neither expired nor used too
    early, signed by a key that is found for it, and grants every access that is
    needed; the answer has the subject and the resources of the token.  The key
    is one of the configured ones or is certified by a configured root, and for
    dates within 64 bits the times are compared with a leeway of a minute.  All
    other requests are challenged, but for a token with a null access. *)
Theorem token_authorized now ac authorization items :
  (∀ user rs,
    Authorized now ac authorization items = Ret (user, rs) ↔
    ∃ scheme raw t key,
      (Split " " authorization = [scheme; raw] ∧ Reference.ToLower scheme = "bearer") ∧ NewToken raw = Ret t ∧ valid now ac t key ∧
      (None ∉ Access (Claims t)) ∧ Forall (grants t) items ∧ user = Subject (Claims t) ∧ rs = token_resources t) ∧
  (∀ t key, keyed ac → valid now ac t key →
    trusted now ac key ∧
    ((- 2 ^ 62 ≤ Expiration (Claims t) ≤ 2 ^ 62)%Z → (now ≤ (Expiration (Claims t) + 60) * 10 ^ 9)%Z) ∧
    ((- 2 ^ 62 ≤ NotBefore (Claims t) ≤ 2 ^ 62)%Z → ((NotBefore (Claims t) - 60) * 10 ^ 9 ≤ now)%Z)) ∧
  (Authorized now ac authorization items = Panic →
    ∃ scheme raw t, Split " " authorization = [scheme; raw] ∧ NewToken raw = Ret t ∧ None ∈ Access (Claims t)).
Proof.
  split; [|split].
  - intros user rs. apply Authorized_iff.
  - intros t key Hk Hv. split; [by eapply VerifySigningKey_trusted, valid_key|]. destruct Hv. split; intros Hb; by apply (expiration_check now _ Hb).
  - unfold Authorized. destruct (bearer authorization) as [raw|] eqn:Hb; [|done]. apply bearer_spec in Hb as (scheme & Hb & _).
    destruct (NewToken_fails raw) as [->|[t Ht]]; [done|]. rewrite Ht. cbn. destruct (Verify_fails now t (verifyOpts ac)) as [->| ->]; [|done].
    cbn. intros Hp. exists scheme, raw, t. split_and!; try done. apply dec_stable. intros [s Hs]%token_accessSet_ok. rewrite Hs in Hp. cbn in Hp.
    by destruct (forallb _ _).
Qed.
End token.
End TokenAuth.
