(* ===== verification/Htpasswd.v ===== *)
(** * Passwords

    Models the access controller of registry/auth/htpasswd: the file of users and
    hashes (htpasswd.go), which is parsed again when its time changes, and the
    check of the credentials of a request (access.go).  The comparison of a hash
    with a password is the parameter [CompareHashAndPassword]. *)

From S2P Require Import Prelude GoStd Digest Driver Regexp DigestSet Reference.

Module Htpasswd.

(** ** The file *)

(** [strings.TrimSpace]; on strings that are not ASCII it uses the tables of the
    package unicode. *)
Class UnicodeSpace := { unicode_TrimSpace : string → string }.
Definition is_space (c : ascii) : bool :=
  bool_decide (c ∈ ["009"; "010"; "011"; "012"; "013"; " "]%char).
Fixpoint trim_left_space (s : string) : string :=
  match s with
  | "" => ""
  | String c s' => if is_space c then trim_left_space s' else s
  end.
Fixpoint trim_right_space (s : string) : string :=
  match s with
  | "" => ""
  | String c s =>
      match trim_right_space s with
      | "" => if is_space c then "" else String c ""
      | s => String c s
      end
  end.

(** [bufio.Scanner] with lines: a carriage return at the end of a line is
    dropped, and an empty last line is none.  A line that does not fit into the
    buffer ends the scan with an error. *)
Definition newline : ascii := "010".
Definition MaxScanTokenSize : N := 65536.
Fixpoint drop_cr (s : string) : string :=
  match s with
  | "" => ""
  | String c "" => if bool_decide (c = "013"%char) then "" else s
  | String c s => String c (drop_cr s)
  end.
Fixpoint drop_last_empty (lines : list string) : list string :=
  match lines with
  | [] => []
  | [l] => if bool_decide (l = "") then [] else [l]
  | l :: lines => l :: drop_last_empty lines
  end.
Definition raw_lines (text : bytes) : list string := drop_last_empty (Split newline text).

(** The map from users to hashes; the error is the number of the invalid line, or
    that of the scanner. *)
Inductive htpasswd_err := InvalidEntry (line : nat) | ErrTooLong.
Abbreviation entries := (gmap string bytes).
Fixpoint cut_colon (s : string) : option (string * string) :=
  match s with
  | "" => None
  | String c s =>
      if bool_decide (c = ":"%char) then Some ("", s)
      else match cut_colon s with Some (u, v) => Some (String c u, v) | None => None end
  end.

Section htpasswd.
Context {US : UnicodeSpace} (CompareHashAndPassword : bytes → bytes → bool).

Definition TrimSpace (s : string) : string :=
  if str_all Reference.is_ascii s then trim_right_space (trim_left_space s) else unicode_TrimSpace s.
Definition is_comment (t : string) : bool := match t with String c _ => bool_decide (c = "#"%char) | "" => false end.
Fixpoint parse_lines (lines : list string) (line : nat) (es : entries) : outcome htpasswd_err entries :=
  match lines with
  | [] => Ret es
  | raw :: lines =>
      if (MaxScanTokenSize <=? N.of_nat (String.length raw))%N then Fail ErrTooLong
      else
        let line := S line in
        let t := TrimSpace (drop_cr raw) in
        if bool_decide (t = "") then parse_lines lines line es
        else if is_comment t then parse_lines lines line es
        else
          match cut_colon t with
          | None => Fail (InvalidEntry line)
          | Some (user, hash) => parse_lines lines line (<[user := hash]> es)
          end
  end.
Definition parseHTPasswd (text : bytes) : outcome htpasswd_err entries := parse_lines (raw_lines text) 0 ∅.
Definition authenticateUser (es : entries) (username password : string) : bool :=
  match es !! username with
  | None => false
  | Some credentials => CompareHashAndPassword credentials password
  end.

(** ** The access controller *)

Record accessController := { modtime : Z; htpasswd : option entries }.
Definition newAccessController : accessController := {| modtime := 0; htpasswd := None |}.
Inductive auth_err :=
  | ErrInvalidCredential
  | ErrAuthenticationFailure
  | FileError
  | ParseError (e : htpasswd_err).
(** A request with its credentials, with the time of the file and its content, if
    they can be read. *)
Definition Authorized (credentials : option (string * string)) (stat : option Z) (content : option bytes) (ac : accessController) :
    outcome auth_err string * accessController :=
  match credentials with
  | None => (Fail ErrInvalidCredential, ac)
  | Some (username, password) =>
      match stat with
      | None => (Fail FileError, ac)
      | Some lastModified =>
          let check es := if authenticateUser es username password then Ret username else Fail ErrAuthenticationFailure in
          let reload :=
            let ac := {| modtime := lastModified; htpasswd := htpasswd ac |} in
            match content with
            | None => (Fail FileError, ac)
            | Some text =>
                match parseHTPasswd text with
                | Ret es => (check es, {| modtime := lastModified; htpasswd := Some es |})
                | Fail e => (Fail (ParseError e), ac)
                | Panic => (Panic, ac)
                end
            end in
          match htpasswd ac with
          | None => reload
          | Some es => if (modtime ac =? lastModified)%Z then (check es, ac) else reload
          end
      end
  end.

(** ** What is kept *)

(** What the controller holds is the content of the file at its time. *)
Definition current (file : Z → bytes) (ac : accessController) : Prop :=
  ∀ es, htpasswd ac = Some es → parseHTPasswd (file (modtime ac)) = Ret es.

(** While every version of the file can be parsed and has a time of its own, a
    request is authorized exactly if its credentials are a user of the current
    version of the file with a password that its hash matches, and the controller
    goes on to hold that version. *)
Theorem htpasswd_authorized file ac now username password :
  (∀ m, ∃ es, parseHTPasswd (file m) = Ret es) → current file ac →
  let '(r, ac') := Authorized (Some (username, password)) (Some now) (Some (file now)) ac in
  current file ac' ∧ modtime ac' = now ∧
  (r = Ret username ↔ ∃ es hash, parseHTPasswd (file now) = Ret es ∧ es !! username = Some hash ∧ CompareHashAndPassword hash password = true) ∧
  (r = Ret username ∨ r = Fail ErrAuthenticationFailure).
Proof.
  intros Hp Hc. destruct (Hp now) as [es Hes].
  assert (∀ o, o = (if authenticateUser es username password then Ret username else Fail ErrAuthenticationFailure) →
    (o = Ret username ↔ ∃ es hash, parseHTPasswd (file now) = Ret es ∧ es !! username = Some hash ∧ CompareHashAndPassword hash password = true) ∧
    (o = Ret username ∨ o = Fail (A := string) ErrAuthenticationFailure)) as Hcheck.
  { intros o ->. unfold authenticateUser. rewrite Hes. split; [|destruct (es !! username) as [h|]; [destruct (CompareHashAndPassword _ _)|]; auto].
    destruct (es !! username) as [h|] eqn:Hu; [destruct (CompareHashAndPassword h password) eqn:Hh|]; (split; [intros ?|]); try done.
    - by exists es, h.
    - intros (es2 & h2 & [= <-] & Hu2 & Hh2). congruence.
    - intros (es2 & h2 & [= <-] & Hu2 & Hh2). congruence. }
  unfold Authorized. rewrite Hes in Hcheck |- *. destruct (htpasswd ac) as [es'|] eqn:Hh; [destruct (Z.eqb_spec (modtime ac) now) as [<-|Hne]|].
  - rewrite (Hc _ Hh) in Hes. injection Hes as ->. split; [done|]. split; [done|]. by apply Hcheck.
  - split; [intros ? [= <-]; exact Hes|]. split; [done|]. by apply Hcheck.
  - split; [intros ? [= <-]; exact Hes|]. split; [done|]. by apply Hcheck.
Qed.

(** After a version of the file that cannot be parsed, the entries of the version
    before are used, with the time of the new one: only the first request is
    refused, and users that were removed stay authorized. *)
Theorem htpasswd_stale ac es now text e username password :
  htpasswd ac = Some es → modtime ac ≠ now → parseHTPasswd text = Fail e → authenticateUser es username password = true →
  let '(r1, ac1) := Authorized (Some (username, password)) (Some now) (Some text) ac in
  r1 = Fail (ParseError e) ∧ (Authorized (Some (username, password)) (Some now) (Some text) ac1).1 = Ret username.
Proof.
  intros Hh Hne Hp Ha. unfold Authorized. rewrite Hh, (proj2 (Z.eqb_neq _ _) Hne), Hp. cbn. by rewrite ?Hh, Z.eqb_refl, Ha.
Qed.
End htpasswd.

(** A file with a comment and two users, of which one was added later. *)
Definition passwords (m : Z) : bytes :=
  ("# users" +:+ String newline ("alice:a" +:+ (if (m <? 5)%Z then "" else String newline "bob:b ")))%string.
Definition sample_space : UnicodeSpace := {| unicode_TrimSpace s := s |}.
Lemma htpasswd_authorized_witness :
  let match_ h p := bool_decide (h = p) in
  (Authorized (US := sample_space) match_ (Some ("bob", "b")) (Some 5%Z) (Some (passwords 5))
    {| modtime := 3; htpasswd := Some {["alice" := "a"]} |}).1 = Ret "bob".
Proof.
  assert (∀ m, parseHTPasswd (US := sample_space) (passwords m) = Ret (if (m <? 5)%Z then {["alice" := "a"]} else {["alice" := "a"; "bob" := "b"]})) as Hp.
  { intros m. unfold passwords. destruct (m <? 5)%Z; vm_compute; reflexivity. }
  pose proof (htpasswd_authorized (US := sample_space) (λ h p, bool_decide (h = p)) passwords {| modtime := 3; htpasswd := Some {["alice" := "a"]} |} 5 "bob" "b"
    (λ m, ex_intro _ _ (Hp m))) as H.
  cbn zeta. destruct (Authorized _ _ _ _ _) as [r ac']. destruct H as (_ & _ & [_ Hr] & _).
  - intros es [= <-]. exact (Hp 3%Z).
  - apply Hr. exists {["alice" := "a"; "bob" := "b"]}, "b". split; [exact (Hp 5%Z)|]. split; reflexivity.
Defined.

End Htpasswd.
