(* ===== verification/Authorization.v ===== *)
(** * Requests before their handlers

    Models what registry/handlers/app.go does with a request before its handler
    runs: which accesses the request needs ([appendAccessRecords],
    [appendCatalogAccessRecord]), whether the access controller grants them
    ([authorized]), and which of the database, the storage and the storage of a
    migration the handler is to use ([shouldMigrate], [dispatcher]), with the
    routes of registry/api/v2/routes.go. *)

From S2P Require Import Prelude GoStd Digest DigestSet Regexp Reference Driver Hmac ErrCode TokenAuth.

Module Authorization.
Import Auth ErrCode.

(** ** Routes *)

Definition RouteNameBase : string := "base".
Definition RouteNameManifest : string := "manifest".
Definition RouteNameTags : string := "tags".
Definition RouteNameTag : string := "tag".
Definition RouteNameBlob : string := "blob".
Definition RouteNameBlobUpload : string := "blob-upload".
Definition RouteNameBlobUploadChunk : string := "blob-upload-chunk".
Definition RouteNameCatalog : string := "catalog".
Definition RoutePath (routeName : string) : string :=
  if bool_decide (routeName = RouteNameBase) then "/v2/"
  else if bool_decide (routeName = RouteNameManifest) then "/v2/{name}/manifests/{reference}"
  else if bool_decide (routeName = RouteNameTags) then "/v2/{name}/tags/list"
  else if bool_decide (routeName = RouteNameTag) then "/v2/{name}/tags/reference/{tag}"
  else if bool_decide (routeName = RouteNameBlob) then "/v2/{name}/blobs/{digest}"
  else if bool_decide (routeName = RouteNameBlobUpload) then "/v2/{name}/blobs/uploads/"
  else if bool_decide (routeName = RouteNameBlobUploadChunk) then "/v2/{name}/blobs/uploads/{uuid}"
  else if bool_decide (routeName = RouteNameCatalog) then "/v2/_catalog"
  else "".

(** What is looked at of a request: its route, its method, the name of the
    repository in the path, and the form value [from]. *)
Record request := { route : option string; method : string; getName : string; from : string }.
Definition nameRequired (r : request) : bool :=
  match route r with
  | None => true
  | Some routeName => bool_decide (routeName ≠ RouteNameBase ∧ routeName ≠ RouteNameCatalog)
  end.

(** ** Accesses *)

Definition repository_access (repo action : string) : Access :=
  {| Resource_ := {| Type_ := "repository"; Class_ := ""; Name := repo |}; Action := action |}.
Definition appendAccessRecords (records : list Access) (method repo : string) : list Access :=
  records ++
  (if bool_decide (method = "GET" ∨ method = "HEAD") then [repository_access repo "pull"]
   else if bool_decide (method = "POST" ∨ method = "PUT" ∨ method = "PATCH") then [repository_access repo "pull"; repository_access repo "push"]
   else if bool_decide (method = "DELETE") then [repository_access repo "delete"]
   else []).
Definition appendCatalogAccessRecord (records : list Access) (r : request) : list Access :=
  if bool_decide (route r = Some RouteNameCatalog)
  then records ++ [{| Resource_ := {| Type_ := "registry"; Class_ := ""; Name := "catalog" |}; Action := "*" |}]
  else records.

(** An access controller, for one request: who it is from, or a challenge or
    another error. *)
Record identity := { user : string; resources : gset Resource }.
Inductive refusal := Challenge | OtherFailure.
Abbreviation controller := (list Access → outcome refusal identity).
(** How a request ends that is not passed to its handler: with the status of the
    errors that are served, or with a bad request. *)
Inductive denial := Served (errs : list (option code)) | BadRequest.
Definition status (d : denial) : Z := match d with Served errs => ServeJSON errs | BadRequest => 400 end.

Definition accessRecords (r : request) : list Access :=
  if bool_decide (getName r ≠ "") then
    let records := appendAccessRecords [] (method r) (getName r) in
    if bool_decide (from r ≠ "") then appendAccessRecords records "GET" (from r) else records
  else appendCatalogAccessRecord [] r.
Definition authorized (accessController : option controller) (r : request) : outcome denial (option identity) :=
  match accessController with
  | None => Ret None
  | Some ctrl =>
      if bool_decide (getName r = "") && nameRequired r then Fail (Served [Some ErrorCodeUnauthorized])
      else
        match ctrl (accessRecords r) with
        | Ret who => Ret (Some who)
        | Fail Challenge => Fail (Served [Some ErrorCodeUnauthorized])
        | Fail OtherFailure => Fail BadRequest
        | Panic => Panic
        end
  end.

(** ** Where a request is served *)

Record config := { Database_Enabled : bool; Migration_Enabled : bool; Migration_DisableMirrorFS : bool }.
(** The errors of [Repository] of a registry. *)
Inductive repo_err := RepositoryUnknown | RepositoryNameInvalid | RepositoryCoded (c : code) | RepositoryOther.
Definition repo_errors (e : repo_err) : list (option code) :=
  match e with
  | RepositoryUnknown => [Some ErrorCodeNameUnknown]
  | RepositoryNameInvalid => [Some ErrorCodeNameInvalid]
  | RepositoryCoded c => [Some c]
  | RepositoryOther => []
  end.
(** What the registries answer: whether they provide blobs, the repository, and
    whether it exists, for the registry and for that of the migration; and
    whether the middleware of repositories could be set up. *)
Record answers := {
  provider : bool;
  repository : outcome repo_err unit;
  validator : bool;
  Exists : outcome string bool;
  migration_provider : bool;
  migration_repository : outcome repo_err unit;
  middleware : bool;
}.
Definition shouldMigrate (c : config) (e : answers) : outcome string bool :=
  if negb (Database_Enabled c && Migration_Enabled c) then Ret false
  else if negb (validator e) then Fail "repository does not implement RepositoryValidator interface"
  else
    match Exists e with
    | Ret true => Ret false
    | Ret false => Ret true
    | Fail msg => Fail ("unable to determine if repository exists: " +:+ msg)
    | Panic => Panic
    end.

(** What the handler works with; its errors are served when it is done. *)
Record context := {
  who : option identity;
  useDatabase : bool;
  writeFSMetadata : bool;
  migrating : bool;
  Errors : list (option code);
}.
Definition failing (ok : bool) : list (option code) := if ok then [] else [Some ErrorCodeUnknown].
(** The [switch] of the configuration and the repository. *)
Definition selected (c : config) (migrateRepo : bool) : bool * bool * list (option code) :=
  if migrateRepo then (true, negb (Migration_DisableMirrorFS c), [])
  else if negb (Migration_Enabled c) && Database_Enabled c then (true, negb (Migration_DisableMirrorFS c), [])
  else if (Migration_Enabled c && negb migrateRepo) || negb (Database_Enabled c) then (false, true, [])
  else (false, negb (Migration_DisableMirrorFS c), [Some ErrorCodeUnknown]).

Section dispatcher.
Context {GD : GoDigest}.

Definition dispatcher (c : config) (accessController : option controller) (e : answers) (r : request) : outcome denial context :=
  match authorized accessController r with
  | Fail d => Fail d
  | Panic => Panic
  | Ret who =>
      if negb (nameRequired r)
      then Ret {| who := who; useDatabase := Database_Enabled c; writeFSMetadata := false; migrating := false; Errors := [] |}
      else
        match Reference.WithName (getName r) with
        | Fail _ => Fail (Served [None])
        | Panic => Panic
        | Ret _ =>
            let errs := failing (provider e) in
            match repository e with
            | Fail err => Fail (Served (errs ++ repo_errors err))
            | Panic => Panic
            | Ret _ =>
                match shouldMigrate c e with
                | Panic => Panic
                | (Ret _ | Fail _) as m =>
                    let migrateRepo := match m with Ret b => b | _ => false end in
                    let errs := errs ++ failing (match m with Ret _ => true | _ => false end) in
                    let errs := errs ++ (if migrateRepo then failing (migration_provider e) else []) in
                    match (if migrateRepo then migration_repository e else Ret ()) with
                    | Fail err => Fail (Served (errs ++ repo_errors err))
                    | Panic => Panic
                    | Ret _ =>
                        let '(db, fs, more) := selected c migrateRepo in
                        let errs := errs ++ more in
                        if middleware e
                        then Ret {| who := who; useDatabase := db; writeFSMetadata := fs; migrating := migrateRepo; Errors := errs |}
                        else Fail (Served (errs ++ [Some ErrorCodeUnknown]))
                    end
                end
            end
        end
  end.

(** ** What is needed is granted *)

Lemma dispatcher_authorized c ctrl e r ctx : dispatcher c ctrl e r = Ret ctx → authorized ctrl r = Ret (who ctx).
Proof.
  unfold dispatcher. destruct (authorized ctrl r) as [w| |]; [|done..]. intros H. f_equal.
  repeat (case_match; try done); by injection H as <-.
Qed.
Lemma authorized_records ctrl r w :
  authorized (Some ctrl) r = Ret (Some w) ↔ (nameRequired r = true → getName r ≠ "") ∧ ctrl (accessRecords r) = Ret w.
Proof.
  unfold authorized. case_bool_decide as Hn; cbn.
  - destruct (nameRequired r); [naive_solver|]. destruct (ctrl _) as [|[]|]; naive_solver.
  - destruct (ctrl _) as [|[]|]; naive_solver.
Qed.

(** The accesses that a method needs on a repository. *)
Definition needs (method action : string) : bool :=
  bool_decide (method ∈ ["GET"; "HEAD"; "POST"; "PUT"; "PATCH"] ∧ action = "pull") ||
  bool_decide (method ∈ ["POST"; "PUT"; "PATCH"] ∧ action = "push") ||
  bool_decide (method = "DELETE" ∧ action = "delete").
Lemma appendAccessRecords_needs records m repo a :
  a ∈ appendAccessRecords records m repo ↔ a ∈ records ∨ ∃ action, a = repository_access repo action ∧ needs m action = true.
Proof.
  unfold appendAccessRecords, needs. rewrite elem_of_app. apply or_iff_compat_l.
  setoid_rewrite orb_true_iff. setoid_rewrite orb_true_iff. setoid_rewrite bool_decide_eq_true.
  repeat case_bool_decide; set_solver.
Qed.

Context {TC : TokenAuth.TokenCrypto} {Un : Reference.Unicode}.
(** The controller of bearer tokens, for a request with that header; all its
    errors are challenges. *)
Definition token_controller (now : Z) (ac : TokenAuth.accessController) (authorization : string) : controller := λ items,
  match TokenAuth.Authorized now ac authorization items with
  | Ret (u, rs) => Ret {| user := u; resources := rs |}
  | Fail _ => Fail Challenge
  | Panic => Panic
  end.

(** The token of a request, with a key that signed it. *)
Definition carries (now : Z) (ac : TokenAuth.accessController) (authorization : string) (t : TokenAuth.Token) : Prop :=
  ∃ scheme raw key, Split " " authorization = [scheme; raw] ∧ Reference.ToLower scheme = "bearer" ∧ TokenAuth.NewToken raw = Ret t ∧
    TokenAuth.valid now ac t key.
Lemma token_controller_granted now ac authorization items w :
  token_controller now ac authorization items = Ret w →
  ∃ t, carries now ac authorization t ∧ user w = TokenAuth.Subject (TokenAuth.Claims t) ∧ resources w = TokenAuth.token_resources t ∧
       Forall (TokenAuth.grants t) items.
Proof.
  unfold token_controller. destruct (TokenAuth.Authorized _ _ _ _) as [[u rs]| |] eqn:Ha; [|done..]. intros [= <-].
  apply TokenAuth.Authorized_iff in Ha as (scheme & raw & t & key & [Hs Hb] & Ht & Hv & _ & Hg & -> & ->).
  exists t. split; [by exists scheme, raw, key|done].
Qed.

(** A registry that requires tokens passes a request to its handler only with a
    valid token that grants what the request does: to pull from the repository
    for GET and HEAD, to pull and to push for POST, PUT and PATCH, to delete for
    DELETE, to pull from the repository that a blob is mounted from, and all
    actions on the catalog.  Without a repository there are only the base and the
    catalog.  A request whose token is missing, invalid or insufficient is
    answered with 401. *)
Theorem request_granted c now ac authorization e r :
  (∀ ctx, dispatcher c (Some (token_controller now ac authorization)) e r = Ret ctx →
    ∃ t, carries now ac authorization t ∧ user <$> who ctx = Some (TokenAuth.Subject (TokenAuth.Claims t)) ∧
      (getName r ≠ "" → ∀ action, needs (method r) action = true → TokenAuth.grants t (repository_access (getName r) action)) ∧
      (getName r ≠ "" → from r ≠ "" → TokenAuth.grants t (repository_access (from r) "pull")) ∧
      (getName r = "" → route r = Some RouteNameBase ∨
        route r = Some RouteNameCatalog ∧
        TokenAuth.grants t {| Resource_ := {| Type_ := "registry"; Class_ := ""; Name := "catalog" |}; Action := "*" |})) ∧
  (∀ err, TokenAuth.Authorized now ac authorization (accessRecords r) = Fail err →
    ∃ d, dispatcher c (Some (token_controller now ac authorization)) e r = Fail d ∧ status d = 401%Z).
Proof.
  split.
  - intros ctx Hd%dispatcher_authorized. destruct (who ctx) as [w|] eqn:Hw; cycle 1.
    { unfold authorized in Hd. destruct (_ && _); [done|]. by destruct (token_controller _ _ _ _) as [|[]|]. }
    apply authorized_records in Hd as [Hn (t & Hc & Hu & _ & Hg)%token_controller_granted].
    exists t. split; [done|]. split; [cbn; by rewrite Hu|]. rewrite Forall_forall in Hg. unfold accessRecords in Hg. split_and!.
    + intros Hne action Hneed. rewrite bool_decide_true in Hg by done. apply Hg.
      case_bool_decide; rewrite ?appendAccessRecords_needs; [left|]; rewrite ?appendAccessRecords_needs; eauto.
    + intros Hne Hf. rewrite !bool_decide_true in Hg by done. apply Hg. rewrite appendAccessRecords_needs. right. by exists "pull".
    + intros Hemp. rewrite bool_decide_false in Hg by auto. destruct (nameRequired r) eqn:Hnr; [by destruct (Hn eq_refl)|].
      unfold nameRequired in Hnr. destruct (route r) as [rt|] eqn:Hr; [|done]. apply bool_decide_eq_false in Hnr.
      destruct (decide (rt = RouteNameBase)) as [->|Hb]; [by left|]. destruct (decide (rt = RouteNameCatalog)) as [->|Hc']; [|naive_solver].
      right. split; [done|]. apply Hg. unfold appendCatalogAccessRecord. rewrite bool_decide_true by done. set_solver.
  - intros err Ha. unfold dispatcher, authorized. destruct (_ && _); [by eexists|]. unfold token_controller. rewrite Ha. by eexists.
Qed.

(** What [shouldMigrate] answers, if it does. *)
Lemma shouldMigrate_spec c e b : shouldMigrate c e = Ret b →
  b = true ↔ Database_Enabled c = true ∧ Migration_Enabled c = true ∧ Exists e = Ret false.
Proof.
  unfold shouldMigrate. destruct (Database_Enabled c), (Migration_Enabled c); cbn; try (intros [= <-]; intuition congruence).
  destruct (validator e); [|done]. destruct (Exists e) as [[]| |]; cbn; try done; intros [= <-]; intuition congruence.
Qed.
Lemma selected_spec c b :
  (b = true → Database_Enabled c = true ∧ Migration_Enabled c = true) →
  let db := Database_Enabled c && (negb (Migration_Enabled c) || b) in
  selected c b = (db, if db then negb (Migration_DisableMirrorFS c) else true, []).
Proof. intros Hb. unfold selected. destruct b; [by destruct (Hb eq_refl) as [-> ->]|]. by destruct (Database_Enabled c), (Migration_Enabled c). Qed.

(** Of the repositories, when the database is enabled, the database serves all
    without a migration, and with one those that are not in the storage from
    before it, of which the others stay there.  Without the database the storage
    serves all, and what the database does not serve is written to the storage.
    The configuration selects one of these for every repository. *)
Theorem request_routed c ctrl e r ctx :
  dispatcher c ctrl e r = Ret ctx → nameRequired r = true → (∀ msg, shouldMigrate c e ≠ Fail msg) →
  (useDatabase ctx = true ↔ Database_Enabled c = true ∧ (Migration_Enabled c = true → Exists e = Ret false)) ∧
  (useDatabase ctx = false → writeFSMetadata ctx = true) ∧
  (useDatabase ctx = true → writeFSMetadata ctx = negb (Migration_DisableMirrorFS c)) ∧
  (migrating ctx = true ↔ useDatabase ctx = true ∧ Migration_Enabled c = true) ∧
  (provider e = true → (migrating ctx = true → migration_provider e = true) → Errors ctx = []).
Proof.
  unfold dispatcher. intros Hd Hn Hm. destruct (authorized ctrl r); [|done..]. rewrite Hn in Hd. cbn in Hd.
  destruct (Reference.WithName _); [|done..]. destruct (repository e); [|done..].
  destruct (shouldMigrate c e) as [b|msg|] eqn:Hb; [|by destruct (Hm msg)|done]. apply shouldMigrate_spec in Hb.
  destruct (if b then migration_repository e else Ret ()); [|done..]. rewrite selected_spec in Hd by tauto.
  destruct (middleware e); [|done]. injection Hd as <-. cbn. split_and!.
  - rewrite andb_true_iff, orb_true_iff, negb_true_iff. destruct (Migration_Enabled c); intuition congruence.
  - by intros ->.
  - by intros ->.
  - rewrite andb_true_iff, orb_true_iff, negb_true_iff. intuition congruence.
  - intros -> Hp. unfold failing. destruct b; [by rewrite Hp|done].
Qed.

(** When it cannot be determined whether a repository is to be migrated, the
    request is not refused: the handler runs on the storage, and the error is
    served after what it did. *)
Theorem migration_error_dispatched c e r msg :
  Database_Enabled c = true → Migration_Enabled c = true → validator e = true → Exists e = Fail msg → provider e = true → middleware e = true →
  repository e = Ret () → nameRequired r = true → (∃ n, Reference.WithName (getName r) = Ret n) →
  dispatcher c None e r =
  Ret {| who := None; useDatabase := false; writeFSMetadata := true; migrating := false; Errors := [Some ErrorCodeUnknown] |}.
Proof.
  intros Hdb Hmig Hv He Hp Hmw Hr Hn [n Hname]. unfold dispatcher, authorized. rewrite Hn, Hname, Hr. cbn.
  unfold shouldMigrate, selected. by rewrite Hdb, Hmig, Hv, He, Hp, Hmw.
Qed.
End dispatcher.
End Authorization.
