(* ===== verification/UploadHandler.v ===== *)
(** * The upload requests

    Models registry/handlers/blobupload.go, with the helpers of helpers.go, over
    the blob writers of Upload.v: the requests that start an upload, send data,
    complete it, ask for its state and cancel it.  URLs are left out: the
    location of a response is the token of the state, and that of a created blob
    its digest. *)

From S2P Require Import Prelude GoStd Digest GoText Driver FileSystem Paths ObjectStore FileReader BlobStore Upload Hmac ErrCode.

Module UploadHandler.
Import Hmac ErrCode BlobStore Upload.

(** The methods of a request for an upload; a POST is [StartBlobUpload]. *)
Inductive method := GET | HEAD | PATCH | PUT | DELETE.

(** What a request brings: the form values, the headers, and the reads that its
    body returns, with the error that ends them if it is not the end of the
    body. *)
Record request := {
  rq_state : string;
  rq_digest : string;
  rq_ContentType : string;
  rq_ContentLength : Z;
  rq_reads : list bytes;
  rq_err : option error;
  rq_disconnected : bool;
}.

Record response := {
  rs_status : option Z;
  rs_errors : list code;
  rs_uuid : string;
  rs_location : string;
  rs_endRange : Z;
  rs_digest : digest;
}.
Definition errors (codes : list code) : response :=
  {| rs_status := None; rs_errors := codes; rs_uuid := ""; rs_location := ""; rs_endRange := 0; rs_digest := "" |}.
Definition set_status (n : Z) (r : response) : response :=
  {| rs_status := Some n; rs_errors := rs_errors r; rs_uuid := rs_uuid r; rs_location := rs_location r;
     rs_endRange := rs_endRange r; rs_digest := rs_digest r |}.

Section handler.
Context {GD : GoDigest} {GH : GoHash} {GT : GoToken} {St : Type} {D : StorageDriver St}.
Context (chunk : nat → nat) (bufsize : nat).

(** The parts of the request context. *)
Record handler := {
  h_blobs : linkedBlobStore (St := St);
  h_options : options;
  h_secret : string;
  h_readOnly : bool;
}.
Abbreviation U := (GoM (St * blobWriter) error) (only parsing).

(** *** helpers.go *)

(** The error of [copyFullPayload] into the upload, if any, and the status that
    it has written. *)
Definition copyFullPayload (rq : request) : U (option error * option Z) :=
  res ← ReadFrom (rq_reads rq) (rq_err rq);
  let '(copied, err) := res in
  let short := (0 <? rq_ContentLength rq)%Z && (copied <? rq_ContentLength rq)%Z in
  if (bool_decide (err ≠ None) || short) && rq_disconnected rq then mret (Some (errors_New "client disconnected"), Some 499%Z)
  else mret (err, None).

(** *** blobupload.go *)

(** The headers of a response, without the status. *)
Definition blobUploadResponse (h : handler) : U (option response) :=
  bw ← this;
  _ ← attempt Close;
  offset ← Size;
  let state := {| st_Name := lbs_name (h_blobs h); st_UUID := bw_id bw; st_Offset := offset; st_StartedAt := bw_startedAt bw |} in
  match packUploadState (h_secret h) state with
  | Ret token =>
      endRange ← Size;
      mret (Some {| rs_status := None; rs_errors := []; rs_uuid := bw_id bw; rs_location := token;
                    rs_endRange := if (0 <? endRange)%Z then (endRange - 1)%Z else endRange; rs_digest := "" |})
  | Fail _ => mret None
  | Panic => panic
  end.

Definition respond (h : handler) (status : Z) : U response :=
  r ← blobUploadResponse h;
  match r with
  | None => mret (errors [ErrorCodeUnknown])
  | Some r => mret (set_status status r)
  end.

(** The answer to a payload that could not be copied. *)
Definition refused (status : option Z) : response :=
  match status with
  | Some n => set_status n (errors [ErrorCodeUnknown])
  | None => errors [ErrorCodeUnknown]
  end.

Definition GetUploadStatus (h : handler) : U response := respond h 204.

Definition PatchBlobData (h : handler) (rq : request) : U response :=
  if negb (bool_decide (rq_ContentType rq = "")) && negb (bool_decide (rq_ContentType rq = "application/octet-stream"))
  then mret (errors [ErrorCodeUnknown])
  else
    r ← copyFullPayload rq;
    match r with
    | (Some _, status) => mret (refused status)
    | (None, _) => respond h 202
    end.

(** The code of an error of [Commit]. *)
Definition ErrAccessDenied : error := errors_New "access denied".
Definition commit_code (err : error) : code :=
  match err with
  | ErrBlobInvalidDigest _ _ => ErrorCodeDigestInvalid
  | ErrUnsupported => ErrorCodeUnsupported
  | ErrBlobInvalidLength | ErrBlobDigestUnsupported => ErrorCodeBlobUploadInvalid
  | _ => if err_eq err ErrAccessDenied then ErrorCodeDenied else ErrorCodeUnknown
  end.

(** [PutBlobUploadComplete] up to the database: the errors, or the descriptor of
    the blob. *)
Definition completeUpload (rq : request) : U (response + Descriptor) :=
  if bool_decide (rq_digest rq = "") then mret (inl (errors [ErrorCodeDigestInvalid]))
  else
    match digest_Parse (rq_digest rq) with
    | (_, Some _) => mret (inl (errors [ErrorCodeDigestInvalid]))
    | (dgst, None) =>
        r ← copyFullPayload rq;
        match r with
        | (Some _, status) => mret (inl (refused status))
        | (None, _) =>
            r ← attempt (Commit chunk bufsize {| MediaType := ""; BlobStore.Size := 0; desc_Digest := dgst |});
            match r with
            | inl err => _ ← attempt Cancel; mret (inl (errors [commit_code err]))
            | inr desc => mret (inr desc)
            end
        end
    end.
Definition created (desc : Descriptor) : response :=
  {| rs_status := Some 201%Z; rs_errors := []; rs_uuid := ""; rs_location := desc_Digest desc; rs_endRange := 0;
     rs_digest := desc_Digest desc |}.
(** Without a database. *)
Definition PutBlobUploadComplete (rq : request) : U response :=
  r ← completeUpload rq;
  mret (match r with inl resp => resp | inr desc => created desc end).

Definition CancelBlobUpload : U response :=
  bw ← this;
  r ← attempt Cancel;
  let codes := match r with inl _ => [ErrorCodeUnknown] | inr _ => [] end in
  mret {| rs_status := Some 204%Z; rs_errors := codes; rs_uuid := bw_id bw; rs_location := ""; rs_endRange := 0;
          rs_digest := "" |}.

(** A method of the upload, as a step of the storage. *)
Definition with_upload {A} (upload : blobWriter) (m : U A) : GoM St error A := λ s,
  let '(o, (s, _)) := m (s, upload) in (o, s).

(** [ResumeBlobUpload]: the response that refuses the request, or the upload. *)
Definition ResumeBlobUpload (h : handler) (uuid : string) (rq : request) : GoM St error (response + blobWriter) :=
  match unpackUploadState (h_secret h) (rq_state rq) with
  | Fail _ => mret (inl (errors [ErrorCodeBlobUploadInvalid]))
  | Panic => panic
  | Ret state =>
      if negb (bool_decide (st_Name state = lbs_name (h_blobs h))) then mret (inl (errors [ErrorCodeBlobUploadInvalid]))
      else if negb (bool_decide (st_UUID state = uuid)) then mret (inl (errors [ErrorCodeBlobUploadInvalid]))
      else
        r ← attempt (Resume (h_blobs h) (h_options h) uuid);
        match r with
        | inl err =>
            mret (inl (errors [if err_eq err ErrBlobUploadUnknown then ErrorCodeBlobUploadUnknown else ErrorCodeUnknown]))
        | inr upload =>
            with_upload upload (
              size ← Size;
              if negb (size =? st_Offset state)%Z then
                _ ← attempt Close;
                _ ← attempt Cancel;
                mret (inl (errors [ErrorCodeBlobUploadInvalid]))
              else bw ← this; mret (inr bw))
        end
  end.

Definition StartBlobUpload (h : handler) (mount : option (linkedBlobStore * digest * option Descriptor)) (uuid : string)
    (now : Z) : GoM St error response :=
  r ← attempt (Create (h_blobs h) (h_options h) mount uuid now);
  match r with
  | inl err => mret (errors [if err_eq err ErrUnsupported then ErrorCodeUnsupported else ErrorCodeUnknown])
  | inr (inl desc) => mret (created desc)
  | inr (inr upload) => with_upload upload (respond h 202)
  end.

(** The method handler of a request for an upload. *)
Definition dispatch (h : handler) (m : method) (rq : request) : U response :=
  match m with
  | GET | HEAD => GetUploadStatus h
  | PATCH => if h_readOnly h then mret (set_status 405 (errors [])) else PatchBlobData h rq
  | PUT => if h_readOnly h then mret (set_status 405 (errors [])) else PutBlobUploadComplete rq
  | DELETE => if h_readOnly h then mret (set_status 405 (errors [])) else CancelBlobUpload
  end.

(** A request for the upload [uuid]: the upload is resumed, the method is
    handled, and the upload is closed. *)
Definition serve (h : handler) (uuid : string) (m : method) (rq : request) : GoM St error response :=
  r ← ResumeBlobUpload h uuid rq;
  match r with
  | inl resp => mret resp
  | inr upload => with_upload upload (resp ← dispatch h m rq; _ ← attempt Close; mret resp)
  end.

End handler.
End UploadHandler.
