(* ===== verification/UploadProps.v ===== *)
(** * Uploads from the first request to the last

    The theorems about the upload requests: what is uploaded in any number of
    requests is stored under its digest, a wrong digest or a stale or forged
    token changes nothing but the upload, and what canceling leaves behind. *)

From S2P Require Import Prelude GoStd Digest GoText Driver FileSystem Paths ObjectStore FileReader BlobStore Upload UploadSpec Hmac ErrCode UploadHandler.

Module UploadProps.
Import ErrCode GoText Hmac Paths ObjectStore BlobStore Upload UploadSpec UploadHandler.

Section props.
Context {GD : GoDigest} {GDL : GoDigestLaws} {GH : GoHash} {GHL : GoHashLaws} {GT : GoToken} {GTL : GoTokenLaws}.
Context {St : Type} {D : StorageDriver St} {view : St → fs} {inv : St → Prop} {ok : fpath → Prop}.
Context {L : DriverLaws D view inv ok} {opened : St → drv_writer → fpath → bytes → wstate → Prop}.
Context {WL : WriterLaws D view inv ok opened}.
Context (chunk : nat → nat) (bufsize : nat).
Hypothesis Hchunk : ∀ k, 0 < k → 0 < chunk k ≤ k.
Hypothesis Hbufsize : 0 < bufsize.

Abbreviation rinv := (ObjectStore.rinv (view := view) (inv := inv)).
Abbreviation supported := (ObjectStore.supported (ok := ok)).
Abbreviation upload_paths := (UploadSpec.upload_paths (ok := ok)).
Abbreviation persisted := (UploadSpec.persisted (view := view) (inv := inv) (ok := ok)).
Abbreviation writing := (UploadSpec.writing (view := view) (inv := inv) (ok := ok) (opened := opened)).
Abbreviation same_but_states := (UploadSpec.same_but_states (view := view)).
Abbreviation obj s := (object (view s)).
Abbreviation len b := (Z.of_nat (String.length b)).

(** ** Committing *)

(** The storage after a commit. *)
Definition committed_objects (s s' : St) (name id : string) (mirror : bool) (d : digest) (b : bytes) : Prop :=
  let c := digest_FromBytes b in
  ∀ spec, is_object spec = true → obj s' spec =
    if of_upload name id spec then None
    else if decide (spec = blobDataPathSpec c) then Some (default b (obj s (blobDataPathSpec c)))
    else if decide (mirror = true ∧ (spec = layerLinkPathSpec name c ∨ spec = layerLinkPathSpec name d)) then Some c
    else obj s spec.

Lemma of_upload_link name id n d : of_upload name id (layerLinkPathSpec n d) = false.
Proof. done. Qed.

Lemma Commit_ok s bw b desc fns :
  let d := desc_Digest desc in let c := digest_FromBytes b in let name := bw_name bw in
  writing s bw b WOpen → bw_committed bw = false → (len b < 2 ^ 63)%Z → digest_Validate d = None → matches d b →
  lbs_linkPathFns (bw_blobStore bw) = blobLinkPath :: fns →
  supported (blobDataPathSpec c) → supported (layerLinkPathSpec name c) → supported (layerLinkPathSpec name d) →
  ∃ s' bw', Commit chunk bufsize desc (s, bw) = (verdict desc b, (s', bw')) ∧ bw_committed bw' = true ∧ rinv s' ∧
    committed_objects s s' name (bw_id bw) (bw_mirrorFS bw) d b.
Proof.
  intros d c name Hw Hc Hlen Hd Hm Hfns Hsb Hsl Hsa.
  destruct (Commit_closed chunk bufsize s bw b Hw Hc) as (s1 & Hw1 & Hf1 & HC). rewrite HC. clear HC.
  set (desc1 := {| MediaType := MediaType desc; BlobStore.Size := len b; desc_Digest := desc_Digest desc |}).
  destruct (validateBlob_spec chunk bufsize Hchunk Hbufsize s1 bw b WClosed desc1) as (bw1 & Hv & Hs1 & Hw1'); [done..|].
  assert (verdict desc1 b = verdict desc b) as Hvd by done. rewrite Hvd in Hv.
  unfold verdict in Hv |- *. fold d in Hv |- *. rewrite decide_True in Hv |- * by done.
  set (can := {| MediaType := _; BlobStore.Size := len b; desc_Digest := digest_FromBytes b |}) in Hv |- *.
  destruct (same_upload_fields _ _ Hs1) as (Hn & Hid & _ & _ & _ & Hmir & Hbs & _). rewrite (bind_Ret _ _ _ _ _ Hv).
  destruct (moveBlob_spec s1 bw1 b WClosed can Hw1' Hsb) as (s2 & H2 & Hr2 & Hv2). rewrite (bind_Ret _ _ _ _ _ H2), this_bind.
  assert (∃ s3, (if bw_mirrorFS bw1 then on_fst (linkBlob (lbs_linkPathFns (bw_blobStore bw1)) (lbs_name (bw_blobStore bw1)) can [d])
      else mret tt) (s2, bw1) = (Ret tt, (s3, bw1)) ∧ rinv s3 ∧ ∀ spec, is_object spec = true → obj s3 spec =
      if decide (bw_mirrorFS bw = true ∧ (spec = layerLinkPathSpec name c ∨ spec = layerLinkPathSpec name d)) then Some c
      else obj s2 spec) as (s3 & H3 & Hr3 & Hv3).
  { rewrite Hmir, Hbs, Hfns. destruct (bw_mirrorFS bw).
    - destruct (linkBlob_alias s2 fns name can d Hr2 Hsl Hsa) as (s3 & H3 & Hr3 & Hv3). exists s3. split_and!; [|done|].
      + unfold on_fst. cbn [fst snd]. change (lbs_name (bw_blobStore bw)) with name. by rewrite H3.
      + intros spec Ho. rewrite Hv3 by done. apply decide_ext. naive_solver.
    - by exists s2. }
  rewrite (bind_Ret _ _ _ _ _ H3).
  destruct (removeResources_spec s3 bw1 Hr3) as (s4 & H4 & Hr4 & _ & Hv4); [apply (wr_persisted _ _ _ _ Hw1')|].
  rewrite (bind_Ret _ _ _ _ _ H4). exists s4, (set_committed bw1). split_and!; try done.
  intros spec Ho. rewrite Hv4, Hn, Hid by done. fold name. destruct (of_upload name (bw_id bw) spec) eqn:Hu; [done|].
  assert (∀ spec, is_object spec = true → of_upload name (bw_id bw) spec = false → obj s1 spec = obj s spec) as Hsame.
  { intros sp Hsp Hup. apply Hf1; [done|]. intros o ->. cbn in Hup. by rewrite !bool_decide_true in Hup. }
  rewrite Hv3, Hv2 by (done || by rewrite Hn, Hid). cbn [desc_Digest can]. fold c.
  rewrite !Hsame by (done || apply Hsb). repeat case_decide; naive_solver.
Qed.

Lemma Commit_bad s bw b desc :
  let d := desc_Digest desc in
  writing s bw b WOpen → bw_committed bw = false → (len b < 2 ^ 63)%Z → digest_Validate d = None → ¬ matches d b →
  ∃ s' bw', Commit chunk bufsize desc (s, bw) =
      (Fail (ErrBlobInvalidDigest d (errors_New "content does not match digest")), (s', bw')) ∧
    same_upload bw bw' ∧ writing s' bw' b WClosed ∧ same_but_states s s' (bw_name bw) (bw_id bw).
Proof.
  intros d Hw Hc Hlen Hd Hm.
  destruct (Commit_closed chunk bufsize s bw b Hw Hc) as (s1 & Hw1 & Hf1 & HC). rewrite HC. clear HC.
  set (desc1 := {| MediaType := MediaType desc; BlobStore.Size := len b; desc_Digest := desc_Digest desc |}).
  destruct (validateBlob_spec chunk bufsize Hchunk Hbufsize s1 bw b WClosed desc1) as (bw1 & Hv & Hs1 & Hw1'); [done..|].
  unfold verdict in Hv. rewrite decide_False in Hv by done. rewrite (bind_Fail _ _ _ _ _ Hv). by exists s1, bw1.
Qed.

(** ** Requests *)

Context (h : handler (St := St)) (name : string) (del : bool).
Hypothesis Hblobs : h_blobs h = repository_Blobs name del.

(** The token of a request is one for the upload at the offset. *)
Definition token_for (id : string) (off : Z) (rq : request) : Prop :=
  ∃ t, unpackUploadState (h_secret h) (rq_state rq) =
    Ret {| st_Name := name; st_UUID := id; st_Offset := off; st_StartedAt := t |}.

(** What every writer of a request has. *)
Record fresh_writer (id : string) (bw : blobWriter (St := St)) : Prop := {
  fw_store : bw_blobStore bw = repository_Blobs name del;
  fw_id : bw_id bw = id;
  fw_committed : bw_committed bw = false;
  fw_mirror : bw_mirrorFS bw = opt_mirrorFS (h_options h);
}.
Lemma fresh_name id bw : fresh_writer id bw → bw_name bw = name.
Proof. intros [H1 _ _ _]. unfold bw_name. by rewrite H1. Qed.
Lemma fresh_same id bw bw' : fresh_writer id bw → same_upload bw bw' → fresh_writer id bw'.
Proof.
  intros [H1 H2 H3 H4] (_ & Hid & _ & _ & Hc & Hm & Hb & _)%same_upload_fields. constructor; congruence.
Qed.

Lemma Size_spec s bw b st :
  writing s bw b st → has_file st = true → Size (s, bw) = (Ret (len b), (s, bw)).
Proof.
  intros Hw Hst. unfold Size. rewrite this_bind. unfold on_fst. cbn [fst snd].
  by rewrite (wlaw_size s _ _ b st (proj1 (ps_rinv _ _ _ _ (wr_persisted _ _ _ _ Hw))) (wr_opened _ _ _ _ Hw) Hst).
Qed.

Lemma ResumeBlobUpload_ok s id b rq :
  persisted s name id b → token_for id (len b) rq →
  ∃ bw s', ResumeBlobUpload h id rq s = (Ret (inr bw), s') ∧ writing s' bw b WOpen ∧ fresh_writer id bw ∧
    ∀ spec, is_object spec = true → obj s' spec = obj s spec.
Proof.
  intros Hp [t Ht].
  destruct (Resume_spec s (h_blobs h) (h_options h) id b) as (bw & s' & H1 & Hw & Hb & Hid & Hc & Hm & Hobj);
    [by rewrite Hblobs|].
  exists bw, s'. rewrite Hblobs in Hb. split_and!; try done. unfold ResumeBlobUpload. rewrite Ht. cbn [st_Name st_UUID st_Offset].
  rewrite !bool_decide_true by (done || by rewrite Hblobs). cbn [negb].
  rewrite (bind_Ret _ _ _ (inr bw) s') by (unfold attempt; by rewrite H1). unfold with_upload.
  by rewrite (bind_Ret _ _ _ _ _ (Size_spec s' bw b WOpen Hw eq_refl)), Z.eqb_refl.
Qed.

(** The bytes of a request, and that they all arrived. *)
Definition sent (rq : request) : bytes := joined (rq_reads rq).
Definition delivered (rq : request) : bool :=
  bool_decide (rq_err rq = None) &&
  negb ((0 <? rq_ContentLength rq)%Z && (len (sent rq) <? rq_ContentLength rq)%Z && rq_disconnected rq).

Lemma copyFullPayload_spec s bw b rq :
  writing s bw b WOpen → (len b < 2 ^ 63)%Z →
  ∃ s' bw' res, copyFullPayload rq (s, bw) = (Ret res, (s', bw')) ∧ same_upload bw bw' ∧ writing s' bw' (b +:+ sent rq) WOpen ∧
    (delivered rq = true → res = (None, None)) ∧
    ∀ spec, is_object spec = true → spec ≠ uploadDataPathSpec (bw_name bw) (bw_id bw) → obj s' spec = obj s spec.
Proof.
  intros Hw Hlen. destruct (ReadFrom_spec s bw b (rq_reads rq) (rq_err rq) Hw Hlen) as (s' & bw' & H1 & Hs & Hw' & Hf).
  fold (sent rq) in H1, Hw'. unfold copyFullPayload. rewrite (bind_Ret _ _ _ _ _ H1). cbn beta iota.
  destruct ((_ || _) && _) eqn:Hd; eexists s', bw', _; (split; [reflexivity|]); split_and!; try done; intros Hdel;
    apply andb_true_iff in Hdel as [He Hs0]; apply bool_decide_eq_true in He; [|by rewrite He].
  rewrite He, bool_decide_false in Hd by naive_solver. cbn [orb] in Hd. by rewrite Hd in Hs0.
Qed.

(** The states that a response can carry can be packed. *)
Definition packs (id : string) : Prop := ∀ off t,
  ∃ token, packUploadState (h_secret h) {| st_Name := name; st_UUID := id; st_Offset := off; st_StartedAt := t |} = Ret token.

Definition accepted (status : Z) (id token : string) (b : bytes) : response :=
  {| rs_status := Some status; rs_errors := []; rs_uuid := id; rs_location := token;
     rs_endRange := if (0 <? len b)%Z then (len b - 1)%Z else len b; rs_digest := "" |}.

Lemma respond_spec s bw b status id :
  writing s bw b WOpen → fresh_writer id bw → packs id →
  ∃ s' token, respond h status (s, bw) = (Ret (accepted status id token b), (s', bw)) ∧ writing s' bw b WClosed ∧
    (∀ rq, rq_state rq = token → token_for id (len b) rq) ∧ same_but_states s s' name id.
Proof.
  intros Hw Hfr Hp. pose proof (fresh_name _ _ Hfr) as Hn. pose proof Hfr as [_ Hid Hc _].
  destruct (Close_spec s bw b WOpen Hw) as (s1 & H1 & Hw1 & Hf1); [by left|done|].
  destruct (Hp (len b) (bw_startedAt bw)) as [token Htok]. exists s1, token.
  rewrite Hn, Hid in Hf1. split_and!; try done.
  - unfold respond. rewrite (bind_Ret _ _ _ (Some {| rs_status := None; rs_errors := []; rs_uuid := id; rs_location := token;
      rs_endRange := if (0 <? len b)%Z then (len b - 1)%Z else len b; rs_digest := "" |}) (s1, bw)); [done|].
    unfold blobUploadResponse. rewrite this_bind. rewrite (bind_Ret _ _ _ (inr tt) (s1, bw)) by (unfold attempt; by rewrite H1).
    rewrite (bind_Ret _ _ _ _ _ (Size_spec s1 bw b WClosed Hw1 eq_refl)). rewrite Hblobs, Hid.
    cbn [repository_Blobs lbs_name]. rewrite Htok. by rewrite (bind_Ret _ _ _ _ _ (Size_spec s1 bw b WClosed Hw1 eq_refl)).
  - intros rq Hrq. exists (bw_startedAt bw). rewrite Hrq. by apply unpack_pack.
Qed.

(** *** The effect of each request *)

(** Nothing outside the upload changes. *)
Definition outside_same (s s' : St) (id : string) : Prop := ∀ spec, is_object spec = true →
  of_upload name id spec = false → obj s' spec = obj s spec.

Lemma outside_data s s' id :
  (∀ spec, is_object spec = true → spec ≠ uploadDataPathSpec name id → obj s' spec = obj s spec) → outside_same s s' id.
Proof. intros H spec Ho Hu. apply H; [done|]. intros ->. cbn in Hu. by rewrite !bool_decide_true in Hu. Qed.
Lemma outside_states s s' id : same_but_states s s' name id → outside_same s s' id.
Proof. intros H spec Ho Hu. apply H; [done|]. intros o ->. cbn in Hu. by rewrite !bool_decide_true in Hu. Qed.
Lemma outside_trans s1 s2 s3 id : outside_same s1 s2 id → outside_same s2 s3 id → outside_same s1 s3 id.
Proof. intros H1 H2 spec Ho Hu. rewrite H2, H1; done. Qed.

Lemma serve_resumed s id b m rq :
  persisted s name id b → token_for id (len b) rq →
  ∃ bw s1, writing s1 bw b WOpen ∧ fresh_writer id bw ∧ (∀ spec, is_object spec = true → obj s1 spec = obj s spec) ∧
    ∀ r s2 bw2 o s3, dispatch chunk bufsize h m rq (s1, bw) = (Ret r, (s2, bw2)) → attempt Close (s2, bw2) = (Ret o, s3) →
      serve chunk bufsize h id m rq s = (Ret r, s3.1).
Proof.
  intros Hp Ht. destruct (ResumeBlobUpload_ok s id b rq Hp Ht) as (bw & s1 & H1 & Hw & Hfr & Hobj). exists bw, s1.
  split_and!; try done. intros r s2 bw2 o [s3 bw3] Hd Hc. unfold serve. rewrite (bind_Ret _ _ _ _ _ H1). unfold with_upload.
  by rewrite (bind_Ret _ _ _ _ _ Hd), (bind_Ret _ _ _ _ _ Hc).
Qed.

(** The deferred Close of a writer that is closed already. *)
Lemma closed_again s bw b :
  writing s bw b WClosed → bw_committed bw = false →
  ∃ o s', attempt Close (s, bw) = (Ret o, (s', bw)) ∧ writing s' bw b WClosed ∧ same_but_states s s' (bw_name bw) (bw_id bw).
Proof.
  intros Hw Hc. destruct (storeHashState_spec s bw b WClosed Hw) as (s1 & H1 & Hw1 & Hf1).
  destruct (wlaw_closed s1 (bw_fileWriter bw) _ b WClosed (proj1 (ps_rinv _ _ _ _ (wr_persisted _ _ _ _ Hw1))) (wr_opened _ _ _ _ Hw1))
    as (r & Hr & Hnp); [done|].
  unfold attempt, Close. rewrite this_bind, Hc, (bind_Ret _ _ _ _ _ H1), this_bind. unfold on_fst. cbn [fst snd].
  rewrite Hr. destruct r as [[]|e|]; [by eexists _, s1..|done].
Qed.
(** The deferred Close of a writer that was canceled: a hash state may be stored. *)
Lemma closed_done s bw b :
  rinv s → upload_paths (bw_name bw) (bw_id bw) → (0 ≤ bw_written bw)%Z → bw_committed bw = false →
  opened s (bw_fileWriter bw) (layout (uploadDataPathSpec (bw_name bw) (bw_id bw))) b WDone →
  ∃ o s', attempt Close (s, bw) = (Ret o, (s', bw)) ∧ rinv s' ∧ same_but_states s s' (bw_name bw) (bw_id bw).
Proof.
  intros Hr Hpp Hwr Hc Ho. destruct (storeHashState_cases s bw Hr Hpp Hwr) as (s1 & H1 & Hr1 & Hc1).
  pose proof (storeHashState_opened s bw s1 _ b WDone Hr Hpp Hwr Ho H1) as Ho1.
  destruct (wlaw_closed s1 (bw_fileWriter bw) _ b WDone (proj1 Hr1) Ho1 eq_refl) as (r & Hrc & Hnp).
  assert (same_but_states s s1 (bw_name bw) (bw_id bw)) as Hs.
  { intros spec Hspec Hne. destruct (stores bw); [|by subst s1]. destruct Hc1 as (c & _ & _ & Hobj).
    rewrite Hobj by done. by rewrite decide_False by apply Hne. }
  unfold attempt, Close. rewrite this_bind, Hc, (bind_Ret _ _ _ _ _ H1), this_bind. unfold on_fst. cbn [fst snd].
  rewrite Hrc. destruct r as [[]|e|]; [by eexists _, s1..|done].
Qed.

Definition octet_stream (rq : request) : bool :=
  bool_decide (rq_ContentType rq = "") || bool_decide (rq_ContentType rq = "application/octet-stream").

Lemma serve_patch s id b rq :
  persisted s name id b → token_for id (len b) rq → (len b < 2 ^ 63)%Z → h_readOnly h = false → packs id →
  octet_stream rq = true → delivered rq = true →
  ∃ s' token, serve chunk bufsize h id PATCH rq s = (Ret (accepted 202 id token (b +:+ sent rq)), s') ∧
    persisted s' name id (b +:+ sent rq) ∧ (∀ rq', rq_state rq' = token → token_for id (len (b +:+ sent rq)) rq') ∧
    outside_same s s' id.
Proof.
  intros Hp Ht Hlen Hro Hpk Hct Hdel.
  destruct (serve_resumed s id b PATCH rq Hp Ht) as (bw & s1 & Hw1 & Hfr & Hobj1 & Hserve).
  destruct (copyFullPayload_spec s1 bw b rq Hw1 Hlen) as (s2 & bw2 & err & H2 & Hs2 & Hw2 & Herr & Hf2).
  pose proof (fresh_same _ _ _ Hfr Hs2) as Hfr2.
  destruct (respond_spec s2 bw2 _ 202 id Hw2 Hfr2 Hpk) as (s3 & token & H3 & Hw3 & Htok & Hf3).
  destruct (closed_again s3 bw2 _ Hw3 (fw_committed _ _ Hfr2)) as (o & s4 & H4 & Hw4 & Hf4).
  rewrite (fresh_name _ _ Hfr), (fw_id _ _ Hfr) in Hf2. rewrite (fresh_name _ _ Hfr2), (fw_id _ _ Hfr2) in Hf4.
  exists s4, token. split_and!; [|by rewrite <-(fresh_name _ _ Hfr2), <-(fw_id _ _ Hfr2); apply (wr_persisted _ _ _ _ Hw4)|done|].
  - rewrite (Hserve (accepted 202 id token (b +:+ sent rq)) s3 bw2 o (s4, bw2)); [done| |done].
    cbn [dispatch]. rewrite Hro. unfold PatchBlobData. unfold octet_stream in Hct. rewrite <-negb_orb, Hct. cbn [negb].
    rewrite (bind_Ret _ _ _ _ _ H2), Herr by done. exact H3.
  - eapply outside_trans; [intros spec Ho _; by apply Hobj1|]. eapply outside_trans; [by apply outside_data|].
    eapply outside_trans; by apply outside_states.
Qed.

(** The request that completes an upload, up to the commit. *)
Lemma complete_copied s1 bw b rq :
  writing s1 bw b WOpen → (len b < 2 ^ 63)%Z → digest_Validate (rq_digest rq) = None → delivered rq = true →
  ∃ s2 bw2, same_upload bw bw2 ∧ writing s2 bw2 (b +:+ sent rq) WOpen ∧
    (∀ spec, is_object spec = true → spec ≠ uploadDataPathSpec (bw_name bw) (bw_id bw) → obj s2 spec = obj s1 spec) ∧
    completeUpload chunk bufsize rq (s1, bw) =
      (r ← attempt (Commit chunk bufsize {| MediaType := ""; BlobStore.Size := 0; desc_Digest := rq_digest rq |});
       match r with
       | inl err => _ ← attempt Cancel; mret (inl (errors [commit_code err]))
       | inr desc => mret (inr desc)
       end) (s2, bw2).
Proof.
  intros Hw1 Hlen Hd Hdel.
  destruct (copyFullPayload_spec s1 bw b rq Hw1 Hlen) as (s2 & bw2 & err & H2 & Hs2 & Hw2 & Herr & Hf2).
  exists s2, bw2. split_and!; try done. unfold completeUpload.
  rewrite bool_decide_false by (by apply valid_ne). rewrite digest_Parse_spec, Hd. unfold mbind at 1, gom_bind at 1.
  by rewrite H2, Herr by done.
Qed.
(** Without a database the answer follows from the commit. *)
Lemma dispatch_put rq x r y :
  h_readOnly h = false → completeUpload chunk bufsize rq x = (Ret r, y) →
  dispatch chunk bufsize h PUT rq x = (Ret (match r with inl resp => resp | inr desc => created desc end), y).
Proof. intros Hro Hc. cbn [dispatch]. rewrite Hro. unfold PutBlobUploadComplete. by rewrite (bind_Ret _ _ _ _ _ Hc). Qed.

(** The blob of the content is not there with other bytes. *)
Definition no_clash (s : St) (b : bytes) : Prop :=
  ∀ x, obj s (blobDataPathSpec (digest_FromBytes b)) = Some x → x = b.
(** The paths of the blob and of its links are supported. *)
Definition blob_paths (d : digest) (b : bytes) : Prop :=
  supported (blobDataPathSpec (digest_FromBytes b)) ∧ supported (layerLinkPathSpec name (digest_FromBytes b)) ∧
  supported (layerLinkPathSpec name d).

Definition blob_descriptor (b : bytes) : Descriptor :=
  {| MediaType := "application/octet-stream"; BlobStore.Size := len b; desc_Digest := digest_FromBytes b |}.

(** The steps of a request that completes an upload. *)
Lemma put_steps s id b rq :
  let d := rq_digest rq in let c := b +:+ sent rq in
  persisted s name id b → token_for id (len b) rq → (len c < 2 ^ 63)%Z →
  delivered rq = true → digest_Validate d = None → matches d c → blob_paths d c →
  ∃ bw s1 bw3 s3, ResumeBlobUpload h id rq s = (Ret (inr bw), s1) ∧
    completeUpload chunk bufsize rq (s1, bw) = (Ret (inr (blob_descriptor c)), (s3, bw3)) ∧
    attempt Close (s3, bw3) = (Ret (inl (errors_New "blobwriter close after commit")), (s3, bw3)) ∧ rinv s3 ∧
    committed_objects s s3 name id (opt_mirrorFS (h_options h)) d c.
Proof.
  intros d c Hp Ht Hlen Hdel Hd Hm (Hsb & Hsl & Hsa). assert (len b < 2 ^ 63)%Z as Hlb
    by (unfold c in Hlen; rewrite str_length_app in Hlen; lia).
  destruct (ResumeBlobUpload_ok s id b rq Hp Ht) as (bw & s1 & Hres & Hw1 & Hfr & Hobj1).
  destruct (complete_copied s1 bw b rq Hw1 Hlb Hd Hdel) as (s2 & bw2 & Hs2 & Hw2 & Hf2 & Hcomp).
  pose proof (fresh_same _ _ _ Hfr Hs2) as Hfr2. pose proof (fresh_name _ _ Hfr2) as Hn2.
  rewrite (fresh_name _ _ Hfr), (fw_id _ _ Hfr) in Hf2. rewrite <-Hn2 in Hsl, Hsa.
  set (desc := {| MediaType := ""; BlobStore.Size := 0; desc_Digest := rq_digest rq |}) in *.
  destruct (Commit_ok s2 bw2 c desc [] Hw2 (fw_committed _ _ Hfr2) Hlen Hd Hm) as (s3 & bw3 & H3 & Hc3 & Hr3 & Hv3);
    [by rewrite (fw_store _ _ Hfr2)|done..|].
  assert (verdict desc c = Ret (blob_descriptor c)) as Hvd by (unfold verdict; by rewrite decide_True).
  exists bw, s1, bw3, s3. split_and!; [done|..|done|].
  - rewrite Hcomp. rewrite (bind_Ret _ _ _ (inr (blob_descriptor c)) (s3, bw3)); [done|].
    unfold attempt. by rewrite H3, Hvd.
  - unfold attempt, Close. by rewrite this_bind, Hc3.
  - rewrite Hn2, (fw_id _ _ Hfr2), (fw_mirror _ _ Hfr2) in Hv3. intros spec Ho. rewrite Hv3 by done.
    change (desc_Digest desc) with d.
    destruct (of_upload name id spec) eqn:Hu; [done|].
    assert (∀ sp, is_object sp = true → of_upload name id sp = false → obj s2 sp = obj s sp) as Hsame.
    { intros sp Hsp Hup. rewrite Hf2, Hobj1; [done..|]. intros ->. cbn in Hup. by rewrite !bool_decide_true in Hup. }
    by rewrite !Hsame by (done || apply Hsb).
Qed.
Lemma serve_put s id b rq :
  let d := rq_digest rq in let c := b +:+ sent rq in
  persisted s name id b → token_for id (len b) rq → (len c < 2 ^ 63)%Z → h_readOnly h = false →
  delivered rq = true → digest_Validate d = None → matches d c → blob_paths d c →
  ∃ s', serve chunk bufsize h id PUT rq s = (Ret (created (blob_descriptor c)), s') ∧ rinv s' ∧
    committed_objects s s' name id (opt_mirrorFS (h_options h)) d c.
Proof.
  intros d c Hp Ht Hlen Hro Hdel Hd Hm Hbp.
  destruct (put_steps s id b rq Hp Ht Hlen Hdel Hd Hm Hbp) as (bw & s1 & bw3 & s3 & Hres & Hcomp & Hclose & Hr3 & Hv3).
  exists s3. split; [|done]. unfold serve. rewrite (bind_Ret _ _ _ _ _ Hres). unfold with_upload.
  rewrite (bind_Ret _ _ _ _ _ (dispatch_put _ _ _ _ Hro Hcomp)). by rewrite (bind_Ret _ _ _ _ _ Hclose).
Qed.

(** What a refused request leaves of an upload: what was sent to it, or, with a
    driver that cancels a writer that is closed already, nothing but a stored hash
    state. *)
Definition removed (s : St) (id : string) : Prop :=
  rinv s ∧ obj s (uploadDataPathSpec name id) = None ∧ obj s (uploadStartedAtPathSpec name id) = None.
Definition refuses_closed : Prop := ∀ s w ks b,
  inv s → opened s w ks b WClosed → ∃ e, wr_Cancel w s = (Fail e, s).
Definition refused_upload (s' : St) (id : string) (b : bytes) : Prop :=
  (persisted s' name id b ∨ removed s' id) ∧ (refuses_closed → persisted s' name id b).

Lemma removed_objects s s' id :
  rinv s' → upload_paths name id → (∀ spec, is_object spec = true → obj s' spec = if of_upload name id spec then None else obj s spec) →
  removed s' id ∧ outside_same s s' id.
Proof.
  intros Hr Hpp Hv. split; [split; [done|]|].
  - split; (rewrite Hv by (done || apply Hpp); cbn [of_upload]; by rewrite !bool_decide_true).
  - intros spec Ho Hu. by rewrite Hv, Hu.
Qed.
Lemma removed_states s s' id :
  removed s id → upload_paths name id → rinv s' → same_but_states s s' name id → removed s' id.
Proof. intros (_ & Hd & Hs) Hpp Hr Hv. split_and!; [done|..]; by rewrite Hv by (done || apply Hpp). Qed.

(** Canceling a writer that is closed, and the deferred Close after it. *)
Lemma cancel_refused s id bw b :
  writing s bw b WClosed → fresh_writer id bw →
  ∃ o s1, attempt Cancel (s, bw) = (Ret o, (s1, bw)) ∧ refused_upload s1 id b ∧ outside_same s s1 id ∧
  ∃ o' s2, attempt Close (s1, bw) = (Ret o', (s2, bw)) ∧ refused_upload s2 id b ∧ outside_same s s2 id.
Proof.
  intros Hw Hfr. pose proof (fresh_name _ _ Hfr) as Hn. pose proof (fw_id _ _ Hfr) as Hid. pose proof (fw_committed _ _ Hfr) as Hc.
  pose proof (wr_persisted _ _ _ _ Hw) as Hp. pose proof (ps_paths _ _ _ _ Hp) as Hpp.
  destruct (Cancel_closed s bw b Hw Hc) as [(e & He & H1)|(s0 & s1 & He & H1 & Hr1 & Ho1 & Hv1)].
  - exists (inl e), s. destruct (closed_again s bw b Hw Hc) as (o' & s2 & H2 & Hw2 & Hs2). rewrite Hn, Hid in *.
    pose proof (wr_persisted _ _ _ _ Hw2) as Hp2. rewrite Hn, Hid in Hp2.
    split_and!; [unfold attempt; by rewrite H1|split; [by left|done]|by intros spec|].
    exists o', s2. split_and!; [done|split; [by left|done]|by apply outside_states].
  - exists (inr tt), s1.
    destruct (closed_done s1 bw b Hr1 Hpp (proj1 (wr_written _ _ _ _ Hw)) Hc Ho1) as (o' & s2 & H2 & Hr2 & Hs2).
    rewrite Hn, Hid in *. destruct (removed_objects s s1 id Hr1 Hpp Hv1) as [Hrm Hout].
    assert (¬ refuses_closed) as Hno.
    { intros Href. destruct (Href s _ _ _ (proj1 (ps_rinv _ _ _ _ Hp)) (wr_opened _ _ _ _ Hw)) as [e He']. by rewrite He in He'. }
    split_and!; [unfold attempt; by rewrite H1|split; [by right|done]|done|].
    exists o', s2. split_and!; [done|split; [right|done]|eapply outside_trans; [done|by apply outside_states]].
    by apply (removed_states s1).
Qed.

(** C16: a digest that is not one of the content is refused: no blob is stored
    and no link is made, nothing outside the upload changes.  The upload keeps
    what was sent to it when the driver refuses to cancel a writer that is closed
    already; with another driver it keeps that or is removed. *)
Theorem upload_wrong_digest s id b rq :
  let d := rq_digest rq in let c := b +:+ sent rq in
  persisted s name id b → token_for id (len b) rq → (len c < 2 ^ 63)%Z → h_readOnly h = false →
  delivered rq = true → digest_Validate d = None → ¬ matches d c →
  ∃ s', serve chunk bufsize h id PUT rq s = (Ret (errors [ErrorCodeDigestInvalid]), s') ∧
    outside_same s s' id ∧ (persisted s' name id c ∨ removed s' id) ∧ (refuses_closed → persisted s' name id c).
Proof.
  intros d c Hp Ht Hlen Hro Hdel Hd Hm. assert (len b < 2 ^ 63)%Z as Hlb
    by (unfold c in Hlen; rewrite str_length_app in Hlen; lia).
  destruct (serve_resumed s id b PUT rq Hp Ht) as (bw & s1 & Hw1 & Hfr & Hobj1 & Hserve).
  destruct (complete_copied s1 bw b rq Hw1 Hlb Hd Hdel) as (s2 & bw2 & Hs2 & Hw2 & Hf2 & Hcomp).
  pose proof (fresh_same _ _ _ Hfr Hs2) as Hfr2.
  set (desc := {| MediaType := ""; BlobStore.Size := 0; desc_Digest := rq_digest rq |}) in *.
  destruct (Commit_bad s2 bw2 c desc Hw2 (fw_committed _ _ Hfr2) Hlen Hd Hm) as (s3 & bw3 & H3 & Hs3 & Hw3 & Hf3).
  pose proof (fresh_same _ _ _ Hfr2 Hs3) as Hfr3.
  destruct (cancel_refused s3 id bw3 c Hw3 Hfr3) as (o & s4 & H4 & _ & _ & o' & s5 & H5 & Href & Hout).
  rewrite (fresh_name _ _ Hfr), (fw_id _ _ Hfr) in Hf2. rewrite (fresh_name _ _ Hfr2), (fw_id _ _ Hfr2) in Hf3.
  exists s5. split; [|split; [|exact Href]].
  - rewrite (Hserve (errors [ErrorCodeDigestInvalid]) s4 bw3 o' (s5, bw3)); [done| |done].
    rewrite (dispatch_put rq (s1, bw) (inl (errors [ErrorCodeDigestInvalid])) (s4, bw3)); [done..|]. rewrite Hcomp.
    rewrite (bind_Ret _ _ _ (inl (ErrBlobInvalidDigest (desc_Digest desc) (errors_New "content does not match digest"))) (s3, bw3))
      by (unfold attempt; by rewrite H3).
    by rewrite (bind_Ret _ _ _ _ _ H4).
  - eapply outside_trans; [intros spec Ho _; by apply Hobj1|]. eapply outside_trans; [by apply outside_data|].
    eapply outside_trans; [by apply outside_states|done].
Qed.

(** ** A whole upload *)

Definition with_token (token : string) (rq : request) : request :=
  {| rq_state := token; rq_digest := rq_digest rq; rq_ContentType := rq_ContentType rq;
     rq_ContentLength := rq_ContentLength rq; rq_reads := rq_reads rq; rq_err := rq_err rq;
     rq_disconnected := rq_disconnected rq |}.
(** Each request is sent with the token of the response before it. *)
Fixpoint patches (id token : string) (rqs : list request) : GoM St error string :=
  match rqs with
  | [] => mret token
  | rq :: rqs => r ← serve chunk bufsize h id PATCH (with_token token rq); patches id (rs_location r) rqs
  end.

Lemma patches_spec rqs s id b token :
  persisted s name id b → (∀ rq, rq_state rq = token → token_for id (len b) rq) →
  (len (b +:+ joined (sent <$> rqs)) < 2 ^ 63)%Z → h_readOnly h = false → packs id →
  forallb octet_stream rqs = true → forallb delivered rqs = true →
  ∃ s' token', patches id token rqs s = (Ret token', s') ∧ persisted s' name id (b +:+ joined (sent <$> rqs)) ∧
    (∀ rq, rq_state rq = token' → token_for id (len (b +:+ joined (sent <$> rqs))) rq) ∧ outside_same s s' id.
Proof.
  intros Hp Ht Hlen Hro Hpk. revert s b token Hp Ht Hlen. induction rqs as [|rq rqs IH]; intros s b token Hp Ht Hlen Hct Hdel.
  - exists s, token. cbn [fmap list_fmap joined foldr] in *. rewrite str_app_nil_r in *. split_and!; done.
  - cbn [forallb fmap list_fmap joined foldr] in *. fold (joined (sent <$> rqs)) in *. apply andb_true_iff in Hct as [Hct1 Hct].
    apply andb_true_iff in Hdel as [Hdel1 Hdel]. rewrite str_app_assoc in *.
    assert (len b < 2 ^ 63)%Z by (rewrite !str_length_app in Hlen; lia).
    destruct (serve_patch s id b (with_token token rq)) as (s1 & tok1 & H1 & Hp1 & Ht1 & Ho1); [done|by apply Ht|done..|].
    destruct (IH s1 (b +:+ sent rq) tok1 Hp1 Ht1 Hlen Hct Hdel) as (s2 & tok2 & H2 & Hp2 & Ht2 & Ho2).
    exists s2, tok2. split_and!; try done; [|by eapply outside_trans]. cbn [patches]. by rewrite (bind_Ret _ _ _ _ _ H1).
Qed.

Lemma start_spec s id now :
  rinv s → upload_paths name id → formattable now = true → packs id →
  (∀ o, is_object (state name id o) = true → obj s (state name id o) = None) →
  ∃ s' token, StartBlobUpload h None id now s = (Ret (accepted 202 id token ""), s') ∧ persisted s' name id "" ∧
    (∀ rq, rq_state rq = token → token_for id 0 rq) ∧ outside_same s s' id.
Proof.
  intros Hr Hp Hf Hpk Hfresh.
  destruct (Create_spec s (h_blobs h) (h_options h) id now) as (bw & s1 & H1 & Hw & Hb & Hid & Hc & Hm & Hobj);
    [done|by rewrite Hblobs|done|by rewrite Hblobs|].
  assert (fresh_writer id bw) as Hfr by (constructor; congruence).
  destruct (respond_spec s1 bw "" 202 id Hw Hfr Hpk) as (s2 & token & H2 & Hw2 & Htok & Hf2).
  exists s2, token. split_and!; [|by rewrite <-(fresh_name _ _ Hfr), <-Hid; apply (wr_persisted _ _ _ _ Hw2)|done|].
  - unfold StartBlobUpload. rewrite (bind_Ret _ _ _ (inr (inr bw)) s1) by (unfold attempt; by rewrite H1).
    unfold with_upload. by rewrite H2.
  - rewrite Hblobs in Hobj. eapply outside_trans; [exact Hobj|]. by apply outside_states.
Qed.

(** The requests before the one that completes the upload. *)
Definition send (id : string) (now : Z) (rqs : list request) : GoM St error string :=
  r ← StartBlobUpload h None id now;
  patches id (rs_location r) rqs.
Lemma send_spec s id now rqs :
  let b := joined (sent <$> rqs) in
  rinv s → upload_paths name id → formattable now = true → packs id → h_readOnly h = false →
  (∀ o, is_object (state name id o) = true → obj s (state name id o) = None) →
  forallb octet_stream rqs = true → forallb delivered rqs = true → (len b < 2 ^ 63)%Z →
  ∃ s' token, send id now rqs s = (Ret token, s') ∧ persisted s' name id b ∧
    (∀ rq, rq_state rq = token → token_for id (len b) rq) ∧ outside_same s s' id.
Proof.
  intros b Hr Hp Hf Hpk Hro Hfresh Hct Hdel Hlen.
  destruct (start_spec s id now Hr Hp Hf Hpk Hfresh) as (s1 & tok1 & H1 & Hp1 & Ht1 & Ho1).
  destruct (patches_spec rqs s1 id "" tok1 Hp1 Ht1) as (s2 & tok2 & H2 & Hp2 & Ht2 & Ho2); [done..|].
  rewrite str_app_nil_l in Hp2, Ht2. exists s2, tok2. split_and!; [|done..|by eapply outside_trans].
  unfold send. by rewrite (bind_Ret _ _ _ _ _ H1).
Qed.

Definition upload (id : string) (now : Z) (rqs : list request) (put : request) : GoM St error response :=
  token ← send id now rqs;
  serve chunk bufsize h id PUT (with_token token put).
Definition content (rqs : list request) (put : request) : bytes := joined (sent <$> rqs) +:+ sent put.

(** Reading back what was linked. *)
Lemma read_linked (bufs : nat → nat) s d b :
  (∀ i, 0 < bufs i) → rinv s → blob_paths d b → obj s (blobDataPathSpec (digest_FromBytes b)) = Some b →
  obj s (layerLinkPathSpec name d) = Some (digest_FromBytes b) →
  lbs_Get bufs (repository_Blobs name del) d s =
    (if bool_decide (len b ≤ maxBlobGetSize)%Z then Ret b else Fail LimitedReader.errLimit, s).
Proof.
  intros Hb Hr (Hsb & _ & Hsa) Hblob Hlink. unfold lbs_Get. rewrite Blobs_Stat.
  erewrite bind_Ret; [|apply (stat_visible s [layerLinkPathSpec] name d (digest_FromBytes b) b); [done|by apply Forall_singleton|done|]].
  - cbn [desc_Digest]. by rewrite blob_Get_spec, Hblob by done.
  - split; [|done]. cbn [fmap list_fmap first_link]. by rewrite Hlink, digest_FromBytes_valid.
Qed.

(** C9: what is uploaded is what is stored.  For every way in which a content
    is cut into requests and the requests into reads, an upload that ends with
    a digest of the content stores the content under its canonical digest,
    links it into the repository, removes every trace of the upload, and
    changes nothing else; the repository then reads the content back, if it is
    not larger than what [Get] reads. *)
Theorem upload_stores_content (bufs : nat → nat) s id now rqs put :
  let d := rq_digest put in let b := content rqs put in
  (∀ i, 0 < bufs i) → rinv s → upload_paths name id → formattable now = true → packs id → h_readOnly h = false →
  opt_mirrorFS (h_options h) = true →
  (∀ o, is_object (state name id o) = true → obj s (state name id o) = None) →
  forallb octet_stream rqs = true → forallb delivered (put :: rqs) = true → (len b < 2 ^ 63)%Z →
  digest_Validate d = None → matches d b → blob_paths d b → no_clash s b →
  ∃ s', upload id now rqs put s = (Ret (created (blob_descriptor b)), s') ∧ rinv s' ∧
    (∀ spec, is_object spec = true → obj s' spec =
       if of_upload name id spec then None
       else if decide (spec = blobDataPathSpec (digest_FromBytes b)) then Some b
       else if decide (spec = layerLinkPathSpec name (digest_FromBytes b) ∨ spec = layerLinkPathSpec name d)
            then Some (digest_FromBytes b) else obj s spec) ∧
    lbs_Get bufs (repository_Blobs name del) d s' =
      (if bool_decide (len b ≤ maxBlobGetSize)%Z then Ret b else Fail LimitedReader.errLimit, s').
Proof.
  intros d b Hbufs Hr Hp Hf Hpk Hro Hmir Hfresh Hct Hdel Hlen Hd Hm Hbp Hnc.
  apply andb_true_iff in Hdel as [Hdelp Hdel].
  set (b0 := joined (sent <$> rqs)) in *.
  assert (len b0 < 2 ^ 63)%Z as Hlen0 by (unfold b, content in Hlen; rewrite str_length_app in Hlen; fold b0 in Hlen; lia).
  destruct (send_spec s id now rqs) as (s2 & tok2 & H2 & Hp2 & Ht2 & Ho12); [done..|]. fold b0 in Hp2, Ht2.
  destruct (serve_put s2 id b0 (with_token tok2 put)) as (s3 & H3 & Hr3 & Hv3); [done|by apply Ht2|done..|].
  change (b0 +:+ sent (with_token tok2 put)) with b in H3, Hv3. change (rq_digest (with_token tok2 put)) with d in Hv3.
  assert (∀ spec, is_object spec = true → obj s3 spec =
       if of_upload name id spec then None
       else if decide (spec = blobDataPathSpec (digest_FromBytes b)) then Some b
       else if decide (spec = layerLinkPathSpec name (digest_FromBytes b) ∨ spec = layerLinkPathSpec name d)
            then Some (digest_FromBytes b) else obj s spec) as Hv.
  { intros spec Ho. rewrite Hv3 by done. destruct (of_upload name id spec) eqn:Hu; [done|].
    rewrite !Ho12 by (done || apply Hbp).
    case_decide; [|repeat case_decide; naive_solver].
    destruct (obj s (blobDataPathSpec (digest_FromBytes b))) as [x|] eqn:Hx; [by rewrite (Hnc x Hx)|done]. }
  exists s3. split_and!; try done.
  - unfold upload. by rewrite (bind_Ret _ _ _ _ _ H2).
  - apply read_linked; try done.
    + rewrite Hv by apply Hbp. cbn [of_upload]. by rewrite decide_True.
    + rewrite Hv by apply Hbp. cbn [of_upload]. rewrite decide_False, decide_True by (done || by right). done.
Qed.

(** ** Requests that are refused, and canceled uploads *)

(** C17: a request whose token is not one for the upload as it stands is refused,
    whatever its method: a token that is not authentic, of another upload or
    repository, or of an earlier state of this upload.  Nothing outside the upload
    changes.  The upload keeps its content, except that a driver which cancels a
    writer that is closed already may remove it. *)
Theorem upload_stale_token s id b m rq :
  persisted s name id b →
  (∀ st, unpackUploadState (h_secret h) (rq_state rq) = Ret st →
     st_Name st ≠ name ∨ st_UUID st ≠ id ∨ st_Offset st ≠ len b) →
  unpackUploadState (h_secret h) (rq_state rq) ≠ Panic →
  ∃ s', serve chunk bufsize h id m rq s = (Ret (errors [ErrorCodeBlobUploadInvalid]), s') ∧
    outside_same s s' id ∧ (persisted s' name id b ∨ removed s' id) ∧ (refuses_closed → persisted s' name id b) ∧
    ((∀ st, unpackUploadState (h_secret h) (rq_state rq) = Ret st → st_Name st ≠ name ∨ st_UUID st ≠ id) → s' = s).
Proof.
  intros Hp Hst Hpan. assert (outside_same s s id) as Hout0 by (by intros spec).
  assert (persisted s name id b ∨ removed s id) as Hk0 by (by left).
  unfold serve, ResumeBlobUpload.
  destruct (unpackUploadState (h_secret h) (rq_state rq)) as [st| |] eqn:Hu; [|by exists s|done].
  specialize (Hst st eq_refl). rewrite Hblobs. cbn [repository_Blobs lbs_name].
  case_bool_decide as H1; [|by exists s]. case_bool_decide as H2; [|by exists s].
  destruct Hst as [?|[?|Hoff]]; [done..|].
  destruct (Resume_spec s (repository_Blobs name del) (h_options h) id b Hp) as (bw & s1 & Hres & Hw & Hb & Hid & Hc & Hm & Hobj).
  assert (fresh_writer id bw) as Hfr by done.
  destruct (Close_spec s1 bw b WOpen Hw) as (s2 & H3 & Hw2 & Hf2); [by left|done|].
  destruct (cancel_refused s2 id bw b Hw2 Hfr) as (o & s3 & H4 & [Hk Href] & Hout & _).
  rewrite (fresh_name _ _ Hfr), Hid in Hf2. exists s3. cbn [negb]. split_and!; [| |done..|].
  - rewrite (bind_Ret (attempt _ ≫= _) _ _ (inl (errors [ErrorCodeBlobUploadInvalid])) s3); [done|].
    rewrite (bind_Ret _ _ _ (inr bw) s1) by (unfold attempt; by rewrite Hres). unfold with_upload.
    rewrite (bind_Ret _ _ _ _ _ (Size_spec s1 bw b WOpen Hw eq_refl)). rewrite (proj2 (Z.eqb_neq _ _)) by congruence. cbn [negb].
    rewrite (bind_Ret _ _ _ (inr tt) (s2, bw)) by (unfold attempt; by rewrite H3).
    by rewrite (bind_Ret _ _ _ _ _ H4).
  - eapply outside_trans; [intros spec Ho _; by apply Hobj|]. eapply outside_trans; [by apply outside_states|done].
  - intros Hne. by destruct (Hne st eq_refl).
Qed.

(** C18: a canceled upload is gone, but for a hash state that may be left: its
    data and the time it was started are removed, nothing outside it changes, and
    every later request for it is answered that there is no such upload. *)
Theorem upload_cancel s id b rq :
  persisted s name id b → token_for id (len b) rq → h_readOnly h = false →
  ∃ resp s', serve chunk bufsize h id DELETE rq s = (Ret resp, s') ∧ rs_status resp = Some 204%Z ∧ rs_errors resp = [] ∧
    rinv s' ∧ outside_same s s' id ∧ obj s' (uploadDataPathSpec name id) = None ∧
    obj s' (uploadStartedAtPathSpec name id) = None ∧
    ∀ m rq' t off, unpackUploadState (h_secret h) (rq_state rq') =
        Ret {| st_Name := name; st_UUID := id; st_Offset := off; st_StartedAt := t |} →
      serve chunk bufsize h id m rq' s' = (Ret (errors [ErrorCodeBlobUploadUnknown]), s').
Proof.
  intros Hp Ht Hro. destruct (serve_resumed s id b DELETE rq Hp Ht) as (bw & s1 & Hw1 & Hfr & Hobj1 & Hserve).
  pose proof (fresh_name _ _ Hfr) as Hn. pose proof (fw_id _ _ Hfr) as Hid. pose proof (ps_paths _ _ _ _ Hp) as Hpp.
  destruct (Cancel_spec s1 bw b Hw1 (fw_committed _ _ Hfr)) as (s2 & H2 & Hr2 & Ho2 & Hv2). rewrite Hn, Hid in Hv2, Ho2.
  assert (upload_paths (bw_name bw) (bw_id bw)) as Hpp' by (by rewrite Hn, Hid). pose proof (proj1 (wr_written _ _ _ _ Hw1)) as Hwr.
  assert (opened s2 (bw_fileWriter bw) (layout (uploadDataPathSpec (bw_name bw) (bw_id bw))) b WDone) as Ho2' by (by rewrite Hn, Hid).
  destruct (closed_done s2 bw b Hr2 Hpp' Hwr (fw_committed _ _ Hfr) Ho2') as (o & s3 & H3 & Hr3 & Hv3). rewrite Hn, Hid in Hv3.
  assert (obj s3 (uploadStartedAtPathSpec name id) = None) as Hst3.
  { rewrite Hv3, Hv2 by (done || apply Hpp). cbn [of_upload]. by rewrite !bool_decide_true. }
  set (resp := {| rs_status := Some 204%Z; rs_errors := []; rs_uuid := bw_id bw; rs_location := ""; rs_endRange := 0; rs_digest := "" |}).
  exists resp, s3. split_and!; [|done..| | |done|].
  - rewrite (Hserve resp s2 bw o (s3, bw)); [reflexivity| |done].
    cbn [dispatch]. rewrite Hro. unfold CancelBlobUpload. rewrite this_bind.
    rewrite (bind_Ret _ _ _ (inr tt) (s2, bw)); [reflexivity|]. unfold attempt. by rewrite H2.
  - intros spec Ho Hu. rewrite Hv3, Hv2, Hu, Hobj1; try done. intros o0 ->. cbn in Hu. by rewrite !bool_decide_true in Hu.
  - rewrite Hv3, Hv2 by (done || apply Hpp). cbn [of_upload]. by rewrite !bool_decide_true.
  - intros m rq' t off Hu. unfold serve, ResumeBlobUpload. rewrite Hu, Hblobs. cbn [repository_Blobs lbs_name st_Name st_UUID].
    rewrite !bool_decide_true by done. cbn [negb]. unfold attempt, mbind, gom_bind.
    rewrite (Resume_unknown s3 (repository_Blobs name del) (h_options h) id Hr3 Hpp Hst3). done.
Qed.

End props.
End UploadProps.
