(* ===== verification/TagStore.v ===== *)
(** * Tags

    Models registry/storage/tagstore.go and cachedtagstore.go over any storage
    driver, with the theorems that make tags work: a tag points to the digest
    it was last set to, removing it removes it and nothing else, and the tags
    of a digest are exactly the tags that point to it. *)

From S2P Require Import Prelude GoStd Digest Driver FileSystem Paths ObjectStore BlobStore.

Module TagStore.
Import Paths ObjectStore BlobStore.

Section store.
Context {GD : GoDigest} {St : Type} {D : StorageDriver St}.
Abbreviation M := (GoM St error) (only parsing).

(** A [tagStore] is its repository's name; every method starts from it. *)

Definition All (name : string) : M (list string) :=
  pathSpec ← path_of (manifestTagPathSpec name "");
  r ← attempt (drv_List pathSpec);
  match r with
  | inl (PathNotFoundError _ _) => fail (ErrRepositoryUnknown name)
  | inl err => fail err
  | inr entries => mret ((λ entry, (path_Split entry).2) <$> entries)
  end.

Definition exists_tag (name tag : string) : M bool :=
  tagPath ← path_of (manifestTagCurrentPathSpec name tag);
  exists_ tagPath.

(** [tagStore.linkedBlobStore]: its links are the entries of the tag's index. *)
Definition tag_linkPathFns (tag : string) : list (string → digest → outcome digest_err string) :=
  [λ name dgst, pathFor (manifestTagIndexEntryLinkPathSpec name tag dgst)].

Definition Tag (name tag : string) (desc : Descriptor) : M unit :=
  currentPath ← path_of (manifestTagCurrentPathSpec name tag);
  _ ← linkBlob (tag_linkPathFns tag) name desc [];
  link currentPath (desc_Digest desc).

(** The descriptor of a tag has its digest only. *)
Definition Get (name tag : string) : M Descriptor :=
  currentPath ← path_of (manifestTagCurrentPathSpec name tag);
  r ← attempt (readlink currentPath);
  match r with
  | inl (PathNotFoundError _ _) => fail (ErrTagUnknown tag)
  | inl err => fail err
  | inr revision => mret {| MediaType := ""; Size := 0; desc_Digest := revision |}
  end.

Definition Untag (name tag : string) : M unit :=
  repoPath ← path_of (repositoryRootPathSpec name);
  ok ← exists_ repoPath;
  if negb ok then fail (ErrRepositoryUnknown name)
  else
    tagPath ← path_of (manifestTagPathSpec name tag);
    drv_Delete tagPath.

(** The loop of [Lookup]; the error of [pathFor] is dropped there. *)
Fixpoint Lookup_loop (name : string) (d : digest) (allTags tags : list string) : M (list string) :=
  match allTags with
  | [] => mret tags
  | tag :: allTags =>
      let tagLinkPath := match pathFor (manifestTagCurrentPathSpec name tag) with Ret p => p | _ => "" end in
      r ← attempt (readlink tagLinkPath);
      match r with
      | inl (PathNotFoundError _ _) => Lookup_loop name d allTags tags
      | inl err => fail err
      | inr tagDigest =>
          Lookup_loop name d allTags (if bool_decide (tagDigest = d) then tags ++ [tag] else tags)
      end
  end.
Definition Lookup (name : string) (desc : Descriptor) : M (list string) :=
  r ← attempt (All name);
  match r with
  | inl (ErrRepositoryUnknown _) => Lookup_loop name (desc_Digest desc) [] []
  | inl err => fail err
  | inr allTags => Lookup_loop name (desc_Digest desc) allTags []
  end.

(** *** The cached tag store *)

(** The state of a [cachedTagStore]: whether its [sync.Once] has run, and the
    tags it has collected. *)
Record cache := { once : bool; tags : gmap string digest }.
Definition newCachedTagStore : cache := {| once := false; tags := ∅ |}.

Fixpoint Prime_loop (name : string) (allTags : list string) : GoM (St * cache) error unit :=
  match allTags with
  | [] => mret tt
  | tag :: allTags =>
      tagLinkPath ← on_fst (path_of (manifestTagCurrentPathSpec name tag));
      r ← attempt (on_fst (readlink tagLinkPath));
      match r with
      | inl (PathNotFoundError _ _) => Prime_loop name allTags
      | inl err => fail err
      | inr tagDigest =>
          _ ← on_snd (modify (λ c, {| once := once c; tags := <[tag := tagDigest]> (tags c) |}));
          Prime_loop name allTags
      end
  end.
(** The function given to [once.Do] runs at the first call only; a later call
    returns no error. *)
Definition Prime (name : string) : GoM (St * cache) error unit :=
  done ← on_snd (gets once);
  if (done : bool) then mret tt
  else
    _ ← on_snd (modify (λ c, {| once := true; tags := tags c |}));
    allTags ← on_fst (All name);
    Prime_loop name allTags.

Definition cached_All (name : string) : GoM (St * cache) error (list string) :=
  _ ← Prime name;
  on_snd (gets (λ c, (map_to_list (tags c)).*1)).
Definition cached_Lookup (name : string) (desc : Descriptor) : GoM (St * cache) error (list string) :=
  _ ← Prime name;
  on_snd (gets (λ c, (filter (λ td, td.2 = desc_Digest desc) (map_to_list (tags c))).*1)).

End store.

(** ** Tags on the map of objects *)

Section spec.
Context {GD : GoDigest} {GDL : GoDigestLaws}.
Context {St : Type} {D : StorageDriver St} {view : St → fs} {inv : St → Prop} {ok : fpath → Prop}.
Context {L : DriverLaws D view inv ok}.

Abbreviation rinv := (ObjectStore.rinv (view := view) (inv := inv)).
Abbreviation supported := (ObjectStore.supported (ok := ok)).
Abbreviation obj s := (object (view s)).

(** The directory of the tags of a repository. *)
Definition tags_dir (name : string) : fpath := repos name ++ ["_manifests"; "tags"].

Lemma pathFor_tags name :
  safe_name name = true → pathFor (manifestTagPathSpec name "") = Ret (abspath (tags_dir name)).
Proof.
  intros Hn. cbn [pathFor]. unfold manifestTagPath.
  assert (manifestTagsPath name = Ret (abspath (tags_dir name))) as ->.
  { by apply (pathFor_layout (manifestTagsPathSpec name)). }
  cbn [obind]. f_equal. transitivity (Clean (abspath (tags_dir name) +:+ "/")); [done|].
  rewrite Clean_abspath_slash; [done|]. apply repos_app_good; [done|by repeat constructor].
Qed.

(** The objects below the directory of a tag. *)
Lemma tag_objects spec name tag r :
  is_object spec = true → safe_name name = true → layout spec = (tags_dir name ++ [tag]) ++ r →
  spec = manifestTagCurrentPathSpec name tag ∨ ∃ d, spec = manifestTagIndexEntryLinkPathSpec name tag d.
Proof.
  intros Ho Hn Hl. apply is_object_safe in Ho as Hs. destruct Hs as [Hs _]. unfold is_object in Ho. breflect.
  rewrite layout_below in Hl. destruct (below spec) as [[n|] t] eqn:Hb.
  - destruct (below_marked _ _ _ Hb Hs) as [Hm Hn'].
    unfold tags_dir in Hl. rewrite <-!app_assoc in Hl. apply repos_inj in Hl as [-> Ht]; try done.
    destruct spec; simplify_eq/=; eauto.
  - exfalso. apply (below_repos _ name _ Hb Hn (["_manifests"; "tags"] ++ [tag] ++ r)). rewrite Hl.
    unfold tags_dir. by rewrite <-!app_assoc.
Qed.

Lemma All_spec s name :
  rinv s → safe_name name = true → ok (tags_dir name) → view s (tags_dir name) = Some EDir →
  view s (tags_dir name ++ ["docker"]) = None →
  ∃ ts, All name s = (Ret ts, s) ∧ NoDup ts ∧ ∀ t, t ∈ ts ↔ is_Some (view s (tags_dir name ++ [t])).
Proof.
  intros [Hi Hr] Hn Hok Hv Hd. destruct (law_list_names s (tags_dir name) Hi Hok Hv) as (names & Hl & Hnd & Hc).
  { intros k [= <-]. done. }
  exists names. split_and!; try done. unfold All, path_of, lift, attempt, mbind, gom_bind.
  rewrite pathFor_tags by done. cbn [omap_err]. rewrite Hl. unfold mret, gom_ret. do 2 f_equal.
  rewrite <-list_fmap_compose. rewrite <-(list_fmap_id names) at 2. apply list_fmap_ext. intros i x Hx.
  apply list_elem_of_lookup_2, Hc in Hx. destruct (law_view_ok s _ Hi Hx) as [Hnil|Hokx]; [by destruct (tags_dir name)|].
  apply law_ok in Hokx as [_ Hg]. apply Forall_app in Hg as [_ [Hgx _]%Forall_cons].
  unfold compose. by rewrite path_Split_snoc.
Qed.
Lemma All_missing s name :
  rinv s → safe_name name = true → ok (tags_dir name) → view s (tags_dir name) = None →
  ¬ blocked (view s) (tags_dir name) →
  All name s = (Fail (ErrRepositoryUnknown name), s).
Proof.
  intros [Hi Hr] Hn Hok Hv Hb. destruct (law_list_missing s _ Hi Hok Hv Hb) as [n Hl].
  unfold All, path_of, lift, attempt, mbind, gom_bind. rewrite pathFor_tags by done. cbn [omap_err]. by rewrite Hl.
Qed.

Lemma tag_Get_spec s name tag :
  rinv s → supported (manifestTagCurrentPathSpec name tag) →
  Get name tag s =
    (match obj s (manifestTagCurrentPathSpec name tag) with
     | None => Fail (ErrTagUnknown tag)
     | Some c => match digest_Validate c with
                 | Some e => Fail (ErrDigest e)
                 | None => Ret {| MediaType := ""; Size := 0; desc_Digest := c |}
                 end
     end, s).
Proof.
  intros Hr Hs. unfold Get. rewrite (bind_Ret _ _ _ _ _ (path_of_spec _ s (proj1 Hs))).
  unfold attempt, mbind, gom_bind. destruct (obj s (manifestTagCurrentPathSpec name tag)) as [c|] eqn:Ho.
  - destruct (digest_Validate c) as [e|] eqn:Hc; [by rewrite (readlink_invalid s _ c e)|by rewrite (readlink_Ret s _ c)].
  - by destruct (readlink_missing s _ Hr Hs Ho) as [n ->].
Qed.

Lemma Tag_spec s name tag desc :
  let d := desc_Digest desc in
  rinv s → supported (manifestTagCurrentPathSpec name tag) → supported (manifestTagIndexEntryLinkPathSpec name tag d) →
  ∃ s', Tag name tag desc s = (Ret tt, s') ∧ rinv s' ∧
    ∀ spec, is_object spec = true → obj s' spec =
      if decide (spec = manifestTagCurrentPathSpec name tag) then Some d
      else if decide (spec = manifestTagIndexEntryLinkPathSpec name tag d) then Some d else obj s spec.
Proof.
  intros d Hr Hs1 Hs2. unfold Tag. rewrite (bind_Ret _ _ _ _ _ (path_of_spec _ s (proj1 Hs1))).
  destruct (linkBlob_spec s (manifestTagIndexEntryLinkPathSpec name tag d)
    (λ name dgst, pathFor (manifestTagIndexEntryLinkPathSpec name tag dgst)) [] name d desc Hr Hs2)
    as (s1 & Hl & Hr1 & Hv1); [done..|].
  unfold tag_linkPathFns. rewrite (bind_Ret _ _ _ _ _ Hl). unfold link.
  destruct (put_object s1 _ d Hr1 Hs1) as (s2 & Hp & Hr2 & _ & Hv2). exists s2. split_and!; try done.
  intros spec Ho. by rewrite Hv2, Hv1.
Qed.

Lemma Lookup_loop_spec s name d ts acc :
  rinv s → (∀ t, t ∈ ts → supported (manifestTagCurrentPathSpec name t)) →
  (∀ t c, t ∈ ts → obj s (manifestTagCurrentPathSpec name t) = Some c → digest_Validate c = None) →
  Lookup_loop name d ts acc s =
    (Ret (acc ++ filter (λ t, obj s (manifestTagCurrentPathSpec name t) = Some d) ts), s).
Proof.
  intros Hr. revert acc. induction ts as [|t ts IH]; intros acc Hs Hv.
  { by rewrite filter_nil, app_nil_r. }
  assert (supported (manifestTagCurrentPathSpec name t)) as Hst by (apply Hs; by left).
  cbn [Lookup_loop]. rewrite layout_pathFor by apply Hst. unfold attempt, mbind, gom_bind in *.
  destruct (obj s (manifestTagCurrentPathSpec name t)) as [c|] eqn:Ho.
  - rewrite (readlink_Ret s _ c); [|done..|eapply Hv; [by left|done]].
    rewrite IH; [|by intros; apply Hs; right|by intros; eapply Hv; [by right|]].
    case_bool_decide as Hc.
    + rewrite filter_cons_True, <-app_assoc by congruence. done.
    + by rewrite filter_cons_False by congruence.
  - destruct (readlink_missing s _ Hr Hst Ho) as [n ->].
    rewrite IH; [|by intros; apply Hs; right|by intros; eapply Hv; [by right|]].
    by rewrite filter_cons_False by congruence.
Qed.

(** The current link of a tag is below the directory of the tag. *)
Lemma current_listed s name t c :
  inv s → obj s (manifestTagCurrentPathSpec name t) = Some c → is_Some (view s (tags_dir name ++ [t])).
Proof.
  intros Hi Ho%object_present. eexists. apply (law_prefix s _ ["current"; "link"]); [done| |done].
  unfold tags_dir. rewrite <-!app_assoc. by eexists.
Qed.

(** The directory of the tags is not below a file. *)
Lemma tags_dir_free s name q c :
  rinv s → safe_name name = true → view s q = Some (EFile c) → ¬ q `prefix_of` tags_dir name.
Proof.
  intros [_ Hr] Hn Hq Hp. destruct (Hr _ _ Hq) as (spec & r & Ho & Hl & ->). rewrite app_nil_r in Hl. subst q.
  assert (is_object (manifestTagCurrentPathSpec name "x") = true) as Hx.
  { unfold is_object. cbn [file_spec safe andb]. by rewrite Hn. }
  assert (spec = manifestTagCurrentPathSpec name "x") as ->.
  { apply object_prefix; [done..|]. etrans; [exact Hp|]. exists ["x"; "current"; "link"].
    unfold tags_dir. by rewrite <-app_assoc. }
  destruct Hp as [r Hp]. apply (f_equal length) in Hp. unfold tags_dir in Hp. cbn [layout] in Hp.
  rewrite !length_app in Hp. simpl in Hp. lia.
Qed.

(** What reading every tag of a repository relies on: the listed names are
    tags, and the links hold digests. *)
Record tags_ready (s : St) (name : string) : Prop := {
  ready_name : safe_name name = true;
  ready_dir : ok (tags_dir name);
  ready_docker : view s (tags_dir name ++ ["docker"]) = None;
  ready_tags t : is_Some (view s (tags_dir name ++ [t])) → supported (manifestTagCurrentPathSpec name t);
  ready_links t c : obj s (manifestTagCurrentPathSpec name t) = Some c → digest_Validate c = None;
}.

Lemma Prime_loop_spec s name ts c :
  rinv s → tags_ready s name → (∀ t, t ∈ ts → supported (manifestTagCurrentPathSpec name t)) →
  ∃ m, Prime_loop name ts (s, c) = (Ret tt, (s, {| once := once c; tags := m |})) ∧
    ∀ t, m !! t = match (if decide (t ∈ ts) then obj s (manifestTagCurrentPathSpec name t) else None) with
                  | Some d => Some d | None => tags c !! t end.
Proof.
  intros Hr Hready. revert c. induction ts as [|t ts IH]; intros c Hs.
  { exists (tags c). destruct c. by split. }
  assert (supported (manifestTagCurrentPathSpec name t)) as Hst by (apply Hs; by left).
  cbn [Prime_loop]. unfold attempt, on_fst, on_snd, modify, mbind, gom_bind in *. cbn [fst snd].
  rewrite (path_of_spec _ s (proj1 Hst)). cbn [fst snd].
  destruct (obj s (manifestTagCurrentPathSpec name t)) as [d|] eqn:Ho.
  - rewrite (readlink_Ret s _ d); [|done..|by eapply ready_links]. cbn [fst snd].
    edestruct (IH {| once := once c; tags := <[t:=d]> (tags c) |}) as (m & -> & Hm); [by intros; apply Hs; right|].
    exists m. split; [done|]. intros t'. rewrite Hm. cbn [tags].
    destruct (decide (t' = t)) as [->|Hne].
    + rewrite lookup_insert_eq, (decide_True (P := t ∈ t :: ts)), Ho by (by left). by repeat case_match.
    + rewrite lookup_insert_ne by done.
      destruct (decide (t' ∈ ts)); [rewrite decide_True by (by right)|rewrite decide_False by set_solver]; done.
  - destruct (readlink_missing s _ Hr Hst Ho) as [n ->]. cbn [fst snd].
    destruct (IH c) as (m & -> & Hm); [by intros; apply Hs; right|].
    exists m. split; [done|]. intros t'. rewrite Hm.
    destruct (decide (t' = t)) as [->|Hne].
    + rewrite (decide_True (P := t ∈ t :: ts)), Ho by (by left). by case_decide.
    + destruct (decide (t' ∈ ts)); [rewrite decide_True by (by right)|rewrite decide_False by set_solver]; done.
Qed.

(** Priming collects every tag; it fails, with no tag, when the repository has
    no directory of tags. *)
Lemma Prime_spec s name :
  rinv s → tags_ready s name →
  ∃ o m, Prime name (s, newCachedTagStore) = (o, (s, {| once := true; tags := m |})) ∧
    (o = Ret tt ∨ o = Fail (ErrRepositoryUnknown name)) ∧
    ∀ t, m !! t = obj s (manifestTagCurrentPathSpec name t).
Proof.
  intros Hr Hready. pose proof Hready as [Hn Hok Hd Hsup _]. pose proof Hr as [Hi _].
  unfold Prime, on_fst, on_snd, gets, modify, mbind, gom_bind. cbn [fst snd once newCachedTagStore tags].
  destruct (view s (tags_dir name)) as [[c|]|] eqn:Hv.
  - exfalso. by eapply tags_dir_free.
  - destruct (All_spec s name Hr Hn Hok Hv Hd) as (ts & -> & _ & Hts). cbn [fst snd].
    edestruct (Prime_loop_spec s name ts {| once := true; tags := ∅ |}) as (m & -> & Hm); try done.
    { intros t Ht. by apply Hsup, Hts. }
    exists (Ret tt), m. split_and!; [done|by left|]. intros t. rewrite Hm. cbn [tags]. rewrite lookup_empty.
    case_decide as Ht; [by case_match|]. destruct (obj s _) eqn:Ho; [|done].
    exfalso. apply Ht, Hts. by eapply current_listed.
  - rewrite All_missing; try done; cycle 1.
    { intros (q & [Hq _] & c & Hc). by eapply tags_dir_free. }
    eexists _, ∅. split_and!; [done|by right|]. intros t. rewrite lookup_empty.
    destruct (obj s _) eqn:Ho; [|done]. apply current_listed in Ho as [e He]; [|done].
    assert (view s (tags_dir name) = Some EDir) by (by eapply (law_prefix s _ [t])). congruence.
Qed.

(** A primed cache answers from its tags. *)
Lemma cached_All_primed (s : St) name m :
  cached_All name (s, {| once := true; tags := m |}) =
    (Ret (map_to_list m).*1, (s, {| once := true; tags := m |})).
Proof. done. Qed.
Lemma cached_Lookup_primed (s : St) name desc m :
  ∃ ts, cached_Lookup name desc (s, {| once := true; tags := m |}) = (Ret ts, (s, {| once := true; tags := m |})) ∧
    NoDup ts ∧ ∀ t, t ∈ ts ↔ m !! t = Some (desc_Digest desc).
Proof.
  eexists. split; [reflexivity|]. split.
  - eapply sublist_NoDup; [apply (NoDup_fst_map_to_list m)|]. apply fmap_sublist, sublist_filter.
  - intros t. rewrite list_elem_of_fmap. setoid_rewrite list_elem_of_filter. split.
    + intros ([t' d] & -> & Hd & Hin%elem_of_map_to_list). cbn in *. by subst.
    + intros Ht. exists (t, desc_Digest desc). split_and!; [done..|]. by apply elem_of_map_to_list.
Qed.

End spec.

(** ** Properties *)

Section properties.
Context {GD : GoDigest} {GDL : GoDigestLaws}.
Context {St : Type} {D : StorageDriver St} {view : St → fs} {inv : St → Prop} {ok : fpath → Prop}.
Context {L : DriverLaws D view inv ok}.

Abbreviation rinv := (ObjectStore.rinv (view := view) (inv := inv)).
Abbreviation supported := (ObjectStore.supported (ok := ok)).
Abbreviation obj s := (object (view s)).

(** A tag points to the digest it was last set to, and setting it
    changes no other tag, of this repository or of another one. *)
Theorem tag_get s name tag desc name' tag' :
  let d := desc_Digest desc in
  rinv s → digest_Validate d = None →
  supported (manifestTagCurrentPathSpec name tag) → supported (manifestTagIndexEntryLinkPathSpec name tag d) →
  supported (manifestTagCurrentPathSpec name' tag') →
  ∃ s', Tag name tag desc s = (Ret tt, s') ∧ rinv s' ∧
    Get name' tag' s' =
      if decide (name' = name ∧ tag' = tag) then (Ret {| MediaType := ""; Size := 0; desc_Digest := d |}, s')
      else ((Get name' tag' s).1, s').
Proof.
  intros d Hr Hd Hs1 Hs2 Hs3. destruct (Tag_spec s name tag desc Hr Hs1 Hs2) as (s' & Ht & Hr' & Hv').
  exists s'. split_and!; try done. rewrite !tag_Get_spec by done. rewrite Hv' by apply Hs3.
  destruct (decide (name' = name ∧ tag' = tag)) as [[-> ->]|Hne].
  - rewrite decide_True by done. fold d. by rewrite Hd.
  - rewrite !decide_False by naive_solver. done.
Qed.

(** Removing a tag removes its current link and its index, so that the
    tag is unknown, and keeps every object that is not below the tag. *)
Theorem untag_get s name tag c :
  rinv s → supported (manifestTagCurrentPathSpec name tag) →
  ok (repos name) → ok (tags_dir name ++ [tag]) → obj s (manifestTagCurrentPathSpec name tag) = Some c →
  ∃ s', Untag name tag s = (Ret tt, s') ∧ rinv s' ∧ Get name tag s' = (Fail (ErrTagUnknown tag), s') ∧
    ∀ spec, is_object spec = true → spec ≠ manifestTagCurrentPathSpec name tag →
      (∀ d, spec ≠ manifestTagIndexEntryLinkPathSpec name tag d) → obj s' spec = obj s spec.
Proof.
  intros Hr Hs Hokr Hokt Ho. pose proof Hr as [Hi _].
  assert (safe_name name = true ∧ safe_comp tag = true) as [Hn Ht].
  { destruct Hs as [Hs _]. unfold is_object in Hs. cbn [file_spec safe andb] in Hs. by apply andb_true_iff in Hs. }
  pose proof (current_listed s name tag c Hi Ho) as Hlist.
  assert (view s (repos name) = Some EDir) as Hrepo.
  { apply (law_prefix s _ ["_manifests"; "tags"; tag]); [done| |done].
    unfold tags_dir in Hlist. by rewrite <-app_assoc in Hlist. }
  destruct (delete_dir s (tags_dir name ++ [tag]) Hr Hokt Hlist) as (s' & Hdel & Hr' & _ & Hv').
  exists s'. split_and!; try done.
  - unfold Untag, path_of, exists_, attempt, lift, mbind, gom_bind.
    rewrite (pathFor_layout (repositoryRootPathSpec name)) by done. cbn [omap_err layout].
    destruct (law_stat_dir s (repos name) Hi Hokr Hrepo) as [t ->]. unfold mret, gom_ret. cbn [negb].
    rewrite (pathFor_layout (manifestTagPathSpec name tag)) by (cbn [safe]; by rewrite Hn, Ht). cbn [omap_err layout].
    unfold tags_dir in Hdel. rewrite <-app_assoc in Hdel. cbn [app] in Hdel. by rewrite Hdel.
  - rewrite tag_Get_spec by done. rewrite Hv', decide_True; [done|].
    exists ["current"; "link"]. unfold tags_dir. by rewrite <-!app_assoc.
  - intros spec Hspec Hne1 Hne2. rewrite Hv', decide_False; [done|]. intros [r Hr2].
    apply tag_objects in Hr2 as [->|[d ->]]; try done. by destruct (Hne2 d).
Qed.

(** The tags that [Lookup] recovers for a digest are exactly the tags of
    the repository that point to it, each once. *)
Theorem lookup_tags s name desc :
  rinv s → safe_name name = true → ok (tags_dir name) → view s (tags_dir name) = Some EDir →
  view s (tags_dir name ++ ["docker"]) = None →
  (∀ t, is_Some (view s (tags_dir name ++ [t])) → supported (manifestTagCurrentPathSpec name t)) →
  (∀ t c, obj s (manifestTagCurrentPathSpec name t) = Some c → digest_Validate c = None) →
  ∃ ts, Lookup name desc s = (Ret ts, s) ∧ NoDup ts ∧
    ∀ t, t ∈ ts ↔ obj s (manifestTagCurrentPathSpec name t) = Some (desc_Digest desc).
Proof.
  intros Hr Hn Hok Hv Hd Hsup Hval. destruct (All_spec s name Hr Hn Hok Hv Hd) as (all & Hall & Hnd & Helem).
  exists (filter (λ t, obj s (manifestTagCurrentPathSpec name t) = Some (desc_Digest desc)) all). split_and!.
  - unfold Lookup, attempt, mbind, gom_bind. rewrite Hall.
    rewrite Lookup_loop_spec; [done|done|intros t Ht; by apply Hsup, Helem|intros t c _; apply Hval].
  - by apply NoDup_filter.
  - intros t. rewrite list_elem_of_filter. split; [by intros [? _]|]. intros Ht. split; [done|].
    apply Helem. destruct Hr. by eapply current_listed.
Qed.

End properties.
End TagStore.
