(* ===== verification/Vacuum.v ===== *)
(** * Removing content

    Models registry/storage/vacuum.go: the removal of blobs, of manifests in
    batches and of repositories.  The paths that the batches build by hand are
    those of the path mapper, and the batches together remove exactly the
    links of the manifests they are given. *)

From S2P Require Import Prelude GoStd Digest Driver FileSystem Paths ObjectStore BlobStore.

Module Vacuum.
Import Paths ObjectStore BlobStore.

(** [ManifestDel] of garbagecollect.go. *)
Record ManifestDel := { md_Name : string; md_Digest : digest; md_Tags : list string }.

Section vacuum.
Context {GD : GoDigest} {St : Type} {D : StorageDriver St}.
Abbreviation M := (GoM St error) (only parsing).

Definition RemoveBlob (dgst : digest) : M unit :=
  blobPath ← path_of (blobPathSpec dgst);
  drv_Delete blobPath.

Fixpoint blobPaths (dgsts : list digest) : M (list string) :=
  match dgsts with
  | [] => mret []
  | d :: dgsts =>
      p ← path_of (blobDataPathSpec d);
      ps ← blobPaths dgsts;
      mret (p :: ps)
  end.
Definition RemoveBlobs (dgsts : list digest) : M unit :=
  blobPaths ← blobPaths dgsts;
  '(count, err) ← drv_DeleteFiles blobPaths;
  match err with None => mret tt | Some err => fail err end.

(** The paths of the links of a manifest, as the batches build them. *)
Definition manifestLink (m : ManifestDel) : string :=
  "/docker/registry/v2/repositories/" +:+ md_Name m +:+ "/_manifests/revisions/" +:+
    digest_Algorithm (md_Digest m) +:+ "/" +:+ digest_Hex (md_Digest m) +:+ "/link".
Definition tagLink (m : ManifestDel) (t : string) : string :=
  "/docker/registry/v2/repositories/" +:+ md_Name m +:+ "/_manifests/tags/" +:+ t +:+ "/index/" +:+
    digest_Algorithm (md_Digest m) +:+ "/" +:+ digest_Hex (md_Digest m) +:+ "/link".

(** The parts of a digest without a separator panic. *)
Definition digest_panics (d : digest) : bool := no_byte ":" d.

Definition removeManifestsBatch_body (mm : list ManifestDel) : M unit :=
  if existsb (λ m, digest_panics (md_Digest m)) mm then panic
  else
    let manifestLinks := manifestLink <$> mm in
    let tagLinks := concat ((λ m, tagLink m <$> md_Tags m) <$> mm) in
    let allLinks := manifestLinks ++ tagLinks in
    if bool_decide (length allLinks = 0) then mret tt
    else
      '(count, err) ← drv_DeleteFiles allLinks;
      match err with None => mret tt | Some err => fail err end.
(** The deferred function recovers from a panic, and the batch then returns
    no error. *)
Definition removeManifestsBatch (mm : list ManifestDel) : M unit := λ s,
  match removeManifestsBatch_body mm s with
  | (Panic, s') => (Ret tt, s')
  | r => r
  end.

Definition maxBatchSize : nat := 100.
(** The loop over [i]: the batch is [mm[i:min(i+maxBatchSize, total)]]. *)
Fixpoint RemoveManifests_loop (fuel i : nat) (mm : list ManifestDel) : M unit :=
  match fuel with
  | 0 => panic
  | S fuel =>
      if i <? length mm then
        let batch := take (Nat.min (i + maxBatchSize) (length mm) - i) (drop i mm) in
        _ ← removeManifestsBatch batch;
        RemoveManifests_loop fuel (i + maxBatchSize) mm
      else mret tt
  end.
(** Each turn advances [i], so one turn more than there are manifests is enough. *)
Definition RemoveManifests (mm : list ManifestDel) : M unit := RemoveManifests_loop (S (length mm)) 0 mm.

Definition RemoveRepository (repoName : string) : M unit :=
  rootForRepository ← path_of repositoriesRootPathSpec;
  let repoDir := path_Join [rootForRepository; repoName] in
  drv_Delete repoDir.

End vacuum.

(** ** Removals on the map of objects *)

Section spec.
Context {GD : GoDigest} {GDL : GoDigestLaws}.
Context {St : Type} {D : StorageDriver St} {view : St → fs} {inv : St → Prop} {ok : fpath → Prop}.
Context {L : DriverLaws D view inv ok}.

Abbreviation rinv := (ObjectStore.rinv (view := view) (inv := inv)).
Abbreviation supported := (ObjectStore.supported (ok := ok)).
Abbreviation obj s := (object (view s)).

(** The links of a manifest. *)
Definition revision_spec (m : ManifestDel) : pathSpec := manifestRevisionLinkPathSpec (md_Name m) (md_Digest m).
Definition index_specs (m : ManifestDel) : list pathSpec :=
  (λ t, manifestTagIndexEntryLinkPathSpec (md_Name m) t (md_Digest m)) <$> md_Tags m.
Definition link_specs (mm : list ManifestDel) : list pathSpec :=
  (revision_spec <$> mm) ++ concat (index_specs <$> mm).

Lemma manifestLink_path m : manifestLink m = abspath (layout (revision_spec m)).
Proof.
  unfold manifestLink, revision_spec. cbn [layout]. rewrite abspath_repos. unfold flat.
  rewrite !abspath_app. cbn [abspath]. rewrite !str_app_nil_r. by str_norm.
Qed.
Lemma tagLink_path m t :
  tagLink m t = abspath (layout (manifestTagIndexEntryLinkPathSpec (md_Name m) t (md_Digest m))).
Proof.
  unfold tagLink. cbn [layout]. rewrite abspath_repos. unfold flat.
  rewrite !abspath_app. cbn [abspath]. rewrite !str_app_nil_r. by str_norm.
Qed.
Lemma allLinks_paths mm :
  (manifestLink <$> mm) ++ concat ((λ m, tagLink m <$> md_Tags m) <$> mm) =
  (λ spec, abspath (layout spec)) <$> link_specs mm.
Proof.
  unfold link_specs. rewrite fmap_app. f_equal.
  - rewrite <-list_fmap_compose. apply list_fmap_ext. intros i m _. apply manifestLink_path.
  - induction mm as [|m mm IH]; [done|]. rewrite !fmap_cons. cbn [concat]. rewrite fmap_app, IH. f_equal.
    unfold index_specs. rewrite <-list_fmap_compose. apply list_fmap_ext. intros i t _. apply tagLink_path.
Qed.

(** The directory of a blob holds its data only. *)
Lemma blob_dir_objects spec d :
  is_object spec = true → is_object (blobDataPathSpec d) = true → layout (blobPathSpec d) `prefix_of` layout spec →
  spec = blobDataPathSpec d.
Proof.
  intros Ho Hd [r Hr]. symmetry. apply object_prefix; [done..|]. unfold is_object in Ho. breflect.
  destruct spec; try done; cbn [layout] in *; unfold Paths.repos, Paths.blobs in *; simplify_eq/=.
  exists []. rewrite app_nil_r. congruence.
Qed.
Lemma RemoveBlob_spec s d :
  rinv s → is_object (blobDataPathSpec d) = true → ok (layout (blobPathSpec d)) →
  ∃ o s', RemoveBlob d s = (o, s') ∧ rinv s' ∧ (o = Ret tt ∨ ∃ p n, o = Fail (PathNotFoundError p n)) ∧
    ∀ spec, is_object spec = true → obj s' spec = if decide (spec = blobDataPathSpec d) then None else obj s spec.
Proof.
  intros Hr Hd Hok. pose proof Hr as [Hi Hreg]. unfold RemoveBlob.
  assert (path_of (blobPathSpec d) s = (Ret (abspath (layout (blobPathSpec d))), s)) as Hp.
  { unfold path_of, lift. rewrite (pathFor_layout (blobPathSpec d)); [done|]. by apply is_object_safe in Hd as [? _]. }
  rewrite (bind_Ret _ _ _ _ _ Hp).
  assert (layout (blobDataPathSpec d) = layout (blobPathSpec d) ++ ["data"]) as Hdata by (cbn [layout]; by rewrite <-app_assoc).
  destruct (view s (layout (blobPathSpec d))) as [e|] eqn:Hv.
  - destruct (delete_dir s (layout (blobPathSpec d)) Hr Hok) as (s' & -> & Hr' & _ & Hobj); [by eexists|].
    exists (Ret tt), s'. split_and!; [done..|by left|]. intros spec Ho. rewrite Hobj.
    destruct (decide (spec = blobDataPathSpec d)) as [->|Hne].
    + rewrite decide_True; [done|]. rewrite Hdata. by eexists.
    + rewrite decide_False; [done|]. intros Hpre. by apply Hne, blob_dir_objects.
  - destruct (law_delete_missing s (layout (blobPathSpec d)) Hi Hok Hv) as [n ->].
    { intros (q & [Hq _] & c & Hc). destruct (Hreg _ _ Hc) as (spec & r & Ho & Hl & ->). rewrite app_nil_r in Hl. subst q.
      assert (spec = blobDataPathSpec d) as ->.
      { apply object_prefix; [done..|]. etrans; [exact Hq|]. rewrite Hdata. by eexists. }
      rewrite Hdata in Hq. destruct Hq as [r Hq]. apply (f_equal length) in Hq. rewrite !length_app in Hq. simpl in Hq. lia. }
    eexists _, s. split_and!; [done..|right; by eauto|]. intros spec Ho.
    destruct (decide (spec = blobDataPathSpec d)) as [->|Hne]; [|done].
    unfold object. destruct (view s (layout (blobDataPathSpec d))) as [e|] eqn:Hvd; [|done].
    rewrite Hdata in Hvd. rewrite (law_parent s _ "data") in Hv; [done|done|by eexists].
Qed.

Lemma RemoveBlobs_spec s dgsts :
  rinv s → Forall (λ d, supported (blobDataPathSpec d)) dgsts →
  ∃ s', RemoveBlobs dgsts s = (Ret tt, s') ∧ rinv s' ∧
    ∀ spec, is_object spec = true → obj s' spec = if decide (spec ∈ blobDataPathSpec <$> dgsts) then None else obj s spec.
Proof.
  intros Hr Hs.
  assert (blobPaths dgsts s = (Ret ((λ spec, abspath (layout spec)) <$> (blobDataPathSpec <$> dgsts)), s)) as Hp.
  { induction Hs as [|d dgsts Hd _ IH]; [done|]. rewrite !fmap_cons. cbn [blobPaths].
    rewrite (bind_Ret _ _ _ _ _ (path_of_spec _ s (proj1 Hd))), (bind_Ret _ _ _ _ _ IH). done. }
  destruct (delete_files s (blobDataPathSpec <$> dgsts) Hr) as (s' & Hdel & Hr' & Hv'); [by apply Forall_fmap|].
  exists s'. split_and!; try done. unfold RemoveBlobs. rewrite (bind_Ret _ _ _ _ _ Hp).
  by rewrite (bind_Ret _ _ _ _ _ Hdel).
Qed.

Lemma batch_spec s mm :
  rinv s → Forall supported (link_specs mm) →
  ∃ s', removeManifestsBatch mm s = (Ret tt, s') ∧ rinv s' ∧
    ∀ spec, is_object spec = true → obj s' spec = if decide (spec ∈ link_specs mm) then None else obj s spec.
Proof.
  intros Hr Hs. unfold removeManifestsBatch, removeManifestsBatch_body.
  assert (existsb (λ m, digest_panics (md_Digest m)) mm = false) as ->.
  { apply not_true_iff_false. intros (m & Hm%list_elem_of_In & Hp)%existsb_exists.
    apply Forall_app in Hs as [Hs _]. rewrite Forall_fmap, Forall_forall in Hs. destruct (Hs m Hm) as [Ho _].
    unfold is_object, revision_spec in Ho. cbn [file_spec safe andb] in Ho. apply andb_true_iff in Ho as [_ Hv].
    apply valid_None in Hv. unfold digest_panics in Hp. by rewrite digest_no_colon in Hv. }
  rewrite allLinks_paths. case_bool_decide as Hl.
  - rewrite length_fmap in Hl. apply nil_length_inv in Hl. exists s. rewrite Hl. split_and!; try done.
  - destruct (delete_files s (link_specs mm) Hr Hs) as (s' & Hdel & Hr' & Hv').
    exists s'. split_and!; try done. by rewrite (bind_Ret _ _ _ _ _ Hdel).
Qed.

Lemma link_specs_app mm1 mm2 spec : spec ∈ link_specs (mm1 ++ mm2) ↔ spec ∈ link_specs mm1 ∨ spec ∈ link_specs mm2.
Proof. unfold link_specs. rewrite !fmap_app, concat_app. set_solver. Qed.
Lemma link_specs_Forall (P : pathSpec → Prop) mm1 mm2 :
  Forall P (link_specs (mm1 ++ mm2)) ↔ Forall P (link_specs mm1) ∧ Forall P (link_specs mm2).
Proof. rewrite !Forall_forall. setoid_rewrite link_specs_app. naive_solver. Qed.

Lemma batches_spec fuel i mm s :
  rinv s → Forall supported (link_specs (drop i mm)) → length mm - i < fuel →
  ∃ s', RemoveManifests_loop fuel i mm s = (Ret tt, s') ∧ rinv s' ∧
    ∀ spec, is_object spec = true → obj s' spec = if decide (spec ∈ link_specs (drop i mm)) then None else obj s spec.
Proof.
  revert i s. induction fuel as [|fuel IH]; intros i s Hr Hs Hf; [lia|]. cbn [RemoveManifests_loop].
  destruct (i <? length mm) eqn:Hi; cycle 1.
  { apply Nat.ltb_ge in Hi. exists s. by rewrite drop_ge. }
  apply Nat.ltb_lt in Hi.
  assert (take (Nat.min (i + maxBatchSize) (length mm) - i) (drop i mm) = take maxBatchSize (drop i mm)) as ->.
  { destruct (decide (i + maxBatchSize ≤ length mm)); [f_equal; lia|].
    rewrite !take_ge; [done|..]; rewrite length_drop; lia. }
  assert (drop i mm = take maxBatchSize (drop i mm) ++ drop (i + maxBatchSize) mm) as Hsplit.
  { rewrite <-(take_drop maxBatchSize (drop i mm)) at 1. by rewrite drop_drop. }
  rewrite Hsplit in Hs. apply link_specs_Forall in Hs as [Hs1 Hs2].
  destruct (batch_spec s _ Hr Hs1) as (s1 & Hb & Hr1 & Hv1). rewrite (bind_Ret _ _ _ _ _ Hb).
  destruct (IH (i + maxBatchSize) s1 Hr1 Hs2) as (s2 & Hb2 & Hr2 & Hv2); [unfold maxBatchSize; lia|].
  exists s2. split_and!; try done. intros spec Ho. rewrite Hv2, Hv1 by done.
  assert (spec ∈ link_specs (drop i mm) ↔
    spec ∈ link_specs (take maxBatchSize (drop i mm)) ∨ spec ∈ link_specs (drop (i + maxBatchSize) mm)) as Hiff.
  { rewrite <-link_specs_app. by rewrite <-Hsplit. }
  repeat case_decide; naive_solver.
Qed.

Lemma RemoveManifests_spec s mm :
  rinv s → Forall supported (link_specs mm) →
  ∃ s', RemoveManifests mm s = (Ret tt, s') ∧ rinv s' ∧
    ∀ spec, is_object spec = true → obj s' spec = if decide (spec ∈ link_specs mm) then None else obj s spec.
Proof. intros Hr Hs. apply batches_spec; [done..|lia]. Qed.

(** Any number of manifests is removed, in batches that together delete
    the revision link of each manifest and its entries in the index of the
    given tags, and no other object.  The paths that the batches build by hand
    are those of the path mapper. *)
Theorem removeManifests_exact s mm :
  rinv s → Forall supported (link_specs mm) →
  (∀ m, m ∈ mm → pathFor (revision_spec m) = Ret (manifestLink m) ∧
    ∀ t, t ∈ md_Tags m → pathFor (manifestTagIndexEntryLinkPathSpec (md_Name m) t (md_Digest m)) = Ret (tagLink m t)) ∧
  ∃ s', RemoveManifests mm s = (Ret tt, s') ∧ rinv s' ∧
    ∀ spec, is_object spec = true → obj s' spec = if decide (spec ∈ link_specs mm) then None else obj s spec.
Proof.
  intros Hr Hs. split; [|by apply RemoveManifests_spec]. rewrite Forall_forall in Hs. unfold link_specs in Hs.
  intros m Hm. split; [|intros t Ht].
  - rewrite manifestLink_path, layout_pathFor; [done|]. apply Hs, elem_of_app. left. apply list_elem_of_fmap. by exists m.
  - rewrite tagLink_path, layout_pathFor; [done|]. apply Hs, elem_of_app. right. apply elem_of_concat.
    exists (index_specs m). split; apply list_elem_of_fmap; [by exists t|by exists m].
Qed.

End spec.
End Vacuum.
