(* ===== verification/MarkSweep.v ===== *)
(** * Offline garbage collection

    Models registry/storage/garbagecollect.go: the mark stage over the
    repositories of a registry and the sweep of what it did not mark.  The
    registry is the interface the code is written against, the class
    [Namespace]; the tags are those of TagStore.v, read through the cached tag
    store, and the removals those of Vacuum.v.  The work the code gives to
    goroutines, [MaxParallelManifestGets] of them at a time, is done here in
    sequence: it adds to sets under a lock, and a failure of any part makes the
    whole fail.  A Go map is traversed in the order of [elements]. *)

From S2P Require Import Prelude GoStd Digest Driver FileSystem Paths ObjectStore BlobStore TagStore Vacuum.

Module MarkSweep.
Import Paths ObjectStore BlobStore TagStore Vacuum.

(** A [distribution.Manifest]: whether it is a manifest list, and what it
    references. *)
Record manifest := { m_isList : bool; m_References : list digest }.

(** The [distribution.Namespace] that is collected.  An enumeration gives what
    it passes to its callback, and the error it ends with: none, one, or the
    [MultiError] of those that a parallel walk collects.  The conversions of a
    service to the enumerator it also is succeed. *)
Class Namespace (St : Type) := {
  ns_Enumerate : St → list string * option error;
  ns_WithName : string → option error;
  ns_Repository : string → option error;
  ns_Manifests : string → option error;
  ns_manifests_Enumerate : St → string → list digest * option error;
  ns_manifests_Get : St → string → digest → outcome error manifest;
  ns_blobs_Enumerate : St → list Descriptor * option error;
}.

Record GCOpts := { DryRun : bool; RemoveUntagged : bool }.

(** The mark set and the manifests to delete. *)
Record marks := { markSet : gset digest; manifestArr : list ManifestDel }.

Section gc.
Context {GD : GoDigest} {St : Type} {D : StorageDriver St} {NS : Namespace St}.
Abbreviation MC := (GoM (St * TagStore.cache) error) (only parsing).

(** The digests seen in a repository: tagged, untagged, referenced. *)
Record seen := { tagged : gset digest; untagged : gset digest; referenced : gset digest }.

(** The callback of the manifest enumeration, on every digest; its errors are
    collected with those of the enumeration. *)
Fixpoint classify (opts : GCOpts) (repoName : string) (dgsts : list digest) (sn : seen) (errs : list error) :
    MC (seen * list error) :=
  match dgsts with
  | [] => mret (sn, errs)
  | dgst :: dgsts =>
      if RemoveUntagged opts then
        r ← attempt (cached_Lookup repoName {| MediaType := ""; Size := 0; desc_Digest := dgst |});
        match r with
        | inl err => classify opts repoName dgsts sn (errs ++ [ErrWrap "retrieving tags for digest" err])
        | inr [] =>
            classify opts repoName dgsts
              {| tagged := tagged sn; untagged := {[dgst]} ∪ untagged sn; referenced := referenced sn |} errs
        | inr _ =>
            classify opts repoName dgsts
              {| tagged := {[dgst]} ∪ tagged sn; untagged := untagged sn; referenced := referenced sn |} errs
        end
      else
        classify opts repoName dgsts
          {| tagged := tagged sn; untagged := untagged sn; referenced := {[dgst]} ∪ referenced sn |} errs
  end.

(** The error of the enumeration, with those of the callback. *)
Definition enum_error (err : option error) (errs : list error) : option error :=
  match errs, err with
  | [], _ => err
  | _, None => Some (MultiError errs)
  | _, Some (MultiError errs') => Some (MultiError (errs ++ errs'))
  | _, Some err => Some (MultiError (errs ++ [err]))
  end.

Definition is_not_found (err : error) : bool := match err with PathNotFoundError _ _ => true | _ => false end.
(** The errors after which marking goes on. *)
Definition ignorable (err : error) : bool :=
  match err with
  | MultiError errs => forallb is_not_found errs
  | err => is_not_found err
  end.

(** [manifestService.Get]. *)
Definition get_manifest (repoName : string) (d : digest) : MC manifest :=
  s ← on_fst (gets id);
  wrap_err (ErrWrap "retrieving manifest for digest") (lift (ns_manifests_Get s repoName d)).

(** The tagged manifests: a list adds to the referenced manifests, any other
    manifest marks what it references. *)
Fixpoint mark_tagged (repoName : string) (dgsts : list digest) (mark : gset digest) (refd : gset digest) :
    MC (gset digest * gset digest) :=
  match dgsts with
  | [] => mret (mark, refd)
  | d :: dgsts =>
      m ← get_manifest repoName d;
      if m_isList m then mark_tagged repoName dgsts ({[d]} ∪ mark) (list_to_set (m_References m) ∪ refd)
      else mark_tagged repoName dgsts (list_to_set (m_References m) ∪ ({[d]} ∪ mark)) refd
  end.

Fixpoint collect_untagged (repoName : string) (dgsts : list digest) (refd : gset digest) (arr : list ManifestDel) :
    MC (list ManifestDel) :=
  match dgsts with
  | [] => mret arr
  | dgst :: dgsts =>
      if bool_decide (dgst ∈ refd) then collect_untagged repoName dgsts refd arr
      else
        r ← attempt (cached_All repoName);
        match r with
        | inl (ErrRepositoryUnknown _) =>
            collect_untagged repoName dgsts refd (arr ++ [{| md_Name := repoName; md_Digest := dgst; md_Tags := [] |}])
        | inl err => fail (ErrWrap "retrieving tags" err)
        | inr allTags =>
            collect_untagged repoName dgsts refd (arr ++ [{| md_Name := repoName; md_Digest := dgst; md_Tags := allTags |}])
        end
  end.

Fixpoint mark_referenced (repoName : string) (dgsts : list digest) (mark : gset digest) : MC (gset digest) :=
  match dgsts with
  | [] => mret mark
  | d :: dgsts =>
      m ← get_manifest repoName d;
      mark_referenced repoName dgsts (list_to_set (m_References m) ∪ ({[d]} ∪ mark))
  end.

Definition check (msg : string) (err : option error) : MC unit :=
  match err with Some err => fail (ErrWrap msg err) | None => mret tt end.

(** The callback of the repository enumeration. *)
Definition mark_repository (opts : GCOpts) (repoName : string) (mk : marks) : MC marks :=
  _ ← check "parsing repo name" (ns_WithName repoName);
  _ ← check "constructing repository" (ns_Repository repoName);
  _ ← check "constructing manifest service" (ns_Manifests repoName);
  _ ← (if RemoveUntagged opts then
         r ← attempt (cached_All repoName);
         match r with
         | inl (ErrRepositoryUnknown _) | inr _ => mret tt
         | inl err => fail (ErrWrap "retrieving tags" err)
         end
       else mret tt);
  '(dgsts, err) ← on_fst (gets (λ s, ns_manifests_Enumerate s repoName));
  '(sn, errs) ← classify opts repoName dgsts {| tagged := ∅; untagged := ∅; referenced := ∅ |} [];
  _ ← match enum_error err errs with
      | Some err => if ignorable err then mret tt else fail err
      | None => mret tt
      end;
  '(mark, refd, arr) ←
    (if RemoveUntagged opts then
       '(mark, refd) ← wrap_err (ErrWrap "marking tagged manifests")
         (mark_tagged repoName (elements (tagged sn)) (markSet mk) (referenced sn));
       arr ← collect_untagged repoName (elements (untagged sn)) refd (manifestArr mk);
       mret (mark, refd, arr)
     else mret (markSet mk, referenced sn, manifestArr mk));
  mark ← wrap_err (ErrWrap "marking referenced manifests") (mark_referenced repoName (elements refd) mark);
  mret {| markSet := mark; manifestArr := arr |}.

(** Every repository has a cached tag store of its own. *)
Definition fresh_cache {A} (m : MC A) : GoM St error A := λ s,
  let '(o, (s', _)) := m (s, newCachedTagStore) in (o, s').
Fixpoint mark_repositories (opts : GCOpts) (repoNames : list string) (mk : marks) : GoM St error marks :=
  match repoNames with
  | [] => mret mk
  | repoName :: repoNames =>
      mk ← fresh_cache (mark_repository opts repoName mk);
      mark_repositories opts repoNames mk
  end.

Definition MarkAndSweep (opts : GCOpts) : GoM St error unit :=
  '(repoNames, err) ← gets ns_Enumerate;
  mk ← wrap_err (ErrWrap "marking blobs")
         (mk ← mark_repositories opts repoNames {| markSet := ∅; manifestArr := [] |};
          match err with Some err => fail err | None => mret mk end);
  '(descs, err) ← gets ns_blobs_Enumerate;
  let deleteSet : gset digest :=
    list_to_set (filter (λ d, d ∉ markSet mk) (desc_Digest <$> descs)) in
  match err with
  | Some err => fail (ErrWrap "enumerating blobs" err)
  | None =>
      if DryRun opts then mret tt
      else
        _ ← (if bool_decide (manifestArr mk = []) then mret tt
             else wrap_err (ErrWrap "deleting manifests") (RemoveManifests (manifestArr mk)));
        if bool_decide (elements deleteSet = []) then mret tt
        else wrap_err (ErrWrap "deleting blobs") (RemoveBlobs (elements deleteSet))
  end.

End gc.

(** ** What is kept and what is removed *)

Section spec.
Context {GD : GoDigest} {GDL : GoDigestLaws}.
Context {St : Type} {D : StorageDriver St} {view : St → fs} {inv : St → Prop} {ok : fpath → Prop}.
Context {L : DriverLaws D view inv ok} {NS : Namespace St}.

Abbreviation rinv := (ObjectStore.rinv (view := view) (inv := inv)).
Abbreviation supported := (ObjectStore.supported (ok := ok)).
Abbreviation tags_ready := (TagStore.tags_ready (view := view) (ok := ok)).
Abbreviation obj s := (object (view s)).

Definition enumerated (s : St) (name : string) (d : digest) : Prop := d ∈ (ns_manifests_Enumerate s name).1.
Definition has_tag (s : St) (name : string) (d : digest) : Prop :=
  ∃ t, obj s (manifestTagCurrentPathSpec name t) = Some d.
(** The manifests a repository keeps for themselves: all of them, or the
    tagged ones when untagged manifests are removed. *)
Definition kept (opts : GCOpts) (s : St) (name : string) (d : digest) : Prop :=
  enumerated s name d ∧ (RemoveUntagged opts = true → has_tag s name d).

(** The digests a repository keeps alive: its kept manifests, what they
    reference, and what the manifests of a kept list reference. *)
Inductive live (opts : GCOpts) (s : St) (name : string) : digest → Prop :=
  | live_kept d : kept opts s name d → live opts s name d
  | live_reference m mf d :
      kept opts s name m → ns_manifests_Get s name m = Ret mf → d ∈ m_References mf → live opts s name d
  | live_child m mf c mfc d :
      RemoveUntagged opts = true → kept opts s name m → ns_manifests_Get s name m = Ret mf → m_isList mf = true →
      c ∈ m_References mf → ns_manifests_Get s name c = Ret mfc → d ∈ m_References mfc → live opts s name d.

(** The members of the kept lists of a repository. *)
Definition listed (opts : GCOpts) (s : St) (name : string) (c : digest) : Prop :=
  ∃ m mf, kept opts s name m ∧ ns_manifests_Get s name m = Ret mf ∧ m_isList mf = true ∧ c ∈ m_References mf.
(** The manifests a repository loses. *)
Definition expired (opts : GCOpts) (s : St) (name : string) (d : digest) : Prop :=
  RemoveUntagged opts = true ∧ enumerated s name d ∧ ¬ has_tag s name d ∧ ¬ listed opts s name d.

(** A repository whose services answer. *)
Record repo_ready (opts : GCOpts) (s : St) (name : string) : Prop := {
  rr_tags : tags_ready s name;
  rr_WithName : ns_WithName name = None;
  rr_Repository : ns_Repository name = None;
  rr_Manifests : ns_Manifests name = None;
  rr_Enumerate err : (ns_manifests_Enumerate s name).2 = Some err → ignorable err = true;
  rr_kept m : kept opts s name m → ∃ mf, ns_manifests_Get s name m = Ret mf;
  rr_listed c : RemoveUntagged opts = true → listed opts s name c → ∃ mf, ns_manifests_Get s name c = Ret mf;
}.

Abbreviation primed m := {| once := true; tags := m |}.

(** *** The loops of the mark stage *)

Lemma get_manifest_spec s c name d mf :
  ns_manifests_Get s name d = Ret mf → get_manifest name d (s, c) = (Ret mf, (s, c)).
Proof. intros H. unfold get_manifest, on_fst, gets, wrap_err, lift, mbind, gom_bind. cbn. by rewrite H. Qed.

Lemma classify_referenced opts name ds sn errs (st : St * cache) :
  RemoveUntagged opts = false →
  ∃ sn', classify opts name ds sn errs st = (Ret (sn', errs), st) ∧
    ∀ x, x ∈ referenced sn' ↔ x ∈ referenced sn ∨ x ∈ ds.
Proof.
  intros Hu. revert sn. induction ds as [|d ds IH]; intros sn.
  { exists sn. split; [done|set_solver]. }
  cbn [classify]. rewrite Hu.
  destruct (IH {| tagged := tagged sn; untagged := untagged sn; referenced := {[d]} ∪ referenced sn |}) as (sn' & -> & H).
  exists sn'. split; [done|]. intros x. rewrite H. cbn [referenced]. set_solver.
Qed.
Lemma classify_tagged opts name ds sn (s : St) m :
  RemoveUntagged opts = true →
  ∃ sn', classify opts name ds sn [] (s, primed m) = (Ret (sn', []), (s, primed m)) ∧
    referenced sn' = referenced sn ∧
    (∀ x, x ∈ tagged sn' ↔ x ∈ tagged sn ∨ x ∈ ds ∧ ∃ t, m !! t = Some x) ∧
    (∀ x, x ∈ untagged sn' ↔ x ∈ untagged sn ∨ x ∈ ds ∧ ¬ ∃ t, m !! t = Some x).
Proof.
  intros Hu. revert sn. induction ds as [|d ds IH]; intros sn.
  { exists sn. split_and!; [done..| |]; set_solver. }
  cbn [classify]. rewrite Hu. unfold attempt, mbind, gom_bind.
  destruct (cached_Lookup_primed s name {| MediaType := ""; Size := 0; desc_Digest := d |} m) as (ts & -> & _ & Hts).
  cbn [desc_Digest] in Hts. destruct ts as [|t ts].
  - destruct (IH {| tagged := tagged sn; untagged := {[d]} ∪ untagged sn; referenced := referenced sn |})
      as (sn' & -> & Hr & H1 & H2).
    exists sn'. split_and!; [done..| |]; intros x; rewrite ?H1, ?H2; cbn [tagged untagged];
      destruct (decide (x = d)) as [->|]; set_solver.
  - destruct (IH {| tagged := {[d]} ∪ tagged sn; untagged := untagged sn; referenced := referenced sn |})
      as (sn' & -> & Hr & H1 & H2).
    assert (∃ t, m !! t = Some d) by (exists t; apply Hts; by left).
    exists sn'. split_and!; [done..| |]; intros x; rewrite ?H1, ?H2; cbn [tagged untagged];
      destruct (decide (x = d)) as [->|]; set_solver.
Qed.

Lemma refs_cons s name d ds mf b x :
  ns_manifests_Get s name d = Ret mf →
  (∃ d' mf', d' ∈ d :: ds ∧ ns_manifests_Get s name d' = Ret mf' ∧ m_isList mf' = b ∧ x ∈ m_References mf') ↔
  (m_isList mf = b ∧ x ∈ m_References mf) ∨
  (∃ d' mf', d' ∈ ds ∧ ns_manifests_Get s name d' = Ret mf' ∧ m_isList mf' = b ∧ x ∈ m_References mf').
Proof.
  intros Hmf. split.
  - intros (d' & mf' & [->|Hd]%elem_of_cons & Hmf' & Hx); [left|right; by exists d', mf'].
    rewrite Hmf in Hmf'. by injection Hmf' as <-.
  - intros [Hx|(d' & mf' & Hd & Hx)]; [exists d, mf|exists d', mf']; (split; [|done]); [by left|by right].
Qed.
Lemma mark_tagged_spec s c name ds mark refd :
  (∀ d, d ∈ ds → ∃ mf, ns_manifests_Get s name d = Ret mf) →
  ∃ mark' refd', mark_tagged name ds mark refd (s, c) = (Ret (mark', refd'), (s, c)) ∧
    (∀ x, x ∈ mark' ↔ x ∈ mark ∨ x ∈ ds ∨
      ∃ d mf, d ∈ ds ∧ ns_manifests_Get s name d = Ret mf ∧ m_isList mf = false ∧ x ∈ m_References mf) ∧
    (∀ x, x ∈ refd' ↔ x ∈ refd ∨
      ∃ d mf, d ∈ ds ∧ ns_manifests_Get s name d = Ret mf ∧ m_isList mf = true ∧ x ∈ m_References mf).
Proof.
  revert mark refd. induction ds as [|d ds IH]; intros mark refd Hg.
  { exists mark, refd. split_and!; [done|set_solver..]. }
  cbn [mark_tagged]. destruct (Hg d) as [mf Hmf]; [by left|].
  rewrite (bind_Ret _ _ _ _ _ (get_manifest_spec s c name d mf Hmf)).
  assert (∀ d', d' ∈ ds → ∃ mf, ns_manifests_Get s name d' = Ret mf) as Hg' by (intros; apply Hg; by right).
  destruct (m_isList mf) eqn:Hl; edestruct IH as (mark' & refd' & -> & H1 & H2); try done;
    exists mark', refd'; (split; [done|]); split; intros x; rewrite ?H1, ?H2, (refs_cons s name d ds mf _ x Hmf), Hl;
    rewrite ?elem_of_cons, ?elem_of_union, ?elem_of_singleton, ?elem_of_list_to_set; intuition congruence.
Qed.

Lemma collect_untagged_spec (s : St) m name ds refd arr :
  collect_untagged name ds refd arr (s, primed m) =
    (Ret (arr ++ ((λ d, {| md_Name := name; md_Digest := d; md_Tags := (map_to_list m).*1 |}) <$>
       filter (λ d, d ∉ refd) ds)), (s, primed m)).
Proof.
  revert arr. induction ds as [|d ds IH]; intros arr; [by rewrite filter_nil, app_nil_r|].
  cbn [collect_untagged]. case_bool_decide as Hd.
  - by rewrite filter_cons_False, IH by (by intros ?).
  - unfold attempt, mbind, gom_bind. rewrite cached_All_primed, IH, filter_cons_True by done.
    by rewrite <-app_assoc.
Qed.

Lemma mark_referenced_spec s c name ds mark :
  (∀ d, d ∈ ds → ∃ mf, ns_manifests_Get s name d = Ret mf) →
  ∃ mark', mark_referenced name ds mark (s, c) = (Ret mark', (s, c)) ∧
    ∀ x, x ∈ mark' ↔ x ∈ mark ∨ x ∈ ds ∨ ∃ d mf, d ∈ ds ∧ ns_manifests_Get s name d = Ret mf ∧ x ∈ m_References mf.
Proof.
  revert mark. induction ds as [|d ds IH]; intros mark Hg.
  { exists mark. split; [done|set_solver]. }
  cbn [mark_referenced]. destruct (Hg d) as [mf Hmf]; [by left|].
  rewrite (bind_Ret _ _ _ _ _ (get_manifest_spec s c name d mf Hmf)).
  edestruct IH as (mark' & -> & H); [by intros; apply Hg; right|].
  exists mark'. split; [done|]. intros x.
  rewrite H, !elem_of_union, elem_of_list_to_set, elem_of_singleton, elem_of_cons. split.
  - intros [[Hx|[->|Hx]]|[Hx|(d' & mf' & Hd & Hx)]]; [|by eauto..|right; right; exists d', mf'; by set_solver].
    right; right. exists d, mf. by set_solver.
  - intros [Hx|[[->|Hx]|(d' & mf' & [->|Hd]%elem_of_cons & Hmf' & Hx)]]; [by eauto..| |right; right; by eauto].
    rewrite Hmf in Hmf'. injection Hmf' as <-. by eauto.
Qed.

(** *** One repository *)

Lemma checks_pass opts s name (k : GoM (St * cache) error marks) st :
  repo_ready opts s name →
  (check "parsing repo name" (ns_WithName name) ≫= λ _, check "constructing repository" (ns_Repository name) ≫= λ _,
    check "constructing manifest service" (ns_Manifests name) ≫= λ _, k) st = k st.
Proof. intros [_ -> -> -> _ _ _]. done. Qed.

(** The manifests to delete of a repository. *)
Definition deletion (opts : GCOpts) (s : St) (name : string) (md : ManifestDel) : Prop :=
  md_Name md = name ∧ expired opts s name (md_Digest md) ∧
  ∀ t, t ∈ md_Tags md ↔ is_Some (obj s (manifestTagCurrentPathSpec name t)).

(** What marking a repository adds to the marks. *)
Definition marks_repo (opts : GCOpts) (s : St) (name : string) (mk mk' : marks) : Prop :=
  (∀ x, x ∈ markSet mk' ↔ x ∈ markSet mk ∨ live opts s name x) ∧
  (∀ md, md ∈ manifestArr mk' → md ∈ manifestArr mk ∨ deletion opts s name md) ∧
  (∀ md, md ∈ manifestArr mk → md ∈ manifestArr mk') ∧
  (∀ d, expired opts s name d → ∃ md, md ∈ manifestArr mk' ∧ md_Digest md = d ∧ deletion opts s name md).

Lemma ignored_errors opts s name st :
  repo_ready opts s name →
  match enum_error (ns_manifests_Enumerate s name).2 [] with
  | Some err => if ignorable err then mret tt else fail err
  | None => mret tt
  end st = (Ret tt, st) :> outcome error unit * (St * cache).
Proof.
  intros Hrr. unfold enum_error. destruct (ns_manifests_Enumerate s name).2 eqn:He; [|done].
  by rewrite (rr_Enumerate _ _ _ Hrr _ He).
Qed.

Lemma mark_all_repository opts s name mk :
  RemoveUntagged opts = false → repo_ready opts s name →
  ∃ mk' c', mark_repository opts name mk (s, newCachedTagStore) = (Ret mk', (s, c')) ∧ marks_repo opts s name mk mk'.
Proof.
  intros Hu Hrr. unfold mark_repository. rewrite (checks_pass opts s) by done.
  rewrite Hu. unfold on_fst, gets. unfold mbind at 1 2, gom_bind at 1 2. unfold mret at 1, gom_ret at 1. cbn [fst snd].
  destruct (ns_manifests_Enumerate s name) as [ds err] eqn:He.
  destruct (classify_referenced opts name ds {| tagged := ∅; untagged := ∅; referenced := ∅ |} []
    (s, newCachedTagStore) Hu) as (sn & Hc & Hsn).
  rewrite (bind_Ret _ _ _ _ _ Hc).
  pose proof (ignored_errors opts s name (s, newCachedTagStore) Hrr) as Hig. rewrite He in Hig. cbn [snd] in Hig.
  rewrite (bind_Ret _ _ _ _ _ Hig).
  assert (∀ d, d ∈ elements (referenced sn) ↔ kept opts s name d) as Hk.
  { intros d. rewrite elem_of_elements, Hsn. unfold kept, enumerated. rewrite He, Hu. cbn [fst referenced]. set_solver. }
  destruct (mark_referenced_spec s newCachedTagStore name (elements (referenced sn)) (markSet mk)) as (mark' & Hm & Hmark).
  { intros d Hd%Hk. by apply (rr_kept _ _ _ Hrr). }
  eexists _, _. split.
  { unfold mbind, gom_bind, mret, gom_ret, wrap_err. rewrite Hm. reflexivity. }
  split_and!; cbn [markSet manifestArr]; [|by left|done|by intros d [? _]; congruence].
  intros x. rewrite Hmark, Hk. setoid_rewrite Hk. split.
  - intros [|[|(?&?&?&?&?)]]; [by left|right; by apply live_kept|right; by eapply live_reference].
  - intros [|Hl]; [by left|]. destruct Hl; [by eauto|right; right; by eauto|congruence].
Qed.

(** The sets computed for a repository whose untagged manifests are removed. *)
Lemma marks_tagged opts s name mk (m : gmap string digest) (mark1 mark2 refd : gset digest) (unt : list digest) :
  RemoveUntagged opts = true → (∀ t, m !! t = obj s (manifestTagCurrentPathSpec name t)) →
  (∀ d, d ∈ unt ↔ enumerated s name d ∧ ¬ has_tag s name d) → (∀ c, c ∈ refd ↔ listed opts s name c) →
  (∀ x, x ∈ mark1 ↔ x ∈ markSet mk ∨ kept opts s name x ∨ ∃ d mf, kept opts s name d ∧
    ns_manifests_Get s name d = Ret mf ∧ m_isList mf = false ∧ x ∈ m_References mf) →
  (∀ x, x ∈ mark2 ↔ x ∈ mark1 ∨ listed opts s name x ∨ ∃ d mf, listed opts s name d ∧
    ns_manifests_Get s name d = Ret mf ∧ x ∈ m_References mf) →
  marks_repo opts s name mk {| markSet := mark2;
    manifestArr := manifestArr mk ++ ((λ d, {| md_Name := name; md_Digest := d; md_Tags := (map_to_list m).*1 |}) <$>
       filter (λ d, d ∉ refd) unt) |}.
Proof.
  intros Hu Hm Hun Hlisted Hmark1 Hmark2.
  assert (∀ d, expired opts s name d → deletion opts s name
    {| md_Name := name; md_Digest := d; md_Tags := (map_to_list m).*1 |}) as Hdel.
  { intros d Hd. split_and!; [done..|]. intros t. cbn [md_Tags]. rewrite <-Hm, list_elem_of_fmap. split.
    - intros ([t' c] & -> & Hc%elem_of_map_to_list). by eexists.
    - intros [c Hc]. exists (t, c). split; [done|]. by apply elem_of_map_to_list. }
  assert (∀ d, d ∈ filter (λ d, d ∉ refd) unt ↔ expired opts s name d) as Hexp.
  { intros d. rewrite list_elem_of_filter, Hun, Hlisted. unfold expired. naive_solver. }
  split_and!; cbn [markSet manifestArr].
  - intros x. rewrite Hmark2, Hmark1. split.
    + intros [[?|[?|(d & mf & ? & ? & _ & ?)]]|[(d & mf & ? & ? & _ & ?)|(c & mfc & (d & mf & ? & ? & ? & ?) & ? & ?)]];
        [by left|right..]; [by apply live_kept|by eapply live_reference..|by eapply live_child].
    + intros [?|Hl]; [by eauto|]. destruct Hl as [d Hd|d mf x Hd Hmf Hx|d mf c mfc x _ Hd Hmf Hl Hc Hmfc Hx].
      * by eauto.
      * destruct (m_isList mf) eqn:Hl; [right; left; by exists d, mf|left; right; right; by exists d, mf].
      * right; right. exists c, mfc. split_and!; [|done..]. by exists d, mf.
  - intros md [?|(d & -> & Hd%Hexp)%list_elem_of_fmap]%elem_of_app; [by left|right; by apply Hdel].
  - intros md ?. apply elem_of_app. by left.
  - intros d Hd. exists {| md_Name := name; md_Digest := d; md_Tags := (map_to_list m).*1 |}.
    split_and!; [|done|by apply Hdel..].
    apply elem_of_app. right. apply list_elem_of_fmap. exists d. split; [done|]. by apply Hexp.
Qed.

Lemma mark_tagged_repository opts s name mk :
  RemoveUntagged opts = true → rinv s → repo_ready opts s name →
  ∃ mk' c', mark_repository opts name mk (s, newCachedTagStore) = (Ret mk', (s, c')) ∧ marks_repo opts s name mk mk'.
Proof.
  intros Hu Hr Hrr. unfold mark_repository. rewrite (checks_pass opts s) by done. rewrite Hu.
  destruct (Prime_spec s name Hr (rr_tags _ _ _ Hrr)) as (o & m & Hp & Ho & Hm).
  erewrite bind_Ret; cycle 1.
  { unfold attempt, cached_All. unfold mbind, gom_bind. rewrite Hp. instantiate (1 := (s, primed m)).
    by destruct Ho as [-> | ->]. }
  rewrite (bind_Ret _ _ _ (ns_manifests_Enumerate s name) (s, primed m)) by done.
  destruct (ns_manifests_Enumerate s name) as [ds err] eqn:He.
  destruct (classify_tagged opts name ds {| tagged := ∅; untagged := ∅; referenced := ∅ |} s m Hu)
    as (sn & Hc & Href & Htag & Hunt).
  rewrite (bind_Ret _ _ _ _ _ Hc).
  pose proof (ignored_errors opts s name (s, primed m) Hrr) as Hig. rewrite He in Hig. cbn [snd] in Hig.
  rewrite (bind_Ret _ _ _ _ _ Hig).
  assert (∀ x, (∃ t, m !! t = Some x) ↔ has_tag s name x) as Hht.
  { intros x. unfold has_tag. setoid_rewrite Hm. done. }
  assert (∀ d, d ∈ elements (tagged sn) ↔ kept opts s name d) as Hk.
  { intros d. rewrite elem_of_elements, Htag. unfold kept, enumerated. rewrite He, Hu, Hht. cbn [fst tagged]. set_solver. }
  assert (∀ d, d ∈ elements (untagged sn) ↔ enumerated s name d ∧ ¬ has_tag s name d) as Hun.
  { intros d. rewrite elem_of_elements, Hunt. unfold enumerated. rewrite He, Hht. cbn [fst untagged]. set_solver. }
  destruct (mark_tagged_spec s (primed m) name (elements (tagged sn)) (markSet mk) (referenced sn))
    as (mark1 & refd & Hmt & Hmark1 & Hrefd).
  { intros d Hd%Hk. by apply (rr_kept _ _ _ Hrr). }
  assert (∀ c, c ∈ refd ↔ listed opts s name c) as Hlisted.
  { intros c. rewrite Hrefd, Href. unfold listed. setoid_rewrite Hk. cbn [referenced]. set_solver. }
  destruct (mark_referenced_spec s (primed m) name (elements refd) mark1) as (mark2 & Hmr & Hmark2).
  { intros d Hd%elem_of_elements%Hlisted. by apply (rr_listed _ _ _ Hrr). }
  eexists _, _. split.
  { unfold wrap_err. unfold mbind, gom_bind. rewrite Hmt. cbn [omap_err]. rewrite collect_untagged_spec.
    unfold mret, gom_ret. rewrite Hmr. reflexivity. }
  apply (marks_tagged opts s name mk m mark1 mark2 refd (elements (untagged sn))); try done.
  - intros x. rewrite Hmark1. setoid_rewrite Hk. done.
  - intros x. rewrite Hmark2. setoid_rewrite elem_of_elements. setoid_rewrite Hlisted. done.
Qed.

(** *** The registry *)

Definition repositories (s : St) : list string := (ns_Enumerate s).1.
Definition in_use (opts : GCOpts) (s : St) (d : digest) : Prop := ∃ name, name ∈ repositories s ∧ live opts s name d.

(** The objects that a collection removes: the blobs that no repository keeps
    alive, the links of the manifests that expired and their entries in the
    index of every tag. *)
Definition removed_blob (opts : GCOpts) (s : St) (spec : pathSpec) : Prop :=
  ∃ d, d ∈ desc_Digest <$> (ns_blobs_Enumerate s).1 ∧ ¬ in_use opts s d ∧ spec = blobDataPathSpec d.
Definition removed_link (opts : GCOpts) (s : St) (spec : pathSpec) : Prop :=
  ∃ name d, name ∈ repositories s ∧ expired opts s name d ∧
    (spec = manifestRevisionLinkPathSpec name d ∨
     ∃ t, is_Some (obj s (manifestTagCurrentPathSpec name t)) ∧ spec = manifestTagIndexEntryLinkPathSpec name t d).
Definition removed (opts : GCOpts) (s : St) (spec : pathSpec) : Prop :=
  removed_blob opts s spec ∨ removed_link opts s spec.

(** A registry whose services answer, on a driver that supports the paths of
    what they enumerate. *)
Record gc_ready (opts : GCOpts) (s : St) : Prop := {
  gr_rinv : rinv s;
  gr_repositories : (ns_Enumerate s).2 = None;
  gr_repository name : name ∈ repositories s → repo_ready opts s name;
  gr_blobs : (ns_blobs_Enumerate s).2 = None;
  gr_blob d : d ∈ desc_Digest <$> (ns_blobs_Enumerate s).1 → supported (blobDataPathSpec d);
  gr_link spec : removed_link opts s spec → supported spec;
}.

Lemma mark_repository_spec opts s name mk :
  rinv s → repo_ready opts s name →
  ∃ mk', fresh_cache (mark_repository opts name mk) s = (Ret mk', s) ∧ marks_repo opts s name mk mk'.
Proof.
  intros Hr Hrr. unfold fresh_cache.
  destruct (RemoveUntagged opts) eqn:Hu.
  - destruct (mark_tagged_repository opts s name mk Hu Hr Hrr) as (mk' & c' & -> & ?). by exists mk'.
  - destruct (mark_all_repository opts s name mk Hu Hrr) as (mk' & c' & -> & ?). by exists mk'.
Qed.

Lemma mark_repositories_spec opts s names mk :
  rinv s → (∀ name, name ∈ names → repo_ready opts s name) →
  ∃ mk', mark_repositories opts names mk s = (Ret mk', s) ∧
    (∀ x, x ∈ markSet mk' ↔ x ∈ markSet mk ∨ ∃ name, name ∈ names ∧ live opts s name x) ∧
    (∀ md, md ∈ manifestArr mk' → md ∈ manifestArr mk ∨ ∃ name, name ∈ names ∧ deletion opts s name md) ∧
    (∀ md, md ∈ manifestArr mk → md ∈ manifestArr mk') ∧
    (∀ name d, name ∈ names → expired opts s name d →
      ∃ md, md ∈ manifestArr mk' ∧ md_Digest md = d ∧ deletion opts s name md).
Proof.
  intros Hr. revert mk. induction names as [|name names IH]; intros mk Hrr.
  { exists mk. split_and!; [done|set_solver|by left|done|by intros ?? ?%not_elem_of_nil]. }
  destruct (mark_repository_spec opts s name mk Hr) as (mk1 & H1 & Hx1 & Hd1 & Hm1 & He1); [by apply Hrr; left|].
  destruct (IH mk1) as (mk2 & H2 & Hx2 & Hd2 & Hm2 & He2); [by intros; apply Hrr; right|].
  exists mk2. split_and!.
  - cbn [mark_repositories]. by rewrite (bind_Ret _ _ _ _ _ H1).
  - intros x. rewrite Hx2, Hx1. setoid_rewrite elem_of_cons. naive_solver.
  - intros md [[?|?]%Hd1|(n & ? & ?)]%Hd2; [by left|right; exists name; by split; [left|]|right; exists n; by split; [right|]].
  - by auto.
  - intros n d [->|Hn]%elem_of_cons Hd; [|by eauto]. destruct (He1 d Hd) as (md & ? & ? & ?). exists md. by auto.
Qed.

(** The links of the manifests to delete. *)
Lemma deletions_links opts s arr spec :
  (∀ md, md ∈ arr → ∃ name, name ∈ repositories s ∧ deletion opts s name md) →
  (∀ name d, name ∈ repositories s → expired opts s name d →
    ∃ md, md ∈ arr ∧ md_Digest md = d ∧ deletion opts s name md) →
  spec ∈ link_specs arr ↔ removed_link opts s spec.
Proof.
  intros Hd He. unfold link_specs. rewrite elem_of_app, list_elem_of_fmap, elem_of_concat.
  setoid_rewrite list_elem_of_fmap. split.
  - intros [(md & -> & Hin)|(l & Hspec & md & -> & Hin)].
    + destruct (Hd md Hin) as (name & Hn & <- & Hexp & _). exists (md_Name md), (md_Digest md). by eauto.
    + apply list_elem_of_fmap in Hspec as (t & -> & Ht).
      destruct (Hd md Hin) as (name & Hn & <- & Hexp & Hts). exists (md_Name md), (md_Digest md).
      split_and!; [done..|]. right. exists t. split; [by apply Hts|done].
  - intros (name & d & Hn & Hexp & Hspec). destruct (He name d Hn Hexp) as (md & Hin & <- & <- & _ & Hts).
    destruct Hspec as [->|(t & Ht & ->)]; [left; by exists md|].
    right. exists (index_specs md). split; [|by exists md].
    apply list_elem_of_fmap. exists t. split; [done|]. by apply Hts.
Qed.

(** *** The sweep *)

Lemma sweep_manifests s arr :
  rinv s → Forall supported (link_specs arr) →
  ∃ s', (if bool_decide (arr = []) then mret tt
         else wrap_err (ErrWrap "deleting manifests") (RemoveManifests arr)) s = (Ret tt, s') ∧ rinv s' ∧
    ∀ spec, is_object spec = true → obj s' spec = if decide (spec ∈ link_specs arr) then None else obj s spec.
Proof.
  intros Hr Hs. case_bool_decide as Harr; [subst arr; by exists s|].
  destruct (RemoveManifests_spec s arr Hr Hs) as (s' & H & Hr' & Hv'). exists s'. split_and!; [|done..].
  unfold wrap_err. by rewrite H.
Qed.
Lemma sweep_blobs s dgsts :
  rinv s → Forall (λ d, supported (blobDataPathSpec d)) dgsts →
  ∃ s', (if bool_decide (dgsts = []) then mret tt
         else wrap_err (ErrWrap "deleting blobs") (RemoveBlobs dgsts)) s = (Ret tt, s') ∧ rinv s' ∧
    ∀ spec, is_object spec = true → obj s' spec = if decide (spec ∈ blobDataPathSpec <$> dgsts) then None else obj s spec.
Proof.
  intros Hr Hs. case_bool_decide as Hd; [subst dgsts; by exists s|].
  destruct (RemoveBlobs_spec s dgsts Hr Hs) as (s' & H & Hr' & Hv'). exists s'. split_and!; [|done..].
  unfold wrap_err. by rewrite H.
Qed.

Lemma MarkAndSweep_spec opts s :
  gc_ready opts s → DryRun opts = false →
  ∃ s', MarkAndSweep opts s = (Ret tt, s') ∧ rinv s' ∧
    ∀ spec, is_object spec = true →
      (removed opts s spec → obj s' spec = None) ∧ (¬ removed opts s spec → obj s' spec = obj s spec).
Proof.
  intros Hg Hdry. pose proof Hg as [Hr He Hrep Hb Hblob Hlink]. unfold MarkAndSweep.
  destruct (mark_repositories_spec opts s (repositories s) {| markSet := ∅; manifestArr := [] |} Hr Hrep)
    as (mk & Hmk & Hmark & Hdel & _ & Hexp). unfold repositories in Hmk.
  rewrite (bind_Ret _ _ _ (ns_Enumerate s) s) by done. destruct (ns_Enumerate s) as [names err] eqn:Hnames.
  cbn [fst snd] in *. subst err. rewrite (bind_Ret _ _ _ mk s); cycle 1.
  { unfold wrap_err, mbind, gom_bind. by rewrite Hmk. }
  rewrite (bind_Ret _ _ _ (ns_blobs_Enumerate s) s) by done.
  destruct (ns_blobs_Enumerate s) as [descs err] eqn:Hdescs. cbn [fst snd] in *. subst err. rewrite Hdry.
  assert (∀ spec, spec ∈ link_specs (manifestArr mk) ↔ removed_link opts s spec) as Hlinks.
  { intros spec. apply deletions_links; [|done]. intros md Hin%Hdel. set_solver. }
  set (del := elements _).
  assert (∀ d, d ∈ del ↔ d ∈ desc_Digest <$> descs ∧ ¬ in_use opts s d) as Hblobs.
  { intros d. subst del. rewrite elem_of_elements, elem_of_list_to_set, list_elem_of_filter, Hmark. unfold in_use. set_solver. }
  destruct (sweep_manifests s (manifestArr mk) Hr) as (s1 & H1 & Hr1 & Hv1).
  { apply Forall_forall. intros spec Hspec. by apply Hlink, Hlinks. }
  rewrite (bind_Ret _ _ _ _ _ H1).
  destruct (sweep_blobs s1 del Hr1) as (s2 & H2 & Hr2 & Hv2).
  { apply Forall_forall. intros d [Hd _]%Hblobs. by apply Hblob. }
  exists s2. split_and!; [done..|]. intros spec Ho. rewrite Hv2, Hv1 by done.
  assert (spec ∈ blobDataPathSpec <$> del ↔ removed_blob opts s spec) as Hrb.
  { unfold removed_blob. rewrite list_elem_of_fmap, Hdescs. setoid_rewrite Hblobs. cbn [fst]. naive_solver. }
  specialize (Hlinks spec). unfold removed.
  repeat case_decide; intuition.
Qed.

End spec.

End MarkSweep.
