(* ===== verification/MarkSweepSafety.v ===== *)
(** * Properties of the offline garbage collection

    A collection removes exactly what MarkSweep.v says it removes, it never
    removes what a tag needs, and one that cannot read the registry, or is a
    dry run, changes nothing. *)

From S2P Require Import Prelude GoStd Digest Driver FileSystem Paths ObjectStore BlobStore TagStore Vacuum MarkSweep.

Module MarkSweepSafety.
Import Paths ObjectStore BlobStore TagStore Vacuum MarkSweep.

(** ** Reading the registry

    A triple for the mark stage: the driver is not changed, whatever the
    outcome, and on success the cache and the result satisfy [Q]. *)

Section reads.
Context {GD : GoDigest} {GDL : GoDigestLaws}.
Context {St : Type} {D : StorageDriver St} {view : St → fs} {inv : St → Prop} {ok : fpath → Prop}.
Context {L : DriverLaws D view inv ok} {NS : Namespace St}.

Abbreviation rinv := (ObjectStore.rinv (view := view) (inv := inv)).
Abbreviation tags_ready := (TagStore.tags_ready (view := view) (ok := ok)).
Abbreviation obj s := (object (view s)).
Abbreviation kept := (kept (view := view)).
Abbreviation listed := (listed (view := view)).
Abbreviation primed m := {| once := true; tags := m |}.

Definition reads {A} (s : St) (P : cache → Prop) (m : GoM (St * cache) error A) (Q : A → cache → Prop) : Prop :=
  ∀ c, P c → ∃ o c', m (s, c) = (o, (s, c')) ∧ ∀ a, o = Ret a → Q a c'.

Lemma reads_ret {A} s (P : cache → Prop) (a : A) (Q : A → cache → Prop) :
  (∀ c, P c → Q a c) → reads s P (mret a) Q.
Proof. intros H c Hc. exists (Ret a), c. split; [done|]. intros ? [= <-]. by apply H. Qed.
Lemma reads_fail {A} s P err (Q : A → cache → Prop) : reads s P (fail err) Q.
Proof. intros c _. by exists (Fail err), c. Qed.
Lemma reads_bind {A B} s P (m : GoM (St * cache) error A) Q (k : A → GoM (St * cache) error B) R :
  reads s P m Q → (∀ a, reads s (Q a) (k a) R) → reads s P (m ≫= k) R.
Proof.
  intros Hm Hk c Hc. destruct (Hm c Hc) as (o & c1 & H & HQ). unfold mbind, gom_bind. rewrite H.
  destruct o as [a|e|]; [|by eexists _, c1..]. by apply (Hk a c1), HQ.
Qed.
Lemma reads_wrap {A} s P (m : GoM (St * cache) error A) f Q : reads s P m Q → reads s P (wrap_err f m) Q.
Proof.
  intros Hm c Hc. destruct (Hm c Hc) as (o & c1 & H & HQ). unfold wrap_err. rewrite H.
  exists (omap_err f o), c1. split; [done|]. intros a. destruct o; naive_solver.
Qed.
Lemma reads_get s P name d (Q : manifest → cache → Prop) :
  (∀ mf c, P c → ns_manifests_Get s name d = Ret mf → Q mf c) → reads s P (get_manifest name d) Q.
Proof.
  intros H c Hc. unfold get_manifest, on_fst, gets, wrap_err, lift, mbind, gom_bind. cbn.
  eexists _, c. split; [reflexivity|]. intros a Ha. apply H; [done|]. by destruct (ns_manifests_Get s name d); simplify_eq/=.
Qed.

Definition readable (s : St) (name : string) (d : digest) : Prop := ∃ mf, ns_manifests_Get s name d = Ret mf.
(** The marking of the repository can read all it has to. *)
Definition repo_readable (opts : GCOpts) (s : St) (name : string) : Prop :=
  (∀ m, kept opts s name m → readable s name m) ∧
  (RemoveUntagged opts = true → ∀ c, listed opts s name c → readable s name c).

Lemma reads_mark_tagged s m name ds mark refd :
  reads s (λ c, c = m) (mark_tagged name ds mark refd) (λ r c, c = m ∧ ∀ d, d ∈ ds → readable s name d).
Proof.
  revert mark refd. induction ds as [|d ds IH]; intros mark refd.
  { apply reads_ret. intros c ->. split; [done|]. by intros d ?%not_elem_of_nil. }
  cbn [mark_tagged]. eapply reads_bind; [by apply (reads_get _ _ _ _ (λ mf c, c = m ∧ ns_manifests_Get s name d = Ret mf))|].
  intros mf c [-> Hmf]. destruct (m_isList mf); (edestruct IH as (o & c' & -> & HQ); [done|]);
    exists o, c'; (split; [done|]); intros a [-> Hds]%HQ; (split; [done|]);
    intros d' [->|Hd]%elem_of_cons; [by exists mf|by auto|by exists mf|by auto].
Qed.
Lemma reads_mark_referenced s m name ds mark :
  reads s (λ c, c = m) (mark_referenced name ds mark) (λ r c, c = m ∧ ∀ d, d ∈ ds → readable s name d).
Proof.
  revert mark. induction ds as [|d ds IH]; intros mark.
  { apply reads_ret. intros c ->. split; [done|]. by intros d ?%not_elem_of_nil. }
  cbn [mark_referenced]. eapply reads_bind; [by apply (reads_get _ _ _ _ (λ mf c, c = m ∧ ns_manifests_Get s name d = Ret mf))|].
  intros mf c [-> Hmf]. edestruct IH as (o & c' & -> & HQ); [done|].
  exists o, c'; (split; [done|]); intros a [-> Hds]%HQ; (split; [done|]).
  intros d' [->|Hd]%elem_of_cons; [by exists mf|by auto].
Qed.

Lemma reads_check s P msg err : reads s P (check msg err) (λ _, P).
Proof. destruct err; [apply reads_fail|by apply reads_ret]. Qed.

(** The cache after priming. *)
Definition cache_of (opts : GCOpts) (s : St) (name : string) (c : cache) : Prop :=
  if RemoveUntagged opts
  then ∃ m, c = primed m ∧ ∀ t, m !! t = obj s (manifestTagCurrentPathSpec name t)
  else c = newCachedTagStore.

Lemma reads_prime opts s name :
  rinv s → tags_ready s name →
  reads s (λ c, c = newCachedTagStore)
    (if RemoveUntagged opts then
       r ← attempt (cached_All name);
       match r with
       | inl (ErrRepositoryUnknown _) | inr _ => mret tt
       | inl err => fail (ErrWrap "retrieving tags" err)
       end
     else mret tt) (λ _, cache_of opts s name).
Proof.
  intros Hr Hready. unfold cache_of. destruct (RemoveUntagged opts); [|by apply reads_ret].
  intros c ->. destruct (Prime_spec s name Hr Hready) as (o & m & Hp & Ho & Hm).
  exists (Ret tt), (primed m). split; [|by eauto]. unfold attempt, cached_All, mbind, gom_bind. rewrite Hp.
  by destruct Ho as [-> | ->].
Qed.

(** The kept manifests are those classified as tagged, or as referenced. *)
Lemma reads_classify opts s name :
  reads s (cache_of opts s name)
    (classify opts name (ns_manifests_Enumerate s name).1 {| tagged := ∅; untagged := ∅; referenced := ∅ |} [])
    (λ r c, cache_of opts s name c ∧
      if RemoveUntagged opts
      then referenced r.1 = ∅ ∧ ∀ d, d ∈ tagged r.1 ↔ kept opts s name d
      else ∀ d, d ∈ referenced r.1 ↔ kept opts s name d).
Proof.
  intros c Hc. unfold cache_of, MarkSweep.kept, enumerated, has_tag in *. destruct (RemoveUntagged opts) eqn:Hu.
  - destruct Hc as (m & -> & Hm).
    destruct (classify_tagged opts name (ns_manifests_Enumerate s name).1
      {| tagged := ∅; untagged := ∅; referenced := ∅ |} s m Hu) as (sn & Hrun & Href & Htag & _).
    eexists _, _. split; [exact Hrun|]. intros a [= <-]. split_and!; [by exists m|done|].
    intros d. rewrite Htag. setoid_rewrite Hm. cbn [tagged]. set_solver.
  - destruct (classify_referenced opts name (ns_manifests_Enumerate s name).1
      {| tagged := ∅; untagged := ∅; referenced := ∅ |} [] (s, c) Hu) as (sn & Hrun & Href).
    eexists _, _. split; [exact Hrun|]. intros a [= <-]. split; [done|].
    intros d. cbn [fst]. rewrite Href. cbn [referenced]. set_solver.
Qed.

(** Marking from the classified manifests. *)
Lemma reads_mark opts s name sn mk :
  (if RemoveUntagged opts
   then referenced sn = ∅ ∧ ∀ d, d ∈ tagged sn ↔ kept opts s name d
   else ∀ d, d ∈ referenced sn ↔ kept opts s name d) →
  reads s (cache_of opts s name)
    ('(mark, refd, arr) ←
      (if RemoveUntagged opts then
         '(mark, refd) ← wrap_err (ErrWrap "marking tagged manifests")
           (mark_tagged name (elements (tagged sn)) (markSet mk) (referenced sn));
         arr ← collect_untagged name (elements (untagged sn)) refd (manifestArr mk);
         mret (mark, refd, arr)
       else mret (markSet mk, referenced sn, manifestArr mk));
    mark ← wrap_err (ErrWrap "marking referenced manifests") (mark_referenced name (elements refd) mark);
    mret {| markSet := mark; manifestArr := arr |}) (λ _ _, repo_readable opts s name).
Proof.
  intros Hsn c Hc. unfold cache_of in Hc. destruct (RemoveUntagged opts) eqn:Hu.
  - destruct Hc as (m & -> & _). destruct Hsn as [Href Hk].
    destruct (reads_mark_tagged s (primed m) name (elements (tagged sn)) (markSet mk) (referenced sn) (primed m) eq_refl)
      as (o & c & Hrun & HQ).
    destruct o as [[mark refd]|e|]; cycle 1.
    { eexists _, c. split; [unfold wrap_err, mbind, gom_bind; rewrite Hrun; reflexivity|done]. }
    { eexists _, c. split; [unfold wrap_err, mbind, gom_bind; rewrite Hrun; reflexivity|done]. }
    destruct (HQ _ eq_refl) as [-> Hread]. setoid_rewrite elem_of_elements in Hread. setoid_rewrite Hk in Hread.
    destruct (mark_tagged_spec s (primed m) name (elements (tagged sn)) (markSet mk) (referenced sn))
      as (mark' & refd' & Hrun' & _ & Hrefd); [intros d; rewrite elem_of_elements, Hk; apply Hread|].
    rewrite Hrun in Hrun'. simplify_eq.
    destruct (reads_mark_referenced s (primed m) name (elements refd') mark' (primed m) eq_refl) as (o & c & Hrun2 & HQ2).
    exists (match o with Ret mark => Ret {| markSet := mark; manifestArr := manifestArr mk ++ ((λ d,
        {| md_Name := name; md_Digest := d; md_Tags := (map_to_list m).*1 |}) <$>
         filter (λ d, d ∉ refd') (elements (untagged sn))) |}
      | Fail e => Fail (ErrWrap "marking referenced manifests" e) | Panic => Panic end), c.
    split.
    { unfold wrap_err, mbind, gom_bind. rewrite Hrun. cbn [omap_err]. rewrite collect_untagged_spec.
      unfold mret, gom_ret. rewrite Hrun2. by destruct o. }
    destruct o as [mark''|e|]; try done. intros _ _. destruct (HQ2 _ eq_refl) as [_ Hread2]. split; [done|].
    intros _ d Hd. apply Hread2. rewrite elem_of_elements, Hrefd. right.
    destruct Hd as (d' & mf & Hd' & Hmf). exists d', mf. rewrite elem_of_elements, Hk. done.
  - subst c. destruct (reads_mark_referenced s newCachedTagStore name (elements (referenced sn)) (markSet mk)
      newCachedTagStore eq_refl) as (o & c & Hrun & HQ).
    exists (match o with Ret mark => Ret {| markSet := mark; manifestArr := manifestArr mk |}
      | Fail e => Fail (ErrWrap "marking referenced manifests" e) | Panic => Panic end), c. split.
    { unfold wrap_err, mbind, gom_bind, mret, gom_ret. rewrite Hrun. by destruct o. }
    destruct o as [mark''|e|]; try done. intros _ _. destruct (HQ _ eq_refl) as [_ Hread]. split; [|by rewrite Hu].
    intros d Hd. apply Hread. by rewrite elem_of_elements, Hsn.
Qed.

Lemma reads_repository opts s name mk :
  rinv s → tags_ready s name →
  reads s (λ c, c = newCachedTagStore) (mark_repository opts name mk) (λ _ _, repo_readable opts s name).
Proof.
  intros Hr Hready. unfold mark_repository.
  do 3 (eapply reads_bind; [apply reads_check|intros []]).
  eapply reads_bind; [by apply reads_prime|intros []].
  eapply (reads_bind _ _ _ (λ r c, r = ns_manifests_Enumerate s name ∧ cache_of opts s name c)).
  { intros c Hc. eexists _, c. split; [reflexivity|]. by intros a [= <-]. }
  intros [ds err] c [Hds Hc]. revert c Hc. apply reads_bind with (Q := λ r c, cache_of opts s name c ∧
    if RemoveUntagged opts
    then referenced r.1 = ∅ ∧ ∀ d, d ∈ tagged r.1 ↔ kept opts s name d
    else ∀ d, d ∈ referenced r.1 ↔ kept opts s name d).
  { pose proof (reads_classify opts s name) as H. by rewrite <-Hds in H. }
  intros [sn errs] c [Hc Hsn]. cbn [fst] in Hsn. revert c Hc.
  eapply (reads_bind _ _ _ (λ _, cache_of opts s name)); [|intros []; by apply reads_mark].
  destruct (enum_error err errs) as [e|]; [destruct (ignorable e)|]; [by apply reads_ret|apply reads_fail|by apply reads_ret].
Qed.

Lemma mark_reads opts s names mk :
  rinv s → (∀ name, name ∈ names → tags_ready s name) →
  ∃ o, mark_repositories opts names mk s = (o, s) ∧
    ∀ mk', o = Ret mk' → ∀ name, name ∈ names → repo_readable opts s name.
Proof.
  intros Hr. revert mk. induction names as [|name names IH]; intros mk Hready.
  { exists (Ret mk). split; [done|]. by intros mk' _ name ?%not_elem_of_nil. }
  cbn [mark_repositories].
  destruct (reads_repository opts s name mk Hr (Hready name (list_elem_of_here _ _)) _ eq_refl) as (o & c & Hrun & HQ).
  unfold mbind, gom_bind, fresh_cache. rewrite Hrun. destruct o as [mk1|e|]; [|by eexists..].
  destruct (IH mk1) as (o & -> & HQ2); [by intros; apply Hready; right|].
  exists o. split; [done|]. intros mk' -> n [->|Hn]%elem_of_cons; [by eapply HQ|by eapply HQ2].
Qed.

Lemma MarkAndSweep_reads opts s :
  rinv s → (∀ name, name ∈ repositories s → tags_ready s name) →
  DryRun opts = true ∨ ¬ (∀ name, name ∈ repositories s → repo_readable opts s name) →
  ∃ o, MarkAndSweep opts s = (o, s) ∧ (o = Ret tt → ∀ name, name ∈ repositories s → repo_readable opts s name).
Proof.
  intros Hr Hready Hwhy. unfold MarkAndSweep.
  destruct (mark_reads opts s (repositories s) {| markSet := ∅; manifestArr := [] |} Hr Hready) as (o & Hrun & HQ).
  unfold repositories in *. rewrite (bind_Ret _ _ _ (ns_Enumerate s) s) by done.
  destruct (ns_Enumerate s) as [names err]. cbn [fst] in *.
  unfold wrap_err. unfold mbind, gom_bind. rewrite Hrun. destruct o as [mk|e|]; [|by eexists..].
  specialize (HQ mk eq_refl). destruct Hwhy as [Hdry|Hno]; [|done].
  destruct err as [err|]; [by eexists|]. cbn [omap_err mret gom_ret gets]. unfold gets.
  destruct (ns_blobs_Enumerate s) as [descs [err|]]; [by eexists|]. rewrite Hdry. by eexists.
Qed.

End reads.

(** ** Properties *)

Section properties.
Context {GD : GoDigest} {GDL : GoDigestLaws}.
Context {St : Type} {D : StorageDriver St} {view : St → fs} {inv : St → Prop} {ok : fpath → Prop}.
Context {L : DriverLaws D view inv ok} {NS : Namespace St}.

Abbreviation rinv := (ObjectStore.rinv (view := view) (inv := inv)).
Abbreviation tags_ready := (TagStore.tags_ready (view := view) (ok := ok)).
Abbreviation obj s := (object (view s)).
Abbreviation gc_ready := (gc_ready (view := view) (inv := inv) (ok := ok)).

(** C1: on a registry whose services answer, a collection succeeds and removes
    exactly the blobs that no repository keeps alive, the links of the
    manifests that expired and their entries in the index of the tags; every
    other object has the content it had. *)
Theorem gc_exact opts s :
  gc_ready opts s → DryRun opts = false →
  ∃ s', MarkAndSweep opts s = (Ret tt, s') ∧ rinv s' ∧
    ∀ spec, is_object spec = true →
      (removed (view := view) opts s spec → obj s' spec = None) ∧
      (¬ removed (view := view) opts s spec → obj s' spec = obj s spec).
Proof. apply MarkAndSweep_spec. Qed.

(** C2: a collection never breaks a tag of a manifest that the enumeration of the
    repository finds: the tag still points to its manifest, the link of the
    manifest is kept, and so are the manifest and what it references.  Of a list,
    what its manifests reference is kept too, one level deep: of every manifest of
    the list when untagged manifests are removed, and otherwise of those that the
    enumeration finds. *)
Theorem gc_keeps_tagged opts s name t m :
  gc_ready opts s → DryRun opts = false → name ∈ repositories s → enumerated s name m →
  obj s (manifestTagCurrentPathSpec name t) = Some m →
  ∃ s', MarkAndSweep opts s = (Ret tt, s') ∧
    TagStore.Get name t s' = (Ret {| MediaType := ""; Size := 0; desc_Digest := m |}, s') ∧
    (is_object (manifestRevisionLinkPathSpec name m) = true →
      obj s' (manifestRevisionLinkPathSpec name m) = obj s (manifestRevisionLinkPathSpec name m)) ∧
    ∀ d, is_object (blobDataPathSpec d) = true →
      d = m ∨
      (∃ mf, ns_manifests_Get s name m = Ret mf ∧ d ∈ m_References mf) ∨
      (∃ mf c mfc, ns_manifests_Get s name m = Ret mf ∧ m_isList mf = true ∧
        c ∈ m_References mf ∧ ns_manifests_Get s name c = Ret mfc ∧ d ∈ m_References mfc ∧
        (RemoveUntagged opts = true ∨ enumerated s name c)) →
      obj s' (blobDataPathSpec d) = obj s (blobDataPathSpec d).
Proof.
  intros Hg Hdry Hname Hen Htag. destruct (MarkAndSweep_spec opts s Hg Hdry) as (s' & Hrun & Hr' & Hobj).
  pose proof Hg as [[Hi _] _ Hrep _ _ _]. destruct (Hrep name Hname) as [Hready _ _ _ _ _ _].
  assert (ObjectStore.supported (ok := ok) (manifestTagCurrentPathSpec name t)) as Hsup.
  { apply (ready_tags _ _ Hready). by eapply current_listed. }
  assert (kept (view := view) opts s name m) as Hk by (split; [done|intros _; by exists t]).
  exists s'. split_and!; [done|..].
  - rewrite tag_Get_spec by done. rewrite (proj2 (Hobj _ (proj1 Hsup))), Htag.
    + by rewrite (ready_links _ _ Hready t m Htag).
    + intros [(d & _ & _ & [=])|(n & d & _ & _ & [[=]|(t' & _ & [=])])].
  - intros Ho. apply (Hobj _ Ho). intros [(d & _ & _ & [=])|(n & d & _ & Hexp & [[= <- <-]|(t' & _ & [=])])].
    destruct Hexp as (_ & _ & Hnt & _). apply Hnt. by exists t.
  - intros d Ho Hd. apply (Hobj _ Ho). intros [(d' & _ & Hnu & [= <-])|(n & d' & _ & _ & [[=]|(t' & _ & [=])])].
    apply Hnu. exists name. split; [done|]. destruct Hd as [->|[(mf & ? & ?)|(mf & c & mfc & ? & ? & ? & ? & ? & Hc)]].
    + by apply live_kept.
    + by eapply live_reference.
    + destruct (RemoveUntagged opts) eqn:Hu; [by eapply live_child|]. destruct Hc as [?|Hc]; [done|].
      eapply live_reference; [|done..]. split; [done|]. by rewrite Hu.
Qed.

(** C3: a collection that cannot read a manifest it has to mark, or a manifest
    of a list, fails, and has removed nothing. *)
Theorem gc_fails_closed opts s name :
  rinv s → (∀ name, name ∈ repositories s → tags_ready s name) → name ∈ repositories s →
  ¬ repo_readable (view := view) opts s name →
  ∃ o, MarkAndSweep opts s = (o, s) ∧ o ≠ Ret tt.
Proof.
  intros Hr Hready Hname Hno. destruct (MarkAndSweep_reads opts s Hr Hready) as (o & Hrun & HQ).
  { right. intros H. by apply Hno, H. }
  exists o. split; [done|]. intros ->. by apply Hno, HQ.
Qed.

(** A dry run changes nothing, whatever its outcome. *)
Theorem gc_dry_run opts s :
  rinv s → (∀ name, name ∈ repositories s → tags_ready s name) → DryRun opts = true →
  (MarkAndSweep opts s).2 = s.
Proof. intros Hr Hready Hdry. by destruct (MarkAndSweep_reads opts s Hr Hready) as (o & -> & _); [left|]. Qed.

End properties.
End MarkSweepSafety.
