(* ===== verification/Sample.v ===== *)
(** * A concrete registry

    The in-memory driver with the concrete digests, holding a repository with
    one tag: the input on which the theorems of the storage components are
    evaluated. *)

From S2P Require Import Prelude GoStd Digest Driver FileSystem InMemory InMemoryFS Paths ObjectStore BlobStore TagStore Vacuum MarkSweep.

Module Sample.
Import Paths ObjectStore.
#[export] Existing Instance InMemory.driver.
#[export] Existing Instance InMemoryFS.inmemory_laws.

Abbreviation state := InMemory.state.
Abbreviation view := InMemoryFS.view.
Abbreviation inv := InMemoryFS.inv.
Abbreviation ok := InMemoryFS.ok.
Abbreviation rinv := (ObjectStore.rinv (view := view) (inv := inv)).
Abbreviation supported := (ObjectStore.supported (ok := ok)).

(** A decision procedure for supported objects. *)
Definition supportedb (spec : pathSpec) : bool := is_object spec && InMemoryFS.okb (layout spec).
Lemma supportedb_spec spec : supportedb spec = true → supported spec.
Proof. intros [Ho Hok]%andb_true_iff. split; [done|]. by apply InMemoryFS.okb_ok. Qed.

Lemma New_rinv t : rinv (InMemory.New t).
Proof.
  split; [apply InMemoryFS.New_inv|]. intros ks e. rewrite InMemoryFS.New_view. unfold empty_fs.
  case_decide; [|done]. intros [= <-]. subst ks.
  exists (uploadDataPathSpec "a" "b"), (layout (uploadDataPathSpec "a" "b")). by vm_compute.
Qed.

Lemma New_object t spec : object (view (InMemory.New t)) spec = None.
Proof.
  unfold object. rewrite InMemoryFS.New_view. unfold empty_fs. rewrite decide_False; [done|]. apply layout_ne.
Qed.

(** Put objects one after the other. *)
Definition put_all (os : list (pathSpec * bytes)) (s : state) : state :=
  foldl (λ s oc, (InMemory.PutContent (abspath (layout oc.1)) oc.2 s).2) s os.
Definition lookup_all (os : list (pathSpec * bytes)) (spec : pathSpec) : option bytes :=
  foldl (λ r oc, if decide (spec = oc.1) then Some oc.2 else r) None os.

Lemma put_all_spec os s :
  rinv s → forallb (λ oc, supportedb oc.1) os = true →
  rinv (put_all os s) ∧ ∀ spec, is_object spec = true →
    object (view (put_all os s)) spec =
      foldl (λ r oc, if decide (spec = oc.1) then Some oc.2 else r) (object (view s) spec) os.
Proof.
  revert s. induction os as [|[spec0 c] os IH]; intros s Hr; [done|].
  cbn [forallb fst]. intros [Hs Hos]%andb_true_iff. apply supportedb_spec in Hs.
  destruct (put_object s spec0 c Hr Hs) as (s1 & Hp & Hr1 & _ & Hv1).
  destruct (IH s1 Hr1 Hos) as [Hr2 Hv2].
  assert (put_all ((spec0, c) :: os) s = put_all os s1) as ->.
  { unfold put_all. cbn [foldl fst snd]. change InMemory.PutContent with (drv_PutContent (St := state)). by rewrite Hp. }
  split; [done|]. intros spec Ho. rewrite Hv2, Hv1 by done. done.
Qed.
Lemma put_all_New os :
  forallb (λ oc, supportedb oc.1) os = true →
  rinv (put_all os (InMemory.New 0)) ∧ ∀ spec, is_object spec = true →
    object (view (put_all os (InMemory.New 0))) spec = lookup_all os spec.
Proof.
  intros Hos. destruct (put_all_spec os (InMemory.New 0) (New_rinv 0) Hos) as [Hr Hv]. split; [done|].
  intros spec Ho. rewrite Hv, New_object by done. done.
Qed.

Definition blob : bytes := "hello".
Definition dgst : digest := digest_FromBytes blob.
Definition repo : string := "library/alpine".

(** A layer, a manifest that was tagged before, and a blob of no repository. *)
Definition layer : digest := digest_FromBytes "layer".
Definition old : digest := digest_FromBytes "old".
Definition garbage : digest := digest_FromBytes "garbage".

(** One blob, linked into one repository and tagged there, with a layer; the
    tag pointed to another manifest before. *)
Definition objects : list (pathSpec * bytes) :=
  [(blobDataPathSpec dgst, blob); (layerLinkPathSpec repo dgst, dgst);
   (manifestRevisionLinkPathSpec repo dgst, dgst);
   (manifestTagIndexEntryLinkPathSpec repo "latest" dgst, dgst); (manifestTagCurrentPathSpec repo "latest", dgst);
   (blobDataPathSpec layer, "layer"); (layerLinkPathSpec repo layer, layer);
   (blobDataPathSpec old, "old"); (manifestRevisionLinkPathSpec repo old, old);
   (manifestTagIndexEntryLinkPathSpec repo "latest" old, old); (blobDataPathSpec garbage, "garbage")].
Definition registry : state := put_all objects (InMemory.New 0).

Lemma registry_rinv : rinv registry.
Proof. apply put_all_New. vm_compute. reflexivity. Qed.
Lemma registry_object spec : is_object spec = true → object (view registry) spec = lookup_all objects spec.
Proof. apply put_all_New. vm_compute. reflexivity. Qed.

(** ** Blob stores *)

Lemma repository_put_get_witness :
  ∃ s', BlobStore.lbs_Put (BlobStore.repository_Blobs repo true) "" blob (InMemory.New 0) =
      (Ret {| BlobStore.Size := 5; BlobStore.MediaType := "application/octet-stream"; BlobStore.desc_Digest := dgst |}, s') ∧
    BlobStore.lbs_Get (λ _, 512) (BlobStore.repository_Blobs repo true) dgst s' = (Ret blob, s').
Proof.
  destruct (BlobStore.repository_put_get (λ _, 512) (InMemory.New 0) repo true "" blob) as (s' & H1 & _ & _ & H2).
  - intros _. lia.
  - apply New_rinv.
  - apply supportedb_spec. vm_compute. reflexivity.
  - apply supportedb_spec. vm_compute. reflexivity.
  - intros c. rewrite New_object. discriminate.
  - exists s'. split; [exact H1|]. refine (eq_trans H2 _).
    rewrite bool_decide_true; [reflexivity|]. vm_compute. discriminate.
Defined.

Lemma sample_visible : BlobStore.visible (view registry) [layerLinkPathSpec repo dgst] dgst blob.
Proof.
  split.
  - cbn [BlobStore.first_link]. rewrite registry_object by (vm_compute; reflexivity).
    vm_compute. reflexivity.
  - rewrite registry_object by (vm_compute; reflexivity). vm_compute. reflexivity.
Qed.

Lemma repository_delete_witness :
  ∃ s', BlobStore.lbs_Delete (BlobStore.repository_Blobs repo true) dgst registry = (Ret tt, s') ∧
    BlobStore.lbs_Stat (BlobStore.repository_Blobs repo true) dgst s' = (Fail ErrBlobUnknown, s').
Proof.
  destruct (BlobStore.repository_delete registry repo dgst dgst blob) as (s' & H1 & _ & H2 & _).
  - apply registry_rinv.
  - apply supportedb_spec. vm_compute. reflexivity.
  - apply supportedb_spec. vm_compute. reflexivity.
  - apply sample_visible.
  - exists s'. split; [exact H1|exact H2].
Defined.

Lemma repository_mount_witness :
  ∃ s' desc, BlobStore.lbs_mount (BlobStore.repository_Blobs "other" true) (BlobStore.repository_Blobs repo true)
      dgst None registry = (Ret desc, s') ∧
    BlobStore.lbs_Stat (BlobStore.repository_Blobs "other" true) dgst s' = (Ret desc, s').
Proof.
  destruct (BlobStore.repository_mount registry repo "other" dgst dgst blob true) as (s' & desc & H1 & _ & _ & _ & H2 & _).
  - apply registry_rinv.
  - apply supportedb_spec. vm_compute. reflexivity.
  - apply supportedb_spec. vm_compute. reflexivity.
  - apply supportedb_spec. vm_compute. reflexivity.
  - apply supportedb_spec. vm_compute. reflexivity.
  - vm_compute. reflexivity.
  - apply sample_visible.
  - rewrite registry_object by (vm_compute; reflexivity). vm_compute. reflexivity.
  - exists s', desc. split; [exact H1|exact H2].
Defined.

Lemma readAllLimited_exact_witness :
  LimitedReader.readAllLimited (λ _, 2) "hello" 5 = Ret "hello" ∧
  LimitedReader.readAllLimited (λ _, 2) "hello" 4 = Fail LimitedReader.errLimit.
Proof.
  split.
  - refine (BlobStore.readAllLimited_exact (λ _, 2) "hello" 5 _ _); [intros _; lia|lia].
  - refine (BlobStore.readAllLimited_exact (λ _, 2) "hello" 4 _ _); [intros _; lia|lia].
Defined.

(** ** Tags *)

Definition desc : BlobStore.Descriptor :=
  {| BlobStore.MediaType := ""; BlobStore.Size := 0; BlobStore.desc_Digest := dgst |}.

Lemma tag_get_witness :
  ∃ s', TagStore.Tag repo "v1" desc registry = (Ret tt, s') ∧ TagStore.Get repo "v1" s' = (Ret desc, s').
Proof.
  destruct (TagStore.tag_get registry repo "v1" desc repo "v1") as (s' & H1 & _ & H2).
  - apply registry_rinv.
  - vm_compute. reflexivity.
  - apply supportedb_spec. vm_compute. reflexivity.
  - apply supportedb_spec. vm_compute. reflexivity.
  - apply supportedb_spec. vm_compute. reflexivity.
  - exists s'. split; [exact H1|exact H2].
Defined.

Lemma sample_ok ks : InMemoryFS.okb ks = true → ok ks.
Proof. intros H. by apply InMemoryFS.okb_ok in H as [? _]. Qed.

Lemma untag_get_witness :
  ∃ s', TagStore.Untag repo "latest" registry = (Ret tt, s') ∧
    TagStore.Get repo "latest" s' = (Fail (ErrTagUnknown "latest"), s').
Proof.
  destruct (TagStore.untag_get registry repo "latest" dgst) as (s' & H1 & _ & H2 & _).
  - apply registry_rinv.
  - apply supportedb_spec. vm_compute. reflexivity.
  - apply sample_ok. vm_compute. reflexivity.
  - apply sample_ok. vm_compute. reflexivity.
  - rewrite registry_object by (vm_compute; reflexivity). vm_compute. reflexivity.
  - exists s'. split; [exact H1|exact H2].
Defined.

(** The repository has one tag. *)
Lemma sample_tags t : is_Some (view registry (TagStore.tags_dir repo ++ [t])) ↔ t = "latest".
Proof.
  destruct (TagStore.All_spec registry repo) as (ts & Hts & _ & Hin).
  - apply registry_rinv.
  - done.
  - apply sample_ok. vm_compute. reflexivity.
  - vm_compute. reflexivity.
  - vm_compute. reflexivity.
  - rewrite <-Hin. assert ((TagStore.All repo registry).1 = Ret ["latest"]) as Hall by (vm_compute; reflexivity).
    rewrite Hts in Hall. cbn [fst] in Hall. injection Hall as ->. apply list_elem_of_singleton.
Qed.

Lemma lookup_tags_witness :
  ∃ ts, TagStore.Lookup repo desc registry = (Ret ts, registry) ∧ NoDup ts ∧ "latest" ∈ ts.
Proof.
  destruct (TagStore.lookup_tags registry repo desc) as (ts & H1 & H2 & H3).
  - apply registry_rinv.
  - reflexivity.
  - apply sample_ok. vm_compute. reflexivity.
  - vm_compute. reflexivity.
  - vm_compute. reflexivity.
  - intros t ->%sample_tags. apply supportedb_spec. vm_compute. reflexivity.
  - intros t c Hc. assert (t = "latest") as -> by (eapply sample_tags, TagStore.current_listed, Hc; apply registry_rinv).
    rewrite registry_object in Hc by (vm_compute; reflexivity). vm_compute in Hc. injection Hc as <-. vm_compute. reflexivity.
  - exists ts. split; [exact H1|]. split; [exact H2|]. apply H3.
    rewrite registry_object by (vm_compute; reflexivity). vm_compute. reflexivity.
Defined.

End Sample.
