(* ===== verification/SampleGC.v ===== *)
(** * A collection of the concrete registry

    The registry of Sample.v behind a concrete [Namespace]: the inputs on which
    the theorems of the garbage collection are evaluated, and a registry with a
    list of lists, of which the collection removes layers in use. *)

From S2P Require Import Prelude GoStd Digest Driver FileSystem InMemory InMemoryFS Paths ObjectStore BlobStore TagStore Vacuum MarkSweep MarkSweepSafety Sample.

Module SampleGC.
Import Paths ObjectStore Sample.

Definition blob_desc (d : digest) : BlobStore.Descriptor :=
  {| BlobStore.MediaType := "application/octet-stream"; BlobStore.Size := 0; BlobStore.desc_Digest := d |}.

(** The services of the registry; [get] reads a manifest. *)
Definition services (get : digest → outcome error MarkSweep.manifest) (manifests blobs : list digest) :
    MarkSweep.Namespace state :=
  {| MarkSweep.ns_Enumerate _ := ([repo], None);
     MarkSweep.ns_WithName _ := None;
     MarkSweep.ns_Repository _ := None;
     MarkSweep.ns_Manifests _ := None;
     MarkSweep.ns_manifests_Enumerate _ _ := (manifests, None);
     MarkSweep.ns_manifests_Get _ _ d := get d;
     MarkSweep.ns_blobs_Enumerate _ := (blob_desc <$> blobs, None) |}.

Definition get (d : digest) : outcome error MarkSweep.manifest :=
  if decide (d = dgst) then Ret {| MarkSweep.m_isList := false; MarkSweep.m_References := [layer] |}
  else Ret {| MarkSweep.m_isList := false; MarkSweep.m_References := [] |}.
Definition namespace : MarkSweep.Namespace state := services get [dgst; old] [dgst; layer; old; garbage].
(** The same registry, where manifests cannot be read. *)
Definition broken : MarkSweep.Namespace state :=
  services (λ d, Fail (ErrManifestUnknownRevision repo d)) [dgst; old] [dgst; layer; old; garbage].

Definition untagged : MarkSweep.GCOpts := {| MarkSweep.DryRun := false; MarkSweep.RemoveUntagged := true |}.

Lemma registry_tag t c : object (view registry) (manifestTagCurrentPathSpec repo t) = Some c → t = "latest" ∧ c = dgst.
Proof.
  intros Hc. assert (t = "latest") as -> by (eapply sample_tags, TagStore.current_listed, Hc; apply registry_rinv).
  split; [done|]. rewrite registry_object in Hc by (vm_compute; reflexivity). vm_compute in Hc. by injection Hc as <-.
Qed.

Lemma registry_tags_ready : TagStore.tags_ready (view := view) (ok := ok) registry repo.
Proof.
  split.
  - reflexivity.
  - apply sample_ok. vm_compute. reflexivity.
  - vm_compute. reflexivity.
  - intros t ->%sample_tags. apply supportedb_spec. vm_compute. reflexivity.
  - intros t c [-> ->]%registry_tag. vm_compute. reflexivity.
Qed.

Lemma registry_gc_ready :
  MarkSweep.gc_ready (view := view) (inv := inv) (ok := ok) (NS := namespace) untagged registry.
Proof.
  assert (∀ d, ∃ mf, get d = Ret mf) as Hget by (intros d; unfold get; case_decide; by eexists).
  split.
  - apply registry_rinv.
  - reflexivity.
  - intros name ->%list_elem_of_singleton.
    split; [apply registry_tags_ready|reflexivity..|discriminate|intros m _; apply Hget|intros c _ _; apply Hget].
  - reflexivity.
  - intros d Hd. apply supportedb_spec. cbn in Hd.
    repeat (apply elem_of_cons in Hd as [->|Hd]; [vm_compute; reflexivity|]). by apply not_elem_of_nil in Hd.
  - intros spec (name & d & ->%list_elem_of_singleton & (_ & Hd & _ & _) & Hspec). apply supportedb_spec.
    unfold MarkSweep.enumerated in Hd. cbn in Hd. assert (d = dgst ∨ d = old) as Hd' by
      (apply elem_of_cons in Hd as [?|?%list_elem_of_singleton]; [by left|by right]).
    destruct Hspec as [->|(t & [c Ht] & ->)]; [|apply registry_tag in Ht as [-> _]];
      destruct Hd' as [-> | ->]; vm_compute; reflexivity.
Qed.

(** What the repository keeps alive. *)
Lemma registry_live d :
  MarkSweep.live (view := view) (NS := namespace) untagged registry repo d → d = dgst ∨ d = layer.
Proof.
  assert (∀ m, MarkSweep.kept (view := view) (NS := namespace) untagged registry repo m → m = dgst) as Hk.
  { intros m [_ Ht]. destruct (Ht eq_refl) as [t Hm]. by apply registry_tag in Hm as [_ ->]. }
  assert (get dgst = Ret {| MarkSweep.m_isList := false; MarkSweep.m_References := [layer] |}) as Hget by done.
  intros [m Hm%Hk|m mf d' Hm%Hk Hmf Hd|m mf c mfc d' _ Hm%Hk Hmf Hl _ _ _]; [by left|..];
    subst m; change (get dgst = Ret mf) in Hmf; rewrite Hget in Hmf; injection Hmf as <-; [right; by apply list_elem_of_singleton in Hd|discriminate Hl].
Qed.

(** The garbage is removed. *)
Lemma gc_exact_witness :
  ∃ s', MarkSweep.MarkAndSweep (NS := namespace) untagged registry = (Ret tt, s') ∧
    object (view s') (blobDataPathSpec garbage) = None.
Proof.
  destruct (MarkSweepSafety.gc_exact (NS := namespace) untagged registry) as (s' & H1 & _ & H2).
  - apply registry_gc_ready.
  - reflexivity.
  - exists s'. split; [exact H1|]. apply H2; [vm_compute; reflexivity|]. left. exists garbage. split_and!.
    + do 3 right. left.
    + intros (name & ->%list_elem_of_singleton & [Hl|Hl]%registry_live); revert Hl; vm_compute; discriminate.
    + reflexivity.
Defined.

Lemma gc_keeps_tagged_witness :
  ∃ s', MarkSweep.MarkAndSweep (NS := namespace) untagged registry = (Ret tt, s') ∧
    TagStore.Get repo "latest" s' = (Ret Sample.desc, s') ∧
    object (view s') (blobDataPathSpec layer) = Some "layer".
Proof.
  destruct (MarkSweepSafety.gc_keeps_tagged (NS := namespace) untagged registry repo "latest" dgst)
    as (s' & H1 & H2 & _ & H3).
  - apply registry_gc_ready.
  - reflexivity.
  - by left.
  - by left.
  - rewrite registry_object by (vm_compute; reflexivity). vm_compute. reflexivity.
  - exists s'. split; [exact H1|]. split; [exact H2|]. rewrite H3.
    + rewrite registry_object by (vm_compute; reflexivity). vm_compute. reflexivity.
    + vm_compute. reflexivity.
    + right. left. exists {| MarkSweep.m_isList := false; MarkSweep.m_References := [layer] |}. split; [reflexivity|by left].
Defined.

Lemma gc_fails_closed_witness :
  ∃ o, MarkSweep.MarkAndSweep (NS := broken) untagged registry = (o, registry) ∧ o ≠ Ret tt.
Proof.
  apply (MarkSweepSafety.gc_fails_closed (view := view) (inv := inv) (ok := ok) (NS := broken) untagged registry repo).
  - apply registry_rinv.
  - intros name ->%list_elem_of_singleton. apply registry_tags_ready.
  - by left.
  - intros [Hk _]. destruct (Hk dgst) as [mf Hmf]; [|discriminate Hmf]. split; [by left|]. intros _. exists "latest".
    rewrite registry_object by (vm_compute; reflexivity). vm_compute. reflexivity.
Defined.

Lemma gc_dry_run_witness :
  (MarkSweep.MarkAndSweep (NS := namespace)
    {| MarkSweep.DryRun := true; MarkSweep.RemoveUntagged := true |} registry).2 = registry.
Proof.
  apply (MarkSweepSafety.gc_dry_run (view := view) (inv := inv) (ok := ok)).
  - apply registry_rinv.
  - intros name ->%list_elem_of_singleton. apply registry_tags_ready.
  - reflexivity.
Defined.

Lemma removeManifests_exact_witness :
  ∃ s', Vacuum.RemoveManifests [{| Vacuum.md_Name := repo; Vacuum.md_Digest := old; Vacuum.md_Tags := ["latest"] |}]
      registry = (Ret tt, s') ∧
    object (view s') (manifestTagIndexEntryLinkPathSpec repo "latest" old) = None ∧
    object (view s') (manifestTagIndexEntryLinkPathSpec repo "latest" dgst) = Some dgst.
Proof.
  destruct (Vacuum.removeManifests_exact registry
    [{| Vacuum.md_Name := repo; Vacuum.md_Digest := old; Vacuum.md_Tags := ["latest"] |}]) as (_ & s' & H1 & _ & H2).
  - apply registry_rinv.
  - repeat constructor; try (vm_compute; reflexivity); apply sample_ok; vm_compute; reflexivity.
  - exists s'. split; [exact H1|]. split.
    + rewrite H2 by (vm_compute; reflexivity). rewrite decide_True; [reflexivity|]. right. left.
    + rewrite H2 by (vm_compute; reflexivity). rewrite decide_False.
      * rewrite registry_object by (vm_compute; reflexivity). vm_compute. reflexivity.
      * vm_compute. intros H. repeat (apply elem_of_cons in H as [H|H]; [discriminate H|]). by apply not_elem_of_nil in H.
Defined.

(** ** A list of lists

    The tag points to a list, which lists a list, which lists an image with a
    layer.  A list of lists is accepted by the registry, and its images are in
    use; the collection of untagged manifests follows one level of lists only,
    and removes the layer. *)

Definition inner : digest := digest_FromBytes "inner".
Definition image : digest := digest_FromBytes "image".
Definition nested_get (d : digest) : outcome error MarkSweep.manifest :=
  if decide (d = dgst) then Ret {| MarkSweep.m_isList := true; MarkSweep.m_References := [inner] |}
  else if decide (d = inner) then Ret {| MarkSweep.m_isList := true; MarkSweep.m_References := [image] |}
  else Ret {| MarkSweep.m_isList := false; MarkSweep.m_References := [layer] |}.
Definition nested : MarkSweep.Namespace state := services nested_get [dgst; inner; image] [dgst; inner; image; layer].

Theorem nested_list_loses_layers :
  let s' := (MarkSweep.MarkAndSweep (NS := nested) untagged registry).2 in
  object (view registry) (blobDataPathSpec layer) = Some "layer" ∧
  (TagStore.Get repo "latest" s').1 = Ret Sample.desc ∧
  object (view s') (blobDataPathSpec layer) = None.
Proof. vm_compute. done. Qed.

End SampleGC.
