(* ===== verification/StorageCatalog.v ===== *)
(** * The catalog of the storage

    Models registry/storage/catalog.go: the repositories of the storage, found
    by a walk for their layer directories, in pages after a last one.  The
    order that the pages are cut by is shown to be the order of the components
    of paths; an example shows that the walk does not visit in that order, so
    that a page can lose a repository. *)

From S2P Require Import Prelude GoStd Digest Driver FileSystem InMemory InMemoryFS Paths ObjectStore Sample.

Module StorageCatalog.
Import Paths ObjectStore Sample.

(** ** The order of paths *)

Definition nul : ascii := Ascii.zero.

(** The loop over the common length and the comparison of the lengths. *)
Fixpoint compareReplaceInline (s1 s2 : string) (old new : ascii) : Z :=
  match s1, s2 with
  | String c1 s1, String c2 s2 =>
      let c1 := if bool_decide (c1 = old) then new else c1 in
      let c2 := if bool_decide (c2 = old) then new else c2 in
      match Ascii.compare c1 c2 with
      | Lt => -1
      | Gt => 1
      | Eq => compareReplaceInline s1 s2 old new
      end
  | "", "" => 0
  | "", _ => -1
  | _, "" => 1
  end.
Definition lessPath (a b : string) : bool := (compareReplaceInline a b slash nul <? 0)%Z.

(** ** The walk *)

Section catalog.
Context {St : Type} {D : StorageDriver St}.

Definition handleRepository {T} (fileInfo : FileInfo) (root last : string) (fn : string → GoM (St * T) error unit) :
    GoM (St * T) error unit :=
  let filePath := fi_Path fileInfo in
  if bool_decide (String.length filePath < String.length root + 1) then panic
  else
    let repo := str_drop (String.length root + 1) filePath in
    let file := (path_Split repo).2 in
    if bool_decide (file = "_layers") then
      let repo := TrimSuffix repo "/_layers" in
      _ ← (if lessPath last repo then fn repo else mret tt);
      fail ErrSkipDir
    else if HasPrefix file "_" then fail ErrSkipDir
    else mret tt.

(** The variables of [Repositories] that its callback sets. *)
Record found := { foundRepos : list string; finishedWalk : bool }.
Definition append_repo (repoPath : string) : GoM (St * found) error unit :=
  on_snd (modify (λ f, {| foundRepos := foundRepos f ++ [repoPath]; finishedWalk := finishedWalk f |})).

Definition io_EOF : error := errors_New "EOF".
(** The repositories copied into the buffer of length [n], and the error. *)
Definition Repositories {GD : GoDigest} (fuel n : nat) (last : string) : GoM St error (list string * option error) :=
  if bool_decide (n = 0) then mret ([], Some (errors_New "no space in slice"))
  else
    match pathFor repositoriesRootPathSpec with
    | Fail e => mret ([], Some (ErrDigest e))
    | Panic => panic
    | Ret root => λ s,
        let visit fileInfo :=
          _ ← handleRepository fileInfo root last append_repo;
          f ← gets snd;
          if bool_decide (length (foundRepos f) = n) then
            _ ← on_snd (modify (λ f, {| foundRepos := foundRepos f; finishedWalk := true |}));
            fail ErrSkipDir
          else mret tt in
        let '(o, (s, f)) := WalkFallback D fuel root visit (s, {| foundRepos := []; finishedWalk := false |}) in
        let repos := take n (foundRepos f) in
        match o with
        | Panic => (Panic, s)
        | Fail err => (Ret (repos, Some err), s)
        | Ret _ => (Ret (repos, if finishedWalk f then None else Some io_EOF), s)
        end
    end.

Definition Remove {GD : GoDigest} (name : string) : GoM St error unit :=
  root ← lift (omap_err ErrDigest (pathFor repositoriesRootPathSpec));
  drv_Delete (path_Join [root; name]).

End catalog.

(** ** The order of components *)

(** The components of paths compared one after the other, as texts. *)
Fixpoint compare_components (l1 l2 : list string) : comparison :=
  match l1, l2 with
  | [], [] => Eq
  | [], _ => Lt
  | _, [] => Gt
  | w1 :: l1, w2 :: l2 =>
      match String.compare w1 w2 with
      | Eq => compare_components l1 l2
      | c => c
      end
  end.
Definition sign (c : comparison) : Z := match c with Lt => -1 | Eq => 0 | Gt => 1 end.

Lemma ascii_compare_eq a b : Ascii.compare a b = Eq → a = b.
Proof. intros H. by apply Ascii.compare_eq_iff. Qed.
Lemma compare_nul c : c ≠ nul → Ascii.compare nul c = Lt ∧ Ascii.compare c nul = Gt.
Proof. by destruct c as [[] [] [] [] [] [] [] []]. Qed.

Lemma compare_split_cons c s t :
  compare_components (Split slash (String c s)) (Split slash (String c t)) = compare_components (Split slash s) (Split slash t).
Proof.
  cbn [Split]. case_bool_decide; [done|].
  destruct (Split slash s) as [|w ws] eqn:Hs; [by apply Split_ne_nil in Hs|].
  destruct (Split slash t) as [|v vs] eqn:Ht; [by apply Split_ne_nil in Ht|].
  cbn [compare_components String.compare]. by rewrite ascii_compare_refl.
Qed.
Lemma compare_split_ne c d s t :
  c ≠ d → c ≠ nul → d ≠ nul →
  compare_components (Split slash (String c s)) (Split slash (String d t)) =
    Ascii.compare (if bool_decide (c = slash) then nul else c) (if bool_decide (d = slash) then nul else d).
Proof.
  intros Hne Hc Hd. destruct (Split slash s) as [|w ws] eqn:Hs; [by apply Split_ne_nil in Hs|].
  destruct (Split slash t) as [|v vs] eqn:Ht; [by apply Split_ne_nil in Ht|].
  cbn [Split]. rewrite Hs, Ht. do 2 case_bool_decide; subst; cbn [compare_components String.compare]; try done.
  - by rewrite (proj1 (compare_nul d Hd)).
  - by rewrite (proj2 (compare_nul c Hc)).
  - destruct (Ascii.compare c d) eqn:E; try done. by apply ascii_compare_eq in E.
Qed.
Lemma compare_inline_components a b :
  no_byte nul a = true → no_byte nul b = true →
  compareReplaceInline a b slash nul = sign (compare_components (Split slash a) (Split slash b)).
Proof.
  revert b. induction a as [|c s IH]; intros [|d t]; [done| | |].
  - intros _ Hb. cbn [compareReplaceInline]. destruct (Split slash t) as [|v vs] eqn:Ht; [by apply Split_ne_nil in Ht|].
    cbn [Split]. rewrite Ht. by case_bool_decide.
  - intros _ _. cbn [compareReplaceInline]. destruct (Split slash s) as [|v vs] eqn:Ht; [by apply Split_ne_nil in Ht|].
    cbn [Split]. rewrite Ht. by case_bool_decide.
  - intros [Hc%bool_decide_eq_true Hs]%andb_true_iff [Hd%bool_decide_eq_true Ht]%andb_true_iff. cbn [compareReplaceInline].
    destruct (decide (c = d)) as [->|Hne]; [rewrite ascii_compare_refl, compare_split_cons; by apply IH|].
    rewrite compare_split_ne by done. destruct (Ascii.compare _ _) eqn:E; [|done|done].
    apply ascii_compare_eq in E. do 2 case_bool_decide; subst; done.
Qed.

(** C25: On paths without NUL bytes the order by which pages of the catalog are
    cut, a comparison of the bytes with the separator taken as the smallest, is
    the order of the components of the paths: the first components that differ
    decide, and a path comes before the paths below it. *)
Theorem lessPath_components a b :
  no_byte nul a = true → no_byte nul b = true →
  lessPath a b = true ↔ compare_components (Split slash a) (Split slash b) = Lt.
Proof.
  intros Ha Hb. unfold lessPath. rewrite compare_inline_components by done.
  by destruct (compare_components _ _).
Qed.
Lemma lessPath_components_witness : lessPath "a" "a/0" = true ↔ compare_components ["a"] ["a"; "0"] = Lt.
Proof. exact (lessPath_components "a" "a/0" eq_refl eq_refl). Defined.

(** ** A page that loses a repository *)

(** The walk visits [a/0] before the layers of [a], since digits sort before the
    underscore.  A page that [a/0] fills is not ended there: the layers of [a]
    come next and fill it beyond its length, after which it is never found to be
    of its length, and the end of the catalog is reported.  With pages of one
    entry a client sees one of the three repositories; and [a], which is not
    after [a/0] in the order of the pages, is not on a page after it either. *)
Definition three_repositories : InMemory.state :=
  put_all ((λ name, (layerLinkPathSpec name layer, layer)) <$> ["a"; "a/0"; "b"]) (InMemory.New 0).
Definition page (n : nat) (last : string) : outcome error (list string * option error) :=
  (Repositories 20 n last three_repositories).1.
Example page_loses_repositories :
  page 10 "" = Ret (["a/0"; "a"; "b"], Some io_EOF) ∧
  page 1 "" = Ret (["a/0"], Some io_EOF) ∧
  page 1 "a/0" = Ret (["b"], Some io_EOF).
Proof. by vm_compute. Qed.

End StorageCatalog.
