(* ===== verification/Database.v ===== *)
(** * The metadata database

    Models the tables, constraints and triggers that the migrations of
    registry/datastore/migrations create, and the statements that the stores of
    registry/datastore run on them.  A digest is stored as the string that
    [NewDigest] of registry/datastore/digest.go makes of it (see Datastore.v).
    The columns that no constraint, trigger or query below reads are left out
    (timestamps, the surrogate keys of tags and references).  Times
    are nanoseconds; [now] is the time of the transaction. *)

From S2P Require Import Prelude.

Module Database.

Abbreviation dbdigest := string (only parsing).

(** The key [(top_level_namespace_id, repository_id, id)] of a row. *)
Abbreviation row_key := (Z * Z * Z)%type (only parsing).
(** A row [(top_level_namespace_id, repository_id, parent_id, child_id)]. *)
Abbreviation reference_row := (Z * Z * Z * Z)%type (only parsing).

Record blob_row := { b_media_type : string; b_size : Z }.
Record repository_row := { r_name : string; r_path : string; r_parent_id : option Z }.
Record manifest_row := {
  m_schema_version : Z;
  m_media_type : string;
  m_digest : dbdigest;
  m_payload : string;
  m_configuration_media_type : option string;
  m_configuration_blob_digest : option dbdigest;
  m_configuration_payload : option string;
}.
Record layer_row := { l_manifest_id : Z; l_digest : dbdigest }.
(** A row of a review queue. *)
Record review := { review_after : Z; review_count : Z }.

(** The tables.  A namespace is unique by name and a repository by path; a tag
    is unique by name in its repository; a row of a [gc_blobs_*] table is unique
    by digest and by the row it tracks.  The last four fields are the sequences
    of the identity columns; a sequence that a transaction has advanced is
    rolled back with it here, so that only the freshness of its values is
    modelled. *)
Record db := {
  top_level_namespaces : gmap Z string;
  repositories : gmap (Z * Z) repository_row;
  blobs : gmap dbdigest blob_row;
  repository_blobs : gset (Z * Z * dbdigest);
  manifests : gmap row_key manifest_row;
  manifest_references : gset reference_row;
  layers : gmap row_key layer_row;
  tags : gmap (Z * Z * string) Z;
  gc_blobs_configurations : gmap (dbdigest * Z) (Z * Z);
  gc_blobs_layers : gmap (dbdigest * Z) (Z * Z);
  gc_tmp_blobs_manifests : gset dbdigest;
  gc_blob_review_queue : gmap dbdigest review;
  gc_manifest_review_queue : gmap row_key review;
  gc_review_after_defaults : gmap string Z;
  media_types : gset string;
  namespaces_id_seq : Z;
  repositories_id_seq : Z;
  manifests_id_seq : Z;
  layers_id_seq : Z;
}.

Definition set_top_level_namespaces (x : gmap Z string) (D : db) : db :=
  {| top_level_namespaces := x; repositories := repositories D; blobs := blobs D;
     repository_blobs := repository_blobs D; manifests := manifests D; manifest_references := manifest_references D;
     layers := layers D; tags := tags D; gc_blobs_configurations := gc_blobs_configurations D;
     gc_blobs_layers := gc_blobs_layers D; gc_tmp_blobs_manifests := gc_tmp_blobs_manifests D;
     gc_blob_review_queue := gc_blob_review_queue D; gc_manifest_review_queue := gc_manifest_review_queue D;
     gc_review_after_defaults := gc_review_after_defaults D; media_types := media_types D;
     namespaces_id_seq := namespaces_id_seq D; repositories_id_seq := repositories_id_seq D;
     manifests_id_seq := manifests_id_seq D; layers_id_seq := layers_id_seq D |}.
Definition set_repositories (x : gmap (Z * Z) repository_row) (D : db) : db :=
  {| top_level_namespaces := top_level_namespaces D; repositories := x; blobs := blobs D;
     repository_blobs := repository_blobs D; manifests := manifests D; manifest_references := manifest_references D;
     layers := layers D; tags := tags D; gc_blobs_configurations := gc_blobs_configurations D;
     gc_blobs_layers := gc_blobs_layers D; gc_tmp_blobs_manifests := gc_tmp_blobs_manifests D;
     gc_blob_review_queue := gc_blob_review_queue D; gc_manifest_review_queue := gc_manifest_review_queue D;
     gc_review_after_defaults := gc_review_after_defaults D; media_types := media_types D;
     namespaces_id_seq := namespaces_id_seq D; repositories_id_seq := repositories_id_seq D;
     manifests_id_seq := manifests_id_seq D; layers_id_seq := layers_id_seq D |}.
Definition set_blobs (x : gmap dbdigest blob_row) (D : db) : db :=
  {| top_level_namespaces := top_level_namespaces D; repositories := repositories D; blobs := x;
     repository_blobs := repository_blobs D; manifests := manifests D; manifest_references := manifest_references D;
     layers := layers D; tags := tags D; gc_blobs_configurations := gc_blobs_configurations D;
     gc_blobs_layers := gc_blobs_layers D; gc_tmp_blobs_manifests := gc_tmp_blobs_manifests D;
     gc_blob_review_queue := gc_blob_review_queue D; gc_manifest_review_queue := gc_manifest_review_queue D;
     gc_review_after_defaults := gc_review_after_defaults D; media_types := media_types D;
     namespaces_id_seq := namespaces_id_seq D; repositories_id_seq := repositories_id_seq D;
     manifests_id_seq := manifests_id_seq D; layers_id_seq := layers_id_seq D |}.
Definition set_repository_blobs (x : gset (Z * Z * dbdigest)) (D : db) : db :=
  {| top_level_namespaces := top_level_namespaces D; repositories := repositories D; blobs := blobs D;
     repository_blobs := x; manifests := manifests D; manifest_references := manifest_references D;
     layers := layers D; tags := tags D; gc_blobs_configurations := gc_blobs_configurations D;
     gc_blobs_layers := gc_blobs_layers D; gc_tmp_blobs_manifests := gc_tmp_blobs_manifests D;
     gc_blob_review_queue := gc_blob_review_queue D; gc_manifest_review_queue := gc_manifest_review_queue D;
     gc_review_after_defaults := gc_review_after_defaults D; media_types := media_types D;
     namespaces_id_seq := namespaces_id_seq D; repositories_id_seq := repositories_id_seq D;
     manifests_id_seq := manifests_id_seq D; layers_id_seq := layers_id_seq D |}.
Definition set_manifests (x : gmap row_key manifest_row) (D : db) : db :=
  {| top_level_namespaces := top_level_namespaces D; repositories := repositories D; blobs := blobs D;
     repository_blobs := repository_blobs D; manifests := x; manifest_references := manifest_references D;
     layers := layers D; tags := tags D; gc_blobs_configurations := gc_blobs_configurations D;
     gc_blobs_layers := gc_blobs_layers D; gc_tmp_blobs_manifests := gc_tmp_blobs_manifests D;
     gc_blob_review_queue := gc_blob_review_queue D; gc_manifest_review_queue := gc_manifest_review_queue D;
     gc_review_after_defaults := gc_review_after_defaults D; media_types := media_types D;
     namespaces_id_seq := namespaces_id_seq D; repositories_id_seq := repositories_id_seq D;
     manifests_id_seq := manifests_id_seq D; layers_id_seq := layers_id_seq D |}.
Definition set_manifest_references (x : gset reference_row) (D : db) : db :=
  {| top_level_namespaces := top_level_namespaces D; repositories := repositories D; blobs := blobs D;
     repository_blobs := repository_blobs D; manifests := manifests D; manifest_references := x; layers := layers D;
     tags := tags D; gc_blobs_configurations := gc_blobs_configurations D; gc_blobs_layers := gc_blobs_layers D;
     gc_tmp_blobs_manifests := gc_tmp_blobs_manifests D; gc_blob_review_queue := gc_blob_review_queue D;
     gc_manifest_review_queue := gc_manifest_review_queue D; gc_review_after_defaults := gc_review_after_defaults D;
     media_types := media_types D; namespaces_id_seq := namespaces_id_seq D;
     repositories_id_seq := repositories_id_seq D; manifests_id_seq := manifests_id_seq D;
     layers_id_seq := layers_id_seq D |}.
Definition set_layers (x : gmap row_key layer_row) (D : db) : db :=
  {| top_level_namespaces := top_level_namespaces D; repositories := repositories D; blobs := blobs D;
     repository_blobs := repository_blobs D; manifests := manifests D; manifest_references := manifest_references D;
     layers := x; tags := tags D; gc_blobs_configurations := gc_blobs_configurations D;
     gc_blobs_layers := gc_blobs_layers D; gc_tmp_blobs_manifests := gc_tmp_blobs_manifests D;
     gc_blob_review_queue := gc_blob_review_queue D; gc_manifest_review_queue := gc_manifest_review_queue D;
     gc_review_after_defaults := gc_review_after_defaults D; media_types := media_types D;
     namespaces_id_seq := namespaces_id_seq D; repositories_id_seq := repositories_id_seq D;
     manifests_id_seq := manifests_id_seq D; layers_id_seq := layers_id_seq D |}.
Definition set_tags (x : gmap (Z * Z * string) Z) (D : db) : db :=
  {| top_level_namespaces := top_level_namespaces D; repositories := repositories D; blobs := blobs D;
     repository_blobs := repository_blobs D; manifests := manifests D; manifest_references := manifest_references D;
     layers := layers D; tags := x; gc_blobs_configurations := gc_blobs_configurations D;
     gc_blobs_layers := gc_blobs_layers D; gc_tmp_blobs_manifests := gc_tmp_blobs_manifests D;
     gc_blob_review_queue := gc_blob_review_queue D; gc_manifest_review_queue := gc_manifest_review_queue D;
     gc_review_after_defaults := gc_review_after_defaults D; media_types := media_types D;
     namespaces_id_seq := namespaces_id_seq D; repositories_id_seq := repositories_id_seq D;
     manifests_id_seq := manifests_id_seq D; layers_id_seq := layers_id_seq D |}.
Definition set_gc_blobs_configurations (x : gmap (dbdigest * Z) (Z * Z)) (D : db) : db :=
  {| top_level_namespaces := top_level_namespaces D; repositories := repositories D; blobs := blobs D;
     repository_blobs := repository_blobs D; manifests := manifests D; manifest_references := manifest_references D;
     layers := layers D; tags := tags D; gc_blobs_configurations := x; gc_blobs_layers := gc_blobs_layers D;
     gc_tmp_blobs_manifests := gc_tmp_blobs_manifests D; gc_blob_review_queue := gc_blob_review_queue D;
     gc_manifest_review_queue := gc_manifest_review_queue D; gc_review_after_defaults := gc_review_after_defaults D;
     media_types := media_types D; namespaces_id_seq := namespaces_id_seq D;
     repositories_id_seq := repositories_id_seq D; manifests_id_seq := manifests_id_seq D;
     layers_id_seq := layers_id_seq D |}.
Definition set_gc_blobs_layers (x : gmap (dbdigest * Z) (Z * Z)) (D : db) : db :=
  {| top_level_namespaces := top_level_namespaces D; repositories := repositories D; blobs := blobs D;
     repository_blobs := repository_blobs D; manifests := manifests D; manifest_references := manifest_references D;
     layers := layers D; tags := tags D; gc_blobs_configurations := gc_blobs_configurations D; gc_blobs_layers := x;
     gc_tmp_blobs_manifests := gc_tmp_blobs_manifests D; gc_blob_review_queue := gc_blob_review_queue D;
     gc_manifest_review_queue := gc_manifest_review_queue D; gc_review_after_defaults := gc_review_after_defaults D;
     media_types := media_types D; namespaces_id_seq := namespaces_id_seq D;
     repositories_id_seq := repositories_id_seq D; manifests_id_seq := manifests_id_seq D;
     layers_id_seq := layers_id_seq D |}.
Definition set_gc_tmp_blobs_manifests (x : gset dbdigest) (D : db) : db :=
  {| top_level_namespaces := top_level_namespaces D; repositories := repositories D; blobs := blobs D;
     repository_blobs := repository_blobs D; manifests := manifests D; manifest_references := manifest_references D;
     layers := layers D; tags := tags D; gc_blobs_configurations := gc_blobs_configurations D;
     gc_blobs_layers := gc_blobs_layers D; gc_tmp_blobs_manifests := x;
     gc_blob_review_queue := gc_blob_review_queue D; gc_manifest_review_queue := gc_manifest_review_queue D;
     gc_review_after_defaults := gc_review_after_defaults D; media_types := media_types D;
     namespaces_id_seq := namespaces_id_seq D; repositories_id_seq := repositories_id_seq D;
     manifests_id_seq := manifests_id_seq D; layers_id_seq := layers_id_seq D |}.
Definition set_gc_blob_review_queue (x : gmap dbdigest review) (D : db) : db :=
  {| top_level_namespaces := top_level_namespaces D; repositories := repositories D; blobs := blobs D;
     repository_blobs := repository_blobs D; manifests := manifests D; manifest_references := manifest_references D;
     layers := layers D; tags := tags D; gc_blobs_configurations := gc_blobs_configurations D;
     gc_blobs_layers := gc_blobs_layers D; gc_tmp_blobs_manifests := gc_tmp_blobs_manifests D;
     gc_blob_review_queue := x; gc_manifest_review_queue := gc_manifest_review_queue D;
     gc_review_after_defaults := gc_review_after_defaults D; media_types := media_types D;
     namespaces_id_seq := namespaces_id_seq D; repositories_id_seq := repositories_id_seq D;
     manifests_id_seq := manifests_id_seq D; layers_id_seq := layers_id_seq D |}.
Definition set_gc_manifest_review_queue (x : gmap row_key review) (D : db) : db :=
  {| top_level_namespaces := top_level_namespaces D; repositories := repositories D; blobs := blobs D;
     repository_blobs := repository_blobs D; manifests := manifests D; manifest_references := manifest_references D;
     layers := layers D; tags := tags D; gc_blobs_configurations := gc_blobs_configurations D;
     gc_blobs_layers := gc_blobs_layers D; gc_tmp_blobs_manifests := gc_tmp_blobs_manifests D;
     gc_blob_review_queue := gc_blob_review_queue D; gc_manifest_review_queue := x;
     gc_review_after_defaults := gc_review_after_defaults D; media_types := media_types D;
     namespaces_id_seq := namespaces_id_seq D; repositories_id_seq := repositories_id_seq D;
     manifests_id_seq := manifests_id_seq D; layers_id_seq := layers_id_seq D |}.
Definition set_gc_review_after_defaults (x : gmap string Z) (D : db) : db :=
  {| top_level_namespaces := top_level_namespaces D; repositories := repositories D; blobs := blobs D;
     repository_blobs := repository_blobs D; manifests := manifests D; manifest_references := manifest_references D;
     layers := layers D; tags := tags D; gc_blobs_configurations := gc_blobs_configurations D;
     gc_blobs_layers := gc_blobs_layers D; gc_tmp_blobs_manifests := gc_tmp_blobs_manifests D;
     gc_blob_review_queue := gc_blob_review_queue D; gc_manifest_review_queue := gc_manifest_review_queue D;
     gc_review_after_defaults := x; media_types := media_types D; namespaces_id_seq := namespaces_id_seq D;
     repositories_id_seq := repositories_id_seq D; manifests_id_seq := manifests_id_seq D;
     layers_id_seq := layers_id_seq D |}.
Definition set_namespaces_id_seq (x : Z) (D : db) : db :=
  {| top_level_namespaces := top_level_namespaces D; repositories := repositories D; blobs := blobs D;
     repository_blobs := repository_blobs D; manifests := manifests D; manifest_references := manifest_references D;
     layers := layers D; tags := tags D; gc_blobs_configurations := gc_blobs_configurations D;
     gc_blobs_layers := gc_blobs_layers D; gc_tmp_blobs_manifests := gc_tmp_blobs_manifests D;
     gc_blob_review_queue := gc_blob_review_queue D; gc_manifest_review_queue := gc_manifest_review_queue D;
     gc_review_after_defaults := gc_review_after_defaults D; media_types := media_types D; namespaces_id_seq := x;
     repositories_id_seq := repositories_id_seq D; manifests_id_seq := manifests_id_seq D;
     layers_id_seq := layers_id_seq D |}.
Definition set_repositories_id_seq (x : Z) (D : db) : db :=
  {| top_level_namespaces := top_level_namespaces D; repositories := repositories D; blobs := blobs D;
     repository_blobs := repository_blobs D; manifests := manifests D; manifest_references := manifest_references D;
     layers := layers D; tags := tags D; gc_blobs_configurations := gc_blobs_configurations D;
     gc_blobs_layers := gc_blobs_layers D; gc_tmp_blobs_manifests := gc_tmp_blobs_manifests D;
     gc_blob_review_queue := gc_blob_review_queue D; gc_manifest_review_queue := gc_manifest_review_queue D;
     gc_review_after_defaults := gc_review_after_defaults D; media_types := media_types D;
     namespaces_id_seq := namespaces_id_seq D; repositories_id_seq := x; manifests_id_seq := manifests_id_seq D;
     layers_id_seq := layers_id_seq D |}.
Definition set_manifests_id_seq (x : Z) (D : db) : db :=
  {| top_level_namespaces := top_level_namespaces D; repositories := repositories D; blobs := blobs D;
     repository_blobs := repository_blobs D; manifests := manifests D; manifest_references := manifest_references D;
     layers := layers D; tags := tags D; gc_blobs_configurations := gc_blobs_configurations D;
     gc_blobs_layers := gc_blobs_layers D; gc_tmp_blobs_manifests := gc_tmp_blobs_manifests D;
     gc_blob_review_queue := gc_blob_review_queue D; gc_manifest_review_queue := gc_manifest_review_queue D;
     gc_review_after_defaults := gc_review_after_defaults D; media_types := media_types D;
     namespaces_id_seq := namespaces_id_seq D; repositories_id_seq := repositories_id_seq D; manifests_id_seq := x;
     layers_id_seq := layers_id_seq D |}.
Definition set_layers_id_seq (x : Z) (D : db) : db :=
  {| top_level_namespaces := top_level_namespaces D; repositories := repositories D; blobs := blobs D;
     repository_blobs := repository_blobs D; manifests := manifests D; manifest_references := manifest_references D;
     layers := layers D; tags := tags D; gc_blobs_configurations := gc_blobs_configurations D;
     gc_blobs_layers := gc_blobs_layers D; gc_tmp_blobs_manifests := gc_tmp_blobs_manifests D;
     gc_blob_review_queue := gc_blob_review_queue D; gc_manifest_review_queue := gc_manifest_review_queue D;
     gc_review_after_defaults := gc_review_after_defaults D; media_types := media_types D;
     namespaces_id_seq := namespaces_id_seq D; repositories_id_seq := repositories_id_seq D;
     manifests_id_seq := manifests_id_seq D; layers_id_seq := x |}.

(** The violations of constraints, by the class of the error and the table. *)
Inductive pg_error :=
  | ForeignKeyViolation (TableName : string)
  | UniqueViolation (TableName : string)
  | CheckViolation (TableName : string)
  | SyntaxError.

(** A statement: a violated constraint undoes it. *)
Abbreviation stmt A := (db → outcome pg_error (A * db)) (only parsing).

(** ** Triggers *)

Definition day : Z := (86400 * 10 ^ 9)%Z.

Definition gc_review_after (now : Z) (event : string) (D : db) : Z :=
  match gc_review_after_defaults D !! event with
  | Some value => (now + value)%Z
  | None => (now + day)%Z
  end.

(** [INSERT INTO gc_blob_review_queue ... ON CONFLICT DO UPDATE SET review_after]. *)
Definition queue_blob (now : Z) (event : string) (d : dbdigest) (D : db) : db :=
  let count := match gc_blob_review_queue D !! d with Some r => review_count r | None => 0%Z end in
  set_gc_blob_review_queue
    (<[d := {| review_after := gc_review_after now event D; review_count := count |}]> (gc_blob_review_queue D)) D.
(** The same for [gc_manifest_review_queue]. *)
Definition queue_manifest (now : Z) (event : string) (k : row_key) (D : db) : db :=
  let count := match gc_manifest_review_queue D !! k with Some r => review_count r | None => 0%Z end in
  set_gc_manifest_review_queue
    (<[k := {| review_after := gc_review_after now event D; review_count := count |}]> (gc_manifest_review_queue D)) D.

(** AFTER INSERT ON blobs. *)
Definition gc_track_blob_uploads (now : Z) (d : dbdigest) (D : db) : db := queue_blob now "blob_upload" d D.
(** AFTER INSERT ON manifests. *)
Definition gc_track_manifest_uploads (now : Z) (k : row_key) (D : db) : outcome pg_error db :=
  match gc_manifest_review_queue D !! k with
  | Some _ => Fail (UniqueViolation "gc_manifest_review_queue")
  | None => Ret (queue_manifest now "manifest_upload" k D)
  end.
Definition gc_track_configuration_blobs (k : row_key) (config : option dbdigest) (D : db) : db :=
  let '(n, r, i) := k in
  match config with
  | None => D
  | Some d =>
      match gc_blobs_configurations D !! (d, i) with
      | Some _ => D
      | None => set_gc_blobs_configurations (<[(d, i) := (n, r)]> (gc_blobs_configurations D)) D
      end
  end.
Definition gc_track_tmp_blobs_manifests (d : dbdigest) (D : db) : db :=
  set_gc_tmp_blobs_manifests ({[d]} ∪ gc_tmp_blobs_manifests D) D.
(** AFTER INSERT ON layers. *)
Definition gc_track_layer_blobs (k : row_key) (d : dbdigest) (D : db) : db :=
  let '(n, r, i) := k in
  match gc_blobs_layers D !! (d, i) with
  | Some _ => D
  | None => set_gc_blobs_layers (<[(d, i) := (n, r)]> (gc_blobs_layers D)) D
  end.
(** AFTER DELETE ON manifests, layers, manifest_references, tags. *)
Definition gc_track_deleted_manifests (now : Z) (config : option dbdigest) (D : db) : db :=
  match config with Some d => queue_blob now "manifest_delete" d D | None => D end.
Definition gc_track_deleted_layers (now : Z) (d : dbdigest) (D : db) : db := queue_blob now "layer_delete" d D.
Definition gc_track_deleted_manifest_lists (now : Z) (n r child : Z) (D : db) : outcome pg_error db :=
  match manifests D !! (n, r, child) with
  | None => Fail (ForeignKeyViolation "gc_manifest_review_queue")
  | Some _ => Ret (queue_manifest now "manifest_list_delete" (n, r, child) D)
  end.
Definition gc_track_deleted_tags (now : Z) (k : row_key) (D : db) : db :=
  match manifests D !! k with
  | None => D
  | Some _ => queue_manifest now "tag_delete" k D
  end.
(** AFTER UPDATE OF manifest_id ON tags. *)
Definition gc_track_switched_tags (now : Z) (k : row_key) (D : db) : outcome pg_error db :=
  match manifests D !! k with
  | None => Fail (ForeignKeyViolation "gc_manifest_review_queue")
  | Some _ => Ret (queue_manifest now "tag_switch" k D)
  end.

(** ** Statements *)

(** [char_length] of a text in UTF-8: the bytes that start a character. *)
Fixpoint char_length (s : string) : Z :=
  match s with
  | "" => 0
  | String c s =>
      let n := Z.of_nat (Ascii.nat_of_ascii c) in
      ((if (128 <=? n) && (n <? 192) then 0 else 1) + char_length s)%Z
  end.
Definition too_long (s : string) : bool := (255 <? char_length s)%Z.

(** [INSERT INTO top_level_namespaces ... ON CONFLICT DO NOTHING RETURNING id]. *)
Definition insert_namespace (name : string) : stmt (option Z) := λ D,
  let i := namespaces_id_seq D in
  let D := set_namespaces_id_seq (i + 1)%Z D in
  if too_long name then Fail (CheckViolation "top_level_namespaces")
  else if bool_decide (map_Exists (λ _ x, x = name) (top_level_namespaces D)) then Ret (None, D)
  else Ret (Some i, set_top_level_namespaces (<[i := name]> (top_level_namespaces D)) D).

(** The checks and the foreign keys of a row of [repositories]. *)
Definition repository_check (x : repository_row) : bool := too_long (r_name x) || too_long (r_path x).
Definition repository_fk (n : Z) (x : repository_row) (D : db) : bool :=
  bool_decide (is_Some (top_level_namespaces D !! n)) &&
  match r_parent_id x with
  | Some p => bool_decide (is_Some (repositories D !! (n, p)))
  | None => true
  end.

(** [INSERT INTO repositories ... ON CONFLICT (path) DO NOTHING RETURNING id]. *)
Definition insert_repository (n : Z) (x : repository_row) : stmt (option Z) := λ D,
  let i := repositories_id_seq D in
  let D := set_repositories_id_seq (i + 1)%Z D in
  if repository_check x then Fail (CheckViolation "repositories")
  else if bool_decide (map_Exists (λ _ y, r_path y = r_path x) (repositories D)) then Ret (None, D)
  else
    let D := set_repositories (<[(n, i) := x]> (repositories D)) D in
    if repository_fk n x D then Ret (Some i, D) else Fail (ForeignKeyViolation "repositories").

(** [UPDATE repositories]: whether there was a row. *)
Definition update_repository (n i : Z) (x : repository_row) : stmt bool := λ D,
  match repositories D !! (n, i) with
  | None => Ret (false, D)
  | Some _ =>
      if repository_check x then Fail (CheckViolation "repositories")
      else if bool_decide (map_Exists (λ k y, k ≠ (n, i) ∧ r_path y = r_path x) (repositories D))
      then Fail (UniqueViolation "repositories")
      else
        let D := set_repositories (<[(n, i) := x]> (repositories D)) D in
        if repository_fk n x D then Ret (true, D) else Fail (ForeignKeyViolation "repositories")
  end.

(** [INSERT INTO blobs ... ON CONFLICT DO NOTHING]: whether a row was inserted. *)
Definition insert_blob (now : Z) (d : dbdigest) (b : blob_row) : stmt bool := λ D,
  match blobs D !! d with
  | Some _ => Ret (false, D)
  | None => Ret (true, gc_track_blob_uploads now d (set_blobs (<[d := b]> (blobs D)) D))
  end.

(** [DELETE FROM blobs]: [layers] and [manifests] restrict it, the links of the
    repositories and the tracking tables follow it. *)
Definition references_blob (d : dbdigest) (D : db) : option string :=
  if bool_decide (map_Exists (λ _ l, l_digest l = d) (layers D)) then Some "layers"
  else if bool_decide (map_Exists (λ _ m, m_configuration_blob_digest m = Some d) (manifests D)) then Some "manifests"
  else None.
Definition delete_blob (d : dbdigest) : stmt nat := λ D,
  match blobs D !! d with
  | None => Ret (0, D)
  | Some _ =>
      match references_blob d D with
      | Some table => Fail (ForeignKeyViolation table)
      | None =>
          let D := set_blobs (delete d (blobs D)) D in
          let D := set_repository_blobs (filter (λ x, x.2 ≠ d) (repository_blobs D)) D in
          let D := set_gc_blobs_layers (filter (λ x, x.1.1 ≠ d) (gc_blobs_layers D)) D in
          let D := set_gc_blobs_configurations (filter (λ x, x.1.1 ≠ d) (gc_blobs_configurations D)) D in
          Ret (1, D)
      end
  end.

(** [repository_blobs]. *)
Definition insert_repository_blob (n r : Z) (d : dbdigest) : stmt unit := λ D,
  if bool_decide ((n, r, d) ∈ repository_blobs D) then Ret (tt, D)
  else if bool_decide (repositories D !! (n, r) = None) then Fail (ForeignKeyViolation "repository_blobs")
  else match blobs D !! d with
       | None => Fail (ForeignKeyViolation "repository_blobs")
       | Some _ => Ret (tt, set_repository_blobs ({[(n, r, d)]} ∪ repository_blobs D) D)
       end.
Definition delete_repository_blob (n r : Z) (d : dbdigest) : stmt nat := λ D,
  if bool_decide ((n, r, d) ∈ repository_blobs D)
  then Ret (1, set_repository_blobs (repository_blobs D ∖ {[(n, r, d)]}) D)
  else Ret (0, D).

(** [INSERT INTO manifests ... RETURNING id]. *)
Definition insert_manifest (now : Z) (n r : Z) (m : manifest_row) : stmt Z := λ D,
  let i := manifests_id_seq D in
  let k := (n, r, i) in
  if bool_decide (map_Exists (λ k' m', k'.1 = (n, r) ∧ m_digest m' = m_digest m) (manifests D))
  then Fail (UniqueViolation "manifests")
  else if bool_decide (repositories D !! (n, r) = None) then Fail (ForeignKeyViolation "manifests")
  else if match m_configuration_blob_digest m with
          | Some d => bool_decide (blobs D !! d = None)
          | None => false
          end then Fail (ForeignKeyViolation "manifests")
  else
    let D := set_manifests_id_seq (i + 1)%Z (set_manifests (<[k := m]> (manifests D)) D) in
    match gc_track_manifest_uploads now k D with
    | Ret D =>
        let D := gc_track_configuration_blobs k (m_configuration_blob_digest m) D in
        Ret (i, gc_track_tmp_blobs_manifests (m_digest m) D)
    | Fail e => Fail e
    | Panic => Panic
    end.

(** [INSERT INTO manifest_references ... ON CONFLICT DO NOTHING]. *)
Definition insert_reference (n r parent child : Z) : stmt unit := λ D,
  if bool_decide (parent = child) then Fail (CheckViolation "manifest_references")
  else if bool_decide ((n, r, parent, child) ∈ manifest_references D) then Ret (tt, D)
  else match manifests D !! (n, r, parent), manifests D !! (n, r, child) with
       | Some _, Some _ => Ret (tt, set_manifest_references ({[(n, r, parent, child)]} ∪ manifest_references D) D)
       | _, _ => Fail (ForeignKeyViolation "manifest_references")
       end.

(** [INSERT INTO layers ... ON CONFLICT DO NOTHING]. *)
Definition insert_layer (n r manifest : Z) (d : dbdigest) : stmt unit := λ D,
  if bool_decide (map_Exists (λ k l, k.1 = (n, r) ∧ l_manifest_id l = manifest ∧ l_digest l = d) (layers D))
  then Ret (tt, D)
  else match manifests D !! (n, r, manifest), blobs D !! d with
       | Some _, Some _ =>
           let i := layers_id_seq D in
           let D := set_layers_id_seq (i + 1)%Z
             (set_layers (<[(n, r, i) := {| l_manifest_id := manifest; l_digest := d |}]> (layers D)) D) in
           Ret (tt, gc_track_layer_blobs (n, r, i) d D)
       | _, _ => Fail (ForeignKeyViolation "layers")
       end.

(** [INSERT INTO tags ... ON CONFLICT DO UPDATE ... WHERE manifest_id differs]. *)
Definition upsert_tag (now : Z) (n r manifest : Z) (name : string) : stmt unit := λ D,
  if too_long name then Fail (CheckViolation "tags")
  else match tags D !! (n, r, name) with
  | None =>
      match manifests D !! (n, r, manifest) with
      | None => Fail (ForeignKeyViolation "tags")
      | Some _ => Ret (tt, set_tags (<[(n, r, name) := manifest]> (tags D)) D)
      end
  | Some old =>
      if bool_decide (old = manifest) then Ret (tt, D)
      else match manifests D !! (n, r, manifest) with
           | None => Fail (ForeignKeyViolation "tags")
           | Some _ =>
               match gc_track_switched_tags now (n, r, old) (set_tags (<[(n, r, name) := manifest]> (tags D)) D) with
               | Ret D => Ret (tt, D)
               | Fail e => Fail e
               | Panic => Panic
               end
           end
  end.

(** The layer that a row of [gc_blobs_layers] tracks satisfies [P]. *)
Definition tracks_layer (ls : gmap row_key layer_row) (P : row_key → layer_row → bool)
    (x : dbdigest * Z * (Z * Z)) : bool :=
  match ls !! (x.2, x.1.2) with
  | Some l => P (x.2, x.1.2) l && bool_decide (l_digest l = x.1.1)
  | None => false
  end.
(** The deletion of the layers that satisfy [P]; their rows of
    [gc_blobs_layers] follow. *)
Definition delete_layers (now : Z) (P : row_key → layer_row → bool) (D : db) : db :=
  let old := layers D in
  let gone := filter (λ x, P x.1 x.2 = true) (map_to_list old) in
  let D := set_layers (filter (λ x, P x.1 x.2 = false) old) D in
  let D := set_gc_blobs_layers (filter (λ x, tracks_layer old P x = false) (gc_blobs_layers D)) D in
  foldr (λ x D, gc_track_deleted_layers now (l_digest x.2) D) D gone.

(** The deletion of the tags that satisfy [P]. *)
Definition delete_tags (now : Z) (P : Z * Z * string → Z → bool) (D : db) : db :=
  let gone := filter (λ x, P x.1 x.2 = true) (map_to_list (tags D)) in
  let D := set_tags (filter (λ x, P x.1 x.2 = false) (tags D)) D in
  foldr (λ x D, gc_track_deleted_tags now (x.1.1, x.2) D) D gone.

(** The deletion of the references that satisfy [P]. *)
Fixpoint track_references (now : Z) (gone : list reference_row) (D : db) : outcome pg_error db :=
  match gone with
  | [] => Ret D
  | (n, r, _, child) :: gone =>
      match gc_track_deleted_manifest_lists now n r child D with
      | Ret D => track_references now gone D
      | o => o
      end
  end.
Definition delete_references (now : Z) (P : reference_row → bool) (D : db) : outcome pg_error db :=
  let gone := elements (filter (λ x, P x = true) (manifest_references D)) in
  track_references now gone
    (set_manifest_references (filter (λ x, P x = false) (manifest_references D)) D).

(** [DELETE FROM manifests]: a reference of which it is the child restricts it;
    its layers, its tags, the references of which it is the parent, its rows of
    the tracking tables and of the review queue follow. *)
Definition delete_manifest (now : Z) (k : row_key) : stmt nat := λ D,
  match manifests D !! k with
  | None => Ret (0, D)
  | Some m =>
      if bool_decide (set_Exists (λ x, (x.1.1, x.2) = k) (manifest_references D))
      then Fail (ForeignKeyViolation "manifest_references")
      else
        let D := set_manifests (delete k (manifests D)) D in
        let D := delete_layers now (λ k' l, bool_decide ((k'.1, l_manifest_id l) = k)) D in
        let D := delete_tags now (λ t i, bool_decide ((t.1, i) = k)) D in
        match delete_references now (λ x, bool_decide (x.1 = k)) D with
        | Ret D =>
            let D := set_gc_blobs_configurations
              (filter (λ x, ((x.2, x.1.2), Some x.1.1) ≠ (k, m_configuration_blob_digest m)) (gc_blobs_configurations D)) D in
            let D := set_gc_manifest_review_queue (delete k (gc_manifest_review_queue D)) D in
            Ret (1, gc_track_deleted_manifests now (m_configuration_blob_digest m) D)
        | Fail e => Fail e
        | Panic => Panic
        end
  end.

(** The review queues. *)
Definition update_blob_review (d : dbdigest) (x : review) : stmt nat := λ D,
  match gc_blob_review_queue D !! d with
  | None => Ret (0, D)
  | Some _ => Ret (1, set_gc_blob_review_queue (<[d := x]> (gc_blob_review_queue D)) D)
  end.
Definition delete_blob_review (d : dbdigest) : stmt nat := λ D,
  match gc_blob_review_queue D !! d with
  | None => Ret (0, D)
  | Some _ => Ret (1, set_gc_blob_review_queue (delete d (gc_blob_review_queue D)) D)
  end.
Definition update_manifest_review (k : row_key) (x : review) : stmt nat := λ D,
  match gc_manifest_review_queue D !! k with
  | None => Ret (0, D)
  | Some _ => Ret (1, set_gc_manifest_review_queue (<[k := x]> (gc_manifest_review_queue D)) D)
  end.
Definition delete_manifest_review (k : row_key) : stmt nat := λ D,
  match gc_manifest_review_queue D !! k with
  | None => Ret (0, D)
  | Some _ => Ret (1, set_gc_manifest_review_queue (delete k (gc_manifest_review_queue D)) D)
  end.

(** ** The migrations *)

(** The media types that the migrations insert. *)
Definition media_type_seeds : list string :=
  ["application/vnd.docker.distribution.manifest.v1+json";
   "application/vnd.docker.distribution.manifest.v1+prettyjws";
   "application/vnd.docker.distribution.manifest.v2+json";
   "application/vnd.docker.distribution.manifest.list.v2+json";
   "application/vnd.docker.image.rootfs.diff.tar";
   "application/vnd.docker.image.rootfs.diff.tar.gzip";
   "application/vnd.docker.image.rootfs.foreign.diff.tar.gzip";
   "application/vnd.docker.container.image.v1+json";
   "application/vnd.docker.container.image.rootfs.diff+x-gtar";
   "application/vnd.docker.plugin.v1+json";
   "application/vnd.oci.image.layer.v1.tar";
   "application/vnd.oci.image.layer.v1.tar+gzip";
   "application/vnd.oci.image.layer.v1.tar+zstd";
   "application/vnd.oci.image.layer.nondistributable.v1.tar";
   "application/vnd.oci.image.layer.nondistributable.v1.tar+gzip";
   "application/vnd.oci.image.config.v1+json";
   "application/vnd.oci.image.manifest.v1+json";
   "application/vnd.oci.image.index.v1+json";
   "application/vnd.cncf.helm.config.v1+json";
   "application/tar+gzip";
   "application/octet-stream"].
(** The delays of the reviews, by event. *)
Definition review_after_seeds : list (string * Z) :=
  [("blob_upload", day); ("manifest_upload", day); ("manifest_delete", day); ("layer_delete", day);
   ("manifest_list_delete", day); ("tag_delete", day); ("tag_switch", day)].

(** The database after the migrations. *)
Definition migrated : db := {|
  top_level_namespaces := ∅; repositories := ∅; blobs := ∅; repository_blobs := ∅; manifests := ∅; manifest_references := ∅; layers := ∅;
  tags := ∅; gc_blobs_configurations := ∅; gc_blobs_layers := ∅; gc_tmp_blobs_manifests := ∅;
  gc_blob_review_queue := ∅; gc_manifest_review_queue := ∅;
  gc_review_after_defaults := list_to_map review_after_seeds;
  media_types := list_to_set media_type_seeds; namespaces_id_seq := 1;
  repositories_id_seq := 1; manifests_id_seq := 1; layers_id_seq := 1 |}.

End Database.
