(* ===== verification/Tracking.v ===== *)
(** * The invariant of the metadata database

    The state of the database of Database.v that the online garbage collection
    relies on: the foreign keys hold, the tracking tables mirror the references
    to blobs, and what is not referenced is queued for review.  Every statement
    preserves it. *)

From S2P Require Import Prelude Database.

Module Tracking.
Import Database.

(** A blob that a layer or a configuration references. *)
Definition referenced (D : db) (d : dbdigest) : Prop :=
  (∃ k l, layers D !! k = Some l ∧ l_digest l = d) ∨
  (∃ k m, manifests D !! k = Some m ∧ m_configuration_blob_digest m = Some d).
(** A manifest that a tag or a manifest list references. *)
Definition in_use (D : db) (k : row_key) : Prop :=
  (∃ t, tags D !! (k.1, t) = Some k.2) ∨ (∃ p, (k.1, p, k.2) ∈ manifest_references D).

Record inv (D : db) : Prop := {
  fk_layer k l : layers D !! k = Some l →
    is_Some (manifests D !! (k.1, l_manifest_id l)) ∧ is_Some (blobs D !! l_digest l);
  fk_config k m d : manifests D !! k = Some m → m_configuration_blob_digest m = Some d → is_Some (blobs D !! d);
  fk_reference x : x ∈ manifest_references D →
    is_Some (manifests D !! x.1) ∧ is_Some (manifests D !! (x.1.1, x.2)) ∧ x.1.2 ≠ x.2;
  fk_tag t i : tags D !! t = Some i → is_Some (manifests D !! (t.1, i));
  fk_review k : is_Some (gc_manifest_review_queue D !! k) → is_Some (manifests D !! k);
  fk_repository_blob x : x ∈ repository_blobs D → is_Some (blobs D !! x.2);
  seq_manifest k m : manifests D !! k = Some m → (k.2 < manifests_id_seq D)%Z;
  seq_layer k l : layers D !! k = Some l → (k.2 < layers_id_seq D)%Z;
  id_manifest k k' m m' : manifests D !! k = Some m → manifests D !! k' = Some m' → k.2 = k'.2 → k = k';
  id_layer k k' l l' : layers D !! k = Some l → layers D !! k' = Some l' → k.2 = k'.2 → k = k';
  track_layer d i nr : gc_blobs_layers D !! (d, i) = Some nr ↔ ∃ l, layers D !! (nr, i) = Some l ∧ l_digest l = d;
  track_config d i nr : gc_blobs_configurations D !! (d, i) = Some nr ↔
    ∃ m, manifests D !! (nr, i) = Some m ∧ m_configuration_blob_digest m = Some d;
  cover_blob d : is_Some (blobs D !! d) → referenced D d ∨ is_Some (gc_blob_review_queue D !! d);
  cover_manifest k : is_Some (manifests D !! k) → in_use D k ∨ is_Some (gc_manifest_review_queue D !! k);
}.

(** ** The effect of the triggers *)

Lemma queue_blob_effect now ev d D :
  ∃ q, queue_blob now ev d D = set_gc_blob_review_queue q D ∧
    ∀ d', is_Some (q !! d') ↔ is_Some (gc_blob_review_queue D !! d') ∨ d' = d.
Proof.
  eexists. split; [reflexivity|]. intros d'. destruct (decide (d' = d)) as [->|Hne].
  - rewrite lookup_insert_eq. naive_solver.
  - rewrite lookup_insert_ne by done. naive_solver.
Qed.
Lemma queue_manifest_effect now ev k D :
  ∃ q, queue_manifest now ev k D = set_gc_manifest_review_queue q D ∧
    ∀ k', is_Some (q !! k') ↔ is_Some (gc_manifest_review_queue D !! k') ∨ k' = k.
Proof.
  eexists. split; [reflexivity|]. intros k'. destruct (decide (k' = k)) as [->|Hne].
  - rewrite lookup_insert_eq. naive_solver.
  - rewrite lookup_insert_ne by done. naive_solver.
Qed.

(** Setting a queue twice, or to itself. *)
Lemma set_blob_queue_twice q q' D :
  set_gc_blob_review_queue q (set_gc_blob_review_queue q' D) = set_gc_blob_review_queue q D.
Proof. done. Qed.
Lemma set_blob_queue_same D : set_gc_blob_review_queue (gc_blob_review_queue D) D = D.
Proof. by destruct D. Qed.
Lemma set_manifest_queue_same D : set_gc_manifest_review_queue (gc_manifest_review_queue D) D = D.
Proof. by destruct D. Qed.

Lemma track_layers_effect now (gone : list (row_key * layer_row)) D :
  ∃ q, foldr (λ x D, gc_track_deleted_layers now (l_digest x.2) D) D gone = set_gc_blob_review_queue q D ∧
    ∀ d, is_Some (q !! d) ↔ is_Some (gc_blob_review_queue D !! d) ∨ ∃ x, x ∈ gone ∧ l_digest x.2 = d.
Proof.
  induction gone as [|x gone (q & IH & Hq)]; cbn [foldr].
  { exists (gc_blob_review_queue D). rewrite set_blob_queue_same. split; [done|]. set_solver. }
  rewrite IH. unfold gc_track_deleted_layers.
  destruct (queue_blob_effect now "layer_delete" (l_digest x.2) (set_gc_blob_review_queue q D)) as (q' & -> & Hq').
  exists q'. rewrite set_blob_queue_twice. split; [done|]. intros d. rewrite Hq'. cbn. rewrite Hq.
  setoid_rewrite elem_of_cons. naive_solver.
Qed.
Lemma track_tags_effect now (gone : list (Z * Z * string * Z)) D :
  ∃ q, foldr (λ x D, gc_track_deleted_tags now (x.1.1, x.2) D) D gone = set_gc_manifest_review_queue q D ∧
    ∀ k, is_Some (q !! k) ↔ is_Some (gc_manifest_review_queue D !! k) ∨
      (is_Some (manifests D !! k) ∧ ∃ x, x ∈ gone ∧ (x.1.1, x.2) = k).
Proof.
  induction gone as [|x gone (q & IH & Hq)]; cbn [foldr].
  { exists (gc_manifest_review_queue D). rewrite set_manifest_queue_same. split; [done|]. set_solver. }
  rewrite IH. unfold gc_track_deleted_tags. cbn [manifests set_gc_manifest_review_queue].
  setoid_rewrite elem_of_cons. destruct (manifests D !! (x.1.1, x.2)) eqn:Hm.
  - destruct (queue_manifest_effect now "tag_delete" (x.1.1, x.2) (set_gc_manifest_review_queue q D)) as (q' & -> & Hq').
    exists q'. split; [done|]. intros k. rewrite Hq'. cbn. rewrite Hq. naive_solver.
  - exists q. split; [done|]. intros k. rewrite Hq. split; [naive_solver|].
    intros [?|([m' Hk] & y & [->|Hy] & <-)]; [by left|congruence|naive_solver].
Qed.
Lemma track_references_effect now (gone : list reference_row) D :
  (∀ x, x ∈ gone → is_Some (manifests D !! (x.1.1, x.2))) →
  ∃ q, track_references now gone D = Ret (set_gc_manifest_review_queue q D) ∧
    ∀ k, is_Some (q !! k) ↔ is_Some (gc_manifest_review_queue D !! k) ∨ ∃ x, x ∈ gone ∧ (x.1.1, x.2) = k.
Proof.
  revert D. induction gone as [|[[[n r] p] c] gone IH]; intros D Hm; cbn [track_references].
  { exists (gc_manifest_review_queue D). rewrite set_manifest_queue_same. split; [done|]. set_solver. }
  unfold gc_track_deleted_manifest_lists.
  destruct (Hm (n, r, p, c)) as [m Hc]; [by left|]. cbn in Hc. rewrite Hc.
  destruct (queue_manifest_effect now "manifest_list_delete" (n, r, c) D) as (q & -> & Hq).
  destruct (IH (set_gc_manifest_review_queue q D)) as (q' & Hq1 & Hq').
  { intros x Hx. by apply Hm; right. }
  exists q'. split; [done|]. intros k. rewrite Hq'. cbn. rewrite Hq. setoid_rewrite elem_of_cons. naive_solver.
Qed.

(** ** Preservation *)

(** The clauses of the invariant after a statement; those on tables that it
    does not write hold as before. *)
Ltac inv_clauses H :=
  let H' := fresh in pose proof H as H'; destruct H';
  constructor; unfold referenced, in_use in *; cbn; try assumption.

Lemma insert_namespace_inv name D a D' : inv D → insert_namespace name D = Ret (a, D') → inv D'.
Proof.
  intros H. unfold insert_namespace. destruct (too_long name); [done|]. case_bool_decide; intros [= <- <-]; inv_clauses H.
Qed.
Lemma insert_repository_inv n x D a D' : inv D → insert_repository n x D = Ret (a, D') → inv D'.
Proof.
  intros H. unfold insert_repository. destruct (repository_check x); [done|].
  case_bool_decide; [|destruct (repository_fk n x _); [|done]]; intros [= <- <-]; inv_clauses H.
Qed.
Lemma update_repository_inv n i x D a D' : inv D → update_repository n i x D = Ret (a, D') → inv D'.
Proof.
  intros H. unfold update_repository. destruct (repositories D !! (n, i)); [|by intros [= <- <-]].
  destruct (repository_check x); [done|]. case_bool_decide; [done|]. destruct (repository_fk n x _); [|done].
  intros [= <- <-]. inv_clauses H.
Qed.

Lemma insert_blob_inv now d b D a D' : inv D → insert_blob now d b D = Ret (a, D') → inv D'.
Proof.
  intros H. unfold insert_blob, gc_track_blob_uploads. destruct (blobs D !! d) eqn:Hd; intros [= <- <-]; [done|].
  destruct (queue_blob_effect now "blob_upload" d (set_blobs (<[d:=b]> (blobs D)) D)) as (q & -> & Hq).
  cbn in Hq. assert (∀ d', is_Some (blobs D !! d') → is_Some (<[d:=b]> (blobs D) !! d')) as Hmono.
  { intros d' Hd'. rewrite lookup_insert_is_Some'. by right. }
  inv_clauses H.
  - intros k l Hl. split; [by eapply fk_layer0|]. by eapply Hmono, fk_layer0.
  - intros k m d' Hm Hd'. by eapply Hmono, fk_config0.
  - intros x Hx. by apply Hmono, fk_repository_blob0.
  - intros d' [->|Hd']%lookup_insert_is_Some'; rewrite Hq; [by eauto|].
    destruct (cover_blob0 d' Hd'); naive_solver.
Qed.

Lemma insert_repository_blob_inv n r d D a D' : inv D → insert_repository_blob n r d D = Ret (a, D') → inv D'.
Proof.
  intros H. unfold insert_repository_blob. repeat case_bool_decide; try naive_solver.
  destruct (blobs D !! d) eqn:Hd; intros [= <- <-]. inv_clauses H.
  intros x [->%elem_of_singleton|Hx]%elem_of_union; [by eexists|by auto].
Qed.
Lemma delete_repository_blob_inv n r d D a D' : inv D → delete_repository_blob n r d D = Ret (a, D') → inv D'.
Proof.
  intros H. unfold delete_repository_blob. case_bool_decide; intros [= <- <-]; [|done]. inv_clauses H.
  intros x [Hx _]%elem_of_difference. by auto.
Qed.

Lemma insert_reference_inv n r p c D a D' : inv D → insert_reference n r p c D = Ret (a, D') → inv D'.
Proof.
  intros H. unfold insert_reference. repeat case_bool_decide; try naive_solver.
  destruct (manifests D !! (n, r, p)) eqn:Hp, (manifests D !! (n, r, c)) eqn:Hc; intros [= <- <-]. inv_clauses H.
  - intros x [->%elem_of_singleton|Hx]%elem_of_union; [|by auto]. cbn. split_and!; [by eexists..|done].
  - intros k Hk. destruct (cover_manifest0 k Hk) as [[?|[p' ?]]|?]; [by eauto| |by eauto].
    left. right. exists p'. apply elem_of_union. by right.
Qed.

Lemma insert_layer_inv n r i d D a D' : inv D → insert_layer n r i d D = Ret (a, D') → inv D'.
Proof.
  intros H. unfold insert_layer. case_bool_decide; [naive_solver|].
  destruct (manifests D !! (n, r, i)) eqn:Hm, (blobs D !! d) eqn:Hd; intros [= <- <-].
  set (li := layers_id_seq D). assert (∀ nr, layers D !! (nr, li) = None) as Hfresh.
  { intros nr. destruct (layers D !! (nr, li)) eqn:Hl; [|done]. apply (seq_layer D H) in Hl. cbn in Hl. lia. }
  unfold gc_track_layer_blobs. cbn [gc_blobs_layers set_layers_id_seq set_layers].
  assert (gc_blobs_layers D !! (d, li) = None) as Hgc.
  { destruct (gc_blobs_layers D !! (d, li)) as [nr|] eqn:Hg; [|done].
    apply (track_layer D H) in Hg as (l & Hl & _). by rewrite Hfresh in Hl. }
  rewrite Hgc. inv_clauses H.
  - intros k l [[<- <-]|[_ Hl]]%lookup_insert_Some; [|by eauto]. cbn. by split; eexists.
  - intros k l [[<- <-]|[_ Hl]]%lookup_insert_Some; cbn; [lia|]. apply seq_layer0 in Hl. lia.
  - intros k k' l l' [[<- <-]|[? Hl]]%lookup_insert_Some [[<- <-]|[? Hl']]%lookup_insert_Some Hid; [done|..|by eauto].
    + apply seq_layer0 in Hl'. cbn in Hid. lia.
    + apply seq_layer0 in Hl. cbn in Hid. lia.
  - intros d' i' nr. rewrite lookup_insert_Some, track_layer0. setoid_rewrite lookup_insert_Some. split.
    + intros [[[= <- <-] <-]|[Hne (l & Hl & Hl')]].
      * eexists. split; [left; done|done].
      * exists l. split; [|done]. right. split; [|done]. intros [= <- <-]. by rewrite Hfresh in Hl.
    + intros (l & [[[= <- <-] <-]|[Hne Hl]] & Hl'); [left; by subst|]. right. split; [|by eauto].
      intros [= <- <-]. by rewrite Hfresh in Hl.
  - intros d' Hd'. destruct (cover_blob0 d' Hd') as [[(k & l & Hl & Hl')|?]|?]; [|by eauto..].
    left. left. exists k, l. split; [|done]. rewrite lookup_insert_ne; [done|]. intros <-. by rewrite Hfresh in Hl.
Qed.

Lemma upsert_tag_inv now n r i t D a D' : inv D → upsert_tag now n r i t D = Ret (a, D') → inv D'.
Proof.
  intros H. unfold upsert_tag. destruct (too_long t); [done|]. destruct (tags D !! (n, r, t)) as [old|] eqn:Ht.
  - case_bool_decide; [naive_solver|]. destruct (manifests D !! (n, r, i)) eqn:Hi; [|done].
    unfold gc_track_switched_tags. cbn [manifests set_tags].
    destruct (manifests D !! (n, r, old)) eqn:Ho; [|done].
    destruct (queue_manifest_effect now "tag_switch" (n, r, old) (set_tags (<[(n, r, t):=i]> (tags D)) D)) as (q & -> & Hq).
    intros [= <- <-]. cbn in Hq. inv_clauses H.
    + intros t' i' [[<- <-]|[_ Hl]]%lookup_insert_Some; [by eexists|by eauto].
    + intros k [Hk| ->]%Hq; [by auto|by eexists].
    + intros k Hk. rewrite Hq. destruct (cover_manifest0 k Hk) as [[[t' Ht']|?]|?]; [|by eauto..].
      destruct (decide ((k.1, t') = (n, r, t))) as [Heq|Hne].
      * right. right. rewrite Heq, Ht in Ht'. destruct k as [nr j]. cbn in *. by simplify_eq.
      * left. left. exists t'. by rewrite lookup_insert_ne by done.
  - destruct (manifests D !! (n, r, i)) eqn:Hi; [|done]. intros [= <- <-]. inv_clauses H.
    + intros t' i' [[<- <-]|[_ Hl]]%lookup_insert_Some; [by eexists|by eauto].
    + intros k Hk. destruct (cover_manifest0 k Hk) as [[[t' Ht']|?]|?]; [|by eauto..].
      left. left. exists t'. rewrite lookup_insert_ne; [done|]. intros Heq. by rewrite <-Heq, Ht in Ht'.
Qed.

Lemma insert_manifest_inv now n r m D a D' : inv D → insert_manifest now n r m D = Ret (a, D') → inv D'.
Proof.
  intros H. unfold insert_manifest. do 2 (case_bool_decide; [done|]).
  destruct (match m_configuration_blob_digest m with Some d => _ | None => _ end) eqn:Hcfg; [done|].
  set (i := manifests_id_seq D). assert (∀ nr, manifests D !! (nr, i) = None) as Hfresh.
  { intros nr. destruct (manifests D !! (nr, i)) eqn:Hl; [|done]. apply (seq_manifest D H) in Hl. cbn in Hl. lia. }
  unfold gc_track_manifest_uploads. cbn [gc_manifest_review_queue set_manifests_id_seq set_manifests].
  assert (gc_manifest_review_queue D !! (n, r, i) = None) as Hnq.
  { apply eq_None_not_Some. intros [x Hx]%(fk_review D H). by rewrite Hfresh in Hx. }
  rewrite Hnq. set (D1 := set_manifests_id_seq _ _).
  destruct (queue_manifest_effect now "manifest_upload" (n, r, i) D1) as (q & -> & Hq).
  assert (∃ gc, gc_track_configuration_blobs (n, r, i) (m_configuration_blob_digest m) (set_gc_manifest_review_queue q D1) =
    set_gc_blobs_configurations gc (set_gc_manifest_review_queue q D1) ∧
    ∀ d j nr, gc !! (d, j) = Some nr ↔
      gc_blobs_configurations D !! (d, j) = Some nr ∨ (j = i ∧ nr = (n, r) ∧ m_configuration_blob_digest m = Some d)) as (gc & -> & Hgc).
  { unfold gc_track_configuration_blobs. destruct (m_configuration_blob_digest m) as [d|].
    - cbn [gc_blobs_configurations set_gc_manifest_review_queue set_manifests_id_seq set_manifests D1].
      assert (gc_blobs_configurations D !! (d, i) = None) as Hng.
      { destruct (gc_blobs_configurations D !! (d, i)) as [nr|] eqn:Hg; [|done].
        apply (track_config D H) in Hg as (m' & Hm' & _). by rewrite Hfresh in Hm'. }
      rewrite Hng. eexists. split; [reflexivity|]. intros d' j nr. rewrite lookup_insert_Some. split; [naive_solver|].
      intros [Hj|(-> & -> & [= ->])]; [|by left]. right. split; [|done]. intros [= <- <-]. by rewrite Hng in Hj.
    - eexists (gc_blobs_configurations D). split; [by destruct D|]. naive_solver. }
  intros [= <- <-]. cbn in Hq. inv_clauses H.
  - intros k l Hl. destruct (fk_layer0 k l Hl) as [Hm ?]. split; [|done]. rewrite lookup_insert_is_Some'. by right.
  - intros k m' d [[<- <-]|[_ Hl]]%lookup_insert_Some Hd; [|by eauto]. rewrite Hd in Hcfg.
    apply bool_decide_eq_false_1 in Hcfg. by apply not_eq_None_Some.
  - intros x Hx. destruct (fk_reference0 x Hx) as (? & ? & ?). rewrite !lookup_insert_is_Some'. by eauto.
  - intros t j Ht. rewrite lookup_insert_is_Some'. right. by eauto.
  - intros k [Hk| ->]%Hq; rewrite lookup_insert_is_Some'; [right; by auto|by left].
  - intros k m' [[<- <-]|[_ Hl]]%lookup_insert_Some; cbn; [lia|]. apply seq_manifest0 in Hl. lia.
  - intros k k' m1 m2 [[<- <-]|[? Hl]]%lookup_insert_Some [[<- <-]|[? Hl']]%lookup_insert_Some Hid; [done|..|by eauto].
    + apply seq_manifest0 in Hl'. cbn in Hid. lia.
    + apply seq_manifest0 in Hl. cbn in Hid. lia.
  - intros d j nr. rewrite Hgc, track_config0. setoid_rewrite lookup_insert_Some. split.
    + intros [(m' & Hm' & Hd)|(-> & -> & Hd)]; [|exists m; by eauto].
      exists m'. split; [|done]. right. split; [|done]. intros [= <- <-]. by rewrite Hfresh in Hm'.
    + intros (m' & [[[= <- <-] <-]|[? Hm']] & Hd); [by right|left; by eauto].
  - intros d Hd. destruct (cover_blob0 d Hd) as [[?|(k & m' & Hm' & ?)]|?]; [by eauto| |by eauto].
    left. right. exists k, m'. split; [|done]. rewrite lookup_insert_ne; [done|]. intros <-. by rewrite Hfresh in Hm'.
  - intros k [<-|Hk]%lookup_insert_is_Some'; rewrite Hq; [by eauto|]. destruct (cover_manifest0 k Hk); by eauto.
Qed.

(** *** Deletions *)

Lemma delete_layers_effect now P D :
  (∀ d i nr, gc_blobs_layers D !! (d, i) = Some nr ↔ ∃ l, layers D !! (nr, i) = Some l ∧ l_digest l = d) →
  ∃ ls gl q, delete_layers now P D = set_gc_blob_review_queue q (set_gc_blobs_layers gl (set_layers ls D)) ∧
    (∀ k l, ls !! k = Some l ↔ layers D !! k = Some l ∧ P k l = false) ∧
    (∀ d i nr, gl !! (d, i) = Some nr ↔ ∃ l, ls !! (nr, i) = Some l ∧ l_digest l = d) ∧
    (∀ d, is_Some (q !! d) ↔ is_Some (gc_blob_review_queue D !! d) ∨
      ∃ k l, layers D !! k = Some l ∧ P k l = true ∧ l_digest l = d).
Proof.
  intros Ht. unfold delete_layers. set (D1 := set_gc_blobs_layers _ _).
  destruct (track_layers_effect now (filter (λ x, P x.1 x.2 = true) (map_to_list (layers D))) D1) as (q & -> & Hq).
  eexists _, _, q. split; [reflexivity|]. split_and!.
  - intros k l. by rewrite map_lookup_filter_Some.
  - intros d i nr. rewrite map_lookup_filter_Some, Ht. cbn [gc_blobs_layers set_layers]. setoid_rewrite map_lookup_filter_Some.
    unfold tracks_layer. cbn. split.
    + intros [(l & Hl & <-) Hp]. rewrite Hl, bool_decide_true, andb_true_r in Hp by done. by eauto.
    + intros (l & [Hl Hp] & <-). split; [by eauto|]. by rewrite Hl, Hp.
  - intros d. rewrite Hq. cbn. setoid_rewrite list_elem_of_filter. split.
    + intros [?|([k l] & [Hp Hin%elem_of_map_to_list] & Hd)]; [by left|right; by exists k, l].
    + intros [?|(k & l & Hl & Hp & Hd)]; [by left|right]. exists (k, l). split; [|done]. split; [done|].
      by apply elem_of_map_to_list.
Qed.

Lemma delete_tags_effect now P D :
  ∃ ts q, delete_tags now P D = set_gc_manifest_review_queue q (set_tags ts D) ∧
    (∀ t i, ts !! t = Some i ↔ tags D !! t = Some i ∧ P t i = false) ∧
    (∀ k, is_Some (q !! k) ↔ is_Some (gc_manifest_review_queue D !! k) ∨
      (is_Some (manifests D !! k) ∧ ∃ t, tags D !! (k.1, t) = Some k.2 ∧ P (k.1, t) k.2 = true)).
Proof.
  unfold delete_tags.
  destruct (track_tags_effect now (filter (λ x, P x.1 x.2 = true) (map_to_list (tags D)))
    (set_tags (filter (λ x, P x.1 x.2 = false) (tags D)) D)) as (q & -> & Hq).
  eexists _, q. split; [reflexivity|]. split.
  - intros t i. by rewrite map_lookup_filter_Some.
  - intros k. rewrite Hq. cbn. setoid_rewrite list_elem_of_filter. split.
    + intros [?|(Hm & [[nr t] i] & [Hp Hin%elem_of_map_to_list] & <-)]; [by left|right]. split; [done|]. by exists t.
    + intros [?|(Hm & t & Ht & Hp)]; [by left|right]. split; [done|]. exists (k.1, t, k.2).
      split; [|by destruct k]. split; [done|]. by apply elem_of_map_to_list.
Qed.

Lemma delete_references_effect now P D :
  (∀ x, x ∈ manifest_references D → P x = true → is_Some (manifests D !! (x.1.1, x.2))) →
  ∃ q, delete_references now P D = Ret (set_gc_manifest_review_queue q
      (set_manifest_references (filter (λ x, P x = false) (manifest_references D)) D)) ∧
    (∀ k, is_Some (q !! k) ↔ is_Some (gc_manifest_review_queue D !! k) ∨
      ∃ p, (k.1, p, k.2) ∈ manifest_references D ∧ P (k.1, p, k.2) = true).
Proof.
  intros Hfk. unfold delete_references.
  destruct (track_references_effect now (elements (filter (λ x, P x = true) (manifest_references D)))
    (set_manifest_references (filter (λ x, P x = false) (manifest_references D)) D)) as (q & Hrun & Hq).
  { intros x [Hp Hx]%elem_of_elements%elem_of_filter. by apply Hfk. }
  exists q. split; [done|]. intros k. rewrite Hq. cbn. setoid_rewrite elem_of_elements. setoid_rewrite elem_of_filter. split.
  - intros [?|([[nr p] c] & [Hp Hx] & <-)]; [by left|right; by exists p].
  - intros [?|(p & Hx & Hp)]; [by left|right]. exists (k.1, p, k.2). split; [done|]. by destruct k.
Qed.

Lemma delete_layers_inv now P D : inv D → inv (delete_layers now P D).
Proof.
  intros H. destruct (delete_layers_effect now P D (track_layer D H)) as (ls & gl & q & -> & Hls & Hgl & Hq).
  inv_clauses H.
  - intros k l [Hl _]%Hls. by eauto.
  - intros k l [Hl _]%Hls. by eauto.
  - intros k k' l l' [Hl _]%Hls [Hl' _]%Hls. by eauto.
  - intros d Hd. rewrite Hq. destruct (cover_blob0 d Hd) as [[(k & l & Hl & Hd')|?]|?]; [|by eauto..].
    destruct (P k l) eqn:Hp; [right; right; by exists k, l|]. left. left. exists k, l. by rewrite Hls.
Qed.

Lemma delete_tags_inv now P D : inv D → inv (delete_tags now P D).
Proof.
  intros H. destruct (delete_tags_effect now P D) as (ts & q & -> & Hts & Hq). inv_clauses H.
  - intros t i [Ht _]%Hts. by eauto.
  - intros k [Hk|[Hk _]]%Hq; by auto.
  - intros k Hk. rewrite Hq. destruct (cover_manifest0 k Hk) as [[[t Ht]|?]|?]; [|by eauto..].
    destruct (P (k.1, t) k.2) eqn:Hp; [right; right; by eauto|]. left. left. exists t. by rewrite Hts.
Qed.

Lemma delete_references_inv now P D :
  inv D → ∃ D', delete_references now P D = Ret D' ∧ inv D'.
Proof.
  intros H. destruct (delete_references_effect now P D) as (q & -> & Hq).
  { intros x Hx _. by apply (fk_reference D H) in Hx as (_ & ? & _). }
  eexists. split; [done|]. inv_clauses H.
  - intros x [_ Hx]%elem_of_filter. by auto.
  - intros k [Hk|(p & Hx & _)]%Hq; [by auto|]. apply fk_reference0 in Hx as (_ & Hx & _). by destruct k.
  - intros k Hk. rewrite Hq. destruct (cover_manifest0 k Hk) as [[?|[p Hx]]|?]; [by eauto| |by eauto].
    destruct (P (k.1, p, k.2)) eqn:Hp; [right; right; by eauto|]. left. right. exists p. by apply elem_of_filter.
Qed.

Lemma references_blob_None d D : references_blob d D = None ↔ ¬ referenced D d.
Proof.
  unfold references_blob, referenced, map_Exists. repeat case_bool_decide; split; naive_solver.
Qed.

Lemma delete_blob_inv d D a D' : inv D → delete_blob d D = Ret (a, D') → inv D'.
Proof.
  intros H. unfold delete_blob. destruct (blobs D !! d) eqn:Hd; [|naive_solver].
  destruct (references_blob d D) eqn:Hr; [done|]. intros [= <- <-].
  apply references_blob_None in Hr.
  assert (∀ k l, layers D !! k = Some l → l_digest l ≠ d) as Hl by (intros k l Hl <-; apply Hr; left; by eauto).
  assert (∀ k m, manifests D !! k = Some m → m_configuration_blob_digest m ≠ Some d) as Hm
    by (intros k m Hm Hd'; apply Hr; right; by eauto).
  inv_clauses H.
  - intros k l Hk. destruct (fk_layer0 k l Hk) as [? ?]. split; [done|]. rewrite lookup_delete_ne; [done|].
    intros ->. by eapply Hl.
  - intros k m d' Hk Hd'. rewrite lookup_delete_ne; [by eauto|]. intros ->. by eapply Hm.
  - intros x [Hx Hx']%elem_of_filter. rewrite lookup_delete_ne by done. by auto.
  - intros d' i nr. rewrite map_lookup_filter_Some, track_layer0. cbn. split; [by intros [? _]|].
    intros (l & Hk & <-). split; [by eauto|by eauto].
  - intros d' i nr. rewrite map_lookup_filter_Some, track_config0. cbn. split; [by intros [? _]|].
    intros (m & Hk & Hd'). split; [by eauto|]. intros ->. by eapply Hm.
  - intros d' [x [Hne Hx]%lookup_delete_Some]. by eauto.
Qed.

(** A manifest that no list references is deleted, with what belongs to it. *)
Lemma delete_manifest_effect now k m D :
  inv D → manifests D !! k = Some m → (∀ p, (k.1, p, k.2) ∉ manifest_references D) →
  ∃ ls gl ts rs gc bq mq,
    delete_manifest now k D = Ret (1,
      set_gc_blob_review_queue bq (set_gc_manifest_review_queue mq (set_gc_blobs_configurations gc
        (set_manifest_references rs (set_tags ts (set_gc_blobs_layers gl (set_layers ls
          (set_manifests (delete k (manifests D)) D)))))))) ∧
    (∀ k' l, ls !! k' = Some l ↔ layers D !! k' = Some l ∧ (k'.1, l_manifest_id l) ≠ k) ∧
    (∀ d i nr, gl !! (d, i) = Some nr ↔ ∃ l, ls !! (nr, i) = Some l ∧ l_digest l = d) ∧
    (∀ t i, ts !! t = Some i ↔ tags D !! t = Some i ∧ (t.1, i) ≠ k) ∧
    (∀ x, x ∈ rs ↔ x ∈ manifest_references D ∧ x.1 ≠ k) ∧
    (∀ d i nr, gc !! (d, i) = Some nr ↔ gc_blobs_configurations D !! (d, i) = Some nr ∧
      ((nr, i), Some d) ≠ (k, m_configuration_blob_digest m)) ∧
    (∀ d, is_Some (bq !! d) ↔ is_Some (gc_blob_review_queue D !! d) ∨ m_configuration_blob_digest m = Some d ∨
      ∃ k' l, layers D !! k' = Some l ∧ (k'.1, l_manifest_id l) = k ∧ l_digest l = d) ∧
    (∀ k', is_Some (mq !! k') ↔ k' ≠ k ∧ (is_Some (gc_manifest_review_queue D !! k') ∨
      (k.1, k.2, k'.2) ∈ manifest_references D ∧ k'.1 = k.1)).
Proof.
  intros H Hk Hnc. unfold delete_manifest. rewrite Hk, bool_decide_false; cycle 1.
  { intros (x & Hx & Hxk). apply (Hnc x.1.2). destruct x as [[nr p] c]. cbn in *. subst k. done. }
  set (D1 := set_manifests (delete k (manifests D)) D).
  destruct (delete_layers_effect now (λ k' l, bool_decide ((k'.1, l_manifest_id l) = k)) D1 (track_layer D H))
    as (ls & gl & bq & -> & Hls & Hgl & Hbq). set (D2 := set_gc_blob_review_queue bq _).
  destruct (delete_tags_effect now (λ t i, bool_decide ((t.1, i) = k)) D2) as (ts & mq & -> & Hts & Hmq).
  set (D3 := set_gc_manifest_review_queue mq _).
  destruct (delete_references_effect now (λ x, bool_decide (x.1 = k)) D3) as (mq' & -> & Hmq').
  { intros x Hx _. cbn in Hx |- *. rewrite lookup_delete_ne; [by apply (fk_reference D H) in Hx as (_ & ? & _)|].
    intros ->. apply (Hnc x.1.2). by destruct x as [[nr p] c]. }
  set (D4 := set_gc_manifest_review_queue mq' _).
  assert (∃ bq', gc_track_deleted_manifests now (m_configuration_blob_digest m)
      (set_gc_manifest_review_queue (delete k (gc_manifest_review_queue (set_gc_blobs_configurations (filter (λ x,
        ((x.2, x.1.2), Some x.1.1) ≠ (k, m_configuration_blob_digest m)) (gc_blobs_configurations D4)) D4)))
        (set_gc_blobs_configurations (filter (λ x,
        ((x.2, x.1.2), Some x.1.1) ≠ (k, m_configuration_blob_digest m)) (gc_blobs_configurations D4)) D4)) =
      set_gc_blob_review_queue bq' (set_gc_manifest_review_queue (delete k mq') (set_gc_blobs_configurations (filter (λ x,
        ((x.2, x.1.2), Some x.1.1) ≠ (k, m_configuration_blob_digest m)) (gc_blobs_configurations D4)) D4)) ∧
      ∀ d, is_Some (bq' !! d) ↔ is_Some (bq !! d) ∨ m_configuration_blob_digest m = Some d) as (bq' & -> & Hbq').
  { unfold gc_track_deleted_manifests. destruct (m_configuration_blob_digest m) as [d|].
    - edestruct (queue_blob_effect now "manifest_delete" d) as (q & -> & Hq). exists q. split; [done|].
      intros d'. rewrite Hq. cbn. naive_solver.
    - exists bq. split; [done|]. naive_solver. }
  exists ls, gl, ts, (filter (λ x, bool_decide (x.1 = k) = false) (manifest_references D)),
    (filter (λ x, ((x.2, x.1.2), Some x.1.1) ≠ (k, m_configuration_blob_digest m)) (gc_blobs_configurations D)),
    bq', (delete k mq'). split; [reflexivity|]. split_and!.
  - intros k' l. rewrite Hls. cbn. by rewrite bool_decide_eq_false.
  - done.
  - intros t i. rewrite Hts. cbn. by rewrite bool_decide_eq_false.
  - intros x. rewrite elem_of_filter, bool_decide_eq_false. cbn. naive_solver.
  - intros d i nr. rewrite map_lookup_filter_Some. done.
  - intros d. rewrite Hbq', Hbq. cbn. setoid_rewrite bool_decide_eq_true. tauto.
  - intros k'. rewrite lookup_delete_is_Some, Hmq'. cbn. rewrite Hmq. setoid_rewrite bool_decide_eq_true. cbn.
    destruct k as [nr i], k' as [nr' i']. cbn. split.
    + intros [Hne [[?|([x [Hx _]%lookup_delete_Some] & t & _ & Heq)]|(p & Hx & Heq)]]; [split; [congruence|by eauto]|done|].
      split; [congruence|]. injection Heq as -> ->. by eauto.
    + intros [Hne [?|[Hx ->]]]; (split; [congruence|]); [by eauto|]. right. by exists i.
Qed.

Lemma delete_manifest_inv now k D a D' : inv D → delete_manifest now k D = Ret (a, D') → inv D'.
Proof.
  intros H Hrun. destruct (manifests D !! k) as [m|] eqn:Hk; cycle 1.
  { unfold delete_manifest in Hrun. rewrite Hk in Hrun. by injection Hrun as <- <-. }
  assert (∀ p, (k.1, p, k.2) ∉ manifest_references D) as Hnc.
  { intros p Hp. unfold delete_manifest in Hrun. rewrite Hk, bool_decide_true in Hrun; [done|].
    exists (k.1, p, k.2). split; [done|]. by destruct k. }
  destruct (delete_manifest_effect now k m D H Hk Hnc)
    as (ls & gl & ts & rs & gc & bq & mq & Hrun' & Hls & Hgl & Hts & Hrs & Hgc & Hbq & Hmq).
  rewrite Hrun in Hrun'. injection Hrun' as -> ->. clear Hrun. inv_clauses H.
  - intros k' l [Hl Hne]%Hls. destruct (fk_layer0 k' l Hl). split; [|done]. by rewrite lookup_delete_ne.
  - intros k' m' d [_ Hm']%lookup_delete_Some. by eauto.
  - intros x [Hx Hne]%Hrs. destruct (fk_reference0 x Hx) as (? & ? & ?). rewrite !lookup_delete_ne; [done|..].
    + intros ->. apply (Hnc x.1.2). by destruct x as [[nr p] c].
    + done.
  - intros t i [Ht Hne]%Hts. rewrite lookup_delete_ne by done. by eauto.
  - intros k' [Hne Hk']%Hmq. rewrite lookup_delete_ne by done. destruct Hk' as [?|[Hx Heq]]; [by auto|].
    apply fk_reference0 in Hx as (_ & Hx & _). cbn in Hx. rewrite <-Heq in Hx. by destruct k'.
  - intros k' m' [_ Hm']%lookup_delete_Some. by eauto.
  - intros k' l [Hl _]%Hls. by eauto.
  - intros k1 k2 m1 m2 [_ Hm1]%lookup_delete_Some [_ Hm2]%lookup_delete_Some. by eauto.
  - intros k1 k2 l1 l2 [Hl1 _]%Hls [Hl2 _]%Hls. by eauto.
  - intros d i nr. rewrite Hgc, track_config0. setoid_rewrite lookup_delete_Some. split.
    + intros [(m' & Hm' & Hd) Hne]. exists m'. split_and!; [|done..]. intros ->. congruence.
    + intros (m' & [Hne Hm'] & Hd). split; [by eauto|]. congruence.
  - intros d Hd. rewrite Hbq. destruct (cover_blob0 d Hd) as [[(k' & l & Hl & Hd')|(k' & m' & Hm' & Hd')]|?]; [..|by eauto].
    + destruct (decide ((k'.1, l_manifest_id l) = k)); [right; right; right; by exists k', l|].
      left. left. exists k', l. by rewrite Hls.
    + destruct (decide (k' = k)) as [->|]; [right; right; left; by simplify_eq|].
      left. right. exists k', m'. by rewrite lookup_delete_ne.
  - intros k' [m' [Hne Hm']%lookup_delete_Some]. rewrite Hmq.
    destruct (cover_manifest0 k') as [[[t Ht]|[p Hp]]|?]; [by eexists|..|by eauto].
    + left. left. exists t. rewrite Hts. split; [done|]. cbn. by destruct k'.
    + destruct (decide ((k'.1, p) = k)) as [<-|Hne']; [|left; right; exists p; by rewrite Hrs].
      right. split; [done|]. right. done.
Qed.

(** ** The digests of the database *)

(** A digest that the database has or that is queued for review. *)
Definition known (D : db) (d : dbdigest) : Prop := is_Some (blobs D !! d) ∨ is_Some (gc_blob_review_queue D !! d).

Lemma referenced_known D d : inv D → referenced D d → known D d.
Proof.
  intros H [(k & l & Hl & <-)|(k & m & Hm & Hd)]; left; [by eapply (fk_layer D H)|by eapply (fk_config D H)].
Qed.

(** The statements that write neither the blobs nor their queue. *)
Definition same_digests (D D' : db) : Prop := blobs D' = blobs D ∧ gc_blob_review_queue D' = gc_blob_review_queue D.
Lemma same_known D D' d : same_digests D D' → known D' d → known D d.
Proof. unfold known. by intros [-> ->]. Qed.

(** Every branch of such a statement. *)
Ltac digests_tac := intros Hrun; repeat case_match; simplify_eq/=; done.

Lemma insert_namespace_digests name D a D' : insert_namespace name D = Ret (a, D') → same_digests D D'.
Proof. unfold insert_namespace. destruct (too_long name); [done|]. by case_bool_decide; intros [= <- <-]. Qed.
Lemma insert_repository_digests n x D a D' : insert_repository n x D = Ret (a, D') → same_digests D D'.
Proof.
  unfold insert_repository. destruct (repository_check x); [done|].
  by case_bool_decide; [|destruct (repository_fk n x _); [|done]]; intros [= <- <-].
Qed.
Lemma update_repository_digests n i x D a D' : update_repository n i x D = Ret (a, D') → same_digests D D'.
Proof.
  unfold update_repository. destruct (repositories D !! (n, i)); [|by intros [= <- <-]].
  destruct (repository_check x); [done|]. case_bool_decide; [done|]. destruct (repository_fk n x _); [|done].
  by intros [= <- <-].
Qed.
Lemma insert_repository_blob_digests n r d D a D' : insert_repository_blob n r d D = Ret (a, D') → same_digests D D'.
Proof. unfold insert_repository_blob. digests_tac. Qed.
Lemma delete_repository_blob_digests n r d D a D' : delete_repository_blob n r d D = Ret (a, D') → same_digests D D'.
Proof. unfold delete_repository_blob. digests_tac. Qed.
Lemma insert_reference_digests n r p c D a D' : insert_reference n r p c D = Ret (a, D') → same_digests D D'.
Proof. unfold insert_reference. digests_tac. Qed.
Lemma insert_layer_digests n r i d D a D' : insert_layer n r i d D = Ret (a, D') → same_digests D D'.
Proof. unfold insert_layer, gc_track_layer_blobs. digests_tac. Qed.
Lemma upsert_tag_digests now n r i t D a D' : upsert_tag now n r i t D = Ret (a, D') → same_digests D D'.
Proof. unfold upsert_tag, gc_track_switched_tags. digests_tac. Qed.
Lemma insert_manifest_digests now n r m D a D' : insert_manifest now n r m D = Ret (a, D') → same_digests D D'.
Proof. unfold insert_manifest, gc_track_manifest_uploads, gc_track_configuration_blobs. digests_tac. Qed.
Lemma delete_tags_digests now P D : same_digests D (delete_tags now P D).
Proof. by destruct (delete_tags_effect now P D) as (ts & q & -> & _). Qed.
Lemma delete_references_digests now P D D' : inv D → delete_references now P D = Ret D' → same_digests D D'.
Proof.
  intros H. destruct (delete_references_effect now P D) as (q & -> & _); [|by intros [= <-]].
  intros x Hx _. by apply (fk_reference D H) in Hx as (_ & ? & _).
Qed.

Lemma insert_blob_known now d b D a D' d' : insert_blob now d b D = Ret (a, D') → known D' d' → known D d' ∨ d' = d.
Proof.
  unfold insert_blob, gc_track_blob_uploads. destruct (blobs D !! d); intros [= <- <-]; [by left|].
  destruct (queue_blob_effect now "blob_upload" d (set_blobs (<[d:=b]> (blobs D)) D)) as (q & -> & Hq).
  unfold known. cbn. rewrite Hq, lookup_insert_is_Some'. cbn. naive_solver.
Qed.
Lemma delete_layers_known now P D d : inv D → known (delete_layers now P D) d → known D d.
Proof.
  intros H. destruct (delete_layers_effect now P D (track_layer D H)) as (ls & gl & q & -> & _ & _ & Hq).
  intros [?|[?|(k & l & Hl & _ & <-)]%Hq]; [by left|by right|]. apply referenced_known; [done|]. left. by eauto.
Qed.
Lemma delete_manifest_known now k D a D' d : inv D → delete_manifest now k D = Ret (a, D') → known D' d → known D d.
Proof.
  intros H Hrun. destruct (manifests D !! k) as [m|] eqn:Hk; cycle 1.
  { unfold delete_manifest in Hrun. rewrite Hk in Hrun. by injection Hrun as <- <-. }
  destruct (delete_manifest_effect now k m D H Hk) as (ls & gl & ts & rs & gc & bq & mq & Hrun' & _ & _ & _ & _ & _ & Hbq & _).
  { intros p Hp. unfold delete_manifest in Hrun. rewrite Hk, bool_decide_true in Hrun; [done|].
    exists (k.1, p, k.2). split; [done|]. by destruct k. }
  rewrite Hrun in Hrun'. injection Hrun' as -> ->.
  intros [?|[?|[Hd|(k' & l & Hl & _ & <-)]]%Hbq]; [by left|by right|..];
    apply referenced_known; [done| |done|]; [right; by eauto|left; by eauto].
Qed.

End Tracking.
