(* ===== verification/Datastore.v ===== *)
(** * The stores of the metadata database

    Models registry/datastore: the encoding of digests (digest.go), the errors
    (errors.go), and the operations of the stores of blobs, manifests, tags,
    repositories and review tasks that write to the database or that the online
    garbage collection reads with, each as a sequence of the statements of
    Database.v in a transaction.  PostgreSQL refuses every statement of a
    transaction after one that failed; any statement can also fail by a fault
    from outside (a lost connection, an expired deadline). *)

From stdpp Require Import sorting.
From S2P Require Import Prelude GoStd Digest Driver Database.

Module Datastore.
Import Database.

Section store.
Context {GD : GoDigest}.

(** ** Errors *)

Inductive dberror :=
  | PgError (e : pg_error)
  | InFailedTransaction
  | DeadlineExceeded
  | ConnectionError
  | ErrNotFound
  | ErrManifestNotFound
  | ErrRefManifestNotFound
  | ErrManifestReferencedInList
  | InvalidDigest (e : digest_err)
  | StorageError (e : error)
  | Errorf (msg : string)
  | Wrap (msg : string) (e : dberror)
  | Multi (errs : list dberror).

(** [errors.Is(err, context.DeadlineExceeded)]. *)
Fixpoint is_deadline (e : dberror) : bool :=
  match e with
  | DeadlineExceeded => true
  | Wrap _ e => is_deadline e
  | _ => false
  end.

(** ** Digests *)

Definition sha256DigestAlgorithmPrefix : string := "01".
Definition sha512DigestAlgorithmPrefix : string := "02".

Definition NewDigest (d : digest) : outcome dberror dbdigest :=
  match digest_Validate d with
  | Some e => Fail (InvalidDigest e)
  | None =>
      if bool_decide (digest_Algorithm d = "sha256") then Ret (sha256DigestAlgorithmPrefix +:+ digest_Hex d)
      else if bool_decide (digest_Algorithm d = "sha512") then Ret (sha512DigestAlgorithmPrefix +:+ digest_Hex d)
      else Fail (Errorf "unknown algorithm")
  end.

Definition Parse (str : dbdigest) : outcome dberror digest :=
  if bool_decide (String.length str = 0) then Fail (Errorf "empty digest")
  else if bool_decide (String.length str < 2) then Fail (Errorf "invalid digest length")
  else if bool_decide (String.length str = 2) then Fail (Errorf "no checksum")
  else
    let algPrefix := str_take 2 str in
    let parsed alg :=
      let dgst := digest_NewDigestFromHex alg (str_drop 2 str) in
      match digest_Validate dgst with Some e => Fail (InvalidDigest e) | None => Ret dgst end in
    if bool_decide (algPrefix = sha256DigestAlgorithmPrefix) then parsed "sha256"
    else if bool_decide (algPrefix = sha512DigestAlgorithmPrefix) then parsed "sha512"
    else Fail (Errorf "unknown algorithm prefix").

(** ** Transactions *)

(** The database as the transaction sees it, whether a statement has failed,
    and the faults of the next statements. *)
Record tx := { tx_db : db; tx_failed : bool; tx_faults : list (option dberror) }.

Abbreviation Tx := (GoM tx dberror) (only parsing).

Definition exec {A} (q : db → outcome pg_error (A * db)) : Tx A := λ t,
  let rest := tail (tx_faults t) in
  let failed := {| tx_db := tx_db t; tx_failed := true; tx_faults := rest |} in
  if tx_failed t then (Fail InFailedTransaction, failed)
  else match head (tx_faults t) with
       | Some (Some e) => (Fail e, failed)
       | _ =>
           match q (tx_db t) with
           | Ret (a, D) => (Ret a, {| tx_db := D; tx_failed := false; tx_faults := rest |})
           | Fail e => (Fail (PgError e), failed)
           | Panic => (Panic, failed)
           end
       end.
(** A query. *)
Definition query {A} (f : db → A) : Tx A := exec (λ D, Ret (f D, D)).

Definition errorf {A} (msg : string) (m : Tx A) : Tx A := wrap_err (Wrap msg) m.
Definition newDigest (d : digest) : Tx dbdigest := lift (NewDigest d).

(** [mapMediaType]: the identifier of a media type is the type itself. *)
Definition mapMediaType (mediaType : string) : Tx unit :=
  known ← errorf "unable to map media type" (query (λ D, bool_decide (mediaType ∈ media_types D)));
  if (known : bool) then mret tt else fail (Errorf "unknown media type").

(** ** blob.go *)

Record Blob := { blob_MediaType : string; blob_Digest : digest; blob_Size : Z }.

Definition blobStore_FindByDigest (d : digest) : Tx (option Blob) :=
  dgst ← newDigest d;
  r ← errorf "scanning blob" (query (λ D, blobs D !! dgst));
  match r with
  | None => mret None
  | Some b => d ← lift (Parse dgst); mret (Some {| blob_MediaType := b_media_type b; blob_Digest := d; blob_Size := b_size b |})
  end.

(** [scanFullBlobs]; the rows of a query without an order come in an order that
    is not specified, here that of the keys. *)
Definition scanFullBlob (x : dbdigest * blob_row) : outcome dberror Blob :=
  match Parse x.1 with
  | Ret d => Ret {| blob_MediaType := b_media_type x.2; blob_Digest := d; blob_Size := b_size x.2 |}
  | Fail e => Fail e
  | Panic => Panic
  end.
Fixpoint scan_all {X A} (scan : X → outcome dberror A) (rows : list X) : outcome dberror (list A) :=
  match rows with
  | [] => Ret []
  | x :: rows =>
      match scan x with
      | Ret a => match scan_all scan rows with Ret l => Ret (a :: l) | o => o end
      | Fail e => Fail e
      | Panic => Panic
      end
  end.

Definition blobStore_FindAll : Tx (list Blob) :=
  rows ← errorf "finding blobs" (query (λ D, map_to_list (blobs D)));
  lift (scan_all scanFullBlob rows).

Definition blobStore_Count : Tx nat := errorf "counting blobs" (query (λ D, size (blobs D))).

Definition blobStore_Create (now : Z) (b : Blob) : Tx unit :=
  dgst ← newDigest (blob_Digest b);
  _ ← mapMediaType (blob_MediaType b);
  errorf "creating blob" (exec (λ D,
    match insert_blob now dgst {| b_media_type := blob_MediaType b; b_size := blob_Size b |} D with
    | Ret (true, D) => Ret (tt, D)
    | Ret (false, _) => Fail (UniqueViolation "blobs")
    | Fail e => Fail e
    | Panic => Panic
    end)).

(** The blob as it is found when it exists. *)
Definition blobStore_CreateOrFind (now : Z) (b : Blob) : Tx Blob :=
  dgst ← newDigest (blob_Digest b);
  _ ← mapMediaType (blob_MediaType b);
  inserted ← errorf "creating blob"
    (exec (insert_blob now dgst {| b_media_type := blob_MediaType b; b_size := blob_Size b |}));
  if (inserted : bool) then mret b
  else
    tmp ← blobStore_FindByDigest (blob_Digest b);
    match tmp with
    | None => panic
    | Some tmp => mret tmp
    end.

Definition blobStore_Delete (d : digest) : Tx unit :=
  dgst ← newDigest d;
  n ← errorf "deleting blob" (exec (delete_blob dgst));
  if bool_decide (n = 0) then fail ErrNotFound else mret tt.

(** ** manifest.go *)

Record Configuration := { cfg_MediaType : string; cfg_Digest : digest; cfg_Payload : string }.
Record Manifest := {
  mf_ID : Z;
  mf_NamespaceID : Z;
  mf_RepositoryID : Z;
  mf_SchemaVersion : Z;
  mf_MediaType : string;
  mf_Digest : digest;
  mf_Payload : string;
  mf_Configuration : option Configuration;
}.

Definition scanFullManifest (x : row_key * manifest_row) : outcome dberror Manifest :=
  let '((n, r, i), m) := x in
  let manifest d config :=
    {| mf_ID := i; mf_NamespaceID := n; mf_RepositoryID := r; mf_SchemaVersion := m_schema_version m;
       mf_MediaType := m_media_type m; mf_Digest := d; mf_Payload := m_payload m; mf_Configuration := config |} in
  match Parse (m_digest m) with
  | Ret d =>
      match m_configuration_blob_digest m with
      | None => Ret (manifest d None)
      | Some c =>
          match Parse c, m_configuration_payload m with
          | Ret c, Some p =>
              Ret (manifest d (Some {| cfg_MediaType := default "" (m_configuration_media_type m); cfg_Digest := c;
                                       cfg_Payload := p |}))
          | Ret _, None | Panic, _ => Panic
          | Fail e, _ => Fail e
          end
      end
  | Fail e => Fail e
  | Panic => Panic
  end.
Definition scan_first {X A} (scan : X → outcome dberror A) (x : option X) : outcome dberror (option A) :=
  match x with
  | None => Ret None
  | Some x => match scan x with Ret a => Ret (Some a) | Fail e => Fail e | Panic => Panic end
  end.

Definition by_id (x y : row_key * manifest_row) : Prop := (x.1.2 ≤ y.1.2)%Z.
#[export] Instance by_id_dec : RelDecision by_id := λ x y, Z.le_dec _ _.
Definition manifestStore_FindAll : Tx (list Manifest) :=
  rows ← errorf "finding manifests" (query (λ D, merge_sort by_id (map_to_list (manifests D))));
  lift (scan_all scanFullManifest rows).

Definition manifestStore_Count : Tx nat := errorf "counting manifests" (query (λ D, size (manifests D))).

(** The blobs of the layers of a manifest. *)
Definition layer_blobs (i : Z) (D : db) : list (dbdigest * blob_row) :=
  k ← (map_to_list (manifests D)).*1;
  if bool_decide (k.2 = i) then
    l ← (map_to_list (layers D)).*2;
    if bool_decide (l_manifest_id l = i) then
      match blobs D !! l_digest l with Some b => [(l_digest l, b)] | None => [] end
    else []
  else [].
Definition manifestStore_LayerBlobs (m : Manifest) : Tx (list Blob) :=
  rows ← errorf "finding blobs" (query (layer_blobs (mf_ID m)));
  lift (scan_all scanFullBlob rows).

(** The manifests that a manifest list references. *)
Definition referenced_manifests (n r i : Z) (D : db) : list (row_key * manifest_row) :=
  filter (λ x, x.1.1.1 = n ∧ set_Exists (λ y, y = (n, r, i, x.1.2)) (manifest_references D)) (map_to_list (manifests D)).
Definition manifestStore_References (m : Manifest) : Tx (list Manifest) :=
  rows ← errorf "finding referenced manifests"
    (query (referenced_manifests (mf_NamespaceID m) (mf_RepositoryID m) (mf_ID m)));
  lift (scan_all scanFullManifest rows).

Definition manifestStore_Create (now : Z) (m : Manifest) : Tx Z :=
  dgst ← newDigest (mf_Digest m);
  _ ← mapMediaType (mf_MediaType m);
  config ← match mf_Configuration m with
           | None => mret None
           | Some c => d ← newDigest (cfg_Digest c); _ ← mapMediaType (cfg_MediaType c); mret (Some d)
           end;
  errorf "creating manifest" (exec (insert_manifest now (mf_NamespaceID m) (mf_RepositoryID m)
    {| m_schema_version := mf_SchemaVersion m; m_media_type := mf_MediaType m; m_digest := dgst;
       m_payload := mf_Payload m; m_configuration_media_type := cfg_MediaType <$> mf_Configuration m;
       m_configuration_blob_digest := config; m_configuration_payload := cfg_Payload <$> mf_Configuration m |})).

Definition manifestStore_AssociateManifest (ml m : Manifest) : Tx unit :=
  if bool_decide (mf_ID ml = mf_ID m) then fail (Errorf "cannot associate a manifest with itself")
  else
    r ← attempt (exec (insert_reference (mf_NamespaceID ml) (mf_RepositoryID ml) (mf_ID ml) (mf_ID m)));
    match r with
    | inl (PgError (ForeignKeyViolation _)) => fail ErrRefManifestNotFound
    | inl err => fail (Wrap "associating manifest" err)
    | inr _ => mret tt
    end.

(** The statement [DELETE FROM manifest_references] of one reference. *)
Definition delete_reference (now : Z) (n r parent child : Z) (D : db) : outcome pg_error (unit * db) :=
  match delete_references now (λ x, bool_decide (x = (n, r, parent, child))) D with
  | Ret D => Ret (tt, D)
  | Fail e => Fail e
  | Panic => Panic
  end.
Definition manifestStore_DissociateManifest (now : Z) (ml m : Manifest) : Tx unit :=
  errorf "dissociating manifest"
    (exec (delete_reference now (mf_NamespaceID ml) (mf_RepositoryID ml) (mf_ID ml) (mf_ID m))).

Definition manifestStore_AssociateLayerBlob (m : Manifest) (b : Blob) : Tx unit :=
  dgst ← newDigest (blob_Digest b);
  _ ← mapMediaType (blob_MediaType b);
  errorf "associating layer blob" (exec (insert_layer (mf_NamespaceID m) (mf_RepositoryID m) (mf_ID m) dgst)).

Definition manifestStore_DissociateLayerBlob (now : Z) (m : Manifest) (b : Blob) : Tx unit :=
  dgst ← newDigest (blob_Digest b);
  errorf "dissociating layer blob" (exec (λ D, Ret (tt, delete_layers now (λ k l,
    bool_decide (k.1 = (mf_NamespaceID m, mf_RepositoryID m) ∧ l_manifest_id l = mf_ID m ∧ l_digest l = dgst)) D))).

(** The error of a deletion that a manifest list restricts. *)
Definition deletion_error (err : dberror) : dberror :=
  match err with
  | PgError (ForeignKeyViolation "manifest_references") => Wrap "deleting manifest" ErrManifestReferencedInList
  | err => Wrap "deleting manifest" err
  end.
Definition manifestStore_Delete (now : Z) (k : row_key) : Tx bool :=
  count ← wrap_err deletion_error (exec (delete_manifest now k));
  mret (bool_decide (count = 1)).

(** ** tag.go *)

Record Tag := { tg_Name : string; tg_NamespaceID : Z; tg_RepositoryID : Z; tg_ManifestID : Z }.
Definition scanFullTag (x : Z * Z * string * Z) : Tag :=
  let '((n, r, name), i) := x in {| tg_Name := name; tg_NamespaceID := n; tg_RepositoryID := r; tg_ManifestID := i |}.

Definition tagStore_FindAll : Tx (list Tag) :=
  errorf "finding tags" (query (λ D, scanFullTag <$> map_to_list (tags D))).
Definition tagStore_Count : Tx nat := errorf "counting tags" (query (λ D, size (tags D))).
Definition tagStore_Manifest (t : Tag) : Tx (option Manifest) :=
  let k := (tg_NamespaceID t, tg_RepositoryID t, tg_ManifestID t) in
  m ← errorf "scanning manifest" (query (λ D, pair k <$> manifests D !! k));
  lift (scan_first scanFullManifest m).

Definition tagStore_CreateOrUpdate (now : Z) (n r manifest : Z) (name : string) : Tx unit :=
  res ← attempt (exec (upsert_tag now n r manifest name));
  match res with
  | inl (PgError (ForeignKeyViolation _)) => fail ErrManifestNotFound
  | inl err => fail (Wrap "creating tag" err)
  | inr _ => mret tt
  end.

(** ** repository.go *)

Definition repositoryStore_UntagManifest (now : Z) (n r manifest : Z) : Tx unit :=
  errorf "untagging manifest"
    (exec (λ D, Ret (tt, delete_tags now (λ t i, bool_decide (t.1 = (n, r) ∧ i = manifest)) D))).

Definition repositoryStore_LinkBlob (n r : Z) (d : digest) : Tx unit :=
  dgst ← newDigest d;
  errorf "linking blob" (exec (insert_repository_blob n r dgst)).

Definition repositoryStore_UnlinkBlob (n r : Z) (d : digest) : Tx bool :=
  dgst ← newDigest d;
  count ← errorf "linking blob" (exec (delete_repository_blob n r dgst));
  mret (bool_decide (count = 1)).

Definition repositoryStore_ExistsBlob (n r : Z) (d : digest) : Tx bool :=
  dgst ← newDigest d;
  errorf "scanning blob" (query (λ D, bool_decide ((n, r, dgst) ∈ repository_blobs D))).

(** The statement [DELETE FROM tags] of one name, with the rows it removed. *)
Definition delete_tag (now : Z) (n r : Z) (name : string) (D : db) : outcome pg_error (nat * db) :=
  Ret (match tags D !! (n, r, name) with Some _ => 1 | None => 0 end,
       delete_tags now (λ t _, bool_decide (t = (n, r, name))) D).
Definition repositoryStore_DeleteTagByName (now : Z) (n r : Z) (name : string) : Tx bool :=
  count ← errorf "deleting tag" (exec (delete_tag now n r name));
  mret (bool_decide (count = 1)).

(** The manifest of a repository with a digest; there is one at most. *)
Definition manifest_by_digest (n r : Z) (dgst : dbdigest) (D : db) : option row_key :=
  head (filter (λ k, k.1 = (n, r) ∧ m_digest <$> manifests D !! k = Some dgst) (map_to_list (manifests D)).*1).
Definition repositoryStore_FindManifestByDigest (n r : Z) (d : digest) : Tx (option Manifest) :=
  dgst ← newDigest d;
  m ← errorf "scanning manifest" (query (λ D,
    k ← manifest_by_digest n r dgst D;
    m ← manifests D !! k;
    Some (k, m)));
  lift (scan_first scanFullManifest m).
Definition delete_manifest_by_digest (now : Z) (n r : Z) (dgst : dbdigest) (D : db) : outcome pg_error (nat * db) :=
  match manifest_by_digest n r dgst D with
  | None => Ret (0, D)
  | Some k => delete_manifest now k D
  end.
Definition repositoryStore_DeleteManifest (now : Z) (n r : Z) (d : digest) : Tx bool :=
  dgst ← newDigest d;
  count ← wrap_err deletion_error (exec (delete_manifest_by_digest now n r dgst));
  mret (bool_decide (count = 1)).

(** ** gcblobtask.go *)

Record GCBlobTask := { bt_ReviewAfter : Z; bt_ReviewCount : Z; bt_Digest : digest }.

(** The row that [ORDER BY review_after ... LIMIT 1] returns among those that
    are due and that no other transaction has locked. *)
Definition earlier {K} (x y : K * review) : K * review :=
  if bool_decide (review_after y.2 < review_after x.2)%Z then y else x.
Definition next_review {K} `{Countable K} (now : Z) (locked : gset K) (q : gmap K review) : option (K * review) :=
  match filter (λ x, (review_after x.2 < now)%Z ∧ x.1 ∉ locked) (map_to_list q) with
  | [] => None
  | x :: xs => Some (foldl earlier x xs)
  end.

Definition gcBlobTaskStore_Next (now : Z) (locked : gset dbdigest) : Tx (option GCBlobTask) :=
  r ← errorf "fetching next GC blob task"
    (r ← errorf "scanning GC blob task" (query (λ D, next_review now locked (gc_blob_review_queue D)));
     match r with
     | None => mret None
     | Some (dgst, x) => d ← lift (Parse dgst);
         mret (Some {| bt_ReviewAfter := review_after x; bt_ReviewCount := review_count x; bt_Digest := d |})
     end);
  mret r.

(** The number of rows of the queue. *)
Definition gcBlobTaskStore_Count : Tx nat :=
  errorf "counting GC blob tasks" (query (λ D, size (gc_blob_review_queue D))).

Definition gcBlobTaskStore_Postpone (b : GCBlobTask) (d : Z) : Tx GCBlobTask :=
  let ra := (bt_ReviewAfter b + d)%Z in
  let rc := (bt_ReviewCount b + 1)%Z in
  dgst ← newDigest (bt_Digest b);
  count ← errorf "postponing GC blob task"
    (exec (update_blob_review dgst {| review_after := ra; review_count := rc |}));
  if bool_decide (count = 0) then fail (Errorf "GC blob task not found")
  else mret {| bt_ReviewAfter := ra; bt_ReviewCount := rc; bt_Digest := bt_Digest b |}.

Definition gcBlobTaskStore_Delete (b : GCBlobTask) : Tx unit :=
  dgst ← newDigest (bt_Digest b);
  count ← errorf "deleting GC blob task" (exec (delete_blob_review dgst));
  if bool_decide (count = 0) then fail (Errorf "GC blob task not found") else mret tt.

Definition blob_tracked (dgst : dbdigest) (D : db) : bool :=
  bool_decide (map_Exists (λ k _, k.1 = dgst) (gc_blobs_configurations D)) ||
  bool_decide (map_Exists (λ k _, k.1 = dgst) (gc_blobs_layers D)).
Definition gcBlobTaskStore_IsDangling (b : GCBlobTask) : Tx bool :=
  dgst ← newDigest (bt_Digest b);
  tracked ← errorf "determining blob eligibily for deletion" (query (blob_tracked dgst));
  mret (negb tracked).

(** ** gcmanifesttask.go *)

Record GCManifestTask := { mt_Key : row_key; mt_ReviewAfter : Z; mt_ReviewCount : Z }.

Definition manifest_task (r : option (row_key * review)) : option GCManifestTask :=
  (λ x, {| mt_Key := x.1; mt_ReviewAfter := review_after x.2; mt_ReviewCount := review_count x.2 |}) <$> r.

Definition gcManifestTaskStore_Next (now : Z) (locked : gset row_key) : Tx (option GCManifestTask) :=
  r ← errorf "fetching next GC manifest task" (errorf "scanning GC manifest task"
    (query (λ D, next_review now locked (gc_manifest_review_queue D))));
  mret (manifest_task r).

Definition gcManifestTaskStore_FindAndLockBefore (k : row_key) (date : Z) : Tx (option GCManifestTask) :=
  r ← errorf "scanning GC manifest task" (query (λ D,
    match gc_manifest_review_queue D !! k with
    | Some x => if bool_decide (review_after x < date)%Z then Some (k, x) else None
    | None => None
    end));
  mret (manifest_task r).

(** The tasks among those of the manifests [ids] that are due before [date], by
    manifest.  The list of identifiers is pasted into the statement: an empty
    one is a syntax error. *)
Definition gcManifestTaskStore_FindAndLockNBefore (n r : Z) (ids : list Z) (date : Z) : Tx (list GCManifestTask) :=
  rows ← errorf "finding and locking GC manifest tasks" (exec (λ D,
    if bool_decide (ids = []) then Fail SyntaxError
    else Ret (omap (λ i,
        match gc_manifest_review_queue D !! (n, r, i) with
        | Some x => if bool_decide (review_after x < date)%Z then Some ((n, r, i), x) else None
        | None => None
        end) (merge_sort Z.le (remove_dups ids)), D)));
  mret (omap (manifest_task ∘ Some) rows).

Definition gcManifestTaskStore_Count : Tx nat :=
  errorf "counting GC manifest tasks" (query (λ D, size (gc_manifest_review_queue D))).

Definition gcManifestTaskStore_Postpone (m : GCManifestTask) (d : Z) : Tx GCManifestTask :=
  let ra := (mt_ReviewAfter m + d)%Z in
  let rc := (mt_ReviewCount m + 1)%Z in
  count ← errorf "postponing GC manifest task"
    (exec (update_manifest_review (mt_Key m) {| review_after := ra; review_count := rc |}));
  if bool_decide (count = 0) then fail (Errorf "GC manifest task not found")
  else mret {| mt_Key := mt_Key m; mt_ReviewAfter := ra; mt_ReviewCount := rc |}.

Definition manifest_referenced (k : row_key) (D : db) : bool :=
  bool_decide (map_Exists (λ t i, (t.1, i) = k) (tags D)) ||
  bool_decide (set_Exists (λ x, (x.1.1, x.2) = k) (manifest_references D)).
Definition gcManifestTaskStore_IsDangling (m : GCManifestTask) : Tx bool :=
  referenced ← errorf "determining manifest eligibily for deletion" (query (manifest_referenced (mt_Key m)));
  mret (negb referenced).

Definition gcManifestTaskStore_Delete (m : GCManifestTask) : Tx unit :=
  count ← errorf "deleting GC manifest task" (exec (delete_manifest_review (mt_Key m)));
  if bool_decide (count = 0) then fail (Errorf "GC manifest task not found") else mret tt.

(** ** gcsettings.go *)

(** The interval that [make_interval] makes of the seconds of a duration. *)
Definition gcSettingsStore_UpdateAllReviewAfterDefaults (make_interval : Z → Z) (d : Z) : Tx bool :=
  exec (λ D,
    let value := make_interval d in
    let changed := filter (λ x, x.2 ≠ value) (gc_review_after_defaults D) in
    Ret (bool_decide (0 < size changed),
         set_gc_review_after_defaults ((λ _, value) <$> gc_review_after_defaults D) D)).

End store.
End Datastore.
