(* ===== verification/Transactions.v ===== *)
(** * Reasoning about transactions

    The digests in the database and back, the rules for the statements of a
    transaction that any fault can hit, and the triples [does] in which the
    store calls and the requests on them are specified. *)

From S2P Require Import Prelude GoStd Digest Driver Database Datastore.

Module Transactions.
Import Database Datastore.

(** ** Digests in the database *)

Section digests.
Context {GD : GoDigest} {GDL : GoDigestLaws}.

Lemma NewDigest_Ret d x :
  NewDigest d = Ret x →
  digest_Validate d = None ∧
  (digest_Algorithm d = "sha256" ∧ x = "01" +:+ digest_Hex d ∨ digest_Algorithm d = "sha512" ∧ x = "02" +:+ digest_Hex d).
Proof.
  unfold NewDigest. destruct (digest_Validate d); [done|].
  repeat case_bool_decide; intros [= <-]; by auto.
Qed.

Lemma Parse_prefix a p h :
  (p = "01" ∧ a = "sha256" ∨ p = "02" ∧ a = "sha512") → h ≠ "" →
  Parse (p +:+ h) =
    match digest_Validate (digest_NewDigestFromHex a h) with
    | Some e => Fail (InvalidDigest e)
    | None => Ret (digest_NewDigestFromHex a h)
    end.
Proof.
  intros Hp Hh. assert (String.length (p +:+ h) = 2 + String.length h ∧ 0 < String.length h) as [Hl Hl'].
  { destruct h as [|c h]; [done|]. by destruct Hp as [[-> _]|[-> _]]; simpl; split; [|lia|..|lia]. }
  unfold Parse. rewrite Hl, !bool_decide_false by lia. by destruct Hp as [[-> ->]|[-> ->]].
Qed.

Lemma Parse_NewDigest d x : NewDigest d = Ret x → Parse x = Ret d.
Proof.
  intros (Hv & Hx)%NewDigest_Ret. destruct (digest_hex_chars d Hv) as [_ Hl].
  assert (digest_Hex d ≠ "") as Hne by (intros He; rewrite He in Hl; simpl in Hl; lia).
  assert (∀ a, digest_Algorithm d = a → digest_NewDigestFromHex a (digest_Hex d) = d) as Hd.
  { intros a <-. rewrite digest_NewDigestFromHex_spec. symmetry. apply digest_parts. congruence. }
  destruct Hx as [[Ha ->]|[Ha ->]];
    (rewrite (Parse_prefix (digest_Algorithm d)); [|by rewrite Ha; auto|done]); rewrite Hd by done; by rewrite Hv.
Qed.

Lemma NewDigest_Parse d x : Parse x = Ret d → NewDigest d = Ret x.
Proof.
  unfold Parse. do 3 (case_bool_decide; [done|]). pose proof (str_take_drop 2 x) as Hx.
  generalize dependent (str_drop 2 x). generalize dependent (str_take 2 x). intros p h Hx.
  assert (∀ alg, no_byte ":" alg = true → digest_Validate (digest_NewDigestFromHex alg h) = None →
    digest_Algorithm (digest_NewDigestFromHex alg h) = alg ∧ digest_Hex (digest_NewDigestFromHex alg h) = h) as Hparts.
  { intros alg Ha Hv. rewrite digest_NewDigestFromHex_spec in Hv |- *. apply digest_parts_of; [done|congruence]. }
  case_bool_decide as Hp1; [|case_bool_decide as Hp2; [|done]];
    (destruct (digest_Validate _) eqn:Hv; [done|]); intros [= <-]; unfold NewDigest; rewrite Hv;
    (apply Hparts in Hv as [-> ->]; [|done]); by subst.
Qed.

End digests.

(** ** Statements *)

Section rules.
Context {GD : GoDigest} {GDL : GoDigestLaws}.

(** A statement succeeds, or fails and has no effect. *)
Lemma wp_exec {A} (q : db → outcome pg_error (A * db)) t Q :
  q (tx_db t) ≠ Panic →
  (∀ a D fs, q (tx_db t) = Ret (a, D) → Q (Ret a) {| tx_db := D; tx_failed := false; tx_faults := fs |}) →
  (∀ e fs, Q (Fail e) {| tx_db := tx_db t; tx_failed := true; tx_faults := fs |}) →
  wp (exec q) t Q.
Proof.
  intros Hp HR HF. unfold wp, exec. destruct (tx_failed t); [apply HF|].
  destruct (head (tx_faults t)) as [[e|]|]; [apply HF|..];
    (destruct (q (tx_db t)) as [[a D]|e|]; [by apply HR|apply HF|done]).
Qed.
Lemma wp_query {A} (f : db → A) t Q :
  (∀ fs, Q (Ret (f (tx_db t))) {| tx_db := tx_db t; tx_failed := false; tx_faults := fs |}) →
  (∀ e fs, Q (Fail e) {| tx_db := tx_db t; tx_failed := true; tx_faults := fs |}) →
  wp (query f) t Q.
Proof. intros HR HF. apply wp_exec; [done| |done]. intros a D fs [= <- <-]. apply HR. Qed.
Lemma wp_newDigest d t Q :
  (∀ x, NewDigest d = Ret x → Q (Ret x) t) → (∀ e, Q (Fail e) t) → wp (newDigest d) t Q.
Proof.
  intros HR HF. unfold wp, newDigest, lift. cbn. destruct (NewDigest d) eqn:Hd; [by apply HR|apply HF|].
  exfalso. revert Hd. unfold NewDigest. destruct (digest_Validate d); [done|]. by repeat case_bool_decide.
Qed.
Lemma wp_newDigest_Ret d x t Q : NewDigest d = Ret x → Q (Ret x) t → wp (newDigest d) t Q.
Proof. intros Hd HQ. unfold wp, newDigest, lift. cbn. by rewrite Hd. Qed.

(** A transaction that no fault hits. *)
Definition ok_tx (D : db) : tx := {| tx_db := D; tx_failed := false; tx_faults := [] |}.
Lemma wp_exec_ok {A} (q : db → outcome pg_error (A * db)) D a D' Q :
  q D = Ret (a, D') → Q (Ret a) (ok_tx D') → wp (exec q) (ok_tx D) Q.
Proof. intros Hq HQ. unfold wp, exec. cbn. by rewrite Hq. Qed.
Lemma wp_query_ok {A} (f : db → A) D Q : Q (Ret (f D)) (ok_tx D) → wp (query f) (ok_tx D) Q.
Proof. intros HQ. by eapply wp_exec_ok. Qed.
Lemma wp_lift_Ret {S E A} (o : outcome E A) a (s : S) Q : o = Ret a → Q (Ret a) s → wp (lift o) s Q.
Proof. by intros ->. Qed.

(** ** Triples *)

(** No fault hits the transaction. *)
Definition calm (t : tx) : Prop := tx_failed t = false ∧ tx_faults t = [].
Lemma calm_ok t : calm t ↔ t = ok_tx (tx_db t).
Proof. destruct t. unfold calm, ok_tx. cbn. naive_solver. Qed.

(** From the database [D] the call does not panic; if it returns, its result and
    the database satisfy [R]; if it fails, the database satisfies [F], and the
    error satisfies [E] unless a fault has hit the transaction. *)
Definition does {A} (m : GoM tx dberror A) (D : db) (R : A → db → Prop) (F : db → Prop) (E : dberror → Prop) : Prop :=
  ∀ t, tx_db t = D → wp m t (λ o t',
    match o with
    | Ret a => R a (tx_db t') ∧ (calm t → calm t')
    | Fail e => F (tx_db t') ∧ (calm t → E e ∧ tx_faults t' = [])
    | Panic => False
    end).
(** The call fails only by faults. *)
Definition never (e : dberror) : Prop := False.

Lemma does_run {A} (m : GoM tx dberror A) D R F :
  does m D R F never → ∃ a D', m (ok_tx D) = (Ret a, ok_tx D') ∧ R a D'.
Proof.
  intros H. specialize (H (ok_tx D) eq_refl). unfold wp in H. destruct (m (ok_tx D)) as [[a|e|] t']; cbn in H.
  - destruct H as [HR Hc]. exists a, (tx_db t'). split; [|done]. f_equal. by apply calm_ok, Hc.
  - by destruct H as [_ [[] _]].
  - done.
Qed.
Lemma does_fails {A} (m : GoM tx dberror A) D (R : A → db → Prop) F E :
  does m D R F E → (∀ a D', ¬ R a D') → ∃ e, (m (ok_tx D)).1 = Fail e ∧ E e.
Proof.
  intros H HR. specialize (H (ok_tx D) eq_refl). unfold wp in H. destruct (m (ok_tx D)) as [[a|e|] t']; cbn in *.
  - destruct H as [H _]. by destruct (HR _ _ H).
  - exists e. split; [done|]. by apply H.
  - done.
Qed.
Lemma does_outcome {A} (m : GoM tx dberror A) t (R : A → db → Prop) (F : db → Prop) E :
  does m (tx_db t) R F E → (∀ a D', R a D' → F D') → F (tx_db (m t).2) ∧ (m t).1 ≠ Panic.
Proof.
  intros H HRF. specialize (H t eq_refl). unfold wp in H. destruct (m t) as [[a|e|] t']; cbn in *; [|by destruct H|done].
  destruct H as [HR _]. split; [by eapply HRF|done].
Qed.
Lemma does_mono {A} (m : GoM tx dberror A) D (R R' : A → db → Prop) (F F' : db → Prop) (E E' : dberror → Prop) :
  does m D R F E → (∀ a D', R a D' → R' a D') → (∀ D', F D' → F' D') → (∀ e, E e → E' e) → does m D R' F' E'.
Proof.
  intros H HR HF HE t Ht. eapply wp_mono; [by apply H|]. intros [a|e|] t'; [|naive_solver..].
  intros [? ?]. by auto.
Qed.
Lemma does_ret {A} (a : A) D (R : A → db → Prop) F E : R a D → does (mret a) D R F E.
Proof. intros HR t <-. by split. Qed.
Lemma does_fail {A} (e : dberror) D (R : A → db → Prop) (F : db → Prop) (E : dberror → Prop) :
  F D → E e → does (fail e) D R F E.
Proof. intros HF HE t <-. split; [done|]. intros [_ ?]. by split. Qed.
Lemma does_bind {A B} (m : GoM tx dberror A) (k : A → GoM tx dberror B) D R1 R F E :
  does m D R1 F E → (∀ a D1, R1 a D1 → does (k a) D1 R F E) → does (m ≫= k) D R F E.
Proof.
  intros Hm Hk t Ht. apply wp_bind. eapply wp_mono; [by apply Hm|]. intros [a|e|] t1; cbn; [|done..].
  intros [H1 Hc]. eapply wp_mono; [by apply (Hk a _ H1)|]. intros [b|e|] t2; naive_solver.
Qed.
Lemma does_bind_fail {A B} (m : GoM tx dberror A) (k : A → GoM tx dberror B) D R F E :
  does m D (λ _ _, False) F E → does (m ≫= k) D R F E.
Proof. intros Hm. by eapply does_bind. Qed.
Lemma does_wrap {A} f (m : GoM tx dberror A) D R F E : does m D R F (λ e, E (f e)) → does (wrap_err f m) D R F E.
Proof. intros Hm t Ht. apply wp_wrap_err. eapply wp_mono; [by apply Hm|]. by intros [a|e|]. Qed.
Lemma does_exec {A} (q : db → outcome pg_error (A * db)) D a D' (R : A → db → Prop) (F : db → Prop) E :
  q D = Ret (a, D') → R a D' → F D → does (exec q) D R F E.
Proof.
  intros Hq HR HF t <-. unfold wp, exec. destruct (tx_failed t) eqn:Hf; [split; [done|intros []; congruence]|].
  destruct (head (tx_faults t)) as [[e|]|] eqn:He; cbn; rewrite ?Hq; cbn; (split; [done|]).
  - intros [_ Hn]. by rewrite Hn in He.
  - by intros [_ ->].
  - by intros [_ ->].
Qed.
Lemma does_exec_fail {A} (q : db → outcome pg_error (A * db)) D e (R : A → db → Prop) (F : db → Prop) (E : dberror → Prop) :
  q D = Fail e → F D → E (PgError e) → does (exec q) D R F E.
Proof.
  intros Hq HF HE t <-. unfold wp, exec. destruct (tx_failed t) eqn:Hf; [split; [done|intros []; congruence]|].
  destruct (head (tx_faults t)) as [[e'|]|] eqn:He; cbn; rewrite ?Hq; cbn; (split; [done|]); intros [_ Hn].
  - by rewrite Hn in He.
  - by rewrite Hn.
  - by rewrite Hn.
Qed.
Lemma does_query {A} (f : db → A) D (R : A → db → Prop) (F : db → Prop) E : R (f D) D → F D → does (query f) D R F E.
Proof. intros HR HF. by eapply does_exec. Qed.
Lemma does_newDigest d x D (R : dbdigest → db → Prop) F E : NewDigest d = Ret x → R x D → does (newDigest d) D R F E.
Proof. intros Hd HR. unfold newDigest. rewrite Hd. by apply does_ret. Qed.

(** The first call of a sequence has a known result. *)
Lemma does_bind_eq {A B} (m : GoM tx dberror A) (k : A → GoM tx dberror B) D a D1 R F E :
  does m D (λ a' D', a' = a ∧ D' = D1) F E → does (k a) D1 R F E → does (m ≫= k) D R F E.
Proof. intros Hm Hk. eapply does_bind; [done|]. by intros ? ? [-> ->]. Qed.

End rules.

(** ** Calls that succeed *)

Lemma exec_ok {A} (q : db → outcome pg_error (A * db)) D a D' :
  q D = Ret (a, D') → exec q (ok_tx D) = (Ret a, ok_tx D').
Proof. intros Hq. unfold exec. cbn. by rewrite Hq. Qed.
Lemma errorf_ok {A} msg (m : GoM tx dberror A) t a t' : m t = (Ret a, t') → errorf msg m t = (Ret a, t').
Proof. intros Hm. unfold errorf, wrap_err. by rewrite Hm. Qed.
Lemma newDigest_ok {GD : GoDigest} d x t : NewDigest d = Ret x → newDigest d t = (Ret x, t).
Proof. intros Hx. unfold newDigest, lift. by rewrite Hx. Qed.

(** ** Invariants of calls *)

(** A call keeps an invariant of the transaction's database, however it ends. *)
Definition keeps {A} (I : db → Prop) (m : GoM tx dberror A) : Prop :=
  ∀ t, I (tx_db t) → wp m t (λ o t', I (tx_db t')).

Section keeps.
Context {GD : GoDigest} {GDL : GoDigestLaws} (I : db → Prop).

Lemma keeps_bind {A B} (m : GoM tx dberror A) (k : A → GoM tx dberror B) :
  keeps I m → (∀ a, keeps I (k a)) → keeps I (m ≫= k).
Proof.
  intros Hm Hk t Ht. apply wp_bind. eapply wp_mono; [by apply Hm|]. intros [a|e|] t' Ht'; [by apply Hk|done..].
Qed.
Lemma keeps_bind_post {A B} (R : A → Prop) (m : GoM tx dberror A) (k : A → GoM tx dberror B) :
  (∀ t, I (tx_db t) → wp m t (λ o t', I (tx_db t') ∧ if o is Ret a then R a else True)) → (∀ a, R a → keeps I (k a)) →
  keeps I (m ≫= k).
Proof.
  intros Hm Hk t Ht. apply wp_bind. eapply wp_mono; [by apply Hm|]. intros [a|e|] t' [Ht' HR]; [by apply Hk|done..].
Qed.
Lemma keeps_newDigest {B} d (k : dbdigest → GoM tx dberror B) :
  (∀ x, NewDigest d = Ret x → keeps I (k x)) → keeps I (newDigest d ≫= k).
Proof. intros Hk t Ht. apply wp_bind, wp_newDigest; [|done]. intros x Hx. by apply Hk. Qed.
Lemma keeps_attempt {A} (m : GoM tx dberror A) : keeps I m → keeps I (attempt m).
Proof. intros Hm t Ht. apply wp_attempt. eapply wp_mono; [by apply Hm|]. by intros [a|e|] t' Ht'. Qed.
Lemma keeps_wrap {A} f (m : GoM tx dberror A) : keeps I m → keeps I (wrap_err f m).
Proof. intros Hm t Ht. apply wp_wrap_err. by apply Hm. Qed.
Lemma keeps_lift {A} (o : outcome dberror A) : keeps I (lift o).
Proof. by intros t Ht. Qed.
Lemma keeps_ret {A} (a : A) : keeps I (mret a).
Proof. by intros t Ht. Qed.
Lemma keeps_fail {A} e : keeps (A := A) I (fail e).
Proof. by intros t Ht. Qed.
Lemma keeps_panic {A} : keeps (A := A) I panic.
Proof. by intros t Ht. Qed.
Lemma keeps_exec {A} (q : db → outcome pg_error (A * db)) :
  (∀ D a D', I D → q D = Ret (a, D') → I D') → keeps I (exec q).
Proof.
  intros Hq t Ht. unfold wp, exec. destruct (tx_failed t); [done|].
  destruct (head (tx_faults t)) as [[e|]|]; [done|..]; (destruct (q (tx_db t)) as [[a D]|e|] eqn:Hrun; [by eapply Hq|done..]).
Qed.
Lemma keeps_query {A} (f : db → A) : keeps I (query f).
Proof. apply keeps_exec. by intros D a D' H [= <- <-]. Qed.

End keeps.

(** The structure of a store call is followed by its syntax; what remains are
    the statements it runs. *)
Create HintDb keeps discriminated.
Ltac keeps_step :=
  first
    [ solve [eauto 1 with keeps nocore] | apply keeps_ret | apply keeps_fail | apply keeps_panic | apply keeps_lift | apply keeps_query
    | apply keeps_exec | apply keeps_wrap | apply keeps_attempt | (apply keeps_newDigest; intros ? ?)
    | (apply keeps_bind; [|intros ?])
    | match goal with |- keeps _ (match ?x with _ => _ end) => destruct x end ].
Ltac keeps_tac := repeat keeps_step.

End Transactions.
