(* ===== verification/Repositories.v ===== *)
(** * The repositories of the metadata database

    Models registry/datastore/namespace.go and the rest of
    registry/datastore/repository.go: the creation of repositories by path with
    their parents, the tree of repositories, the pages of the catalog and of
    tags, and the contents of a repository, as queries and statements of
    Database.v.  The order of texts is the collation of the database, a
    parameter. *)

From stdpp Require Import sorting.
From S2P Require Import Prelude GoStd Digest Driver Database BlobStore Datastore.

(** ** Collations *)

(** The order in which the database compares texts. *)
Class Collation := {
  coll_le : relation string;
  #[global] coll_le_dec :: RelDecision coll_le;
}.
(** A collation is a total order, in which only equal texts are equal. *)
Class CollationLaws {Co : Collation} : Prop := {
  coll_trans x y z : coll_le x y → coll_le y z → coll_le x z;
  coll_total x y : coll_le x y ∨ coll_le y x;
  coll_antisymm x y : coll_le x y → coll_le y x → x = y;
}.
(** [x > y]. *)
Definition coll_gt {Co : Collation} (x y : string) : Prop := ¬ coll_le x y.

Module Repositories.
Import Database Datastore.

Section repositories.
Context {GD : GoDigest} {Co : Collation}.
Abbreviation Tx := (GoM tx dberror) (only parsing).

(** ** namespace.go *)

Record Namespace := { ns_ID : Z; ns_Name : string }.

Definition namespace_by_name (name : string) (D : db) : option Namespace :=
  (λ x, {| ns_ID := x.1; ns_Name := x.2 |}) <$> head (filter (λ x, x.2 = name) (map_to_list (top_level_namespaces D))).
Definition namespaceStore_FindByName (name : string) : Tx (option Namespace) :=
  errorf "scanning namespace" (query (namespace_by_name name)).

Definition namespaceStore_CreateOrFind (name : string) : Tx Namespace :=
  id ← errorf "creating namespace" (exec (insert_namespace name));
  match id with
  | Some id => mret {| ns_ID := id; ns_Name := name |}
  | None =>
      tmp ← namespaceStore_FindByName name;
      match tmp with
      | Some n => mret n
      | None => panic
      end
  end.

(** ** repository.go *)

Record Repository := {
  rp_ID : Z;
  rp_NamespaceID : Z;
  rp_Name : string;
  rp_Path : string;
  rp_ParentID : option Z;
}.
Definition scanFullRepository (x : Z * Z * repository_row) : Repository :=
  {| rp_ID := x.1.2; rp_NamespaceID := x.1.1; rp_Name := r_name x.2; rp_Path := r_path x.2; rp_ParentID := r_parent_id x.2 |}.
Definition row_of (r : Repository) : repository_row :=
  {| r_name := rp_Name r; r_path := rp_Path r; r_parent_id := rp_ParentID r |}.

(** The rows of [repositories]. *)
Definition all_repositories (D : db) : list Repository := scanFullRepository <$> map_to_list (repositories D).

Definition repositoryStore_FindByID (id : Z) : Tx (option Repository) :=
  errorf "scanning repository" (query (λ D, head (filter (λ r, rp_ID r = id) (all_repositories D)))).
Definition repository_by_path (path : string) (D : db) : option Repository :=
  head (filter (λ r, rp_Path r = path) (all_repositories D)).
Definition repositoryStore_FindByPath (path : string) : Tx (option Repository) :=
  errorf "scanning repository" (query (repository_by_path path)).
Definition repositoryStore_FindAll : Tx (list Repository) :=
  errorf "finding repositories" (query all_repositories).

(** The repositories that have a manifest, and a path after [lastPath]. *)
Definition has_manifest (D : db) (r : Repository) : Prop :=
  map_Exists (λ k _, k.1 = (rp_NamespaceID r, rp_ID r)) (manifests D).
#[export] Instance has_manifest_dec D r : Decision (has_manifest D r) := _.
Definition by_path (x y : Repository) : Prop := coll_le (rp_Path x) (rp_Path y).
#[export] Instance by_path_dec : RelDecision by_path := λ x y, coll_le_dec _ _.
#[export] Instance coll_gt_dec : RelDecision coll_gt := λ x y, not_dec (coll_le_dec x y).
Definition catalog_after (lastPath : string) (D : db) : list Repository :=
  filter (λ r, has_manifest D r ∧ coll_gt (rp_Path r) lastPath) (all_repositories D).
Definition repositoryStore_FindAllPaginated (limit : nat) (lastPath : string) : Tx (list Repository) :=
  errorf "finding repositories with pagination"
    (query (λ D, take limit (merge_sort by_path (catalog_after lastPath D)))).
Definition repositoryStore_Count : Tx nat := errorf "counting repositories" (query (λ D, size (repositories D))).
Definition repositoryStore_CountAfterPath (path : string) : Tx nat :=
  errorf "counting repositories lexicographically after path" (query (λ D, length (catalog_after path D))).

(** The recursive queries: the working table starts with the repository [id]
    and is replaced by the rows that [next] joins with it until it is empty.
    The fuel is one more than the number of rows; the result is [None] if it
    runs out, as it does on parents in a cycle, on which the query does not
    end. *)
Fixpoint with_recursive (fuel : nat) (next : Repository → list Repository) (working : list Repository) :
    option (list Repository) :=
  match working with
  | [] => Some []
  | _ =>
      match fuel with
      | 0 => None
      | S fuel => (λ rest, working ++ rest) <$> with_recursive fuel next (working ≫= next)
      end
  end.
Definition recursive_query (next : db → Repository → list Repository) (id : Z) (D : db) : option (list Repository) :=
  filter (λ r, rp_ID r ≠ id) <$>
    with_recursive (S (size (repositories D))) (next D) (filter (λ r, rp_ID r = id) (all_repositories D)).
Definition children (D : db) (r : Repository) : list Repository :=
  filter (λ c, rp_ParentID c = Some (rp_ID r)) (all_repositories D).
Definition parents (D : db) (r : Repository) : list Repository :=
  filter (λ p, rp_ParentID r = Some (rp_ID p)) (all_repositories D).

Definition repositoryStore_FindDescendantsOf (id : Z) : Tx (option (list Repository)) :=
  errorf "finding descendants of repository" (query (recursive_query children id)).
Definition repositoryStore_FindAncestorsOf (id : Z) : Tx (option (list Repository)) :=
  errorf "finding ancestors of repository" (query (recursive_query parents id)).

(** A join on the parents, which NULL does not satisfy. *)
Definition siblings (id : Z) (D : db) : list Repository :=
  s ← filter (λ s, rp_ID s ≠ id) (all_repositories D);
  anchor ← filter (λ a, rp_ID a = id) (all_repositories D);
  match rp_ParentID s, rp_ParentID anchor with
  | Some p, Some q => if bool_decide (p = q) then [s] else []
  | _, _ => []
  end.
Definition repositoryStore_FindSiblingsOf (id : Z) : Tx (list Repository) :=
  errorf "finding siblings of repository" (query (siblings id)).

(** *** The contents of a repository *)

Definition repositoryStore_Tags (r : Repository) : Tx (list Tag) :=
  errorf "finding tags" (query (λ D,
    filter (λ t, tg_RepositoryID t = rp_ID r) (scanFullTag <$> map_to_list (tags D)))).
Definition by_name (x y : Tag) : Prop := coll_le (tg_Name x) (tg_Name y).
#[export] Instance by_name_dec : RelDecision by_name := λ x y, coll_le_dec _ _.
Definition tags_after (r : Repository) (lastName : string) (D : db) : list Tag :=
  filter (λ t, tg_NamespaceID t = rp_NamespaceID r ∧ tg_RepositoryID t = rp_ID r ∧ coll_gt (tg_Name t) lastName)
    (scanFullTag <$> map_to_list (tags D)).
Definition repositoryStore_TagsPaginated (r : Repository) (limit : nat) (lastName : string) : Tx (list Tag) :=
  errorf "finding tags with pagination" (query (λ D, take limit (merge_sort by_name (tags_after r lastName D)))).
Definition repositoryStore_TagsCountAfterName (r : Repository) (lastName : string) : Tx nat :=
  errorf "counting tags lexicographically after name" (query (λ D, length (tags_after r lastName D))).
Definition repositoryStore_ManifestTags (r : Repository) (m : Manifest) : Tx (list Tag) :=
  errorf "finding tags" (query (λ D,
    filter (λ t, tg_NamespaceID t = rp_NamespaceID r ∧ tg_RepositoryID t = rp_ID r ∧ tg_ManifestID t = mf_ID m)
      (scanFullTag <$> map_to_list (tags D)))).
Definition tag_by_name (r : Repository) (name : string) (D : db) : option Tag :=
  (λ i, scanFullTag ((rp_NamespaceID r, rp_ID r, name), i)) <$> tags D !! (rp_NamespaceID r, rp_ID r, name).
Definition repositoryStore_FindTagByName (r : Repository) (name : string) : Tx (option Tag) :=
  errorf "scaning tag" (query (tag_by_name r name)).

Definition repositoryStore_Manifests (r : Repository) : Tx (list Manifest) :=
  rows ← errorf "finding manifests" (query (λ D,
    merge_sort by_id (filter (λ x, x.1.1 = (rp_NamespaceID r, rp_ID r)) (map_to_list (manifests D)))));
  lift (scan_all scanFullManifest rows).
(** The manifest that a tag of the repository points to. *)
Definition manifest_by_tag (r : Repository) (tagName : string) (D : db) : option (row_key * manifest_row) :=
  i ← tags D !! (rp_NamespaceID r, rp_ID r, tagName);
  let k := (rp_NamespaceID r, rp_ID r, i) in
  m ← manifests D !! k;
  Some (k, m).
Definition repositoryStore_FindManifestByTagName (r : Repository) (tagName : string) : Tx (option Manifest) :=
  m ← errorf "scanning manifest" (query (manifest_by_tag r tagName));
  lift (scan_first scanFullManifest m).

(** The blobs that are linked to a repository. *)
Definition linked_blobs (r : Repository) (D : db) : list (dbdigest * blob_row) :=
  filter (λ x, (rp_NamespaceID r, rp_ID r, x.1) ∈ repository_blobs D) (map_to_list (blobs D)).
Definition repositoryStore_Blobs (r : Repository) : Tx (list Blob) :=
  rows ← errorf "finding blobs" (query (linked_blobs r));
  lift (scan_all scanFullBlob rows).
Definition linked_blob (r : Repository) (dgst : dbdigest) (D : db) : option (dbdigest * blob_row) :=
  if bool_decide ((rp_NamespaceID r, rp_ID r, dgst) ∈ repository_blobs D) then pair dgst <$> blobs D !! dgst else None.
Definition repositoryStore_FindBlob (r : Repository) (d : digest) : Tx (option Blob) :=
  dgst ← newDigest d;
  b ← errorf "scanning blob" (query (linked_blob r dgst));
  lift (scan_first scanFullBlob b).

(** *** Creation by path *)

Definition repositoryStore_Create (r : Repository) : Tx Repository :=
  id ← errorf "creating repository" (exec (λ D,
    match insert_repository (rp_NamespaceID r) (row_of r) D with
    | Ret (Some id, D) => Ret (id, D)
    | Ret (None, _) => Fail (UniqueViolation "repositories")
    | Fail e => Fail e
    | Panic => Panic
    end));
  mret (scanFullRepository ((rp_NamespaceID r, id), row_of r)).

Definition set_namespace (n : Z) (r : Repository) : Repository :=
  {| rp_ID := rp_ID r; rp_NamespaceID := n; rp_Name := rp_Name r; rp_Path := rp_Path r; rp_ParentID := rp_ParentID r |}.
Definition repositoryStore_CreateOrFind (r : Repository) : Tx Repository :=
  r ← (if bool_decide (rp_NamespaceID r = 0%Z) then
         n ← errorf "creating or finding namespace"
           (namespaceStore_CreateOrFind (default "" (head (Split slash (rp_Path r)))));
         mret (set_namespace (ns_ID n) r)
       else mret r);
  id ← errorf "creating repository" (exec (insert_repository (rp_NamespaceID r) (row_of r)));
  match id with
  | Some id => mret (scanFullRepository ((rp_NamespaceID r, id), row_of r))
  | None =>
      tmp ← repositoryStore_FindByPath (rp_Path r);
      match tmp with
      | Some r => mret r
      | None => panic
      end
  end.

Definition splitRepositoryPath (path : string) : list string := Split slash (Clean path).
Definition repositoryParentPaths (path : string) : list string :=
  let segments := splitRepositoryPath path in
  let names := take (length segments - 1) segments in
  (λ i, Join (take (i + 1) names) "/") <$> seq 0 (length names).
Definition repositoryName (path : string) : string :=
  let segments := splitRepositoryPath path in
  default "" (segments !! (length segments - 1)).

(** The loop over the paths of the parents. *)
Fixpoint createOrFindParents (n : Namespace) (parentsPath : list string) (currParentID : Z) (r : option Repository) :
    Tx (option Repository) :=
  match parentsPath with
  | [] => mret r
  | parentPath :: parentsPath =>
      let x := {| rp_ID := 0; rp_NamespaceID := ns_ID n; rp_Name := repositoryName parentPath; rp_Path := parentPath;
                  rp_ParentID := if (0 <? currParentID)%Z then Some currParentID else None |} in
      x ← errorf "finding parent repository" (repositoryStore_CreateOrFind x);
      createOrFindParents n parentsPath (rp_ID x) (Some x)
  end.
Definition createOrFindParentByPath (path : string) (n : Namespace) : Tx (option Repository) :=
  createOrFindParents n (repositoryParentPaths path) 0 None.

(** The namespace and the parents of a path, and the repository to create. *)
Definition prepare_path (path : string) : Tx Repository :=
  n ← errorf "creating or finding namespace" (namespaceStore_CreateOrFind (default "" (head (Split slash path))));
  p ← errorf "creating or finding parent repository" (createOrFindParentByPath path n);
  mret {| rp_ID := 0; rp_NamespaceID := ns_ID n; rp_Name := repositoryName path; rp_Path := path;
          rp_ParentID := rp_ID <$> p |}.
Definition repositoryStore_CreateByPath (path : string) : Tx Repository :=
  r ← prepare_path path;
  repositoryStore_Create r.
Definition repositoryStore_CreateOrFindByPath (path : string) : Tx Repository :=
  r ← prepare_path path;
  repositoryStore_CreateOrFind r.

Definition repositoryStore_Update (r : Repository) : Tx unit :=
  found ← errorf "updating repository" (exec (update_repository (rp_NamespaceID r) (rp_ID r) (row_of r)));
  if (found : bool) then mret tt else fail (Errorf "repository not found").

(** The repository of a tag (tag.go). *)
Definition tagStore_Repository (t : Tag) : Tx (option Repository) :=
  let k := (tg_NamespaceID t, tg_RepositoryID t) in
  errorf "scanning repository" (query (λ D, (λ x, scanFullRepository (k, x)) <$> repositories D !! k)).

(** *** The services of the validators *)

Definition RepositoryManifestService_Exists (path : string) (dgst : digest) : Tx bool :=
  r ← repositoryStore_FindByPath path;
  match r with
  | None => fail (Errorf "unable to find repository in database")
  | Some r => m ← repositoryStore_FindManifestByDigest (rp_NamespaceID r) (rp_ID r) dgst; mret (bool_decide (is_Some m))
  end.
Definition RepositoryBlobService_Stat (path : string) (dgst : digest) : Tx BlobStore.Descriptor :=
  r ← repositoryStore_FindByPath path;
  match r with
  | None => fail (Errorf "unable to find repository in database")
  | Some r =>
      b ← repositoryStore_FindBlob r dgst;
      match b with
      | None => fail (StorageError ErrBlobUnknown)
      | Some b => mret {| BlobStore.MediaType := blob_MediaType b; BlobStore.Size := blob_Size b; BlobStore.desc_Digest := blob_Digest b |}
      end
  end.

End repositories.
End Repositories.
