(* ===== verification/StoreOps.v ===== *)
(** * The operations of the stores

    The writes of the metadata database that the stores of registry/datastore
    offer, and what it takes for an invariant of the database to be kept by all
    of them. *)

From S2P Require Import Prelude GoStd Digest Driver Database Datastore Transactions Repositories.

Module StoreOps.
Import Database Datastore Transactions Repositories.

Section ops.
Context {GD : GoDigest} {GDL : GoDigestLaws}.

(** The writes of the stores. *)
Inductive store_op :=
  | CreateBlob (now : Z) (b : Blob)
  | CreateOrFindBlob (now : Z) (b : Blob)
  | CreateManifest (now : Z) (m : Manifest)
  | AssociateManifest (ml m : Manifest)
  | DissociateManifest (now : Z) (ml m : Manifest)
  | AssociateLayerBlob (m : Manifest) (b : Blob)
  | DissociateLayerBlob (now : Z) (m : Manifest) (b : Blob)
  | DeleteManifestByID (now : Z) (k : Z * Z * Z)
  | CreateOrUpdateTag (now n r manifest : Z) (name : string)
  | UntagManifest (now n r manifest : Z)
  | DeleteTagByName (now n r : Z) (name : string)
  | DeleteManifest (now n r : Z) (d : digest)
  | LinkBlob (n r : Z) (d : digest)
  | UnlinkBlob (n r : Z) (d : digest)
  | CreateNamespace (name : string)
  | CreateRepository (r : Repository)
  | CreateOrFindRepository (r : Repository)
  | CreateRepositoryByPath (path : string)
  | CreateOrFindRepositoryByPath (path : string)
  | UpdateRepository (r : Repository)
  | UpdateReviewAfterDefaults (make_interval : Z → Z) (d : Z).

Definition ignore {A} (m : GoM tx dberror A) : GoM tx dberror unit := _ ← m; mret tt.
Definition run_op (op : store_op) : GoM tx dberror unit :=
  match op with
  | CreateBlob now b => blobStore_Create now b
  | CreateOrFindBlob now b => ignore (blobStore_CreateOrFind now b)
  | CreateManifest now m => ignore (manifestStore_Create now m)
  | AssociateManifest ml m => manifestStore_AssociateManifest ml m
  | DissociateManifest now ml m => manifestStore_DissociateManifest now ml m
  | AssociateLayerBlob m b => manifestStore_AssociateLayerBlob m b
  | DissociateLayerBlob now m b => manifestStore_DissociateLayerBlob now m b
  | DeleteManifestByID now k => ignore (manifestStore_Delete now k)
  | CreateOrUpdateTag now n r manifest name => tagStore_CreateOrUpdate now n r manifest name
  | UntagManifest now n r manifest => repositoryStore_UntagManifest now n r manifest
  | DeleteTagByName now n r name => ignore (repositoryStore_DeleteTagByName now n r name)
  | DeleteManifest now n r d => ignore (repositoryStore_DeleteManifest now n r d)
  | LinkBlob n r d => repositoryStore_LinkBlob n r d
  | UnlinkBlob n r d => ignore (repositoryStore_UnlinkBlob n r d)
  | CreateNamespace name => ignore (namespaceStore_CreateOrFind name)
  | CreateRepository r => ignore (repositoryStore_Create r)
  | CreateOrFindRepository r => ignore (repositoryStore_CreateOrFind r)
  | CreateRepositoryByPath path => ignore (repositoryStore_CreateByPath path)
  | CreateOrFindRepositoryByPath path => ignore (repositoryStore_CreateOrFindByPath path)
  | UpdateRepository r => repositoryStore_Update r
  | UpdateReviewAfterDefaults make_interval d => ignore (gcSettingsStore_UpdateAllReviewAfterDefaults make_interval d)
  end.

(** A transaction: calls in sequence, up to the first that fails. *)
Fixpoint run_ops (ops : list store_op) : GoM tx dberror unit :=
  match ops with
  | [] => mret tt
  | op :: ops => _ ← run_op op; run_ops ops
  end.
(** ** Invariants *)

(** A row of a manifest that can be read: its digests can be parsed, and the
    configuration has a payload. *)
Definition readable (dgst : digest) (row : manifest_row) : Prop :=
  NewDigest dgst = Ret (m_digest row) ∧
  match m_configuration_blob_digest row with
  | Some c => (∃ d, Parse c = Ret d) ∧ is_Some (m_configuration_payload row)
  | None => True
  end.

(** An invariant that is kept by the statements of the stores. *)
Record stable (I : db → Prop) : Prop := {
  st_insert_namespace name D a D' : I D → insert_namespace name D = Ret (a, D') → I D';
  st_insert_repository n x D a D' : I D → insert_repository n x D = Ret (a, D') → I D';
  st_update_repository n i x D a D' : I D → update_repository n i x D = Ret (a, D') → I D';
  st_insert_blob now d x b D a D' : I D → NewDigest d = Ret x → insert_blob now x b D = Ret (a, D') → I D';
  st_insert_repository_blob n r x D a D' : I D → insert_repository_blob n r x D = Ret (a, D') → I D';
  st_delete_repository_blob n r x D a D' : I D → delete_repository_blob n r x D = Ret (a, D') → I D';
  st_insert_manifest now n r dgst m D a D' : I D → readable dgst m → insert_manifest now n r m D = Ret (a, D') → I D';
  st_delete_manifest now k D a D' : I D → delete_manifest now k D = Ret (a, D') → I D';
  st_insert_reference n r p c D a D' : I D → insert_reference n r p c D = Ret (a, D') → I D';
  st_delete_references now P D D' : I D → delete_references now P D = Ret D' → I D';
  st_insert_layer n r i x D a D' : I D → insert_layer n r i x D = Ret (a, D') → I D';
  st_delete_layers now P D : I D → I (delete_layers now P D);
  st_upsert_tag now n r i t D a D' : I D → upsert_tag now n r i t D = Ret (a, D') → I D';
  st_delete_tags now P D : I D → I (delete_tags now P D);
  st_set_defaults q D : I D → I (set_gc_review_after_defaults q D);
}.

Section stable.
Context (I : db → Prop) (HI : stable I).

Lemma namespaceStore_CreateOrFind_keeps name : keeps I (namespaceStore_CreateOrFind name).
Proof.
  unfold namespaceStore_CreateOrFind, namespaceStore_FindByName, errorf. keeps_tac. intros D a D'. by apply st_insert_namespace.
Qed.
#[local] Hint Resolve namespaceStore_CreateOrFind_keeps : keeps.
Lemma repositoryStore_Create_keeps r : keeps I (repositoryStore_Create r).
Proof.
  unfold repositoryStore_Create, errorf. keeps_tac. intros D a D' H.
  destruct (insert_repository _ _ D) as [[[id|] D1]|e|] eqn:Hi; intros [= <- <-]. by eapply st_insert_repository.
Qed.
Lemma repositoryStore_CreateOrFind_keeps r : keeps I (repositoryStore_CreateOrFind r).
Proof.
  unfold repositoryStore_CreateOrFind, repositoryStore_FindByPath, errorf. keeps_tac; intros D ret D'; by apply st_insert_repository.
Qed.
Lemma createOrFindParents_keeps n ps i r : keeps I (createOrFindParents n ps i r).
Proof.
  revert i r. induction ps as [|p ps IH]; intros i r; cbn [createOrFindParents]; [apply keeps_ret|].
  apply keeps_bind; [apply keeps_wrap, repositoryStore_CreateOrFind_keeps|intros x; apply IH].
Qed.
Lemma prepare_path_keeps path : keeps I (prepare_path path).
Proof.
  unfold prepare_path, createOrFindParentByPath, errorf.
  apply keeps_bind; [apply keeps_wrap, namespaceStore_CreateOrFind_keeps|intros n].
  apply keeps_bind; [apply keeps_wrap, createOrFindParents_keeps|intros p]. apply keeps_ret.
Qed.

Lemma mapMediaType_keeps t : keeps I (mapMediaType t).
Proof. unfold mapMediaType, errorf. keeps_tac. Qed.
#[local] Hint Resolve repositoryStore_Create_keeps repositoryStore_CreateOrFind_keeps prepare_path_keeps mapMediaType_keeps : keeps.

(** The row that a manifest is stored in can be read. *)
Lemma manifestStore_Create_keeps now m : keeps I (manifestStore_Create now m).
Proof.
  unfold manifestStore_Create, errorf. apply keeps_newDigest. intros x Hx. apply keeps_bind; [keeps_tac|intros _].
  apply (keeps_bind_post _ (λ c, match c with
    | Some c => (∃ d, Parse c = Ret d) ∧ is_Some (mf_Configuration m) | None => True end)).
  - destruct (mf_Configuration m) as [c|]; [|by intros t Ht]. intros t Ht. apply wp_bind, wp_newDigest; [intros y Hy|done].
    apply wp_bind. eapply wp_mono; [by apply mapMediaType_keeps|]. intros [u|e|] t' Ht'; [|done..]. split; [done|].
    split; [|done]. exists (cfg_Digest c). by apply Parse_NewDigest.
  - intros c Hc. apply keeps_wrap, keeps_exec. intros D a D' H. eapply (st_insert_manifest _ HI _ _ _ (mf_Digest m)); [done|].
    split; [done|]. cbn. destruct c as [c|]; [|done]. destruct Hc as [? [cfg ->]]. by split; [|eexists].
Qed.
#[local] Hint Resolve manifestStore_Create_keeps : keeps.

Lemma run_op_stable op : keeps I (run_op op).
Proof.
  destruct op; cbn [run_op]; unfold ignore, blobStore_Create, blobStore_CreateOrFind, blobStore_FindByDigest,
    manifestStore_AssociateManifest, manifestStore_DissociateManifest,
    manifestStore_AssociateLayerBlob, manifestStore_DissociateLayerBlob, manifestStore_Delete,
    tagStore_CreateOrUpdate, repositoryStore_UntagManifest, repositoryStore_DeleteTagByName,
    repositoryStore_DeleteManifest, repositoryStore_LinkBlob, repositoryStore_UnlinkBlob,
    repositoryStore_CreateByPath, repositoryStore_CreateOrFindByPath, repositoryStore_Update,
    gcSettingsStore_UpdateAllReviewAfterDefaults, errorf; keeps_tac; intros D ret D' HD.
  - destruct (insert_blob _ _ _ D) as [[[] D1]|e|] eqn:Hi; intros [= <- <-]. by eapply st_insert_blob.
  - by eapply st_insert_blob.
  - by apply st_insert_reference.
  - unfold delete_reference. destruct (delete_references _ _ D) as [D1|e|] eqn:Hd; intros [= <- <-].
    by eapply st_delete_references.
  - by apply st_insert_layer.
  - intros [= <- <-]. by apply st_delete_layers.
  - by apply st_delete_manifest.
  - by apply st_upsert_tag.
  - intros [= <- <-]. by apply st_delete_tags.
  - unfold delete_tag. intros [= <- <-]. by apply st_delete_tags.
  - unfold delete_manifest_by_digest. destruct (manifest_by_digest _ _ _ D); [|by intros [= <- <-]]. by apply st_delete_manifest.
  - by apply st_insert_repository_blob.
  - by apply st_delete_repository_blob.
  - by apply st_update_repository.
  - intros [= <- <-]. by apply st_set_defaults.
Qed.
Lemma run_ops_stable ops : keeps I (run_ops ops).
Proof. induction ops as [|op ops IH]; [apply keeps_ret|]. apply keeps_bind; [apply run_op_stable|done]. Qed.
End stable.
End ops.
End StoreOps.
