(* ===== verification/RepositoryTree.v ===== *)
(** * The tree of repositories

    The repositories that registry/datastore/repository.go creates by path form
    a tree that follows the paths: every prefix of a path is a repository, and
    is the parent of the next longer one.  The invariant [tree] says so; the
    creations keep it whatever fails, and the recursive queries answer by the
    paths. *)

From stdpp Require Import sorting.
From S2P Require Import Prelude GoStd Digest Driver Database Datastore Transactions Repositories.

Module RepositoryTree.
Import Database Datastore Transactions Repositories.

(** ** Paths *)

Abbreviation good_path ws := (Forall (λ w, good_comp w = true) ws).
Abbreviation path_of ws := (Join ws "/").

Lemma good_no_slash ws : good_path ws → Forall (λ w, no_byte slash w = true) ws.
Proof. intros H. eapply Forall_impl; [exact H|]. intros w. apply good_comp_no_slash. Qed.
Lemma Split_path ws : good_path ws → ws ≠ [] → Split slash (path_of ws) = ws.
Proof. intros H Hne. apply Split_Join; [done|by apply good_no_slash]. Qed.
Lemma path_inj ws vs : good_path ws → good_path vs → ws ≠ [] → vs ≠ [] → path_of ws = path_of vs → ws = vs.
Proof. intros Hw Hv Hne Hne' He. rewrite <-(Split_path ws), <-(Split_path vs) by done. by rewrite He. Qed.
Lemma Clean_path ws : good_path ws → ws ≠ [] → Clean (path_of ws) = path_of ws.
Proof.
  intros H Hne. destruct ws as [|w ws]; [done|]. rewrite <-(path_Join_relative w ws H) at 2. cbn [path_Join].
  apply Forall_cons in H as [Hw _]. apply good_comp_ne in Hw as [Hw _]. by rewrite bool_decide_false.
Qed.
Lemma split_path ws : good_path ws → ws ≠ [] → splitRepositoryPath (path_of ws) = ws.
Proof. intros H Hne. unfold splitRepositoryPath. by rewrite Clean_path, Split_path. Qed.
Lemma repositoryName_path ws w : good_path (ws ++ [w]) → repositoryName (path_of (ws ++ [w])) = w.
Proof.
  intros H. unfold repositoryName. rewrite split_path by (done || by destruct ws).
  rewrite length_app. cbn [length]. replace (length ws + 1 - 1) with (length ws) by lia. by rewrite list_lookup_middle.
Qed.
Lemma parent_paths ws :
  good_path ws → ws ≠ [] →
  repositoryParentPaths (path_of ws) = (λ i, path_of (take (i + 1) ws)) <$> seq 0 (length ws - 1).
Proof.
  intros H Hne. unfold repositoryParentPaths. rewrite split_path by done. rewrite length_take.
  replace (Nat.min (length ws - 1) (length ws)) with (length ws - 1) by lia.
  apply list_fmap_ext. intros j i [-> Hi]%lookup_seq. rewrite take_take. f_equal. f_equal. lia.
Qed.

(** ** Lengths *)

Lemma char_length_app s t : (char_length (s +:+ t) = char_length s + char_length t)%Z.
Proof. induction s as [|c s IH]; [done|]. rewrite str_app_cons. cbn [char_length]. rewrite IH. lia. Qed.
Lemma char_length_nonneg s : (0 ≤ char_length s)%Z.
Proof. induction s as [|c s IH]; cbn [char_length]; [lia|]. by destruct (_ && _); lia. Qed.
Lemma char_length_slash s : (char_length (String slash s) = 1 + char_length s)%Z.
Proof. reflexivity. Qed.
Lemma char_length_path ws vs : (char_length (path_of ws) ≤ char_length (path_of (ws ++ vs)))%Z.
Proof.
  induction ws as [|w ws IH]; [apply char_length_nonneg|]. destruct ws as [|w' ws]; cbn [app] in *.
  - destruct vs as [|v vs]; [done|]. rewrite Join_cons2, char_length_app, Join_one. pose proof (char_length_nonneg (String slash (path_of (v :: vs)))). lia.
  - rewrite !Join_cons2, !char_length_app, !char_length_slash. lia.
Qed.
Lemma char_length_last ws w : (char_length w ≤ char_length (path_of (ws ++ [w])))%Z.
Proof.
  induction ws as [|v ws IH]; cbn [app]; [by rewrite Join_one|]. destruct (ws ++ [w]) as [|x l] eqn:He; [by destruct ws|].
  rewrite Join_cons2, char_length_app, char_length_slash. pose proof (char_length_nonneg v). lia.
Qed.
Lemma too_long_prefix ws vs : too_long (path_of (ws ++ vs)) = false → too_long (path_of ws) = false.
Proof. unfold too_long. rewrite !Z.ltb_ge. pose proof (char_length_path ws vs). lia. Qed.
Lemma too_long_head w ws : too_long (path_of (w :: ws)) = false → too_long w = false.
Proof. intros H%(too_long_prefix [w] ws). by rewrite Join_one in H. Qed.
Lemma too_long_last ws w : too_long (path_of (ws ++ [w])) = false → too_long w = false.
Proof. unfold too_long. rewrite !Z.ltb_ge. pose proof (char_length_last ws w). lia. Qed.

(** ** The invariant *)

(** The parent of a repository with the components [ws] before its name. *)
Definition parent_of (D : db) (n : Z) (ws : list string) (p : option Z) : Prop :=
  match ws with
  | [] => p = None
  | _ => ∃ i y, p = Some i ∧ repositories D !! (n, i) = Some y ∧ r_path y = path_of ws
  end.
(** A row that stands where its path says. *)
Definition placed (D : db) (n : Z) (x : repository_row) : Prop := ∃ ws w,
  good_path (ws ++ [w]) ∧ r_path x = path_of (ws ++ [w]) ∧ r_name x = w ∧
  top_level_namespaces D !! n = head (ws ++ [w]) ∧ parent_of D n ws (r_parent_id x).

Record tree (D : db) : Prop := {
  tr_ns_seq : (0 < namespaces_id_seq D)%Z;
  tr_ns i x : top_level_namespaces D !! i = Some x → (0 < i < namespaces_id_seq D)%Z;
  tr_ns_name i j x : top_level_namespaces D !! i = Some x → top_level_namespaces D !! j = Some x → i = j;
  tr_seq : (0 < repositories_id_seq D)%Z;
  tr_id k x : repositories D !! k = Some x → (0 < k.2 < repositories_id_seq D)%Z;
  tr_id_unique k k' x x' : repositories D !! k = Some x → repositories D !! k' = Some x' → k.2 = k'.2 → k = k';
  tr_path k k' x x' : repositories D !! k = Some x → repositories D !! k' = Some x' → r_path x = r_path x' → k = k';
  tr_placed k x : repositories D !! k = Some x → placed D k.1 x;
}.

(** The tables of the repositories have grown, by repositories with the given
    paths and by at most the given namespace; the other tables are the same. *)
Definition content (D : db) : db :=
  set_top_level_namespaces ∅ (set_repositories ∅ (set_namespaces_id_seq 0 (set_repositories_id_seq 0 D))).
Record grown (top : option string) (paths : list string) (D D' : db) : Prop := {
  gr_tree : tree D';
  gr_content : content D' = content D;
  gr_ns : top_level_namespaces D ⊆ top_level_namespaces D';
  gr_repositories : repositories D ⊆ repositories D';
  gr_new k x : repositories D' !! k = Some x → repositories D !! k = Some x ∨ r_path x ∈ paths;
  gr_ns_new i x : top_level_namespaces D' !! i = Some x → top_level_namespaces D !! i = Some x ∨ top = Some x;
}.
Lemma grown_refl top ps D : tree D → grown top ps D D.
Proof. intros H. split; try done; by left. Qed.
Lemma grown_trans top ps D1 D2 D3 : grown top ps D1 D2 → grown top ps D2 D3 → grown top ps D1 D3.
Proof.
  intros [T1 C1 N1 R1 X1 Y1] [T2 C2 N2 R2 X2 Y2]. split; [done|congruence|by etrans|by etrans|..].
  - intros k x [?|?]%X2; [by apply X1|by right].
  - intros i x [?|?]%Y2; [by apply Y1|by right].
Qed.
Lemma grown_mono top ps ps' D D' : ps ⊆ ps' → grown top ps D D' → grown top ps' D D'.
Proof. intros Hs [T C N R X Y]. split; try done. intros k x [?|?]%X; [by left|right; set_solver]. Qed.
Lemma grown_top top ps D D' : grown None ps D D' → grown top ps D D'.
Proof. intros [T C N R X Y]. split; try done. intros i x [?|?]%Y; [by left|done]. Qed.

Lemma parent_of_mono D D' n ws p : repositories D ⊆ repositories D' → parent_of D n ws p → parent_of D' n ws p.
Proof.
  intros Hs. destruct ws; [done|]. intros (i & y & -> & Hy & Hp). exists i, y. split_and!; [done| |done].
  by eapply lookup_weaken.
Qed.
Lemma placed_mono D D' n x :
  repositories D ⊆ repositories D' → top_level_namespaces D ⊆ top_level_namespaces D' → placed D n x → placed D' n x.
Proof.
  intros Hr Hn (ws & w & Hg & Hp & Hw & Hh & Hpar). exists ws, w. split_and!; try done.
  - destruct (head (ws ++ [w])) as [v|] eqn:He; [by eapply lookup_weaken|by destruct ws].
  - by eapply parent_of_mono.
Qed.

(** ** The statements *)

Lemma insert_namespace_spec name D :
  tree D → too_long name = false →
  ∃ a D', insert_namespace name D = Ret (a, D') ∧ grown (Some name) [] D D' ∧
    match a with
    | Some i => top_level_namespaces D' !! i = Some name
    | None => ∃ i, top_level_namespaces D !! i = Some name
    end.
Proof.
  intros H Hl. unfold insert_namespace. rewrite Hl. case_bool_decide as He; eexists _, _; (split; [reflexivity|]).
  - split; [|destruct He as (i & x & Hi & <-); by eauto]. destruct H. split; try done; [|by left..].
    split; cbn; try done; [lia|]. intros i x Hi%tr_ns0. lia.
  - set (i := namespaces_id_seq D) in *.
    assert (top_level_namespaces D !! i = None) as Hfresh.
    { apply eq_None_not_Some. intros [x Hx%(tr_ns D H)]. lia. }
    assert (∀ j x, <[i:=name]> (top_level_namespaces D) !! j = Some x →
      j = i ∧ x = name ∨ j ≠ i ∧ top_level_namespaces D !! j = Some x) as Hcase by (intros j x; rewrite lookup_insert_Some; naive_solver).
    split; [|by cbn; rewrite lookup_insert_eq]. destruct H.
    split; cbn; try done; [split; cbn; try done|by apply insert_subseteq|by left|].
    + lia.
    + intros j x [[-> ->]|[_ Hj%tr_ns0]]%Hcase; lia.
    + assert (∀ j, top_level_namespaces D !! j ≠ Some name) as Hno by (intros j Hj; apply He; by exists j, name).
      intros j j' x [[-> ->]|[? ?]]%Hcase [[-> ?]|[? ?]]%Hcase; try done; [by exfalso; eapply Hno|subst; by exfalso; eapply Hno|by eapply tr_ns_name0].
    + intros k x Hx%tr_placed0. eapply placed_mono, Hx; [done|]. by apply insert_subseteq.
    + intros j x [[-> ->]|[_ ?]]%Hcase; [by right|by left].
Qed.

Lemma insert_repository_spec n x D :
  tree D → placed D n x → repository_check x = false →
  ∃ a D', insert_repository n x D = Ret (a, D') ∧ grown None [r_path x] D D' ∧
    match a with
    | Some i => repositories D' !! (n, i) = Some x ∧ ∀ k y, repositories D !! k = Some y → r_path y ≠ r_path x
    | None => ∃ k y, repositories D !! k = Some y ∧ r_path y = r_path x
    end.
Proof.
  intros H Hp Hc. unfold insert_repository. rewrite Hc. case_bool_decide as He.
  { eexists _, _. split; [reflexivity|]. split; [|destruct He as (k & y & Hk & Hy); by exists k, y].
    destruct H. split; try done; [|by left..]. split; cbn; try done; [lia|]. intros k y Hk%tr_id0. lia. }
  set (i := repositories_id_seq D) in *.
  assert (∀ m, repositories D !! (m, i) = None) as Hfresh.
  { intros m. apply eq_None_not_Some. intros [y Hy%(tr_id D H)]. cbn in Hy. lia. }
  assert (repositories D ⊆ <[(n, i):=x]> (repositories D)) as Hsub by by apply insert_subseteq.
  assert (∀ D1, top_level_namespaces D1 = top_level_namespaces D → repositories D1 = <[(n, i):=x]> (repositories D) →
    repository_fk n x D1 = true) as Hfk.
  { intros D1 HN HR. unfold repository_fk. rewrite HN, HR. destruct Hp as (ws & w & _ & _ & _ & Hh & Hpar). apply andb_true_iff. split.
    - apply bool_decide_eq_true. rewrite Hh. by destruct ws; eexists.
    - destruct ws as [|v ws]; [by rewrite Hpar|]. destruct Hpar as (p & y & -> & Hy & _). apply bool_decide_eq_true.
      exists y. by eapply lookup_weaken. }
  rewrite Hfk by done. eexists _, _. split; [reflexivity|].
  assert (∀ k y, <[(n, i):=x]> (repositories D) !! k = Some y →
    k = (n, i) ∧ y = x ∨ k ≠ (n, i) ∧ repositories D !! k = Some y) as Hcase by (intros k y; rewrite lookup_insert_Some; naive_solver).
  assert (∀ k y, repositories D !! k = Some y → r_path y ≠ r_path x) as Hno by (intros k y Hk Hy; apply He; by exists k, y).
  split; [|by cbn; rewrite lookup_insert_eq]. destruct H.
  split; cbn; try done; [split; cbn; try done|..].
  - lia.
  - intros k y [[-> ->]|[_ Hk%tr_id0]]%Hcase; cbn; lia.
  - intros k k' y y' [[-> ->]|[_ Hk]]%Hcase [[-> ->]|[_ Hk']]%Hcase Hkk; cbn in *; [done|..].
    + apply tr_id0 in Hk'. lia.
    + apply tr_id0 in Hk. lia.
    + by eapply tr_id_unique0.
  - intros k k' y y' [[-> ->]|[_ Hk]]%Hcase [[-> ->]|[_ Hk']]%Hcase Hkk; [done|..].
    + by destruct (Hno _ _ Hk').
    + by destruct (Hno _ _ Hk).
    + by eapply tr_path0.
  - intros k y [[-> ->]|[_ Hk%tr_placed0]]%Hcase; by eapply placed_mono.
  - intros k y [[-> ->]|[_ Hk]]%Hcase; [by right; left|by left].
  - by left.
Qed.

(** ** Lookups *)

(** The repository [r] is a row of the database. *)
Definition is_repository (D : db) (r : Repository) : Prop :=
  repositories D !! (rp_NamespaceID r, rp_ID r) = Some (row_of r).
Lemma is_repository_scan D k x : repositories D !! k = Some x → is_repository D (scanFullRepository (k, x)).
Proof. by destruct k, x. Qed.
Lemma scan_row r : scanFullRepository ((rp_NamespaceID r, rp_ID r), row_of r) = r.
Proof. by destruct r. Qed.
Lemma elem_of_all D r : r ∈ all_repositories D ↔ is_repository D r.
Proof.
  unfold all_repositories. rewrite list_elem_of_fmap. split.
  - intros ([k x] & -> & Hx%elem_of_map_to_list). by apply is_repository_scan.
  - intros Hr. exists ((rp_NamespaceID r, rp_ID r), row_of r). by rewrite scan_row, elem_of_map_to_list.
Qed.

Lemma is_repository_id D r r' : tree D → is_repository D r → is_repository D r' → rp_ID r = rp_ID r' → r = r'.
Proof.
  intros H Hr Hr' Hi. pose proof (tr_id_unique D H _ _ _ _ Hr Hr' Hi) as [= Hn _].
  unfold is_repository in *. rewrite Hn, Hi in Hr. rewrite Hr in Hr'. destruct r, r'; cbn in *. by simplify_eq.
Qed.
Lemma is_repository_path D r r' : tree D → is_repository D r → is_repository D r' → rp_Path r = rp_Path r' → r = r'.
Proof.
  intros H Hr Hr' Hp. apply (is_repository_id D); [done..|]. by pose proof (tr_path D H _ _ _ _ Hr Hr' Hp) as [= _ ?].
Qed.

Lemma by_path_Some D p r : tree D → repository_by_path p D = Some r ↔ is_repository D r ∧ rp_Path r = p.
Proof.
  intros H. unfold repository_by_path. split.
  - by intros [Hr%elem_of_all Hp]%head_filter_Some.
  - intros [Hr Hp]. destruct (head _) as [r'|] eqn:Hh.
    + apply head_filter_Some in Hh as [Hr'%elem_of_all Hp']. f_equal. apply (is_repository_path D); [done..|congruence].
    + rewrite head_filter_None in Hh. by destruct (Hh r); [apply elem_of_all|].
Qed.
Lemma namespace_by_name_Some D name i :
  tree D → top_level_namespaces D !! i = Some name → namespace_by_name name D = Some {| ns_ID := i; ns_Name := name |}.
Proof.
  intros H Hi. unfold namespace_by_name. destruct (head _) as [[j x]|] eqn:Hh.
  - apply head_filter_Some in Hh as [Hj%elem_of_map_to_list Hx]. cbn in Hx. subst x. cbn.
    by rewrite (tr_ns_name D H _ _ _ Hi Hj).
  - rewrite head_filter_None in Hh. by destruct (Hh (i, name)); [apply elem_of_map_to_list|].
Qed.

(** ** The parents *)

(** The paths of a repository and of its ancestors. *)
Definition prefixes (ws : list string) : list string := (λ i, path_of (take (i + 1) ws)) <$> seq 0 (length ws).
Lemma elem_of_prefixes ws p : p ∈ prefixes ws ↔ ∃ us vs, ws = us ++ vs ∧ us ≠ [] ∧ p = path_of us.
Proof.
  unfold prefixes. rewrite list_elem_of_fmap. setoid_rewrite elem_of_seq. split.
  - intros (i & -> & _ & Hi). exists (take (i + 1) ws), (drop (i + 1) ws). rewrite take_drop. split_and!; [done| |done].
    intros He%(f_equal length). rewrite length_take in He. cbn in He. lia.
  - intros (us & vs & -> & Hne & ->). destruct (decide (length us = 0)) as [H0%length_zero_iff_nil|H0]; [done|].
    exists (length us - 1). rewrite length_app. split; [|lia].
    replace (length us - 1 + 1) with (length us) by lia. by rewrite take_app_length.
Qed.

Lemma prefix_self ws w : [path_of (ws ++ [w])] ⊆ prefixes (ws ++ [w]).
Proof. intros q ->%list_elem_of_singleton. apply elem_of_prefixes. exists (ws ++ [w]), []. rewrite app_nil_r. by destruct ws. Qed.

Lemma prefixes_init ws w : prefixes ws ⊆ prefixes (ws ++ [w]).
Proof.
  intros q (us & vs & -> & Hu & ->)%elem_of_prefixes. apply elem_of_prefixes. exists us, (vs ++ [w]). by rewrite app_assoc.
Qed.

(** The repository with the components [ws], none if there are none. *)
Definition standing (D : db) (n : Z) (ws : list string) (r : option Repository) : Prop :=
  match ws with
  | [] => r = None
  | _ => ∃ r', r = Some r' ∧ is_repository D r' ∧ rp_Path r' = path_of ws ∧ rp_NamespaceID r' = n
  end.
Lemma standing_placed D n ws w r :
  good_path (ws ++ [w]) → top_level_namespaces D !! n = head (ws ++ [w]) → standing D n ws r →
  placed D n {| r_name := w; r_path := path_of (ws ++ [w]); r_parent_id := rp_ID <$> r |}.
Proof.
  intros Hg Hh Hs. exists ws, w. split_and!; try done. destruct ws as [|v ws]; [by rewrite Hs|].
  destruct Hs as (r' & -> & Hr & Hp & <-). by exists (rp_ID r'), (row_of r').
Qed.
Lemma standing_id D n ws r :
  tree D → standing D n ws r →
  (if (0 <? default 0 (rp_ID <$> r))%Z then Some (default 0 (rp_ID <$> r))%Z else None) = rp_ID <$> r.
Proof.
  intros H Hs. destruct ws as [|v ws]; [by rewrite Hs|]. destruct Hs as (r' & -> & Hr%(tr_id D H) & _). cbn in *.
  by rewrite (proj2 (Z.ltb_lt _ _)) by lia.
Qed.
Lemma check_path ws w p :
  repository_check {| r_name := w; r_path := path_of (ws ++ [w]); r_parent_id := p |} = true →
  ∀ vs, too_long (path_of (ws ++ [w] ++ vs)) = true.
Proof.
  intros Hc vs. destruct (too_long (path_of (ws ++ [w] ++ vs))) eqn:Hl; [done|]. rewrite app_assoc in Hl.
  apply too_long_prefix in Hl. unfold repository_check in Hc. cbn in Hc. by rewrite Hl, (too_long_last ws) in Hc.
Qed.

(** ** The calls *)

Section calls.
Context {GD : GoDigest}.

Lemma namespaceStore_CreateOrFind_does name D (E : dberror → Prop) :
  tree D → (too_long name = true → ∀ e, E e) →
  does (namespaceStore_CreateOrFind name) D
    (λ n D', grown (Some name) [] D D' ∧ top_level_namespaces D' !! ns_ID n = Some name) (grown (Some name) [] D) E.
Proof.
  intros H Hl. unfold namespaceStore_CreateOrFind, errorf. destruct (too_long name) eqn:Ht.
  { eapply does_bind_fail, does_wrap, does_exec_fail; [by unfold insert_namespace; rewrite Ht|by apply grown_refl|by apply Hl]. }
  destruct (insert_namespace_spec name D H Ht) as (a & D1 & Hi & Hg & Ha).
  eapply does_bind_eq; [eapply does_wrap, does_exec; [done|done|by apply grown_refl]|].
  destruct a as [i|]; [by apply does_ret|]. destruct Ha as [i Hi'].
  apply (lookup_weaken _ (top_level_namespaces D1)) in Hi'; [|apply Hg].
  unfold namespaceStore_FindByName, errorf. eapply does_bind_eq; [by eapply does_wrap, does_query|].
  erewrite namespace_by_name_Some; [by apply does_ret|apply Hg|done].
Qed.

(** A repository with a namespace, at its place. *)
Lemma repositoryStore_CreateOrFind_does r D (E : dberror → Prop) :
  tree D → placed D (rp_NamespaceID r) (row_of r) → (repository_check (row_of r) = true → ∀ e, E e) →
  does (repositoryStore_CreateOrFind r) D
    (λ r' D', grown None [rp_Path r] D D' ∧ is_repository D' r' ∧ rp_Path r' = rp_Path r ∧ rp_NamespaceID r' = rp_NamespaceID r)
    (grown None [rp_Path r] D) E.
Proof.
  intros H Hp Hc. assert (0 < rp_NamespaceID r)%Z as Hn.
  { destruct Hp as (ws & w & _ & _ & _ & Hh & _). destruct (head (ws ++ [w])) as [v|] eqn:He; [|by destruct ws].
    by apply (tr_ns D H) in Hh as [? _]. }
  unfold repositoryStore_CreateOrFind, errorf. rewrite bool_decide_false by lia.
  eapply (does_bind_eq _ _ _ r D); [by apply does_ret|]. destruct (repository_check (row_of r)) eqn:Ht.
  { eapply does_bind_fail, does_wrap, does_exec_fail; [by unfold insert_repository; rewrite Ht|by apply grown_refl|by apply Hc]. }
  destruct (insert_repository_spec (rp_NamespaceID r) (row_of r) D H Hp Ht) as (a & D1 & Hi & Hg & Ha).
  eapply does_bind_eq; [eapply does_wrap, does_exec; [done|done|by apply grown_refl]|].
  destruct a as [i|]; [apply does_ret; by destruct Ha|]. destruct Ha as (k & y & Hk%(lookup_weaken _ (repositories D1)) & Hy); [|apply Hg].
  pose proof (is_repository_scan _ _ _ Hk) as Hr. set (r' := scanFullRepository (k, y)) in *.
  unfold repositoryStore_FindByPath, errorf. eapply does_bind_eq; [by eapply does_wrap, does_query|].
  assert (repository_by_path (rp_Path r) D1 = Some r') as -> by (apply by_path_Some; [apply Hg|done]).
  apply does_ret. split_and!; try done. cbn.
  pose proof (gr_tree _ _ _ _ Hg) as H1. destruct (tr_placed _ H1 _ _ Hk) as (vs & v & Hgv & Hpv & _ & Hhv & _).
  destruct Hp as (ws & w & Hgw & Hpw & _ & Hhw & _). cbn in Hy, Hpw.
  assert (ws ++ [w] = vs ++ [v]) as Heq by (apply path_inj; [done|done|by destruct ws|by destruct vs|congruence]).
  rewrite Heq in Hhw. destruct (head (vs ++ [v])) as [u|] eqn:He; [|by destruct vs].
  symmetry. eapply (tr_ns_name _ H1 _ _ u); [|done]. eapply lookup_weaken; [done|apply Hg].
Qed.

(** The loop over the parents: [vs] are done, [us] are left. *)
Lemma createOrFindParents_does us : ∀ vs D n r (E : dberror → Prop),
  tree D → good_path (vs ++ us) → (too_long (path_of (vs ++ us)) = true → ∀ e, E e) →
  (vs ++ us ≠ [] → top_level_namespaces D !! ns_ID n = head (vs ++ us)) → standing D (ns_ID n) vs r →
  does (createOrFindParents n ((λ i, path_of (take (i + 1) (vs ++ us))) <$> seq (length vs) (length us))
         (default 0%Z (rp_ID <$> r)) r) D
    (λ r' D', grown None (prefixes (vs ++ us)) D D' ∧ standing D' (ns_ID n) (vs ++ us) r')
    (grown None (prefixes (vs ++ us)) D) E.
Proof.
  induction us as [|u us IH]; intros vs D n r E H Hg Hl Hn Hs; cbn [length seq fmap list_fmap createOrFindParents].
  { apply does_ret. rewrite app_nil_r. split; [by apply grown_refl|done]. }
  assert (take (length vs + 1) (vs ++ u :: us) = vs ++ [u]) as -> by (by rewrite take_app_add).
  assert (good_path (vs ++ [u])) as Hg1.
  { rewrite cons_middle, app_assoc in Hg. by apply Forall_app in Hg as [? _]. }
  assert (head (vs ++ u :: us) = head (vs ++ [u])) as Hh by by destruct vs.
  assert ([path_of (vs ++ [u])] ⊆ prefixes (vs ++ u :: us)) as Hpre.
  { intros p ->%list_elem_of_singleton. apply elem_of_prefixes.
    exists (vs ++ [u]), us. rewrite <-app_assoc. split_and!; [done|by destruct vs|done]. }
  rewrite repositoryName_path, (standing_id D (ns_ID n) vs) by done. eapply does_bind.
  { eapply does_wrap, does_mono; [apply repositoryStore_CreateOrFind_does|..]; [done|..]; cbn.
    - apply standing_placed; [done| |done]. rewrite <-Hh. apply Hn. by destruct vs.
    - intros Hc e. by apply Hl, (check_path _ _ _ Hc us).
    - intros a D1. exact id.
    - intros D1. by apply grown_mono.
    - intros e. exact id. }
  cbn. intros r1 D1 (Hgr & Hr1 & Hp1 & Hn1).
  assert (grown None (prefixes (vs ++ u :: us)) D D1) as Hgr' by by eapply grown_mono.
  specialize (IH (vs ++ [u]) D1 n (Some r1) E). rewrite <-app_assoc in IH. cbn [app] in IH.
  rewrite length_app, Nat.add_1_r in IH. eapply does_mono; [apply IH|..]; try done.
  - apply Hgr.
  - intros Hne. apply Hn in Hne as Hx. destruct (head (vs ++ u :: us)) as [v|] eqn:He; [|by destruct vs].
    eapply lookup_weaken; [done|apply Hgr].
  - destruct vs; by exists r1.
  - intros a D2 [? ?]. split; [by eapply grown_trans|done].
  - intros D2 ?. by eapply grown_trans.
Qed.

Lemma prepare_path_does ws w D (E : dberror → Prop) :
  tree D → good_path (ws ++ [w]) → (too_long (path_of (ws ++ [w])) = true → ∀ e, E e) →
  does (prepare_path (path_of (ws ++ [w]))) D
    (λ r D', grown (head (ws ++ [w])) (prefixes ws) D D' ∧ placed D' (rp_NamespaceID r) (row_of r) ∧
      rp_Path r = path_of (ws ++ [w]) ∧ rp_Name r = w)
    (grown (head (ws ++ [w])) (prefixes ws) D) E.
Proof.
  intros H Hg Hl. set (p := path_of (ws ++ [w])) in *. assert (ws ++ [w] ≠ []) as Hne by by destruct ws.
  unfold prepare_path, errorf, p. rewrite Split_path, repositoryName_path by done. fold p.
  destruct (head (ws ++ [w])) as [v|] eqn:Hv; [change (default "" (Some v)) with v|by destruct ws]. eapply does_bind.
  { eapply does_wrap, does_mono; [apply namespaceStore_CreateOrFind_does|..]; [done|..].
    - intros Ht e. apply Hl. destruct (too_long p) eqn:Hp; [done|]. unfold p in Hp.
      destruct (ws ++ [w]) as [|v' l]; [done|]. injection Hv as ->. by rewrite (too_long_head v l) in Ht.
    - intros n D1. exact id.
    - intros D1. apply grown_mono. set_solver.
    - intros e. exact id. }
  intros n D1 [Hg1 Hn]. unfold createOrFindParentByPath, p. rewrite parent_paths by done. fold p.
  assert (good_path ws) as Hgw by by apply Forall_app in Hg as [? _].
  assert (((λ i, path_of (take (i + 1) (ws ++ [w]))) <$> seq 0 (length (ws ++ [w]) - 1)) =
    ((λ i, path_of (take (i + 1) ([] ++ ws))) <$> seq (@length string []) (length ws))) as ->.
  { rewrite length_app, Nat.add_sub. apply list_fmap_ext. intros j i [-> Hi]%lookup_seq. cbn [app length].
    by rewrite take_app_le by (cbn; lia). }
  eapply does_bind.
  { eapply does_wrap, does_mono; [apply (createOrFindParents_does ws [] D1 n None)|..]; try done.
    - apply Hg1.
    - intros Ht e. apply Hl. destruct (too_long p) eqn:Hp; [done|]. apply too_long_prefix in Hp. cbn [app] in Ht. congruence.
    - intros Hw. rewrite Hn, <-Hv. by destruct ws.
    - intros D2 Hg2. by eapply grown_trans, grown_top, Hg2; eapply grown_mono, Hg1; set_solver.
    - intros e. exact id. }
  intros r D2 [Hg2 Hs]. apply does_ret. split_and!; try done.
  - by eapply grown_trans, grown_top, Hg2; eapply grown_mono, Hg1; set_solver.
  - apply standing_placed; [done| |done]. rewrite Hv. eapply lookup_weaken; [done|apply Hg2].
Qed.

Lemma repositoryStore_CreateOrFindByPath_does ws w D (E : dberror → Prop) :
  tree D → good_path (ws ++ [w]) → (too_long (path_of (ws ++ [w])) = true → ∀ e, E e) →
  does (repositoryStore_CreateOrFindByPath (path_of (ws ++ [w]))) D
    (λ r D', grown (head (ws ++ [w])) (prefixes (ws ++ [w])) D D' ∧ is_repository D' r ∧ rp_Path r = path_of (ws ++ [w]))
    (grown (head (ws ++ [w])) (prefixes (ws ++ [w])) D) E.
Proof.
  intros H Hg Hl. unfold repositoryStore_CreateOrFindByPath. eapply does_bind.
  { eapply does_mono; [by apply (prepare_path_does _ _ _ E)|..]; [done| |done].
    intros D1. apply grown_mono, prefixes_init. }
  intros r D1 (Hg0 & Hp & Hr & Hn). cbn beta.
  assert (grown (head (ws ++ [w])) (prefixes (ws ++ [w])) D D1) as Hg1 by (by eapply grown_mono, Hg0; apply prefixes_init).
  eapply does_mono; [apply repositoryStore_CreateOrFind_does|..]; [apply Hg1|done|..].
  - intros Hc e. apply Hl. unfold row_of in Hc. rewrite Hr, Hn in Hc. by pose proof (check_path _ _ _ Hc []) as Hx.
  - rewrite Hr. intros r' D2 (Hg2 & Hr' & -> & _). split_and!; try done. eapply grown_trans; [done|]. by eapply grown_top, grown_mono; [apply prefix_self|].
  - rewrite Hr. intros D2 Hg2. eapply grown_trans; [done|]. by eapply grown_top, grown_mono; [apply prefix_self|].
  - intros e. exact id.
Qed.

(** [Create] does not find: it fails when there is a repository at the path. *)
Lemma repositoryStore_CreateByPath_does ws w D (E : dberror → Prop) :
  tree D → good_path (ws ++ [w]) → (too_long (path_of (ws ++ [w])) = true → ∀ e, E e) →
  ((∃ r, is_repository D r ∧ rp_Path r = path_of (ws ++ [w])) → E (Wrap "creating repository" (PgError (UniqueViolation "repositories")))) →
  does (repositoryStore_CreateByPath (path_of (ws ++ [w]))) D
    (λ r D', grown (head (ws ++ [w])) (prefixes (ws ++ [w])) D D' ∧ is_repository D' r ∧ rp_Path r = path_of (ws ++ [w]) ∧
      ∀ r', is_repository D r' → rp_Path r' ≠ path_of (ws ++ [w]))
    (grown (head (ws ++ [w])) (prefixes (ws ++ [w])) D) E.
Proof.
  intros H Hg Hl He. unfold repositoryStore_CreateByPath. eapply does_bind.
  { eapply does_mono; [by apply (prepare_path_does _ _ _ E)|..]; [done| |done].
    intros D1. apply grown_mono, prefixes_init. }
  intros r D1 (Hg0 & Hp & Hr & Hn). cbn beta.
  assert (grown (head (ws ++ [w])) (prefixes (ws ++ [w])) D D1) as Hg1 by (by eapply grown_mono, Hg0; apply prefixes_init). unfold repositoryStore_Create, errorf.
  destruct (repository_check (row_of r)) eqn:Hc.
  { eapply does_bind_fail, does_wrap, does_exec_fail; [by unfold insert_repository; rewrite Hc|done|].
    apply Hl. unfold row_of in Hc. rewrite Hr, Hn in Hc. by pose proof (check_path _ _ _ Hc []) as Hx. }
  destruct (insert_repository_spec (rp_NamespaceID r) (row_of r) D1 (gr_tree _ _ _ _ Hg1) Hp Hc) as (a & D2 & Hi & Hg2 & Ha).
  destruct a as [i|].
  - eapply does_bind_eq; [eapply does_wrap, does_exec; [by rewrite Hi|done|done]|]. apply does_ret. destruct Ha as [Hi' Hno]. split_and!; try done.
    + eapply grown_trans, grown_top, grown_mono, Hg2; [done|]. cbn. rewrite Hr. apply prefix_self.
    + intros r' Hr'. rewrite <-Hr. eapply (Hno _ (row_of r')), lookup_weaken; [exact Hr'|apply Hg1].
  - eapply does_bind_fail, does_wrap, does_exec_fail; [by rewrite Hi|done|]. apply He.
    destruct Ha as (k & y & Hk & Hy). cbn in Hy. rewrite Hr in Hy. exists (scanFullRepository (k, y)).
    apply (gr_new _ _ _ _ Hg0) in Hk as [Hk|(us & vs & -> & Hu & Hq)%elem_of_prefixes]; [by split; [apply is_repository_scan|]|].
    rewrite Hy in Hq. apply path_inj in Hq; [|done|by rewrite <-app_assoc in Hg; apply Forall_app in Hg as [? _]|by destruct us|done].
    apply (f_equal length) in Hq. rewrite !length_app in Hq. cbn in Hq. lia.
Qed.

End calls.
End RepositoryTree.
