(* ===== verification/RepositoryQueries.v ===== *)
(** * The recursive queries for repositories

    The recursive queries of registry/datastore/repository.go for ancestors and
    descendants end on the trees of RepositoryTree.v, and answer as the paths
    say. *)

From stdpp Require Import sorting.
From S2P Require Import Prelude GoStd Digest Driver Database Datastore Transactions Repositories RepositoryTree.

Module RepositoryQueries.
Import Database Datastore Transactions Repositories RepositoryTree.

(** ** Ancestors in the tree *)

Lemma is_repository_placed D r :
  tree D → is_repository D r → ∃ ws w,
    good_path (ws ++ [w]) ∧ rp_Path r = path_of (ws ++ [w]) ∧ rp_Name r = w ∧
    top_level_namespaces D !! rp_NamespaceID r = head (ws ++ [w]) ∧ parent_of D (rp_NamespaceID r) ws (rp_ParentID r).
Proof. intros H Hr. exact (tr_placed D H _ _ Hr). Qed.

(** The parent of a repository that is not at the top. *)
Lemma parent_exists D r ws w :
  tree D → is_repository D r → good_path (ws ++ [w]) → rp_Path r = path_of (ws ++ [w]) → ws ≠ [] →
  ∃ p, is_repository D p ∧ rp_Path p = path_of ws ∧ rp_ParentID r = Some (rp_ID p) ∧ rp_NamespaceID p = rp_NamespaceID r.
Proof.
  intros H Hr Hg Hp Hne. destruct (is_repository_placed D r H Hr) as (us & u & Hg' & Hp' & _ & _ & Hpar).
  assert (us ++ [u] = ws ++ [w]) as [-> ->]%app_inj_tail by (apply path_inj; [done|done|by destruct us|by destruct ws|congruence]).
  destruct ws as [|v ws]; [done|]. destruct Hpar as (i & y & Hi & Hy & Hpy).
  exists (scanFullRepository ((rp_NamespaceID r, i), y)). by split_and!; [apply is_repository_scan|..].
Qed.
Lemma top_no_parent D r w : tree D → is_repository D r → good_path [w] → rp_Path r = path_of [w] → rp_ParentID r = None.
Proof.
  intros H Hr Hg Hp. destruct (is_repository_placed D r H Hr) as (us & u & Hg' & Hp' & _ & _ & Hpar).
  assert (us ++ [u] = [] ++ [w]) as [-> ->]%app_inj_tail by (apply path_inj; [done|done|by destruct us|done|by rewrite <-Hp']). done.
Qed.
Lemma prefix_exists D us vs : ∀ r,
  tree D → is_repository D r → good_path (us ++ vs) → rp_Path r = path_of (us ++ vs) → us ≠ [] →
  ∃ p, is_repository D p ∧ rp_Path p = path_of us.
Proof.
  induction vs as [|v vs IH] using rev_ind; intros r H Hr Hg Hp Hne; [rewrite app_nil_r in Hp; by exists r|].
  rewrite app_assoc in Hg, Hp. destruct (parent_exists D r (us ++ vs) v) as (p & Hp1 & Hp2 & _); [done..|by destruct us|].
  apply (IH p); try done. by apply Forall_app in Hg as [? _].
Qed.

(** A path has no more components than there are repositories. *)
Lemma NoDup_prefixes ws : good_path ws → NoDup (prefixes ws).
Proof.
  intros Hg. apply NoDup_fmap_2_strong; [|apply NoDup_seq]. intros i j [_ Hi]%elem_of_seq [_ Hj]%elem_of_seq He.
  apply path_inj in He; [|by apply Forall_take|by apply Forall_take|destruct ws; [cbn in *; lia|by rewrite Nat.add_1_r]..].
  apply (f_equal length) in He. rewrite !length_take in He. lia.
Qed.
Lemma depth_bound D r ws :
  tree D → is_repository D r → good_path ws → rp_Path r = path_of ws → length ws ≤ size (repositories D).
Proof.
  intros H Hr Hg Hp. assert (length (prefixes ws) = length ws) as <- by (unfold prefixes; by rewrite length_fmap, length_seq).
  assert (size (repositories D) = length (rp_Path <$> all_repositories D)) as ->.
  { unfold all_repositories. by rewrite !length_fmap, length_map_to_list. }
  apply submseteq_length, NoDup_submseteq; [by apply NoDup_prefixes|].
  intros q (us & vs & -> & Hu & ->)%elem_of_prefixes. destruct (prefix_exists D us vs r) as (p & Hp1 & <-); [done..|].
  apply list_elem_of_fmap. exists p. by rewrite elem_of_all.
Qed.

(** ** The recursive queries *)

Section recursion.
Context (next : Repository → list Repository).
(** The rows that the recursive term has reached after [k] steps. *)
Fixpoint level (k : nat) (w : list Repository) : list Repository :=
  match k with 0 => w | S k => level k (w ≫= next) end.
Lemma level_S k w : level (S k) w = level k w ≫= next.
Proof. revert w. induction k as [|k IH]; intros w; [done|]. cbn. by rewrite <-IH. Qed.
Lemma level_nil k : level k [] = [].
Proof. by induction k. Qed.
Lemma with_recursive_levels n : ∀ fuel w,
  n ≤ fuel → level n w = [] → with_recursive fuel next w = Some (concat ((λ k, level k w) <$> seq 0 n)).
Proof.
  induction n as [|n IH]; intros fuel w Hf Hn.
  { cbn in *. subst w. by destruct fuel. }
  destruct w as [|x w].
  { destruct fuel; [lia|]. cbn [with_recursive]. f_equal. symmetry. apply concat_nil_Forall, Forall_fmap, Forall_forall.
    intros k _. apply level_nil. }
  destruct fuel as [|fuel]; [lia|]. cbn [with_recursive]. rewrite (IH fuel) by (lia || done). cbn [fmap option_fmap option_map].
  rewrite <-cons_seq, fmap_cons. cbn [concat]. do 3 f_equal. rewrite <-(fmap_S_seq 0 n), <-list_fmap_compose. done.
Qed.
Lemma elem_of_levels n w x : x ∈ concat ((λ k, level k w) <$> seq 0 n) ↔ ∃ k, k < n ∧ x ∈ level k w.
Proof.
  rewrite elem_of_concat. setoid_rewrite list_elem_of_fmap. setoid_rewrite elem_of_seq. split.
  - intros (l & Hx & k & -> & Hk). exists k. split; [lia|done].
  - intros (k & Hk & Hx). exists (level k w). split; [done|]. exists k. split; [done|lia].
Qed.
Lemma NoDup_levels n w :
  (∀ k, NoDup (level k w)) → (∀ k k' x, x ∈ level k w → x ∈ level k' w → k = k') →
  NoDup (concat ((λ k, level k w) <$> seq 0 n)).
Proof.
  intros Hn Hd. rewrite <-flat_map_concat_map. change (flat_map _ (seq 0 n)) with (seq 0 n ≫= λ k, level k w).
  apply NoDup_bind; [|by intros ? _|apply NoDup_seq]. intros k k' x _ _ Hx Hx'. by eapply Hd.
Qed.
End recursion.

(** A query that starts at the repository [r] and whose levels are known. *)
Lemma NoDup_all D : tree D → NoDup (all_repositories D).
Proof.
  intros H. apply NoDup_fmap_2_strong; [|apply NoDup_map_to_list].
  intros [[n i] x] [[n' i'] x'] _ _. destruct x, x'. unfold scanFullRepository. cbn. by intros [= -> -> -> -> ->].
Qed.
Lemma anchor D r : tree D → is_repository D r → filter (λ r', rp_ID r' = rp_ID r) (all_repositories D) = [r].
Proof.
  intros H Hr. apply Permutation_singleton_r, NoDup_Permutation; [by apply NoDup_filter, NoDup_all|apply NoDup_singleton|].
  intros x. rewrite list_elem_of_filter, elem_of_all, list_elem_of_singleton. split; [|by intros ->].
  intros [Hi Hx]. by apply (is_repository_id D).
Qed.
Lemma recursive_query_levels D r next (P : nat → Repository → Prop) :
  tree D → is_repository D r →
  (∀ x, NoDup (next D x)) → (∀ k x y z, is_repository D x → is_repository D y → P k x → P k y → z ∈ next D x → z ∈ next D y → x = y) →
  (∀ k x, x ∈ level (next D) k [r] ↔ is_repository D x ∧ P k x) →
  (∀ k k' x, is_repository D x → P k x → P k' x → k = k') → (∀ k x, is_repository D x → P k x → k < size (repositories D)) →
  ∃ rs, recursive_query next (rp_ID r) D = Some rs ∧ NoDup rs ∧ ∀ x, x ∈ rs ↔ is_repository D x ∧ ∃ k, 0 < k ∧ P k x.
Proof.
  intros H Hr Hnd Hinj Hlev Hfun Hb. set (n := size (repositories D)).
  assert (level (next D) n [r] = []) as Hn.
  { apply elem_of_nil_inv. intros x [Hx Hp]%Hlev. pose proof (Hb _ _ Hx Hp). unfold n in *. lia. }
  assert (∀ k, NoDup (level (next D) k [r])) as Hnl.
  { induction k as [|k IH]; [apply NoDup_singleton|]. rewrite level_S. apply NoDup_bind; [|done|done].
    intros x y z [Hx Hpx]%Hlev [Hy Hpy]%Hlev. by eapply Hinj. }
  unfold recursive_query. rewrite anchor, (with_recursive_levels (next D) n) by (done || unfold n; lia).
  eexists. split; [reflexivity|]. split.
  - apply NoDup_filter, NoDup_levels; [done|]. intros k k' x [Hx Hp]%Hlev [_ Hp']%Hlev. by eapply Hfun.
  - assert (P 0 r) as H0 by (apply (proj1 (Hlev 0 r)); by left).
    intros x. rewrite list_elem_of_filter, elem_of_levels. split.
    + intros (Hx & k & _ & [Hx' Hp]%Hlev). split; [done|]. exists k. split; [|done]. destruct k; [|lia].
      assert (x ∈ level (next D) 0 [r]) as Hx0 by by apply Hlev. apply list_elem_of_singleton in Hx0. by subst x.
    + intros (Hx & k & Hk & Hp). split.
      * intros Hi. apply (is_repository_id D) in Hi; [|done..]. subst x. pose proof (Hfun _ _ _ Hx H0 Hp). lia.
      * exists k. split; [by eapply Hb|]. by apply Hlev.
Qed.

(** The repositories [k] levels below and above. *)
Definition below (ws : list string) (k : nat) (x : Repository) : Prop :=
  ∃ vs, good_path (ws ++ vs) ∧ length vs = k ∧ rp_Path x = path_of (ws ++ vs).
Definition above (ws : list string) (k : nat) (x : Repository) : Prop :=
  ∃ us vs, ws = us ++ vs ∧ us ≠ [] ∧ length vs = k ∧ rp_Path x = path_of us.

Lemma elem_of_children D x y : y ∈ children D x ↔ is_repository D y ∧ rp_ParentID y = Some (rp_ID x).
Proof. unfold children. rewrite list_elem_of_filter, elem_of_all. tauto. Qed.
Lemma elem_of_parents D x y : y ∈ parents D x ↔ is_repository D y ∧ rp_ParentID x = Some (rp_ID y).
Proof. unfold parents. rewrite list_elem_of_filter, elem_of_all. tauto. Qed.

Lemma below_level D r ws :
  tree D → is_repository D r → good_path ws → ws ≠ [] → rp_Path r = path_of ws →
  ∀ k x, x ∈ level (children D) k [r] ↔ is_repository D x ∧ below ws k x.
Proof.
  intros H Hr Hg Hne Hp. induction k as [|k IH]; intros x.
  { cbn. rewrite list_elem_of_singleton. split.
    - intros ->. split; [done|]. exists []. by rewrite app_nil_r.
    - intros (Hx & vs & _ & ->%nil_length_inv & Hx'). rewrite app_nil_r in Hx'. apply (is_repository_path D); [done..|congruence]. }
  rewrite level_S, list_elem_of_bind. setoid_rewrite elem_of_children. split.
  - intros (y & [Hx Hpar] & [Hy (vs & Hgv & <- & Hpy)]%IH). split; [done|].
    destruct (is_repository_placed D x H Hx) as (us & w & Hgx & Hpx & _ & _ & _).
    destruct us as [|u us]; [by rewrite (top_no_parent D x w) in Hpar|].
    destruct (parent_exists D x (u :: us) w) as (p & Hp1 & Hp2 & Hp3 & _); [done..|].
    assert (p = y) as -> by (apply (is_repository_id D); [done..|congruence]).
    assert (u :: us = ws ++ vs) as Hus.
    { apply path_inj; [by apply Forall_app in Hgx as [? _]|done|done|by destruct ws|congruence]. }
    rewrite Hus, <-app_assoc in *. exists (vs ++ [w]). split_and!; [done| |done]. rewrite length_app. cbn. lia.
  - intros (Hx & vs & Hgv & Hk & Hpx). destruct vs as [|w vs _] using rev_ind; [done|].
    rewrite app_assoc in Hgv, Hpx. destruct (parent_exists D x (ws ++ vs) w) as (p & Hp1 & Hp2 & Hp3 & _); [done..|by destruct ws|].
    exists p. split; [done|]. apply IH. split; [done|]. exists vs. split_and!; [by apply Forall_app in Hgv as [? _]| |done].
    rewrite length_app in Hk. cbn in Hk. lia.
Qed.
Lemma above_level D r ws :
  tree D → is_repository D r → good_path ws → ws ≠ [] → rp_Path r = path_of ws →
  ∀ k x, x ∈ level (parents D) k [r] ↔ is_repository D x ∧ above ws k x.
Proof.
  intros H Hr Hg Hne Hp. induction k as [|k IH]; intros x.
  { cbn. rewrite list_elem_of_singleton. split.
    - intros ->. split; [done|]. exists ws, []. by rewrite app_nil_r.
    - intros (Hx & us & vs & -> & _ & ->%nil_length_inv & Hx'). rewrite app_nil_r in Hp. apply (is_repository_path D); [done..|congruence]. }
  rewrite level_S, list_elem_of_bind. setoid_rewrite elem_of_parents. split.
  - intros (y & [Hx Hpar] & [Hy (us & vs & -> & Hu & <- & Hpy)]%IH). split; [done|].
    assert (good_path us) as Hgu by by apply Forall_app in Hg as [? _].
    destruct us as [|w us _] using rev_ind; [done|]. destruct us as [|u us]; [by rewrite (top_no_parent D y w) in Hpar|].
    destruct (parent_exists D y (u :: us) w) as (p & Hp1 & Hp2 & Hp3 & _); [done..|].
    assert (p = x) as -> by (apply (is_repository_id D); [done..|congruence]).
    exists (u :: us), ([w] ++ vs). by rewrite <-app_assoc.
  - intros (Hx & us & vs & -> & Hu & Hk & Hpx). destruct vs as [|w vs]; [done|].
    rewrite cons_middle, app_assoc in Hg, Hp.
    destruct (prefix_exists D (us ++ [w]) vs r) as (y & Hy1 & Hy2); [done..|by destruct us|].
    destruct (parent_exists D y us w) as (p & Hp1 & Hp2 & Hp3 & _); [done..| |done|done|]; [by apply Forall_app in Hg as [? _]|].
    exists y. split.
    + split; [done|]. by rewrite (is_repository_path D x p) by (done || congruence).
    + apply IH. split; [done|]. exists (us ++ [w]), vs. rewrite <-app_assoc. split_and!; [done|by destruct us|by injection Hk|done].
Qed.

(** ** The queries *)

(** The components of a path below another. *)
Definition below_path (p q : string) : Prop := ∃ vs, vs ≠ [] ∧ Split slash q = Split slash p ++ vs.

Lemma path_split D r : tree D → is_repository D r → ∃ ws, good_path ws ∧ ws ≠ [] ∧ rp_Path r = path_of ws ∧ Split slash (rp_Path r) = ws.
Proof.
  intros H Hr. destruct (is_repository_placed D r H Hr) as (ws & w & Hg & Hp & _). exists (ws ++ [w]).
  split_and!; [done|by destruct ws|done|]. rewrite Hp. apply Split_path; [done|by destruct ws].
Qed.
Lemma below_below_path D r x ws :
  tree D → is_repository D r → is_repository D x → good_path ws → ws ≠ [] → rp_Path r = path_of ws →
  (∃ k, 0 < k ∧ below ws k x) ↔ below_path (rp_Path r) (rp_Path x).
Proof.
  intros H Hr Hx Hg Hne Hp. unfold below_path. rewrite Hp, Split_path by done. split.
  - intros (k & Hk & vs & Hgv & <- & ->). exists vs. split; [by intros ->; cbn in Hk; lia|]. apply Split_path; [done|by destruct ws].
  - intros (vs & Hv & Hs). destruct (path_split D x H Hx) as (us & Hgu & _ & Hpu & Hsu). rewrite Hsu in Hs. subst us.
    exists (length vs). split; [destruct vs; [done|cbn; lia]|]. by exists vs.
Qed.
Lemma above_below_path D r x ws :
  tree D → is_repository D r → is_repository D x → good_path ws → ws ≠ [] → rp_Path r = path_of ws →
  (∃ k, 0 < k ∧ above ws k x) ↔ below_path (rp_Path x) (rp_Path r).
Proof.
  intros H Hr Hx Hg Hne Hp. unfold below_path. rewrite Hp, Split_path by done. split.
  - intros (k & Hk & us & vs & -> & Hu & <- & ->). exists vs. split; [by intros ->; cbn in Hk; lia|].
    rewrite Split_path; [done| |done]. by apply Forall_app in Hg as [? _].
  - intros (vs & Hv & ->). destruct (path_split D x H Hx) as (us & Hgu & Hu & Hpu & Hsu). rewrite Hsu.
    exists (length vs). split; [destruct vs; [done|cbn; lia]|]. by exists us, vs.
Qed.

Lemma descendants_query D r :
  tree D → is_repository D r → ∃ rs, recursive_query children (rp_ID r) D = Some rs ∧ NoDup rs ∧
    ∀ x, x ∈ rs ↔ is_repository D x ∧ below_path (rp_Path r) (rp_Path x).
Proof.
  intros H Hr. destruct (path_split D r H Hr) as (ws & Hg & Hne & Hp & _).
  destruct (recursive_query_levels D r children (below ws)) as (rs & Hq & Hnd & Hrs); [done|done|..].
  - intros x. by apply NoDup_filter, NoDup_all.
  - intros k x y z Hx Hy _ _ [_ H1]%elem_of_children [_ H2]%elem_of_children. apply (is_repository_id D); [done..|congruence].
  - by apply below_level.
  - intros k k' x _ (vs & Hv & <- & Hx) (vs' & Hv' & <- & Hx'). rewrite Hx in Hx'.
    apply path_inj in Hx'; [|done|done|by destruct ws|by destruct ws]. by simplify_list_eq.
  - intros k x Hx (vs & Hv & <- & Hx'). pose proof (depth_bound D x _ H Hx Hv Hx') as Hd. rewrite length_app in Hd.
    destruct ws; [done|]. cbn in Hd. lia.
  - exists rs. split_and!; [done..|]. intros x. rewrite Hrs. split; intros [Hx Hb]; (split; [done|]); by apply (below_below_path D r x ws).
Qed.
Lemma ancestors_query D r :
  tree D → is_repository D r → ∃ rs, recursive_query parents (rp_ID r) D = Some rs ∧ NoDup rs ∧
    ∀ x, x ∈ rs ↔ is_repository D x ∧ below_path (rp_Path x) (rp_Path r).
Proof.
  intros H Hr. destruct (path_split D r H Hr) as (ws & Hg & Hne & Hp & _).
  destruct (recursive_query_levels D r parents (above ws)) as (rs & Hq & Hnd & Hrs); [done|done|..].
  - intros x. by apply NoDup_filter, NoDup_all.
  - intros k x y z Hx Hy (us & vs & He & _ & Hk & Hpx) (us' & vs' & He' & _ & Hk' & Hpy) _ _. rewrite He in He'.
    apply app_inj_2 in He' as [-> _]; [|congruence]. apply (is_repository_path D); [done..|congruence].
  - by apply above_level.
  - intros k k' x _ (us & vs & -> & Hu & <- & Hx) (us' & vs' & He & Hu' & <- & Hx'). rewrite Hx in Hx'.
    apply path_inj in Hx'; [|by apply Forall_app in Hg as [? _]|by rewrite He in Hg; apply Forall_app in Hg as [? _]|done|done].
    subst us'. by apply app_inv_head in He as ->.
  - intros k x _ (us & vs & He & Hu & <- & _). pose proof (depth_bound D r _ H Hr Hg Hp) as Hd. rewrite He, length_app in Hd.
    destruct us; [done|]. cbn in Hd. lia.
  - exists rs. split_and!; [done..|]. intros x. rewrite Hrs. split; intros [Hx Hb]; (split; [done|]); by apply (above_below_path D r x ws).
Qed.

(** ** Creations of what exists *)

(** When every path of the list has a repository, nothing grows. *)
Lemma grown_full top ps D D' :
  grown top ps D D' → (∀ p, p ∈ ps → ∃ r, is_repository D r ∧ rp_Path r = p) → repositories D' = repositories D.
Proof.
  intros Hg Hps. apply map_eq. intros k. destruct (repositories D' !! k) as [x|] eqn:Hk.
  - destruct (gr_new _ _ _ _ Hg _ _ Hk) as [?|(r & Hr & Hp)%Hps]; [done|].
    assert (is_repository D' r) as Hr' by (eapply lookup_weaken; [exact Hr|apply Hg]).
    assert (k = (rp_NamespaceID r, rp_ID r)) as Hkk by (by eapply (tr_path D' (gr_tree _ _ _ _ Hg)); [exact Hk|exact Hr'|]).
    subst k. unfold is_repository in *. congruence.
  - symmetry. apply eq_None_not_Some. intros [x Hx]. apply (lookup_weaken _ (repositories D')) in Hx; [congruence|apply Hg].
Qed.
(** A namespace that exists is not added again. *)
Lemma grown_full_namespaces top ps D D' :
  grown top ps D D' → (∀ x, top = Some x → ∃ i, top_level_namespaces D !! i = Some x) →
  top_level_namespaces D' = top_level_namespaces D.
Proof.
  intros Hg Ht. apply map_eq. intros i. destruct (top_level_namespaces D' !! i) as [x|] eqn:Hi.
  - destruct (gr_ns_new _ _ _ _ Hg _ _ Hi) as [?|[j Hj]%Ht]; [done|].
    assert (top_level_namespaces D' !! j = Some x) as Hj' by (eapply lookup_weaken; [exact Hj|apply Hg]).
    by rewrite (tr_ns_name D' (gr_tree _ _ _ _ Hg) i j x Hi Hj').
  - symmetry. apply eq_None_not_Some. intros [x Hx]. apply (lookup_weaken _ (top_level_namespaces D')) in Hx; [congruence|apply Hg].
Qed.

End RepositoryQueries.
