(* ===== verification/OnlineGC.v ===== *)
(** * Online garbage collection

    Models registry/gc/worker: the workers that review the queues of blobs and
    of manifests and delete what is dangling, each run in a transaction on the
    database of Datastore.v, with the removal of the content from the storage
    driver by Vacuum.v.  The storage driver is any driver: its failures are part
    of it.  Logging and metrics are left out, and with them the flag that a run
    returns beside an error, which only a metric reads. *)

From S2P Require Import Prelude GoStd Digest Driver Paths ObjectStore BlobStore Vacuum Database Datastore.

Module OnlineGC.
Import Database Datastore.

(** ** worker.go *)

(** The wrap-around of a signed 64-bit integer. *)
Definition wrap64 (z : Z) : Z := ((z + 2 ^ 63) mod 2 ^ 64 - 2 ^ 63)%Z.

Definition minute : Z := (60 * 10 ^ 9)%Z.
Definition hour : Z := (60 * minute)%Z.

Definition exponentialBackoff (i : Z) : Z :=
  let base := (5 * minute)%Z in
  let max := (24 * hour)%Z in
  if (i <? 0)%Z then base
  else if (i >? 30)%Z then max
  else
    let backoff := wrap64 (base * wrap64 (Z.shiftl 1 i)) in
    if (backoff >? max)%Z then max else backoff.

Section worker.
Context {GD : GoDigest} {St : Type} {D : StorageDriver St}.

(** A run of a worker: the committed database, the transaction, and the
    storage.  The transaction of a run that ends is rolled back. *)
Record run := { r_committed : db; r_tx : tx; r_storage : St }.
Abbreviation W := (GoM run dberror) (only parsing).

Definition on_tx {A} (m : GoM tx dberror A) : W A := λ s,
  let '(o, t) := m (r_tx s) in (o, {| r_committed := r_committed s; r_tx := t; r_storage := r_storage s |}).
Definition on_storage {A} (m : GoM St error A) : GoM run error A := λ s,
  let '(o, x) := m (r_storage s) in (o, {| r_committed := r_committed s; r_tx := r_tx s; r_storage := x |}).

(** [tx.Commit]: a transaction with a failed statement is rolled back. *)
Definition commit : W unit := λ s,
  let t := r_tx s in
  let t' := {| tx_db := tx_db t; tx_failed := true; tx_faults := tail (tx_faults t) |} in
  let failed := {| r_committed := r_committed s; r_tx := t'; r_storage := r_storage s |} in
  if tx_failed t then (Fail (Wrap "committing database transaction" InFailedTransaction), failed)
  else match head (tx_faults t) with
       | Some (Some e) => (Fail (Wrap "committing database transaction" e), failed)
       | _ => (Ret tt, {| r_committed := tx_db t; r_tx := t'; r_storage := r_storage s |})
       end.

(** Fail with [err], and with the error of the call [m] if it has one. *)
Definition fail_after {A} (err : dberror) (m : W unit) : W A :=
  r ← attempt m;
  match r with
  | inl innerErr => fail (Multi [err; innerErr])
  | inr _ => fail err
  end.

(** ** blobworker.go *)

Definition blob_postponeTaskAndCommit (t : GCBlobTask) : W unit :=
  let d := exponentialBackoff (bt_ReviewCount t) in
  _ ← on_tx (gcBlobTaskStore_Postpone t d);
  commit.

(** The deletion from the database, the second half of [deleteBlob]. *)
Definition deleteBlob_database (t : GCBlobTask) : W unit :=
  r ← attempt (on_tx (blobStore_Delete (bt_Digest t)));
  match r with
  | inr _ => mret tt
  | inl ErrNotFound => mret tt
  | inl err => if is_deadline err then fail err else fail_after err (blob_postponeTaskAndCommit t)
  end.
Definition deleteBlob (t : GCBlobTask) : W unit := λ s,
  match on_storage (Vacuum.RemoveBlob (bt_Digest t)) s with
  | (Fail (PathNotFoundError _ _), s) => deleteBlob_database t s
  | (Fail err, s) =>
      fail_after (Wrap "deleting blob from storage" (StorageError err)) (blob_postponeTaskAndCommit t) s
  | (Panic, s) => (Panic, s)
  | (Ret _, s) =>
      (b ← attempt (on_tx (blobStore_FindByDigest (bt_Digest t)));
       match b with
       | inr None => mret tt
       | inl _ | inr (Some _) => deleteBlob_database t
       end) s
  end.

Definition blob_review (now : Z) (locked : gset dbdigest) : W bool :=
  t ← on_tx (gcBlobTaskStore_Next now locked);
  match t with
  | None => mret false
  | Some t =>
      r ← attempt (on_tx (gcBlobTaskStore_IsDangling t));
      match r with
      | inl err => if is_deadline err then fail err else fail_after err (blob_postponeTaskAndCommit t)
      | inr dangling =>
          _ ← (if (dangling : bool) then deleteBlob t else mret tt);
          _ ← on_tx (gcBlobTaskStore_Delete t);
          _ ← commit;
          mret true
      end
  end.

(** ** manifestworker.go *)

Definition manifest_postponeTaskAndCommit (t : GCManifestTask) : W unit :=
  let d := exponentialBackoff (mt_ReviewCount t) in
  _ ← on_tx (gcManifestTaskStore_Postpone t d);
  commit.

Definition deleteManifest (now : Z) (t : GCManifestTask) : W unit :=
  r ← attempt (on_tx (manifestStore_Delete now (mt_Key t)));
  match r with
  | inl err => if is_deadline err then fail err else fail_after err (manifest_postponeTaskAndCommit t)
  | inr found => mret tt
  end.

Definition manifest_review (now : Z) (locked : gset (Z * Z * Z)) : W bool :=
  t ← on_tx (gcManifestTaskStore_Next now locked);
  match t with
  | None => mret false
  | Some t =>
      r ← attempt (on_tx (gcManifestTaskStore_IsDangling t));
      match r with
      | inl err => if is_deadline err then fail err else fail_after err (manifest_postponeTaskAndCommit t)
      | inr dangling =>
          _ ← (if (dangling : bool) then deleteManifest now t else on_tx (gcManifestTaskStore_Delete t));
          _ ← commit;
          mret true
      end
  end.

(** [processTask] of a worker: begin a transaction, review, roll back what is
    not committed. *)
Definition processTask (review : W bool) (faults : list (option dberror)) : GoM (db * St) dberror bool := λ s,
  match head faults with
  | Some (Some e) => (Fail (Wrap "creating database transaction" e), s)
  | _ =>
      let t := {| tx_db := s.1; tx_failed := false; tx_faults := tail faults |} in
      let '(o, r) := review {| r_committed := s.1; r_tx := t; r_storage := s.2 |} in
      (o, (r_committed r, r_storage r))
  end.

(** [baseWorker.run], for both workers. *)
Definition Run (review : W bool) (faults : list (option dberror)) : GoM (db * St) dberror bool :=
  wrap_err (Wrap "processing task") (processTask review faults).
Definition BlobWorker_Run (now : Z) (locked : gset dbdigest) := Run (blob_review now locked).
Definition ManifestWorker_Run (now : Z) (locked : gset (Z * Z * Z)) := Run (manifest_review now locked).

End worker.
Arguments run St : clear implicits.
End OnlineGC.
