(* ===== verification/OnlineGCSafety.v ===== *)
(** * Properties of the online garbage collection *)

From S2P Require Import Prelude GoStd Digest Driver Paths ObjectStore BlobStore Vacuum Database Tracking Datastore Transactions OnlineGC.

Module OnlineGCSafety.
Import Database Tracking Datastore Transactions OnlineGC.

(** ** Symbolic execution of the workers *)

Section rules.
Context {GD : GoDigest} {GDL : GoDigestLaws} {St : Type} {Drv : StorageDriver St}.

Lemma wp_on_tx {A} (m : GoM tx dberror A) (s : run St) Q :
  wp m (r_tx s) (λ o t, Q o {| r_committed := r_committed s; r_tx := t; r_storage := r_storage s |}) →
  wp (on_tx m) s Q.
Proof. unfold wp, on_tx. by destruct (m (r_tx s)). Qed.
(** A commit makes the database of the transaction the committed one, or fails. *)
Lemma wp_commit (s : run St) Q :
  (∀ t, tx_failed (r_tx s) = false →
    Q (Ret tt) {| r_committed := tx_db (r_tx s); r_tx := t; r_storage := r_storage s |}) →
  (∀ e t, Q (Fail e) {| r_committed := r_committed s; r_tx := t; r_storage := r_storage s |}) →
  wp commit s Q.
Proof.
  intros HR HF. unfold wp, commit. destruct (tx_failed (r_tx s)); [apply HF|].
  by destruct (head (tx_faults (r_tx s))) as [[e|]|]; [apply HF|apply HR..].
Qed.
Lemma wp_fail_after {A} err (m : GoM (run St) dberror unit) s (Q : outcome dberror A → run St → Prop) :
  wp m s (λ o s', match o with Panic => Q Panic s' | _ => ∀ e, Q (Fail e) s' end) → wp (fail_after err m) s Q.
Proof.
  unfold wp, fail_after, attempt, mbind, gom_bind. destruct (m s) as [[]]; cbn; [by intros H; apply H..|done].
Qed.

(** The database after a postponed review. *)
Definition postponed (D D' : db) : Prop :=
  D' = D ∨
  (∃ d x, is_Some (gc_blob_review_queue D !! d) ∧ D' = set_gc_blob_review_queue (<[d:=x]> (gc_blob_review_queue D)) D) ∨
  (∃ k x, is_Some (gc_manifest_review_queue D !! k) ∧
    D' = set_gc_manifest_review_queue (<[k:=x]> (gc_manifest_review_queue D)) D).

Lemma wp_blob_postpone t (s : run St) D S Q :
  r_committed s = D → tx_db (r_tx s) = D → r_storage s = S →
  (∀ o s', o ≠ Panic → r_storage s' = S → postponed D (r_committed s') → Q o s') →
  wp (blob_postponeTaskAndCommit t) s Q.
Proof.
  intros HD Ht HS HQ. unfold blob_postponeTaskAndCommit, gcBlobTaskStore_Postpone.
  assert (∀ e t', Q (Fail e) {| r_committed := r_committed s; r_tx := t'; r_storage := r_storage s |}) as HF.
  { intros e t'. apply HQ; [done|done|]. left. by rewrite HD. }
  apply wp_bind, wp_on_tx, wp_bind, wp_newDigest; [|intros e; apply HF]. intros x Hx. cbn.
  apply wp_bind, wp_wrap_err, wp_exec; [by unfold update_blob_review; case_match| |intros e fs; apply HF].
  unfold update_blob_review. rewrite Ht. intros n D' fs. destruct (gc_blob_review_queue D !! x) eqn:Hq; intros [= <- <-].
  - apply wp_commit; [|intros e t'; apply HF]. intros t' _. apply HQ; [done|done|]. right. left. cbn. by eauto.
  - apply HF.
Qed.

Lemma wp_manifest_postpone t (s : run St) D S Q :
  r_committed s = D → tx_db (r_tx s) = D → r_storage s = S →
  (∀ o s', o ≠ Panic → r_storage s' = S → postponed D (r_committed s') → Q o s') →
  wp (manifest_postponeTaskAndCommit t) s Q.
Proof.
  intros HD Ht HS HQ. unfold manifest_postponeTaskAndCommit, gcManifestTaskStore_Postpone.
  assert (∀ e t', Q (Fail e) {| r_committed := r_committed s; r_tx := t'; r_storage := r_storage s |}) as HF.
  { intros e t'. apply HQ; [done|done|]. left. by rewrite HD. }
  apply wp_bind, wp_on_tx, wp_bind, wp_wrap_err, wp_exec; [by unfold update_manifest_review; case_match| |intros e fs; apply HF].
  unfold update_manifest_review. rewrite Ht. intros n D' fs. destruct (gc_manifest_review_queue D !! _) eqn:Hq; intros [= <- <-].
  - apply wp_commit; [|intros e t'; apply HF]. intros t' _. apply HQ; [done|done|]. right. right. cbn. by eauto.
  - apply HF.
Qed.

(** The branch of a worker on an unexpected error. *)
Lemma wp_blob_error {A} t err (s : run St) D S (Q : outcome dberror A → run St → Prop) :
  r_committed s = D → tx_db (r_tx s) = D → r_storage s = S →
  (∀ e s', r_storage s' = S → postponed D (r_committed s') → Q (Fail e) s') →
  wp (if is_deadline err then fail err else fail_after err (blob_postponeTaskAndCommit t)) s Q.
Proof.
  intros HD Ht HS HF. destruct (is_deadline err); [by apply HF; [|left]|]. apply wp_fail_after.
  apply (wp_blob_postpone _ _ D S); [done..|]. intros [] s' ? ? ?; [by intros; apply HF..|done].
Qed.
Lemma wp_manifest_error {A} t err (s : run St) D S (Q : outcome dberror A → run St → Prop) :
  r_committed s = D → tx_db (r_tx s) = D → r_storage s = S →
  (∀ e s', r_storage s' = S → postponed D (r_committed s') → Q (Fail e) s') →
  wp (if is_deadline err then fail err else fail_after err (manifest_postponeTaskAndCommit t)) s Q.
Proof.
  intros HD Ht HS HF. destruct (is_deadline err); [by apply HF; [|left]|]. apply wp_fail_after.
  apply (wp_manifest_postpone _ _ D S); [done..|]. intros [] s' ? ? ?; [by intros; apply HF..|done].
Qed.

Lemma wp_FindByDigest d x t Q :
  NewDigest d = Ret x →
  (∀ o t', tx_db t' = tx_db t → o ≠ Panic → (o = Ret None → blobs (tx_db t) !! x = None) → Q o t') →
  wp (blobStore_FindByDigest d) t Q.
Proof.
  intros Hx HQ. unfold blobStore_FindByDigest. apply wp_bind, (wp_newDigest_Ret _ x); [done|]. cbn.
  apply wp_bind, wp_wrap_err, wp_query; [|intros e fs; by apply HQ]. intros fs. cbn.
  destruct (blobs (tx_db t) !! x) eqn:Hb; [|by apply HQ]. apply wp_bind. unfold wp, lift. cbn.
  rewrite (Parse_NewDigest d x Hx). cbn. by apply HQ.
Qed.

(** The deletion of a blob from the database. *)
Lemma wp_deleteBlob_database t x (s : run St) D S Q :
  NewDigest (bt_Digest t) = Ret x → r_committed s = D → tx_db (r_tx s) = D → r_storage s = S →
  (∀ s' D', r_storage s' = S → r_committed s' = D → tx_db (r_tx s') = D' →
    (D' = D ∧ blobs D !! x = None ∨ delete_blob x D = Ret (1, D')) → Q (Ret tt) s') →
  (∀ e s', r_storage s' = S → postponed D (r_committed s') → Q (Fail e) s') →
  wp (deleteBlob_database t) s Q.
Proof.
  intros Hx HD Ht HS HR HF. unfold deleteBlob_database, blobStore_Delete.
  apply wp_bind, wp_attempt, wp_on_tx, wp_bind, (wp_newDigest_Ret _ x); [done|]. cbn.
  apply wp_bind, wp_wrap_err, wp_exec.
  - unfold delete_blob. by repeat case_match.
  - rewrite Ht. intros n D' fs Hrun. cbn. unfold delete_blob in Hrun.
    destruct (blobs D !! x) eqn:Hb; [destruct (references_blob x D) eqn:Hr; [done|]|]; simplify_eq.
    + cbn. eapply HR; [done..|]. right. unfold delete_blob. by rewrite Hb, Hr.
    + cbn. eapply HR; [done..|]. by left.
  - intros e fs. cbn. by apply (wp_blob_error t (Wrap "deleting blob" e) _ D S).
Qed.

Lemma wp_deleteBlob t x (s : run St) D S Q :
  NewDigest (bt_Digest t) = Ret x → r_committed s = D → tx_db (r_tx s) = D →
  r_storage s = S →
  let S' := (Vacuum.RemoveBlob (bt_Digest t) S).2 in
  (∀ s' D', r_storage s' = S' → r_committed s' = D → tx_db (r_tx s') = D' →
    (D' = D ∧ blobs D !! x = None ∨ delete_blob x D = Ret (1, D')) → Q (Ret tt) s') →
  (∀ o s', (∀ a, o ≠ Ret a) → r_storage s' = S' → postponed D (r_committed s') → Q o s') →
  wp (deleteBlob t) s Q.
Proof.
  intros Hx HD Ht HS S' HR HF. unfold wp, deleteBlob, on_storage. rewrite HS.
  destruct (Vacuum.RemoveBlob (bt_Digest t) S) as [o S1] eqn:Hrm. subst S'. cbn [fst snd] in *.
  set (s1 := {| r_committed := r_committed s; r_tx := r_tx s; r_storage := S1 |}).
  assert (wp (deleteBlob_database t) s1 Q) as Hdb.
  { apply (wp_deleteBlob_database t x s1 D S1); [done..|]. intros e s' ? ?. by apply HF. }
  assert (∀ err, wp (fail_after err (blob_postponeTaskAndCommit t)) s1 Q) as Herr.
  { intros err. apply wp_fail_after. apply (wp_blob_postpone _ _ D S1); [done..|].
    intros [] s' ? ? ?; [by intros; apply HF..|done]. }
  destruct o as [[]|err|].
  - change (wp (attempt (on_tx (blobStore_FindByDigest (bt_Digest t))) ≫= (λ b, match b with
       | inr None => mret tt | inl _ | inr (Some _) => deleteBlob_database t end)) s1 Q).
    apply wp_bind, wp_attempt, wp_on_tx, (wp_FindByDigest _ x); [done|].
    intros [[b|]|e|] t' Ht' Hp Hn; cbn; [..|done].
    + apply (wp_deleteBlob_database t x _ D S1); [done|done|by cbn; rewrite Ht'|done..|]. intros e s' ? ?. by apply HF.
    + eapply HR; [done|done|by cbn; rewrite Ht'|]. left. split; [done|]. rewrite <-Ht. by apply Hn.
    + apply (wp_deleteBlob_database t x _ D S1); [done|done|by cbn; rewrite Ht'|done..|]. intros e' s' ? ?. by apply HF.
  - destruct err; first [apply Hdb | apply Herr].
  - apply HF; [done|done|]. left. done.
Qed.

(** The database after a review of the blob [x]. *)
Definition reviewed (D : db) (x : dbdigest) (D' : db) : Prop :=
  ∃ D1, (referenced D x ∧ D1 = D ∨ ¬ referenced D x ∧ (D1 = D ∧ blobs D !! x = None ∨ delete_blob x D = Ret (1, D1))) ∧
    is_Some (gc_blob_review_queue D1 !! x) ∧ D' = set_gc_blob_review_queue (delete x (gc_blob_review_queue D1)) D1.

Lemma blob_tracked_spec D x : inv D → blob_tracked x D = true ↔ referenced D x.
Proof.
  intros H. unfold blob_tracked, referenced. rewrite orb_true_iff, !bool_decide_eq_true. unfold map_Exists. split.
  - intros [([d i] & nr & Hk & Hd)|([d i] & nr & Hk & Hd)]; cbn in Hd; subst d.
    + apply (track_config D H) in Hk as (m & ? & ?). by eauto.
    + apply (track_layer D H) in Hk as (l & ? & ?). by eauto.
  - intros [([nr i] & l & ? & ?)|([nr i] & m & ? & ?)]; [right|left]; exists (x, i), nr.
    + split; [|done]. apply (track_layer D H). by eauto.
    + split; [|done]. apply (track_config D H). by eauto.
Qed.

(** What a run of the blob worker can do, whatever fails. *)
Definition blob_effect (D : db) (S : St) (D' : db) (S' : St) : Prop :=
  (S' = S ∨ ∃ x d, is_Some (gc_blob_review_queue D !! x) ∧ Parse x = Ret d ∧ ¬ referenced D x ∧
    S' = (Vacuum.RemoveBlob d S).2) ∧
  (postponed D D' ∨ ∃ x, reviewed D x D').

Lemma foldl_earlier {K} (l : list (K * review)) z :
  foldl earlier z l ∈ z :: l ∧
  ∀ w, w ∈ z :: l → (review_after (foldl earlier z l).2 ≤ review_after w.2)%Z.
Proof.
  revert z. induction l as [|v l IH]; intros z; cbn [foldl].
  { split; [by left|]. intros w ->%list_elem_of_singleton. lia. }
  destruct (IH (earlier z v)) as [IH1 IH2].
  assert (earlier z v = z ∧ (review_after z.2 ≤ review_after v.2)%Z ∨
    earlier z v = v ∧ (review_after v.2 ≤ review_after z.2)%Z) as Hev.
  { unfold earlier. case_bool_decide; [right|left]; split; try done; lia. }
  split.
  { apply elem_of_cons in IH1 as [Heq|Hin]; [|by do 2 right]. rewrite Heq.
    destruct Hev as [[-> _]|[-> _]]; [by left|by right; left]. }
  intros w Hw. assert (review_after (foldl earlier (earlier z v) l).2 ≤ review_after (earlier z v).2)%Z as Hle by (apply IH2; by left).
  apply elem_of_cons in Hw as [->|[->|Hw]%elem_of_cons]; [destruct Hev as [[Heq ?]|[Heq ?]]; rewrite Heq in *; lia..|].
  apply IH2. by right.
Qed.
(** The next review is an earliest one of those that are due. *)
Lemma next_review_spec {K} `{Countable K} now (locked : gset K) (q : gmap K review) k x :
  next_review now locked q = Some (k, x) →
  q !! k = Some x ∧ (review_after x < now)%Z ∧ (k ∉ locked) ∧
  (∀ k' x', q !! k' = Some x' → (review_after x' < now)%Z → k' ∉ locked → (review_after x ≤ review_after x')%Z).
Proof.
  unfold next_review. destruct (filter _ (map_to_list q)) as [|y ys] eqn:Hf; [done|]. intros [= Heq].
  assert (∀ z, z ∈ y :: ys ↔ ((review_after z.2 < now)%Z ∧ z.1 ∉ locked) ∧ q !! z.1 = Some z.2) as Hin.
  { intros [k' x']. rewrite <-Hf, list_elem_of_filter, elem_of_map_to_list. done. }
  destruct (foldl_earlier ys y) as [H1 H2]. rewrite Heq in H1, H2. apply Hin in H1 as [[? ?] ?]. cbn in *. split_and!; [done..|].
  intros k' x' Hk' Hdue Hl. apply (H2 (k', x')), Hin. done.
Qed.

Lemma wp_Next_blob now locked t Q :
  (∀ fs, Q (Ret None) {| tx_db := tx_db t; tx_failed := false; tx_faults := fs |}) →
  (∀ x r d fs, next_review now locked (gc_blob_review_queue (tx_db t)) = Some (x, r) → Parse x = Ret d →
    Q (Ret (Some {| bt_ReviewAfter := review_after r; bt_ReviewCount := review_count r; bt_Digest := d |}))
      {| tx_db := tx_db t; tx_failed := false; tx_faults := fs |}) →
  (∀ e t', Q (Fail e) t') →
  wp (gcBlobTaskStore_Next now locked) t Q.
Proof.
  intros HN HS HF. unfold gcBlobTaskStore_Next.
  apply wp_bind, wp_wrap_err, wp_bind, wp_wrap_err, wp_query; [|intros; apply HF]. intros fs. cbn.
  destruct (next_review _ _ _) as [[x r]|] eqn:Hn; [|apply HN]. apply wp_bind. unfold wp, lift. cbn.
  destruct (Parse x) as [d|e|] eqn:Hp; cbn; [by eapply HS|apply HF|].
  exfalso. revert Hp. unfold Parse. repeat (case_bool_decide; [try done; try by case_match|]). done.
Qed.

Lemma wp_blob_review now locked (s : run St) D S :
  inv D → r_committed s = D → tx_db (r_tx s) = D → r_storage s = S →
  wp (blob_review now locked) s (λ o s', blob_effect D S (r_committed s') (r_storage s')).
Proof.
  intros Hinv HD Ht HS. unfold blob_review.
  assert (blob_effect D S (r_committed s) (r_storage s)) as Hnone by (rewrite HD, HS; split; left; [done|by left]).
  apply wp_bind, wp_on_tx, wp_Next_blob; [done| |done]. rewrite Ht. intros x r d fs Hn Hp. cbn.
  apply next_review_spec in Hn as (Hq & _). pose proof (NewDigest_Parse d x Hp) as Hx.
  apply wp_bind, wp_attempt, wp_on_tx. unfold gcBlobTaskStore_IsDangling.
  apply wp_bind, (wp_newDigest_Ret _ x); [done|]. cbn.
  apply wp_bind, wp_wrap_err, wp_query; cbn; cycle 1.
  { intros e fs'. apply (wp_blob_error _ (Wrap _ e) _ D S); [done..|]. intros; split; by left. }
  intros fs'. apply wp_bind.
  apply (wp_mono _ _ (λ o s', match o with
    | Ret _ => r_committed s' = D ∧
        (r_storage s' = S ∨ ¬ referenced D x ∧ r_storage s' = (Vacuum.RemoveBlob d S).2) ∧
        (referenced D x ∧ tx_db (r_tx s') = D ∨ ¬ referenced D x ∧
          (tx_db (r_tx s') = D ∧ blobs D !! x = None ∨ delete_blob x D = Ret (1, tx_db (r_tx s'))))
    | _ => blob_effect D S (r_committed s') (r_storage s')
    end)).
  - destruct (blob_tracked x D) eqn:Htr; cbn [negb].
    + apply blob_tracked_spec in Htr; [|done]. unfold wp. cbn. by auto.
    + assert (¬ referenced D x) as Hnr by (rewrite <-blob_tracked_spec by done; congruence).
      apply (wp_deleteBlob _ x _ D S); [done..| |].
      * intros s' D' -> -> <- Hdel. by auto.
      * intros o s' Ho HS' Hpost. assert (blob_effect D S (r_committed s') (r_storage s')) as He;
          [|by destruct o as [a|e|]; [destruct (Ho a)|..]].
        split; [|by left]. right. exists x, d. rewrite HS'. by eauto.
  - intros o s' Ho. destruct o; cbn; [|done..]. destruct Ho as (HD' & HS' & Htx).
    unfold gcBlobTaskStore_Delete. apply wp_bind, wp_on_tx, wp_bind, (wp_newDigest_Ret _ x); [done|]. cbn.
    assert (blob_effect D S (r_committed s') (r_storage s')) as Hfail.
    { rewrite HD'. split; [|left; by left]. destruct HS' as [?|[? ?]]; [by left|right]. exists x, d. by eauto. }
    apply wp_bind, wp_wrap_err, wp_exec; [by unfold delete_blob_review; case_match| |done].
    intros n D2 fs2. unfold delete_blob_review.
    destruct (gc_blob_review_queue (tx_db (r_tx s')) !! x) eqn:Hq2; intros [= <- <-]; cbn; [|done].
    apply wp_bind, wp_commit; [|done]. intros t' _. cbn. split; [apply Hfail|]. right. exists x, (tx_db (r_tx s')).
    split_and!; [|by eexists|done]. done.
Qed.

(** ** The manifest worker *)

Lemma manifest_referenced_spec D k : manifest_referenced k D = true ↔ in_use D k.
Proof.
  unfold manifest_referenced, in_use. rewrite orb_true_iff, !bool_decide_eq_true. unfold map_Exists, set_Exists.
  destruct k as [nr i]. cbn. split.
  - intros [([nr' t] & j & Ht & Heq)|([[nr' p] c] & Hx & Heq)]; cbn in Heq; simplify_eq; by eauto.
  - intros [[t Ht]|[p Hp]]; [left; by exists (nr, t), i|right; by exists (nr, p, i)].
Qed.

(** What a run of the manifest worker can do, whatever fails. *)
Definition manifest_effect (now : Z) (D D' : db) : Prop :=
  postponed D D' ∨ ∃ k,
    (in_use D k ∧ is_Some (gc_manifest_review_queue D !! k) ∧
      D' = set_gc_manifest_review_queue (delete k (gc_manifest_review_queue D)) D) ∨
    (¬ in_use D k ∧ ∃ n, delete_manifest now k D = Ret (n, D')).

Lemma delete_manifest_no_panic now k D : delete_manifest now k D ≠ Panic.
Proof.
  unfold delete_manifest. destruct (manifests D !! k); [|done]. case_bool_decide; [done|].
  destruct (delete_references _ _ _) eqn:Hr; [done|done|]. exfalso. revert Hr. unfold delete_references.
  generalize (elements (filter (λ x, bool_decide (x.1 = k) = true)
    (manifest_references (delete_tags now (λ t i, bool_decide ((t.1, i) = k)) (delete_layers now
      (λ k' l, bool_decide ((k'.1, l_manifest_id l) = k)) (set_manifests (delete k (manifests D)) D)))))) as gone.
  generalize (set_manifest_references (filter (λ x, bool_decide (x.1 = k) = false)
    (manifest_references (delete_tags now (λ t i, bool_decide ((t.1, i) = k)) (delete_layers now
      (λ k' l, bool_decide ((k'.1, l_manifest_id l) = k)) (set_manifests (delete k (manifests D)) D)))))
    (delete_tags now (λ t i, bool_decide ((t.1, i) = k)) (delete_layers now
      (λ k' l, bool_decide ((k'.1, l_manifest_id l) = k)) (set_manifests (delete k (manifests D)) D)))) as D'.
  intros D' gone. revert D'. induction gone as [|[[[n r] p] c] gone IH]; intros D'; cbn [track_references]; [done|].
  unfold gc_track_deleted_manifest_lists. destruct (manifests D' !! (n, r, c)); [apply IH|done].
Qed.

Lemma wp_manifest_review now locked (s : run St) D S :
  r_committed s = D → tx_db (r_tx s) = D → r_storage s = S →
  wp (manifest_review now locked) s (λ o s', manifest_effect now D (r_committed s') ∧ r_storage s' = S).
Proof.
  intros HD Ht HS. unfold manifest_review, gcManifestTaskStore_Next.
  assert (manifest_effect now D (r_committed s) ∧ r_storage s = S) as Hnone by (split; [left; by left|done]).
  apply wp_bind, wp_on_tx, wp_bind, wp_wrap_err, wp_wrap_err, wp_query; [|done]. intros fs. rewrite Ht. cbn.
  destruct (next_review _ _ _) as [[k r]|] eqn:Hn; cbn; [|done]. apply next_review_spec in Hn as (Hq & _).
  unfold gcManifestTaskStore_IsDangling.
  apply wp_bind, wp_attempt, wp_on_tx, wp_bind, wp_wrap_err, wp_query; cbn; cycle 1.
  { intros e fs'. apply (wp_manifest_error _ (Wrap _ e) _ D S); [done..|]. intros; split; [by left|done]. }
  intros fs'. apply wp_bind. destruct (manifest_referenced k D) eqn:Hu; cbn [negb].
  - apply manifest_referenced_spec in Hu. unfold gcManifestTaskStore_Delete.
    apply wp_on_tx, wp_bind, wp_wrap_err, wp_exec; cbn; [by unfold delete_manifest_review; case_match| |done].
    intros n D' fs2. unfold delete_manifest_review. rewrite Hq. intros [= <- <-]. cbn.
    apply wp_bind, wp_commit; [|done]. intros t' _. cbn. split; [|done]. right. exists k. left. by eauto.
  - assert (¬ in_use D k) as Hnu by (rewrite <-manifest_referenced_spec; congruence).
    unfold deleteManifest, manifestStore_Delete.
    apply wp_bind, wp_attempt, wp_on_tx, wp_bind, wp_wrap_err, wp_exec; cbn; [apply delete_manifest_no_panic|..].
    + intros n D' fs2 Hdel. cbn. apply wp_bind, wp_commit; [|done]. intros t' _. cbn. split; [|done].
      right. exists k. right. by eauto.
    + intros e fs2. apply (wp_manifest_error _ (deletion_error e) _ D S); [done..|]. intros; split; [by left|done].
Qed.

End rules.
End OnlineGCSafety.
