(* ===== verification/OnlineGCProps.v ===== *)
(** * What the online garbage collection guarantees

    The invariant of the database holds in every state that the stores and the
    workers can reach, whatever fails; a worker never removes what is
    referenced, and removes what is not. *)

From S2P Require Import Prelude GoStd Digest Driver FileSystem Paths ObjectStore BlobStore Vacuum Database Tracking Datastore Transactions Repositories StoreOps OnlineGC OnlineGCSafety.

Module OnlineGCProps.
Import Paths ObjectStore Database Tracking Datastore Transactions Repositories OnlineGC OnlineGCSafety.
Export StoreOps.

(** ** The effects preserve the invariant *)

Lemma postponed_inv D D' : inv D → postponed D D' → inv D'.
Proof.
  intros H [->|[(d & x & Hd & ->)|(k & x & Hk & ->)]]; [done|..]; inv_clauses H.
  - intros d' Hd'. rewrite lookup_insert_is_Some'. destruct (cover_blob0 d' Hd'); by eauto.
  - intros k' [<-|?]%lookup_insert_is_Some'; by auto.
  - intros k' Hk'. rewrite lookup_insert_is_Some'. destruct (cover_manifest0 k' Hk'); by eauto.
Qed.

Lemma delete_blob_frame x D D' :
  delete_blob x D = Ret (1, D') →
  manifests D' = manifests D ∧ layers D' = layers D ∧ tags D' = tags D ∧
  manifest_references D' = manifest_references D ∧ gc_blob_review_queue D' = gc_blob_review_queue D ∧
  gc_manifest_review_queue D' = gc_manifest_review_queue D ∧
  blobs D' = delete x (blobs D) ∧ ¬ referenced D x.
Proof.
  unfold delete_blob. destruct (blobs D !! x); [|done]. destruct (references_blob x D) eqn:Hr; [done|].
  intros [= <-]. by apply references_blob_None in Hr.
Qed.

Lemma reviewed_frame D x D' :
  reviewed D x D' →
  manifests D' = manifests D ∧ layers D' = layers D ∧ tags D' = tags D ∧
  manifest_references D' = manifest_references D ∧
  gc_blob_review_queue D' = delete x (gc_blob_review_queue D) ∧
  (referenced D x ∧ blobs D' = blobs D ∨ ¬ referenced D x ∧ blobs D' = delete x (blobs D)).
Proof.
  intros (D1 & Hd & _ & ->). destruct Hd as [[Hr ->]|[Hn [[-> Hb]|Hdel]]]; cbn; [by auto 10|..].
  - split_and!; [done..|]. right. split; [done|]. by rewrite delete_id.
  - apply delete_blob_frame in Hdel as (-> & -> & -> & -> & -> & _ & -> & _). by auto 10.
Qed.
Lemma reviewed_inv D x D' : inv D → reviewed D x D' → inv D'.
Proof.
  intros H (D1 & Hd & _ & ->).
  assert (inv D1 ∧ (is_Some (blobs D1 !! x) → referenced D1 x)) as [H1 Hx].
  { destruct Hd as [[Hr ->]|[Hn [[-> Hb]|Hdel]]].
    - by split.
    - split; [done|]. by rewrite Hb; intros [? ?].
    - split; [by eapply delete_blob_inv|]. apply delete_blob_frame in Hdel as (_ & _ & _ & _ & _ & _ & -> & _).
      rewrite lookup_delete_eq. by intros [? ?]. }
  inv_clauses H1. intros d Hd'. destruct (decide (d = x)) as [->|Hne]; [by left; apply Hx|].
  rewrite lookup_delete_ne by done. by auto.
Qed.

Lemma manifest_effect_inv now D D' : inv D → manifest_effect now D D' → inv D'.
Proof.
  intros H [Hp|(k & [(Hu & Hq & ->)|(_ & n & Hdel)])]; [by eapply postponed_inv| |by eapply delete_manifest_inv].
  inv_clauses H.
  - intros k' [x [_ Hx]%lookup_delete_Some]. apply fk_review0. by eauto.
  - intros k' Hk'. destruct (decide (k' = k)) as [->|Hne]; [by left|].
    rewrite lookup_delete_ne by done. by auto.
Qed.

(** ** The operations of the stores *)

Section reachable.
Context {GD : GoDigest} {GDL : GoDigestLaws} {St : Type} {Drv : StorageDriver St}.

(** ** The invariant of the transactions *)

(** The invariant, with the digests in the form that the stores write. *)
Definition good (D : db) : Prop := inv D ∧ ∀ x, known D x → ∃ d, Parse x = Ret d.

Lemma good_known D D' : good D → inv D' → (∀ x, known D' x → known D x) → good D'.
Proof. intros [_ Hp] Hinv Hk. split; [done|]. auto. Qed.
Lemma good_same D D' : good D → inv D' → same_digests D D' → good D'.
Proof. intros H Hinv Hs. eapply good_known; [done..|]. intros x. by apply same_known. Qed.
Lemma good_insert_blob now d x b D a D' :
  good D → NewDigest d = Ret x → insert_blob now x b D = Ret (a, D') → good D'.
Proof.
  intros [Hinv Hp] Hx Hrun. split; [by eapply insert_blob_inv|].
  intros y [?| ->]%(insert_blob_known _ _ _ _ _ _ y Hrun); [by auto|]. exists d. by apply Parse_NewDigest.
Qed.

Lemma good_stable : stable good.
Proof.
  split; intros *; intros HD; pose proof (proj1 HD) as Hinv.
  - intros Hrun. eapply good_same; [done|by eapply insert_namespace_inv|by eapply insert_namespace_digests].
  - intros Hrun. eapply good_same; [done|by eapply insert_repository_inv|by eapply insert_repository_digests].
  - intros Hrun. eapply good_same; [done|by eapply update_repository_inv|by eapply update_repository_digests].
  - by apply good_insert_blob.
  - intros Hrun. eapply good_same; [done|by eapply insert_repository_blob_inv|by eapply insert_repository_blob_digests].
  - intros Hrun. eapply good_same; [done|by eapply delete_repository_blob_inv|by eapply delete_repository_blob_digests].
  - intros _ Hrun. eapply good_same; [done|by eapply insert_manifest_inv|by eapply insert_manifest_digests].
  - intros Hrun. eapply good_known; [done|by eapply delete_manifest_inv|]. intros y. by eapply delete_manifest_known.
  - intros Hrun. eapply good_same; [done|by eapply insert_reference_inv|by eapply insert_reference_digests].
  - edestruct delete_references_inv as (D1 & Hrun & ?); [done|]. rewrite Hrun. intros [= <-].
    eapply good_same; [done..|]. by eapply delete_references_digests.
  - intros Hrun. eapply good_same; [done|by eapply insert_layer_inv|by eapply insert_layer_digests].
  - eapply good_known; [done|by apply delete_layers_inv|]. intros y. by apply delete_layers_known.
  - intros Hrun. eapply good_same; [done|by eapply upsert_tag_inv|by eapply upsert_tag_digests].
  - eapply good_same; [done|by apply delete_tags_inv|apply delete_tags_digests].
  - eapply good_same; [done| |done]. inv_clauses Hinv.
Qed.
Lemma run_op_keeps op : keeps good (run_op op).
Proof. apply run_op_stable, good_stable. Qed.
Lemma run_ops_keeps ops : keeps good (run_ops ops).
Proof. apply run_ops_stable, good_stable. Qed.

(** ** Reachable states *)

(** The steps of the system: the API commits a transaction or changes the
    storage, a worker runs; faults can hit any statement. *)
Inductive gc_step : db * St → db * St → Prop :=
  | step_transaction ops faults D S t :
      run_ops ops {| tx_db := D; tx_failed := false; tx_faults := faults |} = (Ret tt, t) →
      gc_step (D, S) (tx_db t, S)
  | step_storage D S S' : gc_step (D, S) (D, S')
  | step_blob_worker now locked faults s o s' :
      BlobWorker_Run now locked faults s = (o, s') → gc_step s s'
  | step_manifest_worker now locked faults s o s' :
      ManifestWorker_Run now locked faults s = (o, s') → gc_step s s'.

Lemma blob_run_effect now locked faults D (S : St) o s' :
  inv D → BlobWorker_Run now locked faults (D, S) = (o, s') → blob_effect D S s'.1 s'.2.
Proof.
  intros H. unfold BlobWorker_Run, Run, processTask, wrap_err. cbn [fst snd].
  assert (blob_effect D S D S) as Hnone by (split; left; [done|by left]).
  pose proof (wp_blob_review now locked {| r_committed := D; r_tx := {| tx_db := D; tx_failed := false;
    tx_faults := tail faults |}; r_storage := S |} D S H eq_refl eq_refl eq_refl) as Hwp. unfold wp in Hwp.
  destruct (blob_review now locked _) as [o1 r]. cbn [fst snd] in Hwp.
  destruct (head faults) as [[e|]|]; intros [= <- <-]; done.
Qed.
Lemma manifest_run_effect now locked faults D (S : St) o s' :
  ManifestWorker_Run now locked faults (D, S) = (o, s') → manifest_effect now D s'.1 ∧ s'.2 = S.
Proof.
  unfold ManifestWorker_Run, Run, processTask, wrap_err. cbn [fst snd].
  assert (manifest_effect now D D) as Hnone by (left; by left).
  pose proof (wp_manifest_review now locked {| r_committed := D; r_tx := {| tx_db := D; tx_failed := false;
    tx_faults := tail faults |}; r_storage := S |} D S eq_refl eq_refl eq_refl) as Hwp. unfold wp in Hwp.
  destruct (manifest_review now locked _) as [o1 r]. cbn [fst snd] in Hwp.
  destruct (head faults) as [[e|]|]; intros [= <- <-]; done.
Qed.

(** The effects add no digests. *)
Lemma postponed_known D D' x : postponed D D' → known D' x → known D x.
Proof.
  intros [->|[(d & r & Hd & ->)|(k & r & _ & ->)]]; [done| |done].
  unfold known. cbn. rewrite lookup_insert_is_Some'. intros [?|[<-|?]]; by auto.
Qed.
Lemma reviewed_known D y D' x : reviewed D y D' → known D' x → known D x.
Proof.
  intros (_ & _ & _ & _ & Hq & Hb)%reviewed_frame. unfold known. rewrite Hq, lookup_delete_is_Some.
  destruct Hb as [[_ ->]|[_ ->]]; [tauto|]. rewrite lookup_delete_is_Some. tauto.
Qed.
Lemma manifest_effect_known now D D' x : inv D → manifest_effect now D D' → known D' x → known D x.
Proof.
  intros H [Hp|(k & [(_ & _ & ->)|(_ & n & Hdel)])]; [by apply postponed_known|done|by eapply delete_manifest_known].
Qed.
Lemma postponed_good D D' : good D → postponed D D' → good D'.
Proof. intros H Hp. eapply good_known; [done|by eapply postponed_inv, Hp; apply H|]. intros x. by apply postponed_known. Qed.
Lemma reviewed_good D x D' : good D → reviewed D x D' → good D'.
Proof. intros H Hr. eapply good_known; [done|by eapply reviewed_inv, Hr; apply H|]. intros y. by eapply reviewed_known. Qed.
Lemma manifest_effect_good now D D' : good D → manifest_effect now D D' → good D'.
Proof.
  intros H He. eapply good_known; [done|by eapply manifest_effect_inv, He; apply H|].
  intros y. eapply manifest_effect_known, He. apply H.
Qed.

Lemma gc_step_good s s' : gc_step s s' → good s.1 → good s'.1.
Proof.
  intros Hstep HD. destruct Hstep as [ops faults D S t Hrun|D S S'|now locked faults [D S] o s' Hrun|now locked faults [D S] o s' Hrun].
  - pose proof (run_ops_keeps ops {| tx_db := D; tx_failed := false; tx_faults := faults |} HD) as Hwp.
    unfold wp in Hwp. by rewrite Hrun in Hwp.
  - done.
  - apply blob_run_effect in Hrun as [_ [Hp|[x Hr]]]; [by eapply postponed_good|by eapply reviewed_good|apply HD].
  - apply manifest_run_effect in Hrun as [He _]. by eapply manifest_effect_good.
Qed.
Lemma gc_steps_good s s' : rtc gc_step s s' → good s.1 → good s'.1.
Proof. induction 1 as [|s1 s2 s3 Hstep _ IH]; [done|]. intros HD. by eapply IH, gc_step_good. Qed.

End reachable.

Lemma migrated_inv : inv migrated.
Proof. constructor; cbn -[media_type_seeds]; unfold referenced, in_use; cbn -[media_type_seeds]; setoid_rewrite lookup_empty; set_solver. Qed.

Section properties.
Context {GD : GoDigest} {GDL : GoDigestLaws} {St : Type} {Drv : StorageDriver St}.

Lemma migrated_good : good migrated.
Proof. split; [apply migrated_inv|]. by intros x [[? ?]|[? ?]]. Qed.

(** The database of a system that has run, from the migrations on. *)
Definition reachable (D : db) : Prop := ∃ S0 S : St, rtc gc_step (migrated, S0) (D, S).
Lemma reachable_good D : reachable D → good D.
Proof. intros (S0 & S & Hrtc). apply gc_steps_good in Hrtc; [done|apply migrated_good]. Qed.

(** C11: in every state that the stores, the storage and the workers reach from
    the migrations, whatever statements fail, the tracking tables answer the
    question whether a blob is referenced as the layers and the configurations
    do; what is referenced exists; every blob without a reference and every
    manifest without a tag or a list is queued for review; and every digest of
    the blobs and of their queue can be parsed. *)
Theorem online_gc_invariant D :
  reachable D →
  (∀ x, blob_tracked x D = true ↔ referenced D x) ∧
  (∀ x, referenced D x → is_Some (blobs D !! x)) ∧
  (∀ k, in_use D k → is_Some (manifests D !! k)) ∧
  (∀ x, is_Some (blobs D !! x) → ¬ referenced D x → is_Some (gc_blob_review_queue D !! x)) ∧
  (∀ k, is_Some (manifests D !! k) → ¬ in_use D k → is_Some (gc_manifest_review_queue D !! k)) ∧
  (∀ x, known D x → ∃ d, Parse x = Ret d).
Proof.
  intros [H Hp]%reachable_good. split_and!.
  - intros x. by apply blob_tracked_spec.
  - intros x [(k & l & Hl & <-)|(k & m & Hm & Hd)]; [by eapply (fk_layer D H)|by eapply (fk_config D H)].
  - intros [nr i] [[t Ht]|[p Hx]]; [by apply (fk_tag D H) in Ht|by apply (fk_reference D H) in Hx as (_ & ? & _)].
  - intros x Hx Hn. by destruct (cover_blob D H x Hx).
  - intros k Hk Hn. by destruct (cover_manifest D H k Hk).
  - done.
Qed.

End properties.
End OnlineGCProps.
