(* ===== verification/Registry.v ===== *)
(** * The databases that the registry reaches

    From the migrated database, by the calls of the stores, committed or stopped
    by a fault, by the workers of the online garbage collection and by changes of
    the storage.  Repositories are created by clean paths, as the routes of the
    API name them.  Every such database satisfies the invariant of the tracking
    tables (Tracking.v) and the invariant of the tree of repositories
    (RepositoryTree.v). *)

From S2P Require Import Prelude GoStd Digest Driver Database Tracking Datastore Transactions Repositories RepositoryTree OnlineGC OnlineGCSafety OnlineGCProps.

Module Registry.
Import Database Tracking Datastore Transactions Repositories RepositoryTree OnlineGC OnlineGCSafety OnlineGCProps.

(** ** What leaves the repositories alone *)

Definition repo_part (D : db) : gmap Z string * gmap (Z * Z) repository_row * Z * Z :=
  (top_level_namespaces D, repositories D, namespaces_id_seq D, repositories_id_seq D).
Definition same_repos (D D' : db) : Prop := repo_part D' = repo_part D.

Lemma same_repos_tree D D' : same_repos D D' → tree D → tree D'.
Proof.
  intros [= E1 E2 E3 E4] [T1 T2 T3 T4 T5 T6 T7 T8]. split; rewrite ?E1, ?E2, ?E3, ?E4; try done.
  intros k x Hk%T8. eapply placed_mono, Hk; by rewrite ?E1, ?E2.
Qed.

Ltac repos_tac := intros Hrun; repeat case_match; simplify_eq/=; done.
Lemma queue_blob_repos now e d D : same_repos D (queue_blob now e d D).
Proof. done. Qed.
Lemma insert_blob_repos now d b D a D' : insert_blob now d b D = Ret (a, D') → same_repos D D'.
Proof. unfold insert_blob. repos_tac. Qed.
Lemma delete_blob_repos d D a D' : delete_blob d D = Ret (a, D') → same_repos D D'.
Proof. unfold delete_blob. repos_tac. Qed.
Lemma insert_repository_blob_repos n r d D a D' : insert_repository_blob n r d D = Ret (a, D') → same_repos D D'.
Proof. unfold insert_repository_blob. repos_tac. Qed.
Lemma delete_repository_blob_repos n r d D a D' : delete_repository_blob n r d D = Ret (a, D') → same_repos D D'.
Proof. unfold delete_repository_blob. repos_tac. Qed.
Lemma insert_reference_repos n r p c D a D' : insert_reference n r p c D = Ret (a, D') → same_repos D D'.
Proof. unfold insert_reference. repos_tac. Qed.
Lemma insert_layer_repos n r i d D a D' : insert_layer n r i d D = Ret (a, D') → same_repos D D'.
Proof. unfold insert_layer, gc_track_layer_blobs. repos_tac. Qed.
Lemma upsert_tag_repos now n r i t D a D' : upsert_tag now n r i t D = Ret (a, D') → same_repos D D'.
Proof. unfold upsert_tag, gc_track_switched_tags. repos_tac. Qed.
Lemma insert_manifest_repos now n r m D a D' : insert_manifest now n r m D = Ret (a, D') → same_repos D D'.
Proof. unfold insert_manifest, gc_track_manifest_uploads, gc_track_configuration_blobs. repos_tac. Qed.
Lemma foldr_repos {A} (f : A → db → db) l D : (∀ x D, same_repos D (f x D)) → same_repos D (foldr f D l).
Proof. intros Hf. induction l as [|x l IH]; [done|]. cbn. unfold same_repos in *. by rewrite Hf. Qed.
Lemma delete_layers_repos now P D : same_repos D (delete_layers now P D).
Proof. unfold same_repos, delete_layers. by rewrite foldr_repos. Qed.
Lemma delete_tags_repos now P D : same_repos D (delete_tags now P D).
Proof.
  unfold same_repos, delete_tags. rewrite foldr_repos; [done|]. intros x D'. unfold gc_track_deleted_tags. by case_match.
Qed.
Lemma track_references_repos now gone : ∀ D D', track_references now gone D = Ret D' → same_repos D D'.
Proof.
  induction gone as [|[[[n r] p] c] gone IH]; cbn; [by intros D D' [= <-]|]. unfold gc_track_deleted_manifest_lists.
  intros D D'. destruct (manifests D !! (n, r, c)); [|done]. intros H%IH. exact H.
Qed.
Lemma delete_references_repos now P D D' : delete_references now P D = Ret D' → same_repos D D'.
Proof. unfold delete_references. intros H%track_references_repos. exact H. Qed.
Lemma delete_manifest_repos now k D a D' : delete_manifest now k D = Ret (a, D') → same_repos D D'.
Proof.
  unfold delete_manifest. destruct (manifests D !! k) as [m|]; [|by intros [= <- <-]]. case_bool_decide; [done|].
  destruct (delete_references _ _ _) as [D1|e|] eqn:Hd; [|done..]. intros [= <- <-].
  apply delete_references_repos in Hd. unfold same_repos in *. rewrite delete_tags_repos, delete_layers_repos in Hd.
  unfold gc_track_deleted_manifests. destruct (m_configuration_blob_digest m); exact Hd.
Qed.

(** ** The calls keep the tree *)

Section registry.
Context {GD : GoDigest} {GDL : GoDigestLaws} {St : Type} {Drv : StorageDriver St}.

(** The calls that the API and the workers make: repositories are created by
    their paths, which are clean. *)
Definition clean_op (op : store_op) : Prop :=
  match op with
  | CreateRepository _ | CreateOrFindRepository _ | UpdateRepository _ => False
  | CreateRepositoryByPath p | CreateOrFindRepositoryByPath p => ∃ ws, ws ≠ [] ∧ good_path ws ∧ p = path_of ws
  | _ => True
  end.

Lemma keeps_does {A} (m : GoM tx dberror A) (R : A → db → db → Prop) (F : db → db → Prop) :
  (∀ D, tree D → does m D (λ a, R a D) (F D) (λ _, True)) → (∀ a D D', R a D D' → tree D') → (∀ D D', F D D' → tree D') →
  keeps tree m.
Proof.
  intros Hm HR HF t Ht. eapply wp_mono; [by apply Hm|]. intros [a|e|] t'; [|by intros [? _]; eauto|done].
  intros [? _]. by eauto.
Qed.
Lemma keeps_ignore {A} I (m : GoM tx dberror A) : keeps I m → keeps I (ignore m).
Proof. intros Hm. apply keeps_bind; [done|]. intros a. apply keeps_ret. Qed.

Lemma run_op_tree op : clean_op op → keeps tree (run_op op).
Proof.
  intros Hop. destruct op; cbn [run_op clean_op] in *; try done;
    unfold ignore, blobStore_Create, blobStore_CreateOrFind, blobStore_FindByDigest,
      manifestStore_Create, manifestStore_AssociateManifest, manifestStore_DissociateManifest,
      manifestStore_AssociateLayerBlob, manifestStore_DissociateLayerBlob, manifestStore_Delete,
      tagStore_CreateOrUpdate, repositoryStore_UntagManifest, repositoryStore_DeleteTagByName,
      repositoryStore_DeleteManifest, repositoryStore_LinkBlob, repositoryStore_UnlinkBlob,
      gcSettingsStore_UpdateAllReviewAfterDefaults, mapMediaType.
  15: { apply keeps_ignore, (keeps_does _ (λ n D D', grown (Some name) [] D D' ∧ top_level_namespaces D' !! ns_ID n = Some name) (grown (Some name) [])).
        - intros D HD. by apply namespaceStore_CreateOrFind_does.
        - intros a D D' [? _]. by eapply gr_tree.
        - intros D D'. apply gr_tree. }
  15: { destruct Hop as (ws & Hne & Hg & ->). destruct ws as [|w ws _] using rev_ind; [done|].
        apply keeps_ignore. eapply keeps_does; [intros D HD; by apply repositoryStore_CreateByPath_does|..]; cbn beta.
        - intros a D D' [? _]. by eapply gr_tree.
        - intros D D'. apply gr_tree. }
  15: { destruct Hop as (ws & Hne & Hg & ->). destruct ws as [|w ws _] using rev_ind; [done|].
        apply keeps_ignore. eapply keeps_does; [intros D HD; by apply repositoryStore_CreateOrFindByPath_does|..]; cbn beta.
        - intros a D D' [? _]. by eapply gr_tree.
        - intros D D'. apply gr_tree. }
  all: unfold errorf; keeps_tac; intros D ret D' HD.
  - destruct (insert_blob _ _ _ D) as [[[] D1]|e|] eqn:Hi; intros [= <- <-]. by eapply same_repos_tree, HD; eapply insert_blob_repos.
  - intros Hrun. by eapply same_repos_tree, HD; eapply insert_blob_repos.
  - intros Hrun. by eapply same_repos_tree, HD; eapply insert_manifest_repos.
  - intros Hrun. by eapply same_repos_tree, HD; eapply insert_reference_repos.
  - unfold delete_reference. destruct (delete_references _ _ D) as [D1|e|] eqn:Hd; intros [= <- <-].
    by eapply same_repos_tree, HD; eapply delete_references_repos.
  - intros Hrun. by eapply same_repos_tree, HD; eapply insert_layer_repos.
  - intros [= <- <-]. eapply same_repos_tree, HD. apply delete_layers_repos.
  - intros Hrun. by eapply same_repos_tree, HD; eapply delete_manifest_repos.
  - intros Hrun. by eapply same_repos_tree, HD; eapply upsert_tag_repos.
  - intros [= <- <-]. eapply same_repos_tree, HD. apply delete_tags_repos.
  - unfold delete_tag. intros [= <- <-]. eapply same_repos_tree, HD. apply delete_tags_repos.
  - unfold delete_manifest_by_digest. destruct (manifest_by_digest _ _ _ D); [|by intros [= <- <-]].
    intros Hrun. by eapply same_repos_tree, HD; eapply delete_manifest_repos.
  - intros Hrun. by eapply same_repos_tree, HD; eapply insert_repository_blob_repos.
  - intros Hrun. by eapply same_repos_tree, HD; eapply delete_repository_blob_repos.
  - intros [= <- <-]. by eapply same_repos_tree, HD.
Qed.
Lemma run_ops_tree ops : Forall clean_op ops → keeps tree (run_ops ops).
Proof.
  induction 1 as [|op ops Hop _ IH]; [apply keeps_ret|]. apply keeps_bind; [by apply run_op_tree|done].
Qed.

(** ** The rows of manifests *)

(** Each manifest can be read, and its digest is one of its own in its
    repository. *)
Record legible (D : db) : Prop := {
  lg_readable k m : manifests D !! k = Some m → ∃ d, readable d m;
  lg_unique k k' m m' : manifests D !! k = Some m → manifests D !! k' = Some m' → k.1 = k'.1 → m_digest m = m_digest m' → k = k';
}.
Lemma legible_mono D D' : legible D → manifests D' ⊆ manifests D → legible D'.
Proof.
  intros [Hr Hu] Hsub. split; [intros k m Hk; by eapply Hr, lookup_weaken|].
  intros k k' m m' Hk Hk'. eapply Hu; by eapply lookup_weaken.
Qed.
Lemma legible_insert D D' k m d :
  legible D → readable d m → (∀ k' m', manifests D !! k' = Some m' → k'.1 = k.1 → m_digest m' ≠ m_digest m) →
  manifests D' = <[k := m]> (manifests D) → legible D'.
Proof.
  intros [Hr Hu] Hm Hn HD'. split; [intros k' m'|intros k1 k2 m1 m2]; rewrite HD'.
  - intros [[_ <-]|[_ Hk]]%lookup_insert_Some; by eauto.
  - intros [[<- <-]|[_ H1]]%lookup_insert_Some [[<- <-]|[_ H2]]%lookup_insert_Some He Hd; [done|..].
    + by destruct (Hn _ _ H2).
    + by destruct (Hn _ _ H1).
    + by eauto.
Qed.
Lemma insert_manifest_rows now n r m D a D' :
  insert_manifest now n r m D = Ret (a, D') →
  (∀ k' m', manifests D !! k' = Some m' → k'.1 = (n, r) → m_digest m' ≠ m_digest m) ∧
  manifests D' = <[(n, r, a) := m]> (manifests D).
Proof.
  unfold insert_manifest, gc_track_manifest_uploads, gc_track_configuration_blobs, gc_track_tmp_blobs_manifests.
  case_bool_decide as Hu; [done|].
  repeat case_match; try done; intros Hrun; simplify_eq/=; (split; [intros k' m' Hk He Hd; apply Hu; by exists k', m'|done]).
Qed.
(** Every other statement leaves the rows or removes some. *)
Ltac rows_tac := intros Hrun; repeat case_match; simplify_eq/=; done.
Lemma delete_manifest_rows now k D a D' : inv D → delete_manifest now k D = Ret (a, D') → manifests D' ⊆ manifests D.
Proof.
  intros H Hrun. destruct (manifests D !! k) as [m|] eqn:Hk; cycle 1.
  { unfold delete_manifest in Hrun. rewrite Hk in Hrun. by injection Hrun as <- <-. }
  destruct (delete_manifest_effect now k m D H Hk) as (? & ? & ? & ? & ? & ? & ? & Hrun' & _).
  { intros p Hp. unfold delete_manifest in Hrun. rewrite Hk, bool_decide_true in Hrun; [done|].
    exists (k.1, p, k.2). by destruct k. }
  rewrite Hrun' in Hrun. injection Hrun as <- <-. cbn. apply delete_subseteq.
Qed.

Definition sound (D : db) : Prop := good D ∧ legible D.
Lemma sound_sub D D' : good D' → sound D → manifests D' ⊆ manifests D → sound D'.
Proof. intros H [_ Hl] Hm. split; [done|]. by eapply legible_mono. Qed.
Lemma sound_same D D' : good D' → sound D → manifests D' = manifests D → sound D'.
Proof. intros H HD Hm. apply (sound_sub D); [done..|]. by rewrite Hm. Qed.
Lemma sound_stable : stable sound.
Proof.
  pose proof good_stable as G. split; intros *; intros HD; pose proof HD as [Hg Hl].
  - intros Hrun. apply (sound_same D); [by eapply (st_insert_namespace _ G)|done|revert Hrun; unfold insert_namespace; rows_tac].
  - intros Hrun. apply (sound_same D); [by eapply (st_insert_repository _ G)|done|revert Hrun; unfold insert_repository; rows_tac].
  - intros Hrun. apply (sound_same D); [by eapply (st_update_repository _ G)|done|revert Hrun; unfold update_repository; rows_tac].
  - intros Hx Hrun. apply (sound_same D); [by eapply (st_insert_blob _ G)|done|revert Hrun; unfold insert_blob; rows_tac].
  - intros Hrun. apply (sound_same D); [by eapply (st_insert_repository_blob _ G)|done|revert Hrun; unfold insert_repository_blob; rows_tac].
  - intros Hrun. apply (sound_same D); [by eapply (st_delete_repository_blob _ G)|done|revert Hrun; unfold delete_repository_blob; rows_tac].
  - intros Hm Hrun. split; [by eapply (st_insert_manifest _ G)|]. apply insert_manifest_rows in Hrun as [Hn HD'].
    by apply (legible_insert D D' (n, r, a) m dgst).
  - intros Hrun. apply (sound_sub D); [by eapply (st_delete_manifest _ G)|done|]. eapply delete_manifest_rows, Hrun. apply Hg.
  - intros Hrun. apply (sound_same D); [by eapply (st_insert_reference _ G)|done|revert Hrun; unfold insert_reference; rows_tac].
  - intros Hrun. apply (sound_same D); [by eapply (st_delete_references _ G)|done|]. revert Hrun.
    destruct (delete_references_effect now P D) as (q & -> & _); [|by intros [= <-]].
    intros x Hx _. by apply (fk_reference D (proj1 Hg)) in Hx as (_ & ? & _).
  - intros Hrun. apply (sound_same D); [by eapply (st_insert_layer _ G)|done|revert Hrun; unfold insert_layer, gc_track_layer_blobs; rows_tac].
  - apply (sound_same D); [by eapply (st_delete_layers _ G)|done|]. by destruct (delete_layers_effect now P D (track_layer D (proj1 Hg))) as (? & ? & ? & -> & _).
  - intros Hrun. apply (sound_same D); [by eapply (st_upsert_tag _ G)|done|revert Hrun; unfold upsert_tag, gc_track_switched_tags; rows_tac].
  - apply (sound_same D); [by eapply (st_delete_tags _ G)|done|]. by destruct (delete_tags_effect now P D) as (? & ? & -> & _).
  - apply (sound_same D); [by eapply (st_set_defaults _ G)|done..].
Qed.

(** ** The workers keep the tree *)

Lemma postponed_repos D D' : postponed D D' → same_repos D D'.
Proof. by intros [->|[(d & x & _ & ->)|(k & x & _ & ->)]]. Qed.
Lemma reviewed_repos D x D' : reviewed D x D' → same_repos D D'.
Proof.
  intros (D1 & Hd & _ & ->). destruct Hd as [[_ ->]|[_ [[-> _]|Hdel]]]; [done..|]. exact (delete_blob_repos _ _ _ _ Hdel).
Qed.
Lemma manifest_effect_repos now D D' : manifest_effect now D D' → same_repos D D'.
Proof.
  intros [Hp|(k & [(_ & _ & ->)|(_ & n & Hdel)])]; [by apply postponed_repos|done|by eapply delete_manifest_repos].
Qed.

(** *** And the rows *)

Lemma postponed_sound D D' : sound D → postponed D D' → sound D'.
Proof.
  intros HD Hp. apply (sound_same D); [by eapply postponed_good, Hp; apply HD|done|].
  by destruct Hp as [->|[(d & x & _ & ->)|(k & x & _ & ->)]].
Qed.
Lemma reviewed_sound D x D' : sound D → reviewed D x D' → sound D'.
Proof.
  intros HD Hr. apply (sound_same D); [by eapply reviewed_good, Hr; apply HD|done|]. by apply reviewed_frame in Hr as (-> & _).
Qed.
Lemma manifest_effect_sound now D D' : sound D → manifest_effect now D D' → sound D'.
Proof.
  intros HD He. assert (good D') as H' by (eapply manifest_effect_good, He; apply HD).
  destruct He as [Hp|(k & [(_ & _ & ->)|(_ & n & Hdel)])]; [by eapply postponed_sound|by apply (sound_same D)|].
  apply (sound_sub D); [done..|]. eapply delete_manifest_rows, Hdel. apply HD.
Qed.

(** ** The reachable databases *)

(** The steps: calls of the stores up to the first that fails, whether their
    statements are committed one by one or all together (what is rolled back is
    no step); a change of the storage; a run of a worker. *)
Inductive step : db * St → db * St → Prop :=
  | step_calls ops faults D S :
      Forall clean_op ops →
      step (D, S) (tx_db (run_ops ops {| tx_db := D; tx_failed := false; tx_faults := faults |}).2, S)
  | step_store D S S' : step (D, S) (D, S')
  | step_review_blob now locked faults s : step s (BlobWorker_Run now locked faults s).2
  | step_review_manifest now locked faults s : step s (ManifestWorker_Run now locked faults s).2.
Definition reached (D : db) : Prop := ∃ S0 S : St, rtc step (migrated, S0) (D, S).

Lemma step_keeps s s' : step s s' → sound s.1 ∧ tree s.1 → sound s'.1 ∧ tree s'.1.
Proof.
  intros Hstep [HD HT]. destruct Hstep as [ops faults D S Hops|D S S'|now locked faults [D S]|now locked faults [D S]]; cbn [fst snd] in *.
  - pose proof (run_ops_stable _ sound_stable ops {| tx_db := D; tx_failed := false; tx_faults := faults |} HD) as H1.
    pose proof (run_ops_tree ops Hops {| tx_db := D; tx_failed := false; tx_faults := faults |} HT) as H2. by split.
  - done.
  - destruct (BlobWorker_Run _ _ _ _) as [o s'] eqn:Hrun. cbn.
    apply blob_run_effect in Hrun as [_ [Hp|[x Hr]]]; [..|apply HD].
    + split; [by eapply postponed_sound|]. by eapply same_repos_tree, HT; apply postponed_repos.
    + split; [by eapply reviewed_sound|]. by eapply same_repos_tree, HT; eapply reviewed_repos.
  - destruct (ManifestWorker_Run _ _ _ _) as [o s'] eqn:Hrun. cbn. apply manifest_run_effect in Hrun as [He _].
    split; [by eapply manifest_effect_sound|]. by eapply same_repos_tree, HT; eapply manifest_effect_repos.
Qed.
Lemma reached_keeps D : reached D → sound D ∧ tree D.
Proof.
  intros (S0 & S & Hrtc). remember (migrated, S0) as s0 eqn:H0. remember (D, S) as s eqn:Hs.
  cut (sound s0.1 ∧ tree s0.1 → sound s.1 ∧ tree s.1).
  { subst s s0. intros Hx. apply Hx. split; [split; [apply migrated_good|by split]|by split]. }
  clear H0 Hs. induction Hrtc as [|s1 s2 s3 Hstep _ IH]; [done|]. intros Hx. by apply IH, (step_keeps s1).
Qed.
Lemma reached_good D : reached D → good D.
Proof. intros H. by apply reached_keeps. Qed.
Lemma reached_legible D : reached D → legible D.
Proof. intros H. by apply reached_keeps. Qed.
Lemma reached_tree D : reached D → tree D.
Proof. intros H. by apply reached_keeps. Qed.

(** Calls that are run from a reached database reach another. *)
Lemma reached_calls D ops faults :
  reached D → Forall clean_op ops →
  reached (tx_db (run_ops ops {| tx_db := D; tx_failed := false; tx_faults := faults |}).2).
Proof. intros (S0 & S & Hrtc) Hops. exists S0, S. eapply rtc_r; [done|]. by apply step_calls. Qed.
Lemma reached_migrated (S : St) : reached migrated.
Proof. by exists S, S. Qed.

End registry.
End Registry.
