(* ===== verification/Rows.v ===== *)
(** * The rows of manifests

    The rows that the stores have written can be read: what a lookup of a
    manifest by its digest or by a tag returns, and that no scan of a reachable
    database fails. *)

From stdpp Require Import sorting.
From S2P Require Import Prelude GoStd Digest Driver Database Tracking Datastore Transactions Repositories StoreOps OnlineGCProps Registry.

Module Rows.
Import Database Tracking Datastore Transactions Repositories StoreOps OnlineGCProps Registry.

Section rows.
Context {GD : GoDigest} {GDL : GoDigestLaws} {Co : Collation}.

(** ** Scans *)

Lemma length_merge_sort {A} (R : relation A) `{!RelDecision R} l : length (merge_sort R l) = length l.
Proof. apply Permutation_length, merge_sort_Permutation. Qed.
Lemma scan_all_ok {X A} (scan : X → outcome dberror A) rows :
  (∀ x, x ∈ rows → ∃ a, scan x = Ret a) →
  ∃ l, scan_all scan rows = Ret l ∧ length l = length rows ∧ ∀ a, a ∈ l ↔ ∃ x, x ∈ rows ∧ scan x = Ret a.
Proof.
  induction rows as [|x rows IH]; intros Hs; [exists []; split_and!; [done..|set_solver]|].
  destruct (Hs x) as [a Ha]; [by left|]. destruct IH as (l & Hl & Hlen & Hin); [intros y Hy; apply Hs; by right|].
  exists (a :: l). cbn. rewrite Ha, Hl, Hlen. split_and!; [done..|]. intros b. rewrite elem_of_cons, Hin. split.
  - intros [->|(y & Hy & Hb)]; [exists x|exists y]; by split; [set_solver|].
  - intros (y & [->|Hy]%elem_of_cons & Hb); [left; congruence|right; by exists y].
Qed.

(** ** Lookups *)

(** The manifest of a repository with a digest. *)
Definition no_manifest (D : db) (r : Repository) (x : dbdigest) : Prop :=
  ∀ k m, manifests D !! k = Some m → k.1 = (rp_NamespaceID r, rp_ID r) → m_digest m ≠ x.
Lemma find_manifest_None D r dgst x :
  NewDigest dgst = Ret x → no_manifest D r x →
  repositoryStore_FindManifestByDigest (rp_NamespaceID r) (rp_ID r) dgst (ok_tx D) = (Ret None, ok_tx D).
Proof.
  intros Hx Hn. unfold repositoryStore_FindManifestByDigest. erewrite bind_Ret by by apply newDigest_ok.
  assert (manifest_by_digest (rp_NamespaceID r) (rp_ID r) x D = None) as Hnone.
  { unfold manifest_by_digest. apply head_filter_None. intros k ([k' m] & -> & Hk%elem_of_map_to_list)%list_elem_of_fmap [He Hd].
    cbn in *. rewrite Hk in Hd. cbn in Hd. injection Hd as Hd. by eapply Hn. }
  erewrite bind_Ret by (apply errorf_ok, exec_ok; by rewrite Hnone). done.
Qed.

(** What a manifest that is read from a row has of it. *)
Record reads (m : Manifest) (i : Z) (dgst : digest) (row : manifest_row) : Prop := {
  rd_ID : mf_ID m = i;
  rd_Digest : mf_Digest m = dgst;
  rd_MediaType : mf_MediaType m = m_media_type row;
  rd_SchemaVersion : mf_SchemaVersion m = m_schema_version row;
  rd_Payload : mf_Payload m = m_payload row;
}.
Lemma scan_readable n r i dgst row :
  readable dgst row → ∃ m, scanFullManifest ((n, r, i), row) = Ret m ∧ reads m i dgst row.
Proof.
  intros [Hx%Parse_NewDigest Hc]. unfold scanFullManifest. rewrite Hx.
  destruct (m_configuration_blob_digest row) as [c|]; [|by eexists].
  destruct Hc as [[d ->] [p ->]]. by eexists.
Qed.

Lemma find_manifest_Some D r dgst i row :
  manifests D !! (rp_NamespaceID r, rp_ID r, i) = Some row → readable dgst row →
  (∀ k m, manifests D !! k = Some m → k.1 = (rp_NamespaceID r, rp_ID r) → m_digest m = m_digest row → k.2 = i) →
  ∃ m, repositoryStore_FindManifestByDigest (rp_NamespaceID r) (rp_ID r) dgst (ok_tx D) = (Ret (Some m), ok_tx D) ∧
    reads m i dgst row.
Proof.
  intros Hk Hrow Hu. unfold repositoryStore_FindManifestByDigest.
  assert (manifest_by_digest (rp_NamespaceID r) (rp_ID r) (m_digest row) D = Some (rp_NamespaceID r, rp_ID r, i)) as Hsome.
  { unfold manifest_by_digest. destruct (head _) as [k|] eqn:Hh.
    - apply head_filter_Some in Hh as [([k' m] & -> & Hk'%elem_of_map_to_list)%list_elem_of_fmap [He Hd']].
      cbn [fst snd] in *. rewrite Hk' in Hd'. injection Hd' as Hd'. rewrite <-(Hu _ _ Hk' He Hd'), <-He. by destruct k'.
    - rewrite head_filter_None in Hh. destruct (Hh (rp_NamespaceID r, rp_ID r, i)).
      + apply list_elem_of_fmap. eexists (_, row). split; [reflexivity|]. by apply elem_of_map_to_list.
      + split; [done|]. by rewrite Hk. }
  destruct (scan_readable (rp_NamespaceID r) (rp_ID r) i dgst row Hrow) as (m & Hm & Hrd). exists m. split; [|done].
  erewrite bind_Ret by apply newDigest_ok, Hrow.
  erewrite bind_Ret by by apply errorf_ok, exec_ok. rewrite Hsome. unfold lift. cbn -[scanFullManifest]. rewrite Hk.
  cbn -[scanFullManifest]. by rewrite Hm.
Qed.
Lemma find_tagged_manifest D r tag dgst i row :
  tags D !! (rp_NamespaceID r, rp_ID r, tag) = Some i → manifests D !! (rp_NamespaceID r, rp_ID r, i) = Some row →
  readable dgst row →
  ∃ m, repositoryStore_FindManifestByTagName r tag (ok_tx D) = (Ret (Some m), ok_tx D) ∧ reads m i dgst row.
Proof.
  intros Ht Hk Hrow. unfold repositoryStore_FindManifestByTagName.
  destruct (scan_readable (rp_NamespaceID r) (rp_ID r) i dgst row Hrow) as (m & Hm & Hrd). exists m. split; [|done].
  erewrite bind_Ret by by apply errorf_ok, exec_ok. unfold lift, manifest_by_tag. rewrite Ht. cbn -[scanFullManifest].
  rewrite Hk. cbn -[scanFullManifest]. by rewrite Hm.
Qed.

Lemma by_digest_Some n r x k D :
  manifest_by_digest n r x D = Some k → k.1 = (n, r) ∧ ∃ m, manifests D !! k = Some m ∧ m_digest m = x.
Proof.
  unfold manifest_by_digest. intros [([k' m] & -> & Hk%elem_of_map_to_list)%list_elem_of_fmap [He Hd]]%head_filter_Some.
  cbn [fst] in *. rewrite Hk in Hd. injection Hd as Hd. split; [done|]. by exists m.
Qed.
Lemma by_digest_None r x D : manifest_by_digest (rp_NamespaceID r) (rp_ID r) x D = None → no_manifest D r x.
Proof.
  unfold manifest_by_digest. rewrite head_filter_None. intros Hn k m Hk He Hd. apply (Hn k).
  - apply list_elem_of_fmap. exists (k, m). split; [done|]. by apply elem_of_map_to_list.
  - split; [done|]. rewrite Hk. cbn. by rewrite Hd.
Qed.
Lemma legible_readable D k m dgst : legible D → manifests D !! k = Some m → NewDigest dgst = Ret (m_digest m) → readable dgst m.
Proof.
  intros Hl Hk Hd. destruct (lg_readable D Hl _ _ Hk) as (d & Hx & Hc). by split.
Qed.
Lemma legible_scan D k m : legible D → manifests D !! k = Some m → ∃ a, scanFullManifest (k, m) = Ret a.
Proof.
  intros Hl Hk. destruct (lg_readable D Hl _ _ Hk) as (d & Hd). destruct k as [[n r] i].
  destruct (scan_readable n r i d m Hd) as (a & Ha & _). by exists a.
Qed.

(** ** Reachable databases *)

Context {St : Type} {Drv : StorageDriver St}.

Lemma find_by_digest_total D r dgst x :
  legible D → NewDigest dgst = Ret x →
  match manifest_by_digest (rp_NamespaceID r) (rp_ID r) x D with
  | None => repositoryStore_FindManifestByDigest (rp_NamespaceID r) (rp_ID r) dgst (ok_tx D) = (Ret None, ok_tx D)
  | Some k =>
      ∃ m row, repositoryStore_FindManifestByDigest (rp_NamespaceID r) (rp_ID r) dgst (ok_tx D) = (Ret (Some m), ok_tx D) ∧
        k.1 = (rp_NamespaceID r, rp_ID r) ∧ manifests D !! k = Some row ∧ m_digest row = x ∧ reads m k.2 dgst row
  end.
Proof.
  intros Hl Hx. destruct (manifest_by_digest _ _ x D) as [[nr i]|] eqn:Hk; [|by eapply find_manifest_None, by_digest_None].
  destruct (by_digest_Some _ _ _ _ _ Hk) as (Hnr & row & Hrow & Hd). cbn in Hnr. subst nr.
  destruct (find_manifest_Some D r dgst i row) as (m & Hfind & Hrd).
  - done.
  - eapply legible_readable; [done..|]. by rewrite Hd.
  - intros k' m' Hk' He' Hd'. by rewrite <-(lg_unique _ Hl _ _ _ _ Hrow Hk').
  - by exists m, row.
Qed.

(** C22: In every database that the registry reaches, whatever interrupted its
    calls, the rows that the stores have written can be read: all blobs and all
    manifests are listed; a lookup by digest returns the only manifest of the
    repository with that digest if there is one, and nothing otherwise; and
    every tag resolves to its manifest.  No lookup fails or dereferences a
    missing column. *)
Theorem rows_decode D :
  reached (Drv := Drv) D →
  (∃ bs, blobStore_FindAll (ok_tx D) = (Ret bs, ok_tx D) ∧ length bs = size (blobs D) ∧
    ∀ b, b ∈ bs ↔ ∃ x row, blobs D !! x = Some row ∧ scanFullBlob (x, row) = Ret b) ∧
  (∃ ms, manifestStore_FindAll (ok_tx D) = (Ret ms, ok_tx D) ∧ length ms = size (manifests D) ∧
    ∀ m, m ∈ ms ↔ ∃ k row, manifests D !! k = Some row ∧ scanFullManifest (k, row) = Ret m) ∧
  (∀ r dgst x, NewDigest dgst = Ret x →
    repositoryStore_FindManifestByDigest (rp_NamespaceID r) (rp_ID r) dgst (ok_tx D) = (Ret None, ok_tx D) ∧ no_manifest D r x ∨
    ∃ m i row, repositoryStore_FindManifestByDigest (rp_NamespaceID r) (rp_ID r) dgst (ok_tx D) = (Ret (Some m), ok_tx D) ∧
      manifests D !! (rp_NamespaceID r, rp_ID r, i) = Some row ∧ reads m i dgst row ∧
      ∀ j row', manifests D !! (rp_NamespaceID r, rp_ID r, j) = Some row' → m_digest row' = x → j = i) ∧
  (∀ r t i, tags D !! (rp_NamespaceID r, rp_ID r, t) = Some i →
    ∃ m dgst row, repositoryStore_FindManifestByTagName r t (ok_tx D) = (Ret (Some m), ok_tx D) ∧
      manifests D !! (rp_NamespaceID r, rp_ID r, i) = Some row ∧ reads m i dgst row).
Proof.
  intros HD. pose proof (reached_legible _ HD) as Hl. destruct (reached_good _ HD) as [Hinv Hp]. split_and!.
  - unfold blobStore_FindAll. erewrite bind_Ret by by apply errorf_ok, exec_ok. unfold lift.
    destruct (scan_all_ok scanFullBlob (map_to_list (blobs D))) as (l & -> & Hlen & Hin).
    { intros [x row] Hx%elem_of_map_to_list. unfold scanFullBlob. cbn [fst]. destruct (Hp x) as [d ->]; [by left|by eexists]. }
    exists l. split; [done|]. rewrite Hlen, length_map_to_list. split; [done|]. intros b. rewrite Hin. split.
    + intros ([x row] & Hx%elem_of_map_to_list & Hb). by exists x, row.
    + intros (x & row & Hx & Hb). exists (x, row). by rewrite elem_of_map_to_list.
  - unfold manifestStore_FindAll. erewrite bind_Ret by by apply errorf_ok, exec_ok. unfold lift.
    destruct (scan_all_ok scanFullManifest (merge_sort by_id (map_to_list (manifests D)))) as (l & -> & Hlen & Hin).
    { intros [k row]. rewrite merge_sort_Permutation. intros Hk%elem_of_map_to_list. by eapply legible_scan. }
    exists l. split; [done|]. rewrite Hlen, length_merge_sort, length_map_to_list. split; [done|]. intros m. rewrite Hin.
    split.
    + intros ([k row] & Hk & Hb). rewrite merge_sort_Permutation, elem_of_map_to_list in Hk. by exists k, row.
    + intros (k & row & Hk & Hb). exists (k, row). by rewrite merge_sort_Permutation, elem_of_map_to_list.
  - intros r dgst x Hx. pose proof (find_by_digest_total D r dgst x Hl Hx) as Hf.
    destruct (manifest_by_digest _ _ x D) as [[nr i]|] eqn:Hk; [right|left; split; [done|by apply by_digest_None]].
    destruct Hf as (m & row & Hrun & Hnr & Hrow & Hd & Hrd). cbn in Hnr. subst nr. exists m, i, row. split_and!; [done..|].
    intros j row' Hj Hd'. by injection (lg_unique _ Hl _ _ _ _ Hj Hrow eq_refl ltac:(congruence)).
  - intros r t i Ht. destruct (fk_tag D Hinv _ _ Ht) as [row Hrow]. destruct (lg_readable _ Hl _ _ Hrow) as [dgst Hd].
    destruct (find_tagged_manifest D r t dgst i row Ht Hrow Hd) as (m & Hrun & Hrd). by exists m, dgst, row.
Qed.

End rows.
End Rows.
