(* ===== verification/RepositoryProps.v ===== *)
(** * The repositories of the registry

    What the calls of registry/datastore/repository.go that create and find
    repositories promise in every database that the registry reaches
    (Registry.v): the repositories form the tree of their paths, a creation by
    path adds what is missing on the path and nothing else, and the recursive
    queries answer by the paths. *)

From S2P Require Import Prelude GoStd Digest Driver Database Datastore Transactions Repositories RepositoryTree RepositoryQueries Registry.

Module RepositoryProps.
Import Database Datastore Transactions Repositories RepositoryTree RepositoryQueries Registry.

Section properties.
Context {GD : GoDigest} {GDL : GoDigestLaws} {St : Type} {Drv : StorageDriver St}.
Abbreviation reached := (reached (St := St)).

(** Without faults a query returns what it computes, and changes nothing. *)
Lemma query_run {A} msg (f : db → A) D : errorf msg (query f) (ok_tx D) = (Ret (f D), ok_tx D).
Proof. done. Qed.

(** C21: In every database that the registry reaches, whatever interrupted its
    calls, the recursive queries for the descendants and
    for the ancestors of a repository end, and return, each once, exactly the
    repositories whose paths extend its path by further components and those
    whose paths its path so extends. *)
Theorem recursive_queries D r :
  reached D → is_repository D r →
  (∃ rs, repositoryStore_FindDescendantsOf (rp_ID r) (ok_tx D) = (Ret (Some rs), ok_tx D) ∧ NoDup rs ∧
    ∀ x, x ∈ rs ↔ is_repository D x ∧ below_path (rp_Path r) (rp_Path x)) ∧
  (∃ rs, repositoryStore_FindAncestorsOf (rp_ID r) (ok_tx D) = (Ret (Some rs), ok_tx D) ∧ NoDup rs ∧
    ∀ x, x ∈ rs ↔ is_repository D x ∧ below_path (rp_Path x) (rp_Path r)).
Proof.
  intros H%reached_tree Hr. unfold repositoryStore_FindDescendantsOf, repositoryStore_FindAncestorsOf. rewrite !query_run. split.
  - destruct (descendants_query D r H Hr) as (rs & -> & Hrs). by exists rs.
  - destruct (ancestors_query D r H Hr) as (rs & -> & Hrs). by exists rs.
Qed.

(** C19: In every database that the registry reaches, whatever interrupted its
    calls, the repositories form the tree of their paths:
    no two have the same identifier or the same path, the last component of
    the path is the name and the first the name of the namespace; a repository
    with one component has no parent, and every other has as its parent, in the
    same namespace, the repository of the path without the last component. *)
Theorem repositories_form_a_tree D r :
  reached D → is_repository D r →
  (∀ r', is_repository D r' → rp_ID r' = rp_ID r ∨ rp_Path r' = rp_Path r → r' = r) ∧
  last (Split slash (rp_Path r)) = Some (rp_Name r) ∧
  top_level_namespaces D !! rp_NamespaceID r = head (Split slash (rp_Path r)) ∧
  match rp_ParentID r with
  | None => length (Split slash (rp_Path r)) = 1
  | Some i => ∃ p, is_repository D p ∧ rp_ID p = i ∧ rp_NamespaceID p = rp_NamespaceID r ∧
      Split slash (rp_Path r) = Split slash (rp_Path p) ++ [rp_Name r]
  end.
Proof.
  intros H%reached_tree Hr. destruct (is_repository_placed D r H Hr) as (ws & w & Hg & Hp & Hw & Hh & Hpar).
  split; [intros r' Hr' [?|?]; [by apply (is_repository_id D)|by apply (is_repository_path D)]|].
  rewrite Hp, Split_path, last_snoc, Hw by (done || by destruct ws). split_and!; [done..|].
  destruct ws as [|v ws]; [by rewrite Hpar|]. destruct (parent_exists D r (v :: ws) w) as (p & Hp1 & Hp2 & Hp3 & Hp4); [done..|].
  rewrite Hp3. exists p. split_and!; [done..|]. rewrite Hp2, Split_path; [done| |done]. by apply Forall_app in Hg as [? _].
Qed.

(** C20: Creating or finding a repository by a clean path of at most 255 characters
    that nothing interrupts returns the repository of that path; it adds only
    repositories at the path and its prefixes, after which each of them has
    one, keeps every other row of the database, and, repeated, returns the same
    repository and adds none; a creation that must not find one then fails with
    the violation of the unique path. *)
Theorem create_or_find_by_path D ws :
  reached D → good_path ws → ws ≠ [] → too_long (path_of ws) = false →
  ∃ r D', repositoryStore_CreateOrFindByPath (path_of ws) (ok_tx D) = (Ret r, ok_tx D') ∧
    rp_Path r = path_of ws ∧ repositories D' !! (rp_NamespaceID r, rp_ID r) = Some (row_of r) ∧
    top_level_namespaces D' !! rp_NamespaceID r = head ws ∧
    content D' = content D ∧ repositories D ⊆ repositories D' ∧
    (∀ k x, repositories D' !! k = Some x → repositories D !! k = Some x ∨ r_path x ∈ prefixes ws) ∧
    (∀ p, p ∈ prefixes ws → ∃ k x, repositories D' !! k = Some x ∧ r_path x = p) ∧
    (∃ D2, repositoryStore_CreateOrFindByPath (path_of ws) (ok_tx D') = (Ret r, ok_tx D2) ∧ repositories D2 = repositories D') ∧
    (repositoryStore_CreateByPath (path_of ws) (ok_tx D')).1 =
      Fail (Wrap "creating repository" (PgError (UniqueViolation "repositories"))).
Proof.
  intros H%reached_tree Hg Hne Hl. destruct ws as [|w ws _] using rev_ind; [done|].
  assert (too_long (path_of (ws ++ [w])) = true → ∀ e, never e) as Hl' by congruence.
  destruct (does_run _ _ _ _ (repositoryStore_CreateOrFindByPath_does ws w D never H Hg Hl')) as (r & D' & Hrun & Hgr & Hr & Hp).
  pose proof (gr_tree _ _ _ _ Hgr) as H'. exists r, D'.
  assert (∀ p, p ∈ prefixes (ws ++ [w]) → ∃ r', is_repository D' r' ∧ rp_Path r' = p) as Hall.
  { intros p (us & vs & He & Hu & ->)%elem_of_prefixes. rewrite He in Hg, Hp. by eapply prefix_exists. }
  split_and!; try done; try apply Hgr.
  - destruct (is_repository_placed D' r H' Hr) as (us & u & Hgu & Hpu & _ & Hh & _). rewrite Hh. f_equal.
    apply path_inj; [done|done|by destruct us|by destruct ws|congruence].
  - intros p (r' & Hr' & Hp')%Hall. by exists (rp_NamespaceID r', rp_ID r'), (row_of r').
  - destruct (does_run _ _ _ _ (repositoryStore_CreateOrFindByPath_does ws w D' never H' Hg Hl')) as (r2 & D2 & -> & Hgr2 & Hr2 & Hp2).
    pose proof (grown_full _ _ _ _ Hgr2 Hall) as He. exists D2. split; [|done]. do 2 f_equal.
    apply (is_repository_path D2); [apply Hgr2|done|unfold is_repository; by rewrite He|congruence].
  - destruct (does_fails _ _ _ _ _ (repositoryStore_CreateByPath_does ws w D'
      (λ e, e = Wrap "creating repository" (PgError (UniqueViolation "repositories"))) H' Hg ltac:(congruence) ltac:(done)))
      as (e & -> & ->); [|done]. intros a D2 (_ & _ & _ & Hno). by apply (Hno r).
Qed.

End properties.
End RepositoryProps.
