(* ===== verification/Api.v ===== *)
(** * Requests on the metadata database

    What the handlers of registry/handlers share when the registry runs with the
    metadata database: the errors they return and the codes they answer with
    (registry/api/errcode), the statements that they run on the database outside
    of transactions, and their transactions.

    The state of a request is the database and the storage, with the faults of
    its next statements and with what other processes do in between: before each
    statement, transaction or storage call the next step of the environment is
    taken.  A transaction is one step, as the locks that it takes make it for
    those that it conflicts with. *)

From S2P Require Import Prelude GoStd Digest Driver ErrCode Database Datastore Transactions.

Module Api.
Import ErrCode Database Datastore Transactions.

(** ** Errors *)

(** The errors of handlers: those of the datastore, those of the packages
    distribution and storage, errors with a code, the list of errors of a
    validation, and errors wrapped with [%w]. *)
Inductive herr :=
  | Db (e : dberror)
  | Dist (e : error)
  | Coded (c : code)
  | Verification (errs : list herr)
  | Wrapped (msg : string) (e : herr).

Fixpoint db_unwrap (e : dberror) : dberror :=
  match e with Wrap _ e => db_unwrap e | _ => e end.
(** The error inside of the wrappings, which [errors.Is] and [errors.As] find. *)
Fixpoint unwrap (e : herr) : herr :=
  match e with
  | Wrapped _ e => unwrap e
  | Db e => match db_unwrap e with StorageError e => Dist e | InvalidDigest e => Dist (ErrDigest e) | e => Db e end
  | _ => e
  end.
(** The error itself, without unwrapping, if it is one of the distribution. *)
Definition direct (e : herr) : option error :=
  match e with Dist e | Db (StorageError e) => Some e | Db (InvalidDigest e) => Some (ErrDigest e) | _ => None end.
Definition is_error (e : herr) (sentinel : error) : bool :=
  match unwrap e with Dist e => err_eq e sentinel | _ => false end.
Definition equals (e : herr) (sentinel : error) : bool :=
  match direct e with Some e => err_eq e sentinel | None => false end.
Definition is_db (e : herr) (sentinel : dberror) : bool :=
  match unwrap e, sentinel with
  | Db ErrManifestNotFound, ErrManifestNotFound | Db ErrRefManifestNotFound, ErrRefManifestNotFound
  | Db ErrManifestReferencedInList, ErrManifestReferencedInList => true
  | _, _ => false
  end.

(** An error of the network is a timeout or a failed connection. *)
Definition FromUnknownError (e : herr) : code :=
  match unwrap e with
  | Coded c => c
  | Db DeadlineExceeded | Db ConnectionError => ErrorCodeUnavailable
  | _ => ErrorCodeUnknown
  end.

(** The answer to a request: the errors, with their codes, or a status with what
    the handler answers. *)
Inductive reply (B : Type) :=
  | Refused (errs : list (option code))
  | Answer (status : Z) (body : B).
#[global] Arguments Refused {B} errs.
#[global] Arguments Answer {B} status body.
Definition status {B} (r : reply B) : Z :=
  match r with Refused errs => ServeJSON errs | Answer status _ => status end.
Definition refuse {B} (c : code) : reply B := Refused [Some c].

(** ** The state *)

Section api.
Context {St : Type}.

Record world := {
  w_db : db;
  w_st : St;
  w_faults : list (option dberror);
  w_env : list (db * St → db * St);
}.
Abbreviation H := (GoM world herr) (only parsing).

Definition set_db (D : db) (faults : list (option dberror)) (w : world) : world :=
  {| w_db := D; w_st := w_st w; w_faults := faults; w_env := w_env w |}.
Definition set_st (s : St) (w : world) : world :=
  {| w_db := w_db w; w_st := s; w_faults := w_faults w; w_env := w_env w |}.

(** The next step of the other processes. *)
Definition interfere (w : world) : world :=
  match w_env w with
  | [] => w
  | f :: env =>
      let x := f (w_db w, w_st w) in
      {| w_db := x.1; w_st := x.2; w_faults := w_faults w; w_env := env |}
  end.

Definition as_herr {S E A} (f : E → herr) (m : GoM S E A) : GoM S herr A := λ s,
  let '(o, s) := m s in (omap_err f o, s).
Abbreviation in_db := (as_herr Db) (only parsing).

(** A call of a store on the database: its statements are committed one by one. *)
Definition on_db {A} (m : GoM tx dberror A) : H A := λ w,
  let w := interfere w in
  let '(o, t) := m {| tx_db := w_db w; tx_failed := false; tx_faults := w_faults w |} in
  (omap_err Db o, set_db (tx_db t) (tx_faults t) w).

(** [BeginTx], the statements, [Commit], and the deferred [Rollback]. *)
Definition in_tx {A} (begin_msg commit_msg : string) (m : GoM tx herr A) : H A := λ w,
  let w := interfere w in
  let rolled_back faults := set_db (w_db w) faults w in
  match head (w_faults w) with
  | Some (Some e) => (Fail (Wrapped begin_msg (Db e)), rolled_back (tail (w_faults w)))
  | _ =>
      let '(o, t) := m {| tx_db := w_db w; tx_failed := false; tx_faults := tail (w_faults w) |} in
      match o with
      | Ret a =>
          if tx_failed t then (Fail (Wrapped commit_msg (Db InFailedTransaction)), rolled_back (tail (tx_faults t)))
          else match head (tx_faults t) with
               | Some (Some e) => (Fail (Wrapped commit_msg (Db e)), rolled_back (tail (tx_faults t)))
               | _ => (Ret a, set_db (tx_db t) (tail (tx_faults t)) w)
               end
      | _ => (o, rolled_back (tx_faults t))
      end
  end.

Definition on_storage {A} (m : GoM St herr A) : H A := λ w,
  let w := interfere w in
  let '(o, s) := m (w_st w) in (o, set_st s w).

(** ** Requests that nothing disturbs *)

Definition calm_world (w : world) : Prop := w_faults w = [] ∧ w_env w = [].
Definition with_db (D : db) (w : world) : world := set_db D [] w.

Lemma calm_with_db D w : calm_world w → calm_world (with_db D w).
Proof. by intros [_ He]. Qed.
Lemma with_db_same w : calm_world w → with_db (w_db w) w = w.
Proof. intros [Hf _]. destruct w. cbn in *. by subst. Qed.
Lemma calm_interfere w : calm_world w → interfere w = w.
Proof. intros [_ He]. unfold interfere. by rewrite He. Qed.

Lemma on_db_run {A} (m : GoM tx dberror A) w o D' :
  calm_world w → m (ok_tx (w_db w)) = (o, ok_tx D') → on_db m w = (omap_err Db o, with_db D' w).
Proof.
  intros Hw Hm. unfold on_db. rewrite calm_interfere by done. destruct Hw as [-> _].
  change {| tx_db := w_db w; tx_failed := false; tx_faults := [] |} with (ok_tx (w_db w)). by rewrite Hm.
Qed.
Lemma on_db_query {A} msg (f : db → A) w : calm_world w → on_db (errorf msg (query f)) w = (Ret (f (w_db w)), w).
Proof.
  intros Hw. rewrite (on_db_run _ w (Ret (f (w_db w))) (w_db w)) by done. cbn. by rewrite with_db_same.
Qed.
Lemma on_db_does {A} (m : GoM tx dberror A) w (R : A → db → Prop) F :
  calm_world w → does m (w_db w) R F never → ∃ a D', on_db m w = (Ret a, with_db D' w) ∧ R a D'.
Proof.
  intros Hw Hd. apply does_run in Hd as (a & D' & Hrun & HR). exists a, D'. split; [|done].
  by rewrite (on_db_run _ _ (Ret a) D' Hw Hrun).
Qed.

End api.
#[global] Arguments world St : clear implicits.
End Api.
