(* ===== verification/Manifests.v ===== *)
(** * Manifests

    Models the manifest formats (manifests.go, manifest/schema2, manifest/ocischema
    and manifest/manifestlist), the validators of registry/storage/validation and
    the manifest store of registry/storage (manifeststore.go and its handlers).

    The decoders of the standard library, of JSON into the structs, of MIME types
    and of URLs, and the signatures of schema 1 are operations of the class
    [ManifestCodec]. *)

From S2P Require Import Prelude GoStd Digest Driver FileSystem Paths ObjectStore BlobStore ErrCode Database Datastore Api.

Module Manifests.
Import Api.

(** ** Formats *)

(** The fields of [distribution.Descriptor] that a manifest is checked by. *)
Record descriptor := { d_MediaType : string; d_Size : Z; d_Digest : digest; d_URLs : list string }.
Record Versioned := { v_SchemaVersion : Z; v_MediaType : string }.
(** [schema2.Manifest] and [ocischema.Manifest]. *)
Record Image := { im_Versioned : Versioned; im_Config : descriptor; im_Layers : list descriptor }.
Record ManifestDescriptor := { md_Descriptor : descriptor; md_Architecture : string; md_OS : string }.
(** A list without the field [manifests] is [None]. *)
Record ManifestList := { ml_Versioned : Versioned; ml_Manifests : option (list ManifestDescriptor) }.

Class ManifestCodec := {
  json_Versioned : bytes → option Versioned;
  json_schema2 : bytes → option Image;
  json_oci : bytes → option Image;
  json_ManifestList : bytes → option ManifestList;
  (** The content that the signatures of a schema 1 manifest sign. *)
  schema1_Canonical : bytes → option bytes;
  mime_ParseMediaType : string → option string;
  (** The scheme and the fragment of a URL. *)
  url_Parse : string → option (string * string);
}.

(** A deserialized manifest, with the bytes that it was read from. *)
Inductive manifest :=
  | Schema1 (canonical all : bytes)
  | Schema2 (m : Image) (canonical : bytes)
  | OCI (m : Image) (canonical : bytes)
  | List (m : ManifestList) (canonical : bytes).

Definition schema1_MediaTypeManifest : string := "application/vnd.docker.distribution.manifest.v1+json".
Definition schema1_MediaTypeSignedManifest : string := "application/vnd.docker.distribution.manifest.v1+prettyjws".
Definition schema2_MediaTypeManifest : string := "application/vnd.docker.distribution.manifest.v2+json".
Definition schema2_MediaTypeForeignLayer : string := "application/vnd.docker.image.rootfs.foreign.diff.tar.gzip".
Definition schema2_MediaTypeImageConfig : string := "application/vnd.docker.container.image.v1+json".
Definition schema2_MediaTypePluginConfig : string := "application/vnd.docker.plugin.v1+json".
Definition MediaTypeManifestList : string := "application/vnd.docker.distribution.manifest.list.v2+json".
Definition v1_MediaTypeImageManifest : string := "application/vnd.oci.image.manifest.v1+json".
Definition v1_MediaTypeImageIndex : string := "application/vnd.oci.image.index.v1+json".
Definition v1_MediaTypeImageConfig : string := "application/vnd.oci.image.config.v1+json".
Definition v1_layer_types : list string :=
  ["application/vnd.oci.image.layer.v1.tar"; "application/vnd.oci.image.layer.v1.tar+gzip";
   "application/vnd.oci.image.layer.nondistributable.v1.tar"; "application/vnd.oci.image.layer.nondistributable.v1.tar+gzip"].

Definition image_References (m : Image) : list descriptor := im_Config m :: im_Layers m.
Definition list_References (m : ManifestList) : list descriptor := md_Descriptor <$> default [] (ml_Manifests m).

(** The media type and the bytes of a manifest. *)
Definition Payload (m : manifest) : string * bytes :=
  match m with
  | Schema1 _ all => (schema1_MediaTypeSignedManifest, all)
  | Schema2 m canonical => (v_MediaType (im_Versioned m), canonical)
  | OCI _ canonical => (v1_MediaTypeImageManifest, canonical)
  | List m canonical =>
      (if bool_decide (v_MediaType (ml_Versioned m) = "") then v1_MediaTypeImageIndex else v_MediaType (ml_Versioned m), canonical)
  end.

Section formats.
Context {GD : GoDigest} {MC : ManifestCodec}.

(** [UnmarshalJSON] of the formats. *)
Definition schema2_UnmarshalJSON (b : bytes) : option manifest :=
  m ← json_schema2 b;
  if bool_decide (v_MediaType (im_Versioned m) = schema2_MediaTypeManifest) then Some (Schema2 m b) else None.
Definition oci_UnmarshalJSON (b : bytes) : option manifest :=
  m ← json_oci b;
  let t := v_MediaType (im_Versioned m) in
  if bool_decide (t = "" ∨ t = v1_MediaTypeImageManifest) then Some (OCI m b) else None.
Definition list_UnmarshalJSON (b : bytes) : option (ManifestList * manifest) := (λ m, (m, List m b)) <$> json_ManifestList b.

(** The functions that the formats register for the media types of requests. *)
Definition schema1Func (b : bytes) : option (manifest * digest) :=
  (λ c, (Schema1 c b, digest_FromBytes c)) <$> schema1_Canonical b.
Definition schema2Func (b : bytes) : option (manifest * digest) := (., digest_FromBytes b) <$> schema2_UnmarshalJSON b.
Definition ocischemaFunc (b : bytes) : option (manifest * digest) := (., digest_FromBytes b) <$> oci_UnmarshalJSON b.
Definition manifestListFunc (b : bytes) : option (manifest * digest) :=
  '(l, m) ← list_UnmarshalJSON b;
  if bool_decide (v_MediaType (ml_Versioned l) = MediaTypeManifestList) then Some (m, digest_FromBytes b) else None.
Definition imageIndexFunc (b : bytes) : option (manifest * digest) :=
  '(l, m) ← list_UnmarshalJSON b;
  let t := v_MediaType (ml_Versioned l) in
  if bool_decide (t = "" ∨ t = v1_MediaTypeImageIndex) then Some (m, digest_FromBytes b) else None.

(** [mappings]; an unknown media type has the function of the empty one. *)
Definition mappings (mediaType : string) : bytes → option (manifest * digest) :=
  if bool_decide (mediaType = schema2_MediaTypeManifest) then schema2Func
  else if bool_decide (mediaType = v1_MediaTypeImageManifest) then ocischemaFunc
  else if bool_decide (mediaType = MediaTypeManifestList) then manifestListFunc
  else if bool_decide (mediaType = v1_MediaTypeImageIndex) then imageIndexFunc
  else schema1Func.
Definition UnmarshalManifest (ctHeader : string) (p : bytes) : option (manifest * digest) :=
  mediaType ← (if bool_decide (ctHeader = "") then Some "" else mime_ParseMediaType ctHeader);
  mappings mediaType p.

(** ** Validation *)

(** The regular expressions that the URLs of layers must and must not match. *)
Record ManifestURLs := { Allow : option (string → bool); Deny : option (string → bool) }.

Definition validURL (u : ManifestURLs) (s : string) : bool :=
  match url_Parse s with
  | None => false
  | Some (scheme, fragment) =>
      (bool_decide (scheme = "http") || bool_decide (scheme = "https")) && bool_decide (fragment = "") &&
      match Allow u with Some allow => allow s | None => true end &&
      match Deny u with Some deny => negb (deny s) | None => true end
  end.
Definition errMissingURL : herr := Dist (errors_New "missing URL on layer").
Definition errInvalidURL : herr := Dist (errors_New "invalid URL on layer").

Section validators.
Context {S : Type} (manifest_Exists : digest → GoM S herr bool) (blob_Stat : digest → GoM S herr unit).
Context (skipDependencyVerification : bool) (manifestURLs : ManifestURLs).

Definition stat_error (d : descriptor) : GoM S herr (option herr) :=
  r ← attempt (blob_Stat (d_Digest d));
  mret (match r with inl err => Some err | inr _ => None end).
(** The default case, which the case of manifests falls through to. *)
Definition forward (err : option herr) (d : descriptor) : GoM S herr (option herr) :=
  match d_URLs d with [] => stat_error d | _ => mret err end.
Definition manifest_error (d : descriptor) : GoM S herr (option herr) :=
  r ← attempt (manifest_Exists (d_Digest d));
  mret (match r with inr true => None | _ => Some (Dist ErrBlobUnknown) end).

Definition oci_check (d : descriptor) : GoM S herr (option herr) :=
  if bool_decide (d_MediaType d ∈ v1_layer_types) then
    if negb (forallb (validURL manifestURLs) (d_URLs d)) then mret (Some errInvalidURL)
    else match d_URLs d with [] => stat_error d | _ => mret None end
  else if bool_decide (d_MediaType d = v1_MediaTypeImageManifest) then
    err ← manifest_error d; forward err d
  else forward None d.
Definition schema2_check (d : descriptor) : GoM S herr (option herr) :=
  if bool_decide (d_MediaType d = schema2_MediaTypeForeignLayer) then
    mret (match d_URLs d with
          | [] => Some errMissingURL
          | _ => if negb (forallb (validURL manifestURLs) (d_URLs d)) then Some errInvalidURL else None
          end)
  else if bool_decide (d_MediaType d = schema2_MediaTypeManifest ∨ d_MediaType d = schema1_MediaTypeManifest) then
    err ← manifest_error d; forward err d
  else forward None d.

(** The errors that an error of a reference is reported by. *)
Definition reported (d : descriptor) (err : option herr) : list herr :=
  match err with
  | None => []
  | Some err =>
      (if equals err ErrBlobUnknown then [] else [err]) ++ [Dist (ErrManifestBlobUnknown (d_Digest d))]
  end.
Fixpoint check_all (check : descriptor → GoM S herr (option herr)) (ds : list descriptor) (errs : list herr) :
    GoM S herr (list herr) :=
  match ds with
  | [] => mret errs
  | d :: ds => err ← check d; check_all check ds (errs ++ reported d err)
  end.
Definition verified (errs : list herr) : GoM S herr unit :=
  match errs with [] => mret tt | _ => fail (Verification errs) end.
Definition bad_version : herr := Dist (errors_New "unrecognized manifest schema version").

Definition image_Validate (check : descriptor → GoM S herr (option herr)) (m : Image) : GoM S herr unit :=
  if negb (v_SchemaVersion (im_Versioned m) =? 2)%Z then fail bad_version
  else if skipDependencyVerification then mret tt
  else errs ← check_all check (image_References m) []; verified errs.
Definition OCIValidator_Validate : Image → GoM S herr unit := image_Validate oci_check.
Definition Schema2Validator_Validate : Image → GoM S herr unit := image_Validate schema2_check.

Definition list_check (d : descriptor) : GoM S herr (option herr) :=
  r ← attempt (manifest_Exists (d_Digest d));
  mret (match r with
        | inl err => Some err
        | inr true => None
        | inr false => Some (Dist ErrBlobUnknown)
        end).
Definition ManifestListValidator_Validate (m : ManifestList) : GoM S herr unit :=
  if negb (v_SchemaVersion (ml_Versioned m) =? 2)%Z then fail bad_version
  else
    errs ← (if skipDependencyVerification then mret [] else check_all list_check (list_References m) []);
    verified errs.
End validators.

End formats.

(** ** The manifest store *)

Section store.
Context {GD : GoDigest} {MC : ManifestCodec} {St : Type} {D : StorageDriver St}.
Context (bufs : nat → nat).
Abbreviation M := (GoM St herr) (only parsing).
Abbreviation stored := (as_herr Dist) (only parsing).

(** A [manifestStore]: the links of the manifests and of the blobs of its
    repository, and the options of the registry. *)
Record manifestStore := {
  ms_blobStore : BlobStore.linkedBlobStore (St := St);
  ms_blobs : BlobStore.linkedBlobStore (St := St);
  ms_skipDependencyVerification : bool;
  ms_manifestURLs : ManifestURLs;
}.

Definition ErrSchemaV1Unsupported : error := errors_New "manifest schema v1 unsupported".
Definition invalid_json : herr := Dist (errors_New "invalid manifest").
Definition decoded {A} (r : option A) : M A := match r with Some a => mret a | None => fail invalid_json end.

Definition Exists (ms : manifestStore) (dgst : digest) : M bool :=
  r ← attempt (stored (BlobStore.lbs_Stat (ms_blobStore ms) dgst));
  match r with
  | inr _ => mret true
  | inl err => if equals err ErrBlobUnknown then mret false else fail err
  end.

(** The decoding of a content by its version and media type.  A content without
    media type is read as a list first; when that fails there is no list, and the
    assertion of its type panics. *)
Definition Unmarshal (content : bytes) (v : Versioned) : M manifest :=
  if (v_SchemaVersion v =? 1)%Z then fail (Dist ErrSchemaV1Unsupported)
  else if (v_SchemaVersion v =? 2)%Z then
    if bool_decide (v_MediaType v = schema2_MediaTypeManifest) then decoded (schema2_UnmarshalJSON content)
    else if bool_decide (v_MediaType v = v1_MediaTypeImageManifest) then decoded (oci_UnmarshalJSON content)
    else if bool_decide (v_MediaType v = MediaTypeManifestList ∨ v_MediaType v = v1_MediaTypeImageIndex) then
      decoded (snd <$> list_UnmarshalJSON content)
    else if bool_decide (v_MediaType v = "") then
      match list_UnmarshalJSON content with
      | None => panic
      | Some (l, m) =>
          match ml_Manifests l with
          | Some _ => mret m
          | None => decoded (oci_UnmarshalJSON content)
          end
      end
    else fail (Verification [Dist (errors_New "unrecognized manifest content type")])
  else fail bad_version.
Definition Get (ms : manifestStore) (dgst : digest) : M manifest :=
  r ← attempt (stored (BlobStore.lbs_Get bufs (ms_blobStore ms) dgst));
  match r with
  | inl err =>
      if equals err ErrBlobUnknown
      then fail (Dist (ErrManifestUnknownRevision (BlobStore.lbs_name (ms_blobStore ms)) dgst))
      else fail err
  | inr content =>
      match json_Versioned content with
      | None => fail (Wrapped "failed to unmarshal manifest payload" invalid_json)
      | Some versioned => Unmarshal content versioned
      end
  end.

(** [verifyManifest] of the handlers: the manifests and the blobs are looked up
    in the repository. *)
Definition blobs_Stat (ms : manifestStore) (dgst : digest) : M unit :=
  _ ← stored (BlobStore.lbs_Stat (ms_blobs ms) dgst); mret tt.
Definition verifyManifest (ms : manifestStore) (m : manifest) : M unit :=
  let skip := ms_skipDependencyVerification ms in
  match m with
  | Schema1 _ _ => fail (Dist ErrSchemaV1Unsupported)
  | Schema2 m _ => Schema2Validator_Validate (Exists ms) (blobs_Stat ms) skip (ms_manifestURLs ms) m
  | OCI m _ => OCIValidator_Validate (Exists ms) (blobs_Stat ms) skip (ms_manifestURLs ms) m
  | List m _ => ManifestListValidator_Validate (Exists ms) skip m
  end.
Definition Put (ms : manifestStore) (m : manifest) : M digest :=
  _ ← verifyManifest ms m;
  let '(mt, payload) := Payload m in
  revision ← stored (BlobStore.lbs_Put (ms_blobStore ms) mt payload);
  mret (BlobStore.desc_Digest revision).

Definition Delete (ms : manifestStore) (dgst : digest) : M unit := stored (BlobStore.lbs_Delete (ms_blobStore ms) dgst).

(** [repository.Manifests], with schema 1 turned off as the application does. *)
Definition repository_manifestStore (name : string) (deleteEnabled skip : bool) (urls : ManifestURLs) : manifestStore :=
  {| ms_blobStore := BlobStore.repository_Manifests name deleteEnabled;
     ms_blobs := BlobStore.repository_Blobs name deleteEnabled;
     ms_skipDependencyVerification := skip; ms_manifestURLs := urls |}.

End store.
End Manifests.
