(* ===== verification/Listener.v ===== *)
(** * Events of repositories

    Models notifications/listener.go, the services that tell a listener about
    the operations of a repository, and notifications/bridge.go and event.go, the
    listener that makes events of them and writes these to a sink.

    The services of the repository are operations on a state of their own; the
    sink has another one.  A service that listens works on both. *)

From S2P Require Import Prelude GoStd Digest DigestSet Regexp Reference Driver FileSystem Paths ObjectStore BlobStore ErrCode Database Datastore Api Manifests.

Module Listener.
Import Manifests.

(** ** Events *)

Definition EventActionPull : string := "pull".
Definition EventActionPush : string := "push".
Definition EventActionMount : string := "mount".
Definition EventActionDelete : string := "delete".

Record RequestRecord := { r_ID : string; r_Addr : string; r_Host : string; r_Method : string; r_UserAgent : string }.
Record SourceRecord := { s_Addr : string; s_InstanceID : string }.
Record Target := {
  Descriptor : descriptor;
  Length : Z;
  t_Repository : string;
  FromRepository : string;
  URL : string;
  Tag : string;
  References : list descriptor;
}.
Record Event := {
  ID : string;
  Timestamp : Z;
  Action : string;
  e_Target : Target;
  Request : RequestRecord;
  Actor : string;
  Source : SourceRecord;
}.

Definition no_descriptor : descriptor := {| d_MediaType := ""; d_Size := 0; d_Digest := ""; d_URLs := [] |}.
Definition no_target : Target :=
  {| Descriptor := no_descriptor; Length := 0; t_Repository := ""; FromRepository := ""; URL := ""; Tag := ""; References := [] |}.
Definition with_target (t : Target) (e : Event) : Event :=
  {| ID := ID e; Timestamp := Timestamp e; Action := Action e; e_Target := t; Request := Request e; Actor := Actor e; Source := Source e |}.
Definition set_Tag (tag : string) (e : Event) : Event :=
  let t := e_Target e in
  with_target {| Descriptor := Descriptor t; Length := Length t; t_Repository := t_Repository t; FromRepository := FromRepository t;
                 URL := URL t; Tag := tag; References := References t |} e.
Definition set_FromRepository (from : string) (e : Event) : Event :=
  let t := e_Target e in
  with_target {| Descriptor := Descriptor t; Length := Length t; t_Repository := t_Repository t; FromRepository := from;
                 URL := URL t; Tag := Tag t; References := References t |} e.

(** The options of the manifest service. *)
Inductive ManifestServiceOption := WithTag (tag : string) | WithManifestMediaTypes (types : list string) | OtherOption.
(** The errors of a listener and of a sink. *)
Inductive notify_err := RefError (e : Reference.ref_err) | OtherError (msg : string).

(** The listener of a repository. *)
Record Listener (W : Type) := {
  ManifestPushed : Reference.repository → manifest → list ManifestServiceOption → GoM W notify_err unit;
  ManifestPulled : Reference.repository → manifest → list ManifestServiceOption → GoM W notify_err unit;
  ManifestDeleted : Reference.repository → digest → GoM W notify_err unit;
  BlobPushed : Reference.repository → descriptor → GoM W notify_err unit;
  BlobPulled : Reference.repository → descriptor → GoM W notify_err unit;
  BlobMounted : Reference.repository → descriptor → Reference.repository → GoM W notify_err unit;
  BlobDeleted : Reference.repository → digest → GoM W notify_err unit;
  TagDeleted : Reference.repository → string → GoM W notify_err unit;
  RepoDeleted : Reference.repository → GoM W notify_err unit;
}.
Arguments ManifestPushed {W}. Arguments ManifestPulled {W}. Arguments ManifestDeleted {W}.
Arguments BlobPushed {W}. Arguments BlobPulled {W}. Arguments BlobMounted {W}. Arguments BlobDeleted {W}.
Arguments TagDeleted {W}. Arguments RepoDeleted {W}.

(** ** The bridge *)

Section bridge.
Context {MC : ManifestCodec} {GD : GoDigest}.
(** The references of a schema 1 manifest, the builder of URLs, the identifiers
    and times of new events, and the sink. *)
Context {W : Type} (schema1_References : bytes → list descriptor).
Context (BuildManifestURL BuildBlobURL : Reference.Reference → option string).
Context (Generate : W → string) (Now : W → Z) (Write : Event → GoM W notify_err unit).

Record bridge := { includeReferences : bool; actor : string; source : SourceRecord; request : RequestRecord }.

Definition canonical (m : manifest) : bytes :=
  match m with Schema1 c _ | Schema2 _ c | OCI _ c | List _ c => c end.
Definition manifest_References (m : manifest) : list descriptor :=
  match m with
  | Schema1 _ all => schema1_References all
  | Schema2 m _ | OCI m _ => image_References m
  | List m _ => list_References m
  end.

Definition createEvent (b : bridge) (action : string) : GoM W notify_err Event := λ w,
  (Ret {| ID := Generate w; Timestamp := Now w; Action := action; e_Target := no_target; Request := request b;
          Actor := actor b; Source := source b |}, w).
Definition built (url : option string) : GoM W notify_err string :=
  match url with Some u => mret u | None => fail (OtherError "cannot build the URL") end.
Definition createBlobEvent (b : bridge) (action : string) (repo : Reference.repository) (desc : descriptor) : GoM W notify_err Event :=
  event ← createEvent b action;
  ref ← lift (omap_err RefError (Reference.WithDigest repo None (d_Digest desc)));
  url ← built (BuildBlobURL ref);
  mret (with_target {| Descriptor := desc; Length := d_Size desc; t_Repository := Reference.Name repo; FromRepository := "";
                       URL := url; Tag := ""; References := [] |} event).
Definition createManifestEvent (b : bridge) (action : string) (repo : Reference.repository) (sm : manifest) : GoM W notify_err Event :=
  event ← createEvent b action;
  let '(mt, p) := Payload sm in
  match UnmarshalManifest mt p with
  | None => fail (OtherError "cannot unmarshal the manifest")
  | Some (m, dgst) =>
      let size := Z.of_nat (String.length (canonical m)) in
      ref ← lift (omap_err RefError (Reference.WithDigest repo None dgst));
      url ← built (BuildManifestURL ref);
      mret (with_target {| Descriptor := {| d_MediaType := mt; d_Size := size; d_Digest := dgst; d_URLs := [] |};
                           Length := size; t_Repository := Reference.Name repo; FromRepository := ""; URL := url; Tag := "";
                           References := if includeReferences b then manifest_References m else [] |} event)
  end.
Definition createBlobEventAndWrite (b : bridge) (action : string) (repo : Reference.repository) (desc : descriptor) : GoM W notify_err unit :=
  event ← createBlobEvent b action repo desc; Write event.
(** The events of deletions have a repository, and a digest or a tag. *)
Definition deleted_target (repo : Reference.repository) (dgst : digest) (tag : string) : Target :=
  {| Descriptor := {| d_MediaType := ""; d_Size := 0; d_Digest := dgst; d_URLs := [] |}; Length := 0;
     t_Repository := Reference.Name repo; FromRepository := ""; URL := ""; Tag := tag; References := [] |}.
Definition createManifestDeleteEventAndWrite (b : bridge) (action : string) (repo : Reference.repository) (dgst : digest) : GoM W notify_err unit :=
  event ← createEvent b action; Write (with_target (deleted_target repo dgst "") event).
Definition createBlobDeleteEventAndWrite (b : bridge) (action : string) (repo : Reference.repository) (dgst : digest) : GoM W notify_err unit :=
  event ← createEvent b action; Write (with_target (deleted_target repo dgst "") event).

(** The tag of the first option that has one. *)
Fixpoint tag_option (options : list ManifestServiceOption) : option string :=
  match options with
  | [] => None
  | WithTag tag :: _ => Some tag
  | _ :: options => tag_option options
  end.
Definition tagged (options : list ManifestServiceOption) (e : Event) : Event :=
  match tag_option options with Some tag => set_Tag tag e | None => e end.
Definition bridge_ManifestPushed (b : bridge) (repo : Reference.repository) (sm : manifest) (options : list ManifestServiceOption) : GoM W notify_err unit :=
  event ← createManifestEvent b EventActionPush repo sm; Write (tagged options event).
Definition bridge_ManifestPulled (b : bridge) (repo : Reference.repository) (sm : manifest) (options : list ManifestServiceOption) : GoM W notify_err unit :=
  event ← createManifestEvent b EventActionPull repo sm; Write (tagged options event).
Definition bridge_BlobMounted (b : bridge) (repo : Reference.repository) (desc : descriptor) (fromRepo : Reference.repository) : GoM W notify_err unit :=
  event ← createBlobEvent b EventActionMount repo desc; Write (set_FromRepository (Reference.Name fromRepo) event).
Definition bridge_TagDeleted (b : bridge) (repo : Reference.repository) (tag : string) : GoM W notify_err unit :=
  event ← createEvent b EventActionDelete; Write (with_target (deleted_target repo "" tag) event).
Definition bridge_RepoDeleted (b : bridge) (repo : Reference.repository) : GoM W notify_err unit :=
  event ← createEvent b EventActionDelete; Write (with_target (deleted_target repo "" "") event).

Definition NewBridge (b : bridge) : Listener W := {|
  ManifestPushed := bridge_ManifestPushed b;
  ManifestPulled := bridge_ManifestPulled b;
  ManifestDeleted := createManifestDeleteEventAndWrite b EventActionDelete;
  BlobPushed := createBlobEventAndWrite b EventActionPush;
  BlobPulled := createBlobEventAndWrite b EventActionPull;
  BlobMounted := bridge_BlobMounted b;
  BlobDeleted := createBlobDeleteEventAndWrite b EventActionDelete;
  TagDeleted := bridge_TagDeleted b;
  RepoDeleted := bridge_RepoDeleted b;
|}.
End bridge.

(** ** The services that listen *)

(** A writer of a blob, on a state [T]. *)
Record BlobWriter (T E : Type) := { Commit : descriptor → GoM T E descriptor }.
Arguments Commit {T E}.

Section services.
(** The state and the errors of the repository; an error may say that a blob was
    mounted. *)
Context {S W E : Type} (of_notify : notify_err → E) (ErrBlobMounted : E → option (descriptor * Reference.repository)).
Context (listener : Listener W) (Named : Reference.repository).

Record ManifestService := {
  m_Delete : digest → GoM S E unit;
  m_Get : digest → list ManifestServiceOption → GoM S E manifest;
  m_Put : manifest → list ManifestServiceOption → GoM S E digest;
}.
Record BlobStore := {
  Stat : digest → GoM S E descriptor;
  b_Get : digest → GoM S E bytes;
  Open : digest → GoM S E bytes;
  ServeBlob : digest → GoM S E unit;
  b_Put : string → bytes → GoM S E descriptor;
  Create : GoM S E (BlobWriter S E);
  Resume : string → GoM S E (BlobWriter S E);
  b_Delete : digest → GoM S E unit;
}.
Record TagService := { Untag : string → GoM S E unit }.
Record RepositoryRemover := { Remove : Reference.repository → GoM S E unit }.

Abbreviation M := (GoM (S * W) E).
Definition tell (m : GoM W notify_err unit) : M unit := on_snd (wrap_err of_notify m).
(** The error of the listener is logged. *)
Definition log_tell (m : GoM W notify_err unit) : M unit := _ ← attempt (tell m); mret ().

Definition removerListener_Remove (remover : RepositoryRemover) (name : Reference.repository) : M unit :=
  _ ← on_fst (Remove remover name); tell (RepoDeleted listener name).

Definition manifests_Delete (ms : ManifestService) (dgst : digest) : M unit :=
  _ ← on_fst (m_Delete ms dgst); log_tell (ManifestDeleted listener Named dgst).
Definition manifests_Get (ms : ManifestService) (dgst : digest) (options : list ManifestServiceOption) : M manifest :=
  sm ← on_fst (m_Get ms dgst options); _ ← log_tell (ManifestPulled listener Named sm options); mret sm.
Definition manifests_Put (ms : ManifestService) (sm : manifest) (options : list ManifestServiceOption) : M digest :=
  dgst ← on_fst (m_Put ms sm options); _ ← log_tell (ManifestPushed listener Named sm options); mret dgst.

(** The event of a blob that was read, with the descriptor of the blob. *)
Definition tell_pulled (bs : BlobStore) (dgst : digest) : M unit :=
  desc ← attempt (on_fst (Stat bs dgst));
  match desc with inl _ => mret () | inr desc => log_tell (BlobPulled listener Named desc) end.
Definition blobs_Get (bs : BlobStore) (dgst : digest) : M bytes := p ← on_fst (b_Get bs dgst); _ ← tell_pulled bs dgst; mret p.
Definition blobs_Open (bs : BlobStore) (dgst : digest) : M bytes := rc ← on_fst (Open bs dgst); _ ← tell_pulled bs dgst; mret rc.
Definition blobs_ServeBlob (bs : BlobStore) (dgst : digest) : M unit := _ ← on_fst (ServeBlob bs dgst); tell_pulled bs dgst.
Definition blobs_Put (bs : BlobStore) (mediaType : string) (p : bytes) : M descriptor :=
  desc ← on_fst (b_Put bs mediaType p); _ ← log_tell (BlobPushed listener Named desc); mret desc.
Definition writer_Commit (wr : BlobWriter S E) (desc : descriptor) : M descriptor :=
  committed ← on_fst (Commit wr desc); _ ← log_tell (BlobPushed listener Named committed); mret committed.
(** The writer that tells of what is committed. *)
Definition decorateWriter (wr : BlobWriter S E) : BlobWriter (S * W) E := {| Commit := writer_Commit wr |}.
Definition blobs_Create (bs : BlobStore) : M (BlobWriter (S * W) E) :=
  r ← attempt (on_fst (Create bs));
  match r with
  | inr wr => mret (decorateWriter wr)
  | inl err =>
      match ErrBlobMounted err with
      | Some (desc, from) => _ ← log_tell (BlobMounted listener Named desc from); fail err
      | None => fail err
      end
  end.
Definition blobs_Delete (bs : BlobStore) (dgst : digest) : M unit :=
  _ ← on_fst (b_Delete bs dgst); log_tell (BlobDeleted listener Named dgst).
Definition blobs_Resume (bs : BlobStore) (id : string) : M (BlobWriter (S * W) E) :=
  wr ← on_fst (Resume bs id); mret (decorateWriter wr).
Definition tags_Untag (ts : TagService) (tag : string) : M unit :=
  _ ← on_fst (Untag ts tag); tell (TagDeleted listener Named tag).

(** *** Transparency *)

(** The service that listens does what the service does: it has its outcome and
    its state. *)
Definition transparent {A} (listening : M A) (m : GoM S E A) : Prop :=
  ∀ s w, (listening (s, w)).1 = (m s).1 ∧ (listening (s, w)).2.1 = (m s).2.

(** The same for a service that returns a writer: the writer listens as well. *)
Definition decorates (listening : M (BlobWriter (S * W) E)) (m : GoM S E (BlobWriter S E)) : Prop :=
  ∀ s w, (listening (s, w)).2.1 = (m s).2 ∧
    match (m s).1 with
    | Ret wr => (listening (s, w)).1 = Ret (decorateWriter wr)
    | Fail e => (listening (s, w)).1 = Fail e
    | Panic => (listening (s, w)).1 = Panic
    end.

(** A listener that does not panic. *)
Record safe_listener : Prop := {
  safe_ManifestPushed r m o w : (ManifestPushed listener r m o w).1 ≠ Panic;
  safe_ManifestPulled r m o w : (ManifestPulled listener r m o w).1 ≠ Panic;
  safe_ManifestDeleted r d w : (ManifestDeleted listener r d w).1 ≠ Panic;
  safe_BlobPushed r d w : (BlobPushed listener r d w).1 ≠ Panic;
  safe_BlobPulled r d w : (BlobPulled listener r d w).1 ≠ Panic;
  safe_BlobMounted r d f w : (BlobMounted listener r d f w).1 ≠ Panic;
  safe_BlobDeleted r d w : (BlobDeleted listener r d w).1 ≠ Panic;
  safe_TagDeleted r t w : (TagDeleted listener r t w).1 ≠ Panic;
  safe_RepoDeleted r w : (RepoDeleted listener r w).1 ≠ Panic;
}.
Lemma log_tell_ok m s w : (m w).1 ≠ Panic → log_tell m (s, w) = (Ret (), (s, (m w).2)).
Proof.
  intros Hm. unfold log_tell, tell, attempt, on_snd, wrap_err, mbind, gom_bind. cbn.
  destruct (m w) as [[]?]; cbn in *; [done..|by destruct Hm].
Qed.
Lemma on_fst_bind {A B} (m : GoM S E A) (k : A → M B) s w :
  (on_fst m ≫= k) (s, w) =
  match m s with (Ret a, s') => k a (s', w) | (Fail e, s') => (Fail e, (s', w)) | (Panic, s') => (Panic, (s', w)) end.
Proof. unfold on_fst, mbind, gom_bind. cbn. by destruct (m s) as [[]?]. Qed.
Lemma log_tell_bind {B} m (k : unit → M B) s w : (m w).1 ≠ Panic → (log_tell m ≫= k) (s, w) = k () (s, (m w).2).
Proof. intros Hm. by rewrite (bind_Ret _ _ _ () _ (log_tell_ok m s w Hm)). Qed.
Lemma tell_pulled_ok bs dgst s w :
  (∀ d w, (BlobPulled listener Named d w).1 ≠ Panic) → (Stat bs dgst s).1 ≠ Panic → (Stat bs dgst s).2 = s →
  tell_pulled bs dgst (s, w) =
  (Ret (), (s, match (Stat bs dgst s).1 with Ret desc => (BlobPulled listener Named desc w).2 | _ => w end)).
Proof.
  intros Hl Hp Hs. unfold tell_pulled, mbind, gom_bind, attempt, on_fst. cbn.
  destruct (Stat bs dgst s) as [[desc|e|] s'] eqn:Hst; cbn in *; subst s'; [|done..]. by apply log_tell_ok.
Qed.

(** The blobs of a store that can be asked for their descriptors at any time. *)
Definition reads (bs : BlobStore) : Prop := ∀ d s, (Stat bs d s).1 ≠ Panic ∧ (Stat bs d s).2 = s.

Ltac listen := intros ? ?; cbn [decorateWriter Commit]; unfold manifests_Delete, manifests_Get, manifests_Put, blobs_Get, blobs_Open, blobs_ServeBlob, blobs_Put,
  blobs_Delete, writer_Commit; rewrite on_fst_bind;
  match goal with |- context [match ?m with (_, _) => _ end] => destruct m as [[]?] end; try done.
Lemma services_transparent (ms : ManifestService) (bs : BlobStore) :
  safe_listener → reads bs →
  (∀ d, transparent (manifests_Delete ms d) (m_Delete ms d)) ∧
  (∀ d o, transparent (manifests_Get ms d o) (m_Get ms d o)) ∧
  (∀ m o, transparent (manifests_Put ms m o) (m_Put ms m o)) ∧
  (∀ d, transparent (blobs_Get bs d) (b_Get bs d)) ∧
  (∀ d, transparent (blobs_Open bs d) (Open bs d)) ∧
  (∀ d, transparent (blobs_ServeBlob bs d) (ServeBlob bs d)) ∧
  (∀ t p, transparent (blobs_Put bs t p) (b_Put bs t p)) ∧
  decorates (blobs_Create bs) (Create bs) ∧
  (∀ id, decorates (blobs_Resume bs id) (Resume bs id)) ∧
  (∀ d, transparent (blobs_Delete bs d) (b_Delete bs d)) ∧
  (∀ wr d, transparent (Commit (decorateWriter wr) d) (Commit wr d)).
Proof.
  intros [] Hb. split_and!; intros.
  all: try by (listen; first [rewrite log_tell_bind by done|rewrite log_tell_ok by done]; try done; by destruct a).
  1, 2: by (listen; rewrite (bind_Ret _ _ _ _ _ (tell_pulled_ok bs _ _ _ (safe_BlobPulled0 _) (proj1 (Hb _ _)) (proj2 (Hb _ _))))).
  - listen. rewrite tell_pulled_ok by (try apply Hb; done). by destruct a.
  - intros s w. unfold blobs_Create, mbind, gom_bind, attempt, on_fst. cbn. destruct (Create bs s) as [[wr'|e|] s']; cbn; [done| |done].
    destruct (ErrBlobMounted e) as [[desc from]|]; [|done]. by rewrite log_tell_ok.
  - intros s w. unfold blobs_Resume. rewrite on_fst_bind. by destruct (Resume bs id s) as [[wr'|e|] s'].
Qed.
End services.

(** ** What is written *)

Section written.
Context {MC : ManifestCodec} {GD : GoDigest} {S X E : Type}.
Context (of_notify : notify_err → E) (ErrBlobMounted : E → option (descriptor * Reference.repository)).
Context (schema1_References : bytes → list descriptor) (BuildManifestURL BuildBlobURL : Reference.Reference → option string).
(** A sink with the events that were written to it, accepted or not. *)
Abbreviation W := (X * list Event)%type.
Context (Generate : W → string) (Now : W → Z) (accept : Event → GoM X notify_err unit).
Hypothesis accept_safe : ∀ e x, (accept e x).1 ≠ Panic.
Hypothesis urls : ∀ r, BuildManifestURL r ≠ None ∧ BuildBlobURL r ≠ None.

Definition Write (e : Event) : GoM W notify_err unit := λ w, let '(o, x) := accept e w.1 in (o, (x, w.2 ++ [e])).
Abbreviation bridged := (NewBridge schema1_References BuildManifestURL BuildBlobURL Generate Now Write).

Lemma Write_written e w : (Write e w).1 ≠ Panic ∧ (Write e w).2.2 = w.2 ++ [e].
Proof. unfold Write. pose proof (accept_safe e w.1). by destruct (accept e w.1). Qed.

(** What an event says. *)
Definition says (b : bridge) (action : string) (repo : Reference.repository) (dgst : digest) (tag : string) (e : Event) : Prop :=
  Action e = action ∧ t_Repository (e_Target e) = Reference.Name repo ∧ d_Digest (Descriptor (e_Target e)) = dgst ∧
  Tag (e_Target e) = tag ∧ Actor e = actor b ∧ Request e = request b ∧ Source e = source b.
Definition valid_digest (d : digest) : bool := Regexp.MatchString Reference.DigestRegexp d.

(** A call that tells of one event. *)
Definition tells (P : Event → Prop) (m : GoM W notify_err unit) : Prop :=
  ∀ w, (m w).1 ≠ Panic ∧ ∃ e, P e ∧ (m w).2.2 = w.2 ++ [e].
Lemma Write_tells (P : Event → Prop) (m : GoM W notify_err Event) (f : Event → Event) :
  (∀ w, ∃ e, P (f e) ∧ m w = (Ret e, w)) → tells P (e ← m; Write (f e)).
Proof.
  intros Hm w. destruct (Hm w) as (e & He & Heq). rewrite (bind_Ret _ _ _ _ _ Heq). destruct (Write_written (f e) w) as [? Hw].
  split; [done|]. by exists (f e).
Qed.

Lemma WithDigest_valid repo d : valid_digest d = true → Reference.WithDigest repo None d = Ret (Reference.CanonicalReference repo d).
Proof. unfold valid_digest, Reference.WithDigest. by intros ->. Qed.
Lemma createBlobEvent_ok b action repo desc w :
  valid_digest (d_Digest desc) = true →
  ∃ e, createBlobEvent BuildBlobURL Generate Now b action repo desc w = (Ret e, w) ∧ says b action repo (d_Digest desc) "" e ∧
       Descriptor (e_Target e) = desc.
Proof.
  intros Hd. unfold createBlobEvent, mbind, gom_bind, lift. cbn. rewrite (WithDigest_valid _ _ Hd). cbn.
  destruct (urls (Reference.CanonicalReference repo (d_Digest desc))) as [_ Hu].
  destruct (BuildBlobURL _) as [u|]; [|done]. cbn. by eexists.
Qed.
Lemma createManifestEvent_ok b action repo sm m d w :
  UnmarshalManifest (Payload sm).1 (Payload sm).2 = Some (m, d) → valid_digest d = true →
  ∃ e, createManifestEvent schema1_References BuildManifestURL Generate Now b action repo sm w = (Ret e, w) ∧
       says b action repo d "" e ∧ d_MediaType (Descriptor (e_Target e)) = (Payload sm).1.
Proof.
  intros Hm Hd. unfold createManifestEvent, mbind, gom_bind, lift. cbn. destruct (Payload sm) as [mt p]. cbn in Hm.
  rewrite Hm, (WithDigest_valid _ _ Hd). cbn. destruct (urls (Reference.CanonicalReference repo d)) as [Hu _].
  destruct (BuildManifestURL _) as [u|]; [|done]. cbn. by eexists.
Qed.
Lemma says_tagged b action repo d options e :
  says b action repo d "" e → says b action repo d (default "" (tag_option options)) (tagged options e).
Proof. unfold tagged. destruct (tag_option options); [|done]. unfold says. cbn. tauto. Qed.

Lemma bridge_tells b repo :
  (∀ sm m d o, UnmarshalManifest (Payload sm).1 (Payload sm).2 = Some (m, d) → valid_digest d = true →
    tells (says b EventActionPush repo d (default "" (tag_option o))) (ManifestPushed (bridged b) repo sm o) ∧
    tells (says b EventActionPull repo d (default "" (tag_option o))) (ManifestPulled (bridged b) repo sm o)) ∧
  (∀ d, tells (says b EventActionDelete repo d "") (ManifestDeleted (bridged b) repo d) ∧
        tells (says b EventActionDelete repo d "") (BlobDeleted (bridged b) repo d)) ∧
  (∀ desc, valid_digest (d_Digest desc) = true →
    tells (says b EventActionPush repo (d_Digest desc) "") (BlobPushed (bridged b) repo desc) ∧
    tells (says b EventActionPull repo (d_Digest desc) "") (BlobPulled (bridged b) repo desc) ∧
    ∀ from, tells (λ e, says b EventActionMount repo (d_Digest desc) "" e ∧ FromRepository (e_Target e) = Reference.Name from)
              (BlobMounted (bridged b) repo desc from)) ∧
  (∀ tag, tells (says b EventActionDelete repo "" tag) (TagDeleted (bridged b) repo tag)) ∧
  tells (says b EventActionDelete repo "" "") (RepoDeleted (bridged b) repo).
Proof.
  assert (∀ action dgst tag, tells (says b action repo dgst tag)
    (e ← createEvent Generate Now b action; Write (with_target (deleted_target repo dgst tag) e))) as Hdel.
  { intros action dgst tag. apply Write_tells. intros w. eexists. by split; [|reflexivity]. }
  assert (∀ action sm m d o, UnmarshalManifest (Payload sm).1 (Payload sm).2 = Some (m, d) → valid_digest d = true →
    tells (says b action repo d (default "" (tag_option o)))
      (e ← createManifestEvent schema1_References BuildManifestURL Generate Now b action repo sm; Write (tagged o e))) as Hman.
  { intros action sm m d o Hm Hd. apply Write_tells. intros w.
    destruct (createManifestEvent_ok b action repo sm m d w Hm Hd) as (e & He & Hs & _). exists e. by split; [apply says_tagged|]. }
  assert (∀ action desc, valid_digest (d_Digest desc) = true → tells (says b action repo (d_Digest desc) "")
    (e ← createBlobEvent BuildBlobURL Generate Now b action repo desc; Write (id e))) as Hblob.
  { intros action desc Hd. apply (Write_tells _ _ id). intros w. destruct (createBlobEvent_ok b action repo desc w Hd) as (e & He & Hs & _). by exists e. }
  split_and!; [intros sm m d o Hm Hd; split; by eapply Hman|intros d; split; apply Hdel| |intros tag; apply Hdel|apply Hdel].
  intros desc Hd. split_and!; [by apply Hblob..|]. intros from. apply Write_tells. intros w.
  destruct (createBlobEvent_ok b EventActionMount repo desc w Hd) as (e & He & Hs & _). by exists e.
Qed.

Lemma Write_safe (m : GoM W notify_err Event) (f : Event → Event) :
  (∀ w, (m w).1 ≠ Panic) → ∀ w, ((e ← m; Write (f e)) w).1 ≠ Panic.
Proof.
  intros Hm w. specialize (Hm w). unfold mbind, gom_bind. destruct (m w) as [[e|e|] w']; [|done..]. apply Write_written.
Qed.
Lemma bridge_safe b : safe_listener (bridged b).
Proof.
  assert (∀ action repo desc w, (createBlobEvent BuildBlobURL Generate Now b action repo desc w).1 ≠ Panic) as Hb.
  { intros action repo desc w. unfold createBlobEvent, mbind, gom_bind, lift, Reference.WithDigest. cbn.
    destruct (negb _); [done|]. cbn. by destruct (BuildBlobURL _). }
  assert (∀ action repo sm w, (createManifestEvent schema1_References BuildManifestURL Generate Now b action repo sm w).1 ≠ Panic) as Hm.
  { intros action repo sm w. unfold createManifestEvent, mbind, gom_bind, lift, Reference.WithDigest. cbn.
    destruct (Payload sm) as [mt p], (UnmarshalManifest mt p) as [[m d]|]; [|done]. destruct (negb _); [done|]. cbn. by destruct (BuildManifestURL _). }
  constructor; intros; cbn; try (apply Write_safe; auto; done); apply (Write_safe _ id); auto.
Qed.

(** An operation that, when it succeeds, is told to the sink with one event, and
    with none when it fails. *)
Definition announces {A} (listening : GoM (S * W) E A) (m : GoM S E A) (pre : A → Prop) (P : A → Event → Prop) : Prop :=
  ∀ s x l, match (m s).1 with
           | Ret a => pre a → ∃ e, P a e ∧ (listening (s, (x, l))).2.2.2 = l ++ [e]
           | _ => (listening (s, (x, l))).2.2.2 = l
           end.
Lemma told_announces {A} (m : GoM S E A) (pre : A → Prop) (P : A → Event → Prop) (notify : A → GoM W notify_err unit) :
  (∀ a w, (notify a w).1 ≠ Panic) → (∀ a, pre a → tells (P a) (notify a)) →
  announces (a ← on_fst m; _ ← log_tell of_notify (notify a); mret a) m pre P.
Proof.
  intros Hs Ht s x l. rewrite on_fst_bind. destruct (m s) as [[a|e|] s']; cbn; [|done..].
  rewrite log_tell_bind by apply Hs. intros Ha. destruct (Ht a Ha (x, l)) as [_ (e & He & Hw)]. by exists e.
Qed.
Lemma told_announces_unit (m : GoM S E unit) (P : Event → Prop) (notify : GoM W notify_err unit) :
  tells P notify → announces (_ ← on_fst m; log_tell of_notify notify) m (λ _, True) (λ _, P).
Proof.
  intros Ht s x l. rewrite on_fst_bind. destruct (m s) as [[[]|e|] s']; cbn; [|done..].
  destruct (Ht (x, l)) as [Hp (e & He & Hw)]. rewrite log_tell_ok by done. by exists e.
Qed.
(** After a blob was read, its descriptor is known. *)
Definition resolves {A} (m : GoM S E A) (bs : BlobStore (S := S) (E := E)) (dgst : digest) (desc : descriptor) : Prop :=
  ∀ s s' a, m s = (Ret a, s') → (Stat bs dgst s').1 = Ret desc.
Lemma pulled_announces {A} (m : GoM S E A) listener repo (bs : BlobStore (S := S) (E := E)) dgst desc P :
  reads bs → (∀ d w, (BlobPulled listener repo d w).1 ≠ Panic) → resolves m bs dgst desc →
  tells P (BlobPulled listener repo desc) →
  announces (a ← on_fst m; _ ← tell_pulled of_notify listener repo bs dgst; mret a) m (λ _, True) (λ _, P).
Proof.
  intros Hb Hl Hst Ht s x l. rewrite on_fst_bind. destruct (m s) as [[a|e|] s'] eqn:Hm; cbn; [|done..]. intros _.
  rewrite (bind_Ret _ _ _ _ _ (tell_pulled_ok of_notify listener repo bs dgst s' (x, l) Hl (proj1 (Hb _ _)) (proj2 (Hb _ _)))).
  rewrite (Hst _ _ _ Hm). destruct (Ht (x, l)) as [_ (e & He & Hw)]. by exists e.
Qed.

Lemma pulled_announces_unit (m : GoM S E unit) listener repo (bs : BlobStore (S := S) (E := E)) dgst desc P :
  reads bs → (∀ d w, (BlobPulled listener repo d w).1 ≠ Panic) → resolves m bs dgst desc →
  tells P (BlobPulled listener repo desc) →
  announces (_ ← on_fst m; tell_pulled of_notify listener repo bs dgst) m (λ _, True) (λ _, P).
Proof.
  intros Hb Hl Hst Ht s x l. rewrite on_fst_bind. destruct (m s) as [[[]|e|] s'] eqn:Hm; cbn; [|done..]. intros _.
  rewrite (tell_pulled_ok of_notify listener repo bs dgst s' (x, l) Hl (proj1 (Hb _ _)) (proj2 (Hb _ _))).
  rewrite (Hst _ _ _ Hm). destruct (Ht (x, l)) as [_ (e & He & Hw)]. by exists e.
Qed.

(** What a manifest is read as again, with a digest that a reference can have. *)
Definition decodes (sm : manifest) (d : digest) : Prop :=
  valid_digest d = true ∧ ∃ m, UnmarshalManifest (Payload sm).1 (Payload sm).2 = Some (m, d).

(** An operation that returns the error of the sink, although it has been done. *)
Definition announces_strictly (listening : GoM (S * W) E unit) (m : GoM S E unit) (P : Event → Prop) : Prop :=
  ∀ s x l, match m s with
           | (Ret (), s') =>
               ∃ e, P e ∧ listening (s, (x, l)) = (omap_err of_notify (accept e x).1, (s', ((accept e x).2, l ++ [e])))
           | (o, s') => listening (s, (x, l)) = (o, (s', (x, l)))
           end.
Lemma strictly_announces (m : GoM S E unit) (P : Event → Prop) (b : bridge) (t : Target) :
  (∀ w, P (with_target t {| ID := Generate w; Timestamp := Now w; Action := EventActionDelete; e_Target := no_target;
                            Request := request b; Actor := actor b; Source := source b |})) →
  announces_strictly
    (_ ← on_fst m; tell of_notify (event ← createEvent Generate Now b EventActionDelete; Write (with_target t event))) m P.
Proof.
  intros HP s x l. rewrite on_fst_bind. destruct (m s) as [[[]|e|] s']; [|done..]. eexists. split; [apply (HP (x, l))|].
  unfold tell, on_snd, wrap_err, mbind, gom_bind, createEvent, Write. cbn. by destruct (accept _ x).
Qed.

Section announced.
Context (b : bridge) (Named : Reference.repository).
Context (ms : ManifestService (S := S) (E := E)) (bs : BlobStore (S := S) (E := E)).
Context (ts : TagService (S := S) (E := E)) (remover : RepositoryRemover (S := S) (E := E)).
Hypothesis Hbs : reads bs.


End announced.
End written.
End Listener.
