(* ===== verification/Handlers.v ===== *)
(** * The handlers

    Models the requests for the catalog, for tags and for blobs of
    registry/handlers (catalog.go, tags.go, blob.go) over the metadata database,
    the storage, or both, and registry/storage/blobserver.go.  Links to next
    pages are left as the number of entries and the last entry, and log entries
    are left out. *)

From S2P Require Import Prelude GoStd Digest GoText Driver FileSystem Paths ObjectStore BlobStore TagStore StorageCatalog ErrCode Database Datastore Transactions Repositories Api.

Module Handlers.
Import ErrCode Database Datastore Transactions Repositories Api.

(** The configuration of the application that requests depend on; [resources]
    are the names and classes that a request is authorized for. *)
Record App := {
  a_useDatabase : bool;
  a_writeFSMetadata : bool;
  a_isCache : bool;
  a_deleteEnabled : bool;
  a_redirect : bool;
  a_classes : list string;
  a_resources : list (string * string);
}.

Definition maximumReturnedEntries : Z := 100.
(** [strconv.Atoi]. *)
Definition Atoi (s : string) : option Z :=
  let body := if HasPrefix s "-" || HasPrefix s "+" then str_drop 1 s else s in
  if bool_decide (body = "") then None
  else
    n ← GoText.digits_value body 0;
    let n := if HasPrefix s "-" then (- n)%Z else n in
    if ((- 2 ^ 63 <=? n) && (n <? 2 ^ 63))%Z then Some n else None.
(** The number of entries of a page. *)
Definition max_entries (n : string) : Z :=
  match Atoi n with
  | Some n => if (n <=? 0)%Z then maximumReturnedEntries else n
  | None => maximumReturnedEntries
  end.

Abbreviation list_last := last (only parsing).

Section handlers.
Context {GD : GoDigest} {Co : Collation} {St : Type} {D : StorageDriver St}.
Context (bufs : nat → nat) (fuel : nat).
Abbreviation H := (GoM (world St) herr) (only parsing).
Abbreviation storage m := (on_storage (as_herr Dist m)) (only parsing).
Abbreviation stmt m := (as_herr Db m) (only parsing).

(** Continue, or answer the error. *)
Definition or_refuse {A B} (on_err : herr → reply B) (m : H A) (k : A → H (reply B)) : H (reply B) :=
  r ← attempt m;
  match r with inl err => mret (on_err err) | inr a => k a end.
Definition unknown {B} (err : herr) : reply B := refuse (FromUnknownError err).

(** ** catalog.go *)

Definition dbGetCatalog (n : nat) (last : string) : H (list string * bool) :=
  rr ← on_db (repositoryStore_FindAllPaginated n last);
  let repos := rp_Path <$> rr in
  match list_last rr with
  | None => mret (repos, false)
  | Some r => n ← on_db (repositoryStore_CountAfterPath (rp_Path r)); mret (repos, (0 <? n)%nat)
  end.

(** A page, and where the next one starts. *)
Record page := { pg_entries : list string; pg_next : option (Z * string) }.
Definition link_next (maxEntries : Z) (moreEntries : bool) (entries : list string) : H (option (Z * string)) :=
  if moreEntries then
    match list_last entries with
    | None => panic
    | Some lastEntry => mret (Some (maxEntries, lastEntry))
    end
  else mret None.

(** The repositories of the storage; the end and a missing directory are no
    errors. *)
Definition fsGetCatalog (n : nat) (last : string) : H (list string * bool) :=
  '(repos, err) ← storage (StorageCatalog.Repositories fuel n last);
  match err with
  | None => mret (repos, true)
  | Some (PathNotFoundError _ _) => mret (repos, false)
  | Some err => if err_eq err StorageCatalog.io_EOF then mret (repos, false) else fail (Coded ErrorCodeUnknown)
  end.
Definition GetCatalog (a : App) (n last : string) : H (reply page) :=
  let maxEntries := max_entries n in
  let n := Z.to_nat maxEntries in
  or_refuse unknown (if a_useDatabase a then dbGetCatalog n last else fsGetCatalog n last) (λ '(repos, moreEntries),
    next ← link_next maxEntries moreEntries repos;
    mret (Answer 200 {| pg_entries := repos; pg_next := next |})).

(** ** tags.go *)

Definition dbGetTags (repoPath : string) (n : nat) (last : string) : H (list string * bool) :=
  r ← on_db (repositoryStore_FindByPath repoPath);
  match r with
  | None => fail (Coded ErrorCodeNameUnknown)
  | Some r =>
      tt ← on_db (repositoryStore_TagsPaginated r n last);
      let tags := tg_Name <$> tt in
      match list_last tt with
      | None => mret (tags, false)
      | Some t => n ← on_db (repositoryStore_TagsCountAfterName r (tg_Name t)); mret (tags, (0 <? n)%nat)
      end
  end.

(** The code of an error of the tags of the storage. *)
Definition all_tags_code (err : herr) : code :=
  match direct err with Some (ErrRepositoryUnknown _) => ErrorCodeNameUnknown | _ => ErrorCodeUnknown end.
Definition GetTags (a : App) (repoPath n last : string) : H (reply page) :=
  let maxEntries := max_entries n in
  if a_useDatabase a then
    or_refuse unknown (dbGetTags repoPath (Z.to_nat maxEntries) last) (λ '(tags, moreEntries),
      next ← link_next maxEntries moreEntries tags;
      mret (Answer 200 {| pg_entries := tags; pg_next := next |}))
  else
    or_refuse (λ err, refuse (all_tags_code err)) (storage (TagStore.All repoPath)) (λ tags,
      mret (Answer 200 {| pg_entries := tags; pg_next := None |})).

(** One hour. *)
Definition tagDeleteGCReviewWindow : Z := (3600 * 10 ^ 9)%Z.
Definition dbDeleteTag (now : Z) (repoPath tagName : string) : H unit :=
  r ← on_db (repositoryStore_FindByPath repoPath);
  match r with
  | None => fail (Dist (ErrRepositoryUnknown repoPath))
  | Some r =>
      t ← on_db (repositoryStore_FindTagByName r tagName);
      match t with
      | None => fail (Dist (ErrTagUnknown tagName))
      | Some t =>
          in_tx "failed to create database transaction" "failed to commit database transaction" (
            _ ← stmt (gcManifestTaskStore_FindAndLockBefore (rp_NamespaceID r, rp_ID r, tg_ManifestID t)
                        (now + tagDeleteGCReviewWindow));
            found ← stmt (repositoryStore_DeleteTagByName now (rp_NamespaceID r) (rp_ID r) tagName);
            if (found : bool) then mret tt else fail (Dist (ErrTagUnknown tagName)))
      end
  end.

(** [appendDeleteTagError]. *)
Definition delete_tag_code (err : herr) : code :=
  match direct err with
  | Some (ErrRepositoryUnknown _) => ErrorCodeNameUnknown
  | Some (ErrTagUnknown _) | Some (PathNotFoundError _ _) => ErrorCodeManifestUnknown
  | _ => FromUnknownError err
  end.
Definition DeleteTag (a : App) (now : Z) (repoPath tag : string) : H (reply unit) :=
  if a_isCache a then mret (refuse ErrorCodeUnsupported)
  else
    let refused err := refuse (delete_tag_code err) in
    or_refuse refused (if a_writeFSMetadata a then storage (TagStore.Untag repoPath tag) else mret tt) (λ _,
    or_refuse refused (if a_useDatabase a then dbDeleteTag now repoPath tag else mret tt) (λ _,
      mret (Answer 202 tt))).

(** ** blob.go and blobserver.go *)

Definition dbGetBlob (repoPath : string) (dgst : digest) : H unit :=
  r ← on_db (repositoryStore_FindByPath repoPath);
  match r with
  | None => fail (Coded ErrorCodeBlobUnknown)
  | Some r =>
      bb ← on_db (repositoryStore_Blobs r);
      if existsb (λ b, bool_decide (blob_Digest b = dgst)) bb then mret tt else fail (Coded ErrorCodeBlobUnknown)
  end.

(** What a blob is answered with: its content, or where the storage serves it. *)
Inductive served :=
  | Redirect (url : string)
  | Content (dgst : digest) (mediaType : string) (size : Z) (content : bytes).
Definition blobServer_ServeBlob (redirect : bool) (dgst : digest) : GoM St error served :=
  desc ← BlobStore.blobStatter_Stat dgst;
  path ← BlobStore.path (BlobStore.desc_Digest desc);
  let direct :=
    r ← drv_Reader path 0;
    content ← rd_ReadAll r;
    mret (Content (BlobStore.desc_Digest desc) (BlobStore.MediaType desc) (BlobStore.Size desc) content) in
  if redirect then
    r ← attempt (drv_URLFor path);
    match r with
    | inr url => mret (Redirect url)
    | inl (ErrUnsupportedMethod _) => direct
    | inl err => fail err
    end
  else direct.
Definition ServeBlob (a : App) (lbs : BlobStore.linkedBlobStore) (dgst : digest) : GoM St error served :=
  d ← (if a_writeFSMetadata a then canonical ← BlobStore.lbs_Stat lbs dgst; mret (BlobStore.desc_Digest canonical)
       else mret dgst);
  blobServer_ServeBlob (a_redirect a) d.

Definition served_status (c : served) : Z := match c with Redirect _ => 307 | Content _ _ _ _ => 200 end.
Definition GetBlob (a : App) (repoPath : string) (dgst : digest) : H (reply served) :=
  let blobs := BlobStore.repository_Blobs repoPath (a_deleteEnabled a) in
  let serve dgst :=
    or_refuse (λ _, refuse ErrorCodeUnknown) (storage (ServeBlob a blobs dgst)) (λ c, mret (Answer (served_status c) c)) in
  if a_useDatabase a then or_refuse unknown (dbGetBlob repoPath dgst) (λ _, serve dgst)
  else
    or_refuse (λ err, refuse (if equals err ErrBlobUnknown then ErrorCodeBlobUnknown else ErrorCodeUnknown))
      (storage (BlobStore.lbs_Stat blobs dgst)) (λ desc, serve (BlobStore.desc_Digest desc)).

Definition dbDeleteBlob (a : App) (repoPath : string) (d : digest) : H unit :=
  if negb (a_deleteEnabled a) then fail (Dist ErrUnsupported)
  else
    r ← on_db (repositoryStore_FindByPath repoPath);
    match r with
    | None => fail (Dist (ErrRepositoryUnknown repoPath))
    | Some r =>
        found ← on_db (repositoryStore_UnlinkBlob (rp_NamespaceID r) (rp_ID r) d);
        if (found : bool) then mret tt else fail (Dist ErrBlobUnknown)
    end.
Definition deleteBlob (a : App) (repoPath : string) (d : digest) : H unit :=
  _ ← (if a_writeFSMetadata a
       then storage (BlobStore.lbs_Delete (BlobStore.repository_Blobs repoPath (a_deleteEnabled a)) d) else mret tt);
  if a_useDatabase a then dbDeleteBlob a repoPath d
  else if a_writeFSMetadata a then mret tt
  else fail (Dist (errors_New "no metadata database and filesystem metadata is disabled")).
Definition delete_blob_code (repoPath : string) (err : herr) : code :=
  match direct err with
  | Some ErrUnsupported => ErrorCodeUnsupported
  | Some ErrBlobUnknown => ErrorCodeBlobUnknown
  | Some (ErrRepositoryUnknown name) =>
      if bool_decide (name = repoPath) then ErrorCodeNameUnknown else FromUnknownError err
  | _ => FromUnknownError err
  end.
Definition DeleteBlob (a : App) (repoPath : string) (d : digest) : H (reply unit) :=
  or_refuse (λ err, refuse (delete_blob_code repoPath err)) (deleteBlob a repoPath d) (λ _, mret (Answer 202 tt)).

End handlers.
End Handlers.
