(* ===== verification/CatalogProps.v ===== *)
(** * Pages of the catalog and of tags

    A client that follows the links of the pages of the catalog, or of the tags
    of a repository, sees every entry once and in order, and reaches the end. *)

From stdpp Require Import sorting pretty.
From S2P Require Import Prelude GoStd Digest GoText Driver ErrCode Database Datastore Transactions Repositories RepositoryTree RepositoryQueries Registry Rows Api Handlers.

Module CatalogProps.
Import ErrCode Database Datastore Transactions Repositories RepositoryTree RepositoryQueries Registry Rows Api Handlers.

(** ** Numbers of entries *)

Lemma digits_pretty n : ∀ acc, GoText.digits_value (pretty_N_go n acc) 0 = GoText.digits_value acc (Z.of_N n).
Proof.
  induction (N.lt_wf_0 n) as [n _ IH]; intros acc.
  destruct (decide (0 < n)%N) as [Hn|Hn]; [|assert (n = 0%N) as -> by lia; by rewrite pretty_N_go_0].
  assert (Z.of_N n = 10 * Z.of_N (n `div` 10) + Z.of_N (n `mod` 10))%Z as Hdiv
    by (rewrite (N.div_mod n 10) at 1 by done; lia).
  destruct (GoText.pretty_N_char_digit (n `mod` 10)) as (H1 & H2 & _); [by apply N.mod_lt|].
  rewrite pretty_N_go_step by done. assert (n `div` 10 < n)%N as Hlt by (by apply N.div_lt).
  rewrite IH by done. cbn [GoText.digits_value]. rewrite H1, H2. f_equal. lia.
Qed.
Lemma Atoi_pretty z : (0 < z < 2 ^ 63)%Z → Atoi (pretty z) = Some z.
Proof.
  intros Hz. destruct z as [|p|p]; [lia| |lia]. change (pretty (Z.pos p)) with (pretty_N_go (N.pos p) "").
  pose proof (digits_pretty (N.pos p) "") as Hd.
  destruct (GoText.pretty_N_go_head (N.pos p) "") as (c & s & Hs & Hc & _); [lia|]. rewrite Hs in *.
  unfold Atoi. rewrite !GoText.digit_not by done. cbn [orb]. rewrite bool_decide_false by done.
  rewrite Hd. cbn [GoText.digits_value mbind option_bind]. change (Z.of_N (N.pos p)) with (Z.pos p).
  rewrite (proj2 (Z.leb_le _ _)), (proj2 (Z.ltb_lt _ _)) by lia. done.
Qed.
Lemma max_entries_bounds n : (0 < max_entries n < 2 ^ 63)%Z.
Proof.
  unfold max_entries, maximumReturnedEntries. destruct (Atoi n) as [z|] eqn:Hn; [|lia].
  destruct (z <=? 0)%Z eqn:Hz; [lia|]. apply Z.leb_gt in Hz. split; [done|]. unfold Atoi in Hn.
  case_bool_decide; [done|]. destruct (GoText.digits_value _ _) as [k|]; [|done]. cbn in Hn.
  destruct (_ && _)%bool eqn:Hb in Hn; [|done]. apply andb_true_iff in Hb as [_ Hb%Z.ltb_lt]. by simplify_eq.
Qed.
Lemma max_entries_pretty n : max_entries (pretty (max_entries n)) = max_entries n.
Proof.
  pose proof (max_entries_bounds n) as Hb. unfold max_entries at 1. rewrite Atoi_pretty by done.
  by rewrite (proj2 (Z.leb_gt _ _)) by lia.
Qed.

(** ** Pages *)

Section paging.
Context {Co : Collation} {CL : CollationLaws}.
#[local] Instance coll_Transitive : Transitive coll_le := coll_trans.
#[local] Instance coll_AntiSymm : AntiSymm (=) coll_le := coll_antisymm.
#[local] Instance coll_Total : Total coll_le := coll_total.

(** The entries after a last one, in order, each once. *)
Record paged (P : string → Prop) (entries : string → list string) : Prop := {
  pg_sorted l : Sorted coll_le (entries l);
  pg_nodup l : NoDup (entries l);
  pg_elem l x : x ∈ entries l ↔ P x ∧ coll_gt x l;
}.

Lemma coll_gt_trans x y z : coll_gt x y → coll_gt y z → coll_gt x z.
Proof. intros Hxy Hyz Hxz. destruct (coll_total y z) as [?|Hzy]; [done|]. apply Hxy. by eapply coll_trans. Qed.
Lemma last_take_elem {A} n (l : list A) x : last (take n l) = Some x → ∃ k, take n l = k ++ [x].
Proof. intros H%last_Some. done. Qed.

(** The entries after the last one of a page are those that follow it. *)
Lemma paged_next P entries n l x :
  paged P entries → last (take n (entries l)) = Some x → entries x = drop n (entries l).
Proof.
  intros HP Hx. pose proof (Sorted_StronglySorted _ _ (pg_sorted _ _ HP l)) as Hs.
  pose proof (pg_nodup _ _ HP l) as Hn. rewrite <-(take_drop n (entries l)) in Hs, Hn.
  destruct (last_take_elem _ _ _ Hx) as [k Hk].
  assert (x ∈ take n (entries l)) as Hin by (rewrite Hk; set_solver).
  assert (∀ y, y ∈ take n (entries l) → coll_le y x) as Hle.
  { intros y. rewrite Hk, elem_of_app, list_elem_of_singleton. intros [Hy| ->].
    - rewrite Hk in Hs. rewrite <-app_assoc in Hs. eapply StronglySorted_app_1_elem_of; [exact Hs|done|]. cbn. left.
    - destruct (coll_total x x); done. }
  apply NoDup_app in Hn as (_ & Hdisj & Hnd).
  apply (Sorted_unique coll_le).
  - apply HP.
  - apply StronglySorted_Sorted. by apply StronglySorted_app_1_r in Hs.
  - apply NoDup_Permutation; [apply HP|done|]. intros y. rewrite (pg_elem _ _ HP). split.
    + intros [Hy Hg]. assert (y ∈ entries l) as Hyl.
      { apply (pg_elem _ _ HP). split; [done|]. eapply coll_gt_trans; [done|]. apply (pg_elem _ _ HP).
        rewrite <-(take_drop n (entries l)). set_solver. }
      rewrite <-(take_drop n (entries l)), elem_of_app in Hyl. destruct Hyl as [Hyl|]; [|done].
      by destruct Hg; apply Hle.
    + intros Hy. assert (y ∈ entries l) as Hyl by (rewrite <-(take_drop n (entries l)); set_solver).
      apply (pg_elem _ _ HP) in Hyl as [Hpy _]. split; [done|]. intros Hyx.
      assert (x = y) as -> by (apply coll_antisymm; [by eapply StronglySorted_app_1_elem_of|done]). by eapply Hdisj.
Qed.

(** What a request for a page answers. *)
Definition served_page (entries : string → list string) (n : nat) (l : string) : list string * bool :=
  (take n (entries l), match last (take n (entries l)) with None => false | Some x => (0 <? length (entries x))%nat end).

Section client.
Context {St : Type}.
(** A client that follows the links; the fuel bounds the number of requests. *)
Fixpoint follow (fuel : nat) (get : string → string → GoM (world St) herr (reply page)) (n last : string) :
    GoM (world St) herr (list string) :=
  match fuel with
  | 0 => fail (Coded ErrorCodeTooManyRequests)
  | S fuel =>
      r ← get n last;
      match r with
      | Refused errs => fail (Coded (default ErrorCodeUnknown (mjoin (head errs))))
      | Answer _ p =>
          rest ← match pg_next p with
                 | None => mret []
                 | Some (n, last) => follow fuel get (pretty n) last
                 end;
          mret (pg_entries p ++ rest)
      end
  end.

Lemma follow_S fuel get n last :
  follow (S fuel) get n last =
    (r ← get n last;
     match r with
     | Refused errs => fail (Coded (default ErrorCodeUnknown (mjoin (head errs))))
     | Answer _ p =>
         rest ← match pg_next p with
                | None => mret []
                | Some (n, last) => follow fuel get (pretty n) last
                end;
         mret (pg_entries p ++ rest)
     end).
Proof. done. Qed.
Lemma follow_pages P entries (get : string → string → GoM (world St) herr (reply page)) (w : world St) :
  paged P entries →
  (∀ n l, get n l w =
    let '(es, more) := served_page entries (Z.to_nat (max_entries n)) l in
    (Ret (Answer 200 {| pg_entries := es; pg_next := if more then (max_entries n,.) <$> last es else None |}), w)) →
  ∀ k n l, length (entries l) ≤ k → follow (S k) get n l w = (Ret (entries l), w).
Proof.
  intros HP Hget. assert (∀ n, ∃ m, Z.to_nat (max_entries n) = S m) as Hpos.
  { intros n. pose proof (max_entries_bounds n). exists (Z.to_nat (max_entries n) - 1). lia. }
  induction k as [|k IH]; intros n l Hk; rewrite follow_S; unfold mbind, gom_bind; rewrite Hget; unfold served_page;
    destruct (Hpos n) as [m Hm]; rewrite Hm.
  { destruct (entries l); [done|cbn in Hk; lia]. }
  destruct (last (take (S m) (entries l))) as [x|] eqn:Hx.
  2: { apply last_None in Hx. destruct (entries l); [done|]. by cbn in Hx. }
  pose proof (paged_next P entries _ l x HP Hx) as Hnext. cbn [option_fmap option_map fmap].
  destruct (entries x) as [|y ys] eqn:Hes.
  { cbn. assert (take (S m) (entries l) = entries l) as ->; [|by rewrite app_nil_r].
    rewrite <-(take_drop (S m) (entries l)) at 2. by rewrite <-Hnext, app_nil_r. }
  assert (length (entries x) ≤ k) as Hk'.
  { rewrite Hes, Hnext, length_drop. destruct (entries l); [done|]. cbn in *. lia. }
  change (0 <? length (y :: ys))%nat with true. cbn [pg_next pg_entries].
  rewrite (IH (pretty (max_entries n)) x Hk'), Hes, Hnext. cbn. by rewrite take_drop.
Qed.
End client.

(** The rows of a table after a last key, as pages of keys. *)
Lemma paged_rows {A} (key : A → string) (R : relation A) `{!RelDecision R} (Q : A → Prop) (rows : string → list A) :
  (∀ x y, R x y ↔ coll_le (key x) (key y)) →
  (∀ l, NoDup (key <$> rows l)) → (∀ l x, x ∈ rows l ↔ Q x ∧ coll_gt (key x) l) →
  paged (λ k, ∃ x, Q x ∧ key x = k) (λ l, key <$> merge_sort R (rows l)).
Proof.
  intros HR Hn He.
  assert (Transitive R) as HT by (intros x y z; rewrite !HR; apply coll_trans).
  assert (Total R) as HTot by (intros x y; rewrite !HR; apply coll_total).
  split; intros l.
  - pose proof (Sorted_merge_sort R (rows l)) as Hs. induction Hs as [|x xs _ IH Hd]; cbn; constructor; [done|].
    destruct Hd; cbn; constructor. by apply HR.
  - by rewrite merge_sort_Permutation.
  - intros k. rewrite list_elem_of_fmap. setoid_rewrite merge_sort_Permutation. setoid_rewrite He. naive_solver.
Qed.
End paging.

(** ** The catalog and the tags *)

Section properties.
Context {GD : GoDigest} {GDL : GoDigestLaws} {Co : Collation} {CL : CollationLaws} {St : Type} {Drv : StorageDriver St}.
Context (fuel : nat).

Definition catalog_entries (D : db) (l : string) : list string := rp_Path <$> merge_sort by_path (catalog_after l D).
Lemma catalog_paged D :
  tree D → paged (λ p, ∃ r, (is_repository D r ∧ has_manifest D r) ∧ rp_Path r = p) (catalog_entries D).
Proof.
  intros H. apply paged_rows; [done|..].
  - intros l. apply NoDup_fmap_2_strong; [|by apply NoDup_filter, NoDup_all]. unfold catalog_after.
    intros x y [_ Hx%elem_of_all]%list_elem_of_filter [_ Hy%elem_of_all]%list_elem_of_filter. by apply (is_repository_path D).
  - intros l x. unfold catalog_after. rewrite list_elem_of_filter, elem_of_all. tauto.
Qed.
Lemma served_page_last {A} (key : A → string) n (rows : list A) :
  last (take n (key <$> rows)) = key <$> last (take n rows).
Proof. by rewrite <-fmap_take, fmap_last. Qed.

Lemma dbGetCatalog_run (w : world St) n l :
  calm_world w → dbGetCatalog n l w = (Ret (served_page (catalog_entries (w_db w)) n l), w).
Proof.
  intros Hw. unfold dbGetCatalog, repositoryStore_FindAllPaginated, repositoryStore_CountAfterPath, mbind, gom_bind.
  rewrite on_db_query by done. unfold served_page, catalog_entries. rewrite served_page_last, <-fmap_take.
  destruct (last (take n _)) as [r|]; [|done]. cbn [fmap option_fmap option_map]. rewrite on_db_query by done. cbn.
  by rewrite length_fmap, length_merge_sort.
Qed.
Lemma link_next_run (w : world St) m (more : bool) (es : list string) :
  (more = true → es ≠ []) → link_next m more es w = (Ret (if more then (m,.) <$> last es else None), w).
Proof.
  intros He. destruct more; [|done]. unfold link_next. destruct (last es) as [x|] eqn:Hl; [done|].
  apply last_None in Hl. by destruct He.
Qed.
Lemma served_page_more entries n l es : served_page entries n l = (es, true) → es ≠ [].
Proof. unfold served_page. by destruct (take n (entries l)) as [|x xs]; intros [= <- ?]. Qed.

Lemma GetCatalog_run a (w : world St) n l :
  a_useDatabase a = true → calm_world w →
  GetCatalog fuel a n l w =
    let '(es, more) := served_page (catalog_entries (w_db w)) (Z.to_nat (max_entries n)) l in
    (Ret (Answer 200 {| pg_entries := es; pg_next := if more then (max_entries n,.) <$> last es else None |}), w).
Proof.
  intros Ha Hw. unfold GetCatalog, or_refuse. rewrite Ha. unfold mbind, gom_bind, attempt. rewrite dbGetCatalog_run by done.
  destruct (served_page _ _ _) as [es more] eqn:Hs. rewrite link_next_run; [done|]. intros ->. by eapply served_page_more.
Qed.

(** C23: A client that follows the links of the catalog of a registry with the
    metadata database, with pages of any size and from any last entry, reaches
    the end after at most as many requests as there are repositories, and one
    more; it has then seen, in order and each once, exactly the paths after that
    entry of the repositories that have a manifest. *)
Theorem catalog_pages a (w : world St) n l :
  a_useDatabase a = true → reached (St := St) (w_db w) → calm_world w →
  ∃ ps, (∀ k, size (repositories (w_db w)) ≤ k → follow (S k) (GetCatalog fuel a) n l w = (Ret ps, w)) ∧
    Sorted coll_le ps ∧ NoDup ps ∧
    ∀ p, p ∈ ps ↔ coll_gt p l ∧ ∃ r, is_repository (w_db w) r ∧ has_manifest (w_db w) r ∧ rp_Path r = p.
Proof.
  intros Ha H%reached_tree Hw. pose proof (catalog_paged _ H) as HP. exists (catalog_entries (w_db w) l).
  split; [|split; [apply HP|split; [apply HP|]]].
  - intros k Hk. eapply follow_pages; [exact HP| |].
    + intros n' l'. by apply GetCatalog_run.
    + etrans; [|exact Hk]. unfold catalog_entries. rewrite length_fmap, length_merge_sort. unfold catalog_after.
      etrans; [apply length_filter|]. unfold all_repositories. by rewrite length_fmap, length_map_to_list.
  - intros p. rewrite (pg_elem _ _ HP). naive_solver.
Qed.

(** The tags of a repository. *)
Definition tag_entries (r : Repository) (D : db) (l : string) : list string := tg_Name <$> merge_sort by_name (tags_after r l D).
Definition tag_of (D : db) (r : Repository) (t : Tag) : Prop :=
  tg_NamespaceID t = rp_NamespaceID r ∧ tg_RepositoryID t = rp_ID r ∧
  tags D !! (tg_NamespaceID t, tg_RepositoryID t, tg_Name t) = Some (tg_ManifestID t).
Lemma elem_of_tags D t :
  t ∈ scanFullTag <$> map_to_list (tags D) ↔ tags D !! (tg_NamespaceID t, tg_RepositoryID t, tg_Name t) = Some (tg_ManifestID t).
Proof.
  rewrite list_elem_of_fmap. split.
  - by intros ([[[n r] name] i] & -> & Hx%elem_of_map_to_list).
  - intros Ht. exists ((tg_NamespaceID t, tg_RepositoryID t, tg_Name t), tg_ManifestID t). rewrite elem_of_map_to_list.
    by destruct t.
Qed.
Lemma NoDup_tags D : NoDup (scanFullTag <$> map_to_list (tags D)).
Proof.
  apply NoDup_fmap_2_strong; [|apply NoDup_map_to_list]. intros [[[n r] name] i] [[[n' r'] name'] i'] _ _.
  unfold scanFullTag. cbn. by intros [= -> -> -> ->].
Qed.
Lemma tags_paged r D : paged (λ p, ∃ t, tag_of D r t ∧ tg_Name t = p) (tag_entries r D).
Proof.
  apply paged_rows; [done|..].
  - intros l. unfold tags_after. apply NoDup_fmap_2_strong; [|apply NoDup_filter, NoDup_tags].
    intros x y [(Hx1 & Hx2 & _) Hx%elem_of_tags]%list_elem_of_filter [(Hy1 & Hy2 & _) Hy%elem_of_tags]%list_elem_of_filter Hn.
    destruct x, y; cbn in *. by simplify_eq.
  - intros l x. unfold tags_after, tag_of. rewrite list_elem_of_filter, elem_of_tags. tauto.
Qed.

Lemma dbGetTags_run (w : world St) path r n l :
  calm_world w → repository_by_path path (w_db w) = Some r →
  dbGetTags path n l w = (Ret (served_page (tag_entries r (w_db w)) n l), w).
Proof.
  intros Hw Hr. unfold dbGetTags, repositoryStore_FindByPath, repositoryStore_TagsPaginated, repositoryStore_TagsCountAfterName, mbind, gom_bind.
  rewrite on_db_query, Hr, on_db_query by done. unfold served_page, tag_entries. rewrite served_page_last, <-fmap_take.
  destruct (last (take n _)) as [t|]; [|done]. cbn [fmap option_fmap option_map]. rewrite on_db_query by done. cbn.
  by rewrite length_fmap, length_merge_sort.
Qed.

(** C24: The same for the tags of a repository, with the metadata database:
    following the links, a client sees, in order and each once, exactly its tags after the entry it started
    from; and for a path without a repository the answer is that the name is
    unknown. *)
Theorem tag_pages a (w : world St) path n l :
  a_useDatabase a = true → calm_world w →
  match repository_by_path path (w_db w) with
  | None => GetTags a path n l w = (Ret (refuse ErrorCodeNameUnknown), w)
  | Some r =>
      ∃ ts, (∀ k, size (tags (w_db w)) ≤ k → follow (S k) (GetTags a path) n l w = (Ret ts, w)) ∧
        Sorted coll_le ts ∧ NoDup ts ∧
        ∀ t, t ∈ ts ↔ coll_gt t l ∧ is_Some (tags (w_db w) !! (rp_NamespaceID r, rp_ID r, t))
  end.
Proof.
  intros Ha Hw. destruct (repository_by_path path (w_db w)) as [r|] eqn:Hr.
  2: { unfold GetTags, or_refuse, dbGetTags, repositoryStore_FindByPath, mbind, gom_bind, attempt.
       rewrite Ha. unfold mbind, gom_bind. by rewrite on_db_query, Hr. }
  pose proof (tags_paged r (w_db w)) as HP. exists (tag_entries r (w_db w) l).
  split; [|split; [apply HP|split; [apply HP|]]].
  - intros k Hk. eapply follow_pages; [exact HP| |].
    + intros n' l'. unfold GetTags, or_refuse. rewrite Ha. unfold mbind, gom_bind, attempt. rewrite (dbGetTags_run w path r) by done.
      destruct (served_page _ _ _) as [es more] eqn:Hs. rewrite link_next_run; [done|]. intros ->. by eapply served_page_more.
    + etrans; [|exact Hk]. unfold tag_entries. rewrite length_fmap, length_merge_sort. unfold tags_after.
      etrans; [apply length_filter|]. by rewrite length_fmap, length_map_to_list.
  - intros t. rewrite (pg_elem _ _ HP). unfold tag_of. split.
    + intros [(x & (<- & <- & Hx) & <-) Hg]. split; [done|]. by eexists.
    + intros [Hg [i Hi]]. split; [|done].
      exists {| tg_NamespaceID := rp_NamespaceID r; tg_Name := t; tg_RepositoryID := rp_ID r; tg_ManifestID := i |}. done.
Qed.

End properties.

End CatalogProps.
