(* ===== verification/ManifestHandlers.v ===== *)
(** * The requests for manifests

    Models registry/handlers/manifests.go over the metadata database, the
    storage, or both.  Headers are left as lists of their values; log entries
    and the location of a stored manifest are left out. *)

From S2P Require Import Prelude GoStd Digest Driver FileSystem Paths ObjectStore BlobStore TagStore ErrCode Database Datastore Transactions Repositories Api Manifests Handlers.

Module ManifestHandlers.
Import ErrCode Database Datastore Transactions Repositories Api Manifests Handlers.

Definition defaultArch : string := "amd64".
Definition defaultOS : string := "linux".
Definition imageClass : string := "image".

(** A [manifestHandler]: the application, the repository and the reference, of
    which one of [mh_Tag] and [mh_Digest] is not empty. *)
Record manifestHandler := {
  mh_app : App;
  mh_urls : ManifestURLs;
  mh_name : string;
  mh_Tag : string;
  mh_Digest : digest;
}.

Inductive storageType := manifestSchema1 | manifestSchema2 | manifestlistSchema | ociImageManifestSchema | ociImageIndexSchema.

Section handlers.
Context {GD : GoDigest} {MC : ManifestCodec} {Co : Collation} {St : Type} {D : StorageDriver St}.
Context (bufs : nat → nat).
Abbreviation H := (GoM (world St) herr) (only parsing).
Abbreviation storage m := (on_storage (as_herr Dist m)) (only parsing).
Abbreviation stmt m := (as_herr Db m) (only parsing).

(** ** Reading *)

Definition comma : ascii := ",".
Definition supports (accept : list string) (st : storageType) : bool :=
  existsb (λ acceptHeader, existsb (λ rawMT,
    match mime_ParseMediaType rawMT with
    | None => false
    | Some mediaType =>
        match st with
        | manifestSchema2 => true
        | manifestlistSchema => bool_decide (mediaType = MediaTypeManifestList)
        | ociImageManifestSchema => bool_decide (mediaType = v1_MediaTypeImageManifest)
        | ociImageIndexSchema => bool_decide (mediaType = v1_MediaTypeImageIndex)
        | manifestSchema1 => false
        end
    end) (Split comma acceptHeader)) accept.

Definition quoted (etag : string) : string := String (Ascii.ascii_of_nat 34) (etag +:+ String (Ascii.ascii_of_nat 34) "").
Definition etagMatch (if_none_match : list string) (etag : string) : bool :=
  existsb (λ v, bool_decide (v = etag) || bool_decide (v = quoted etag)) if_none_match.
Definition errETagMatches : error := errors_New "etag matches".

Definition from_json (r : option manifest) : H manifest :=
  match r with Some m => mret m | None => fail invalid_json end.
Definition dbPayloadToManifest (payload : bytes) (mediaType : string) (schemaVersion : Z) : H manifest :=
  if (schemaVersion =? 1)%Z then fail (Dist ErrSchemaV1Unsupported)
  else if negb (schemaVersion =? 2)%Z then fail bad_version
  else if bool_decide (mediaType = schema2_MediaTypeManifest) then from_json (schema2_UnmarshalJSON payload)
  else if bool_decide (mediaType = v1_MediaTypeImageManifest) then from_json (oci_UnmarshalJSON payload)
  else if bool_decide (mediaType = MediaTypeManifestList ∨ mediaType = v1_MediaTypeImageIndex) then
    from_json (snd <$> list_UnmarshalJSON payload)
  else if bool_decide (mediaType = "") then
    match list_UnmarshalJSON payload with
    | None => fail invalid_json
    | Some (l, m) =>
        match ml_Manifests l with
        | Some _ => mret m
        | None => from_json (oci_UnmarshalJSON payload)
        end
    end
  else fail (Verification [Dist (errors_New "unrecognized manifest content type")]).

Definition dbManifestGetter_GetByTag (repoPath : string) (if_none_match : list string) (tagName : string) : H (manifest * digest) :=
  dbRepo ← on_db (repositoryStore_FindByPath repoPath);
  match dbRepo with
  | None => fail (Dist (ErrTagUnknown tagName))
  | Some dbRepo =>
      dbManifest ← on_db (repositoryStore_FindManifestByTagName dbRepo tagName);
      match dbManifest with
      | None => fail (Dist (ErrTagUnknown tagName))
      | Some m =>
          if etagMatch if_none_match (mf_Digest m) then fail (Dist errETagMatches)
          else
            manifest ← dbPayloadToManifest (mf_Payload m) (mf_MediaType m) (mf_SchemaVersion m);
            mret (manifest, mf_Digest m)
      end
  end.
Definition dbManifestGetter_GetByDigest (repoPath : string) (if_none_match : list string) (dgst : digest) : H manifest :=
  if etagMatch if_none_match dgst then fail (Dist errETagMatches)
  else
    dbRepo ← on_db (repositoryStore_FindByPath repoPath);
    match dbRepo with
    | None => fail (Dist (ErrManifestUnknownRevision repoPath dgst))
    | Some dbRepo =>
        dbManifest ← on_db (repositoryStore_FindManifestByDigest (rp_NamespaceID dbRepo) (rp_ID dbRepo) dgst);
        match dbManifest with
        | None => fail (Dist (ErrManifestUnknownRevision repoPath dgst))
        | Some m => dbPayloadToManifest (mf_Payload m) (mf_MediaType m) (mf_SchemaVersion m)
        end
    end.

(** The store of the manifests of the repository. *)
Definition manifests_of (imh : manifestHandler) : manifestStore :=
  repository_manifestStore (mh_name imh) (a_deleteEnabled (mh_app imh)) (a_isCache (mh_app imh)) (mh_urls imh).

Definition fsManifestGetter_GetByDigest (imh : manifestHandler) (if_none_match : list string) (dgst : digest) : H manifest :=
  if etagMatch if_none_match dgst then fail (Dist errETagMatches)
  else on_storage (Manifests.Get bufs (manifests_of imh) dgst).
Definition fsManifestGetter_GetByTag (imh : manifestHandler) (if_none_match : list string) (tagName : string) : H (manifest * digest) :=
  desc ← storage (TagStore.Get (mh_name imh) tagName);
  let dgst := BlobStore.desc_Digest desc in
  if etagMatch if_none_match dgst then fail (Dist errETagMatches)
  else
    mfst ← fsManifestGetter_GetByDigest imh if_none_match dgst;
    mret (mfst, dgst).

(** The getter of the handler. *)
Definition GetByTag (imh : manifestHandler) (if_none_match : list string) (tagName : string) : H (manifest * digest) :=
  if a_useDatabase (mh_app imh) then dbManifestGetter_GetByTag (mh_name imh) if_none_match tagName
  else fsManifestGetter_GetByTag imh if_none_match tagName.
Definition GetByDigest (imh : manifestHandler) (if_none_match : list string) (dgst : digest) : H manifest :=
  if a_useDatabase (mh_app imh) then dbManifestGetter_GetByDigest (mh_name imh) if_none_match dgst
  else fsManifestGetter_GetByDigest imh if_none_match dgst.

(** The manifest of a list for the default platform, and its digest. *)
Definition default_platform (m : ManifestDescriptor) : bool :=
  bool_decide (md_Architecture m = defaultArch) && bool_decide (md_OS m = defaultOS).
Definition rewriteManifestList (imh : manifestHandler) (l : ManifestList) : H (manifest * digest) :=
  let manifestDigest := default "" (d_Digest <$> (md_Descriptor <$> head (filter default_platform (default [] (ml_Manifests l))))) in
  if bool_decide (manifestDigest = "") then fail (Coded ErrorCodeManifestUnknown)
  else manifest ← GetByDigest imh [] manifestDigest; mret (manifest, manifestDigest).

Definition manifestType (m : manifest) : storageType :=
  match m with
  | Schema1 _ _ => manifestSchema1
  | Schema2 _ _ => manifestSchema2
  | OCI _ _ => ociImageManifestSchema
  | List l _ =>
      if bool_decide (v_MediaType (ml_Versioned l) = MediaTypeManifestList) then manifestlistSchema
      else if bool_decide (v_MediaType (ml_Versioned l) = v1_MediaTypeImageIndex) then ociImageIndexSchema
      else manifestSchema1
  end.

(** What a manifest is answered with. *)
Record content := { ct_type : string; ct_payload : bytes; ct_digest : digest }.
Definition serve (m : manifest) (dgst : digest) : reply content :=
  let '(ct, p) := Payload m in Answer 200 {| ct_type := ct; ct_payload := p; ct_digest := dgst |}.
Definition get_error (err : herr) : reply content :=
  match unwrap err with
  | Dist e =>
      if err_eq e errETagMatches then Answer 304 {| ct_type := ""; ct_payload := ""; ct_digest := "" |}
      else match e with
           | ErrManifestUnknownRevision _ _ | ErrTagUnknown _ | ErrDigest ErrDigestInvalidFormat => refuse ErrorCodeManifestUnknown
           | _ => if err_eq e ErrSchemaV1Unsupported then refuse ErrorCodeManifestInvalid else refuse (FromUnknownError err)
           end
  | _ => refuse (FromUnknownError err)
  end.
Definition rewrite_error (err : herr) : reply content :=
  match direct err with
  | Some (ErrManifestUnknownRevision _ _) => refuse ErrorCodeManifestUnknown
  | _ => refuse (FromUnknownError err)
  end.
Definition GetManifest (imh : manifestHandler) (accept if_none_match : list string) : H (reply content) :=
  let byTag := negb (bool_decide (mh_Tag imh = "")) in
  or_refuse get_error
    (if byTag then GetByTag imh if_none_match (mh_Tag imh)
     else m ← GetByDigest imh if_none_match (mh_Digest imh); mret (m, mh_Digest imh)) (λ '(m, dgst),
    match manifestType m, m with
    | manifestSchema1, _ => mret (refuse ErrorCodeManifestInvalid)
    | ociImageManifestSchema, _ =>
        mret (if supports accept ociImageManifestSchema then serve m dgst else refuse ErrorCodeManifestUnknown)
    | ociImageIndexSchema, _ =>
        mret (if supports accept ociImageIndexSchema then serve m dgst else refuse ErrorCodeManifestUnknown)
    | manifestlistSchema, List l _ =>
        if byTag && negb (supports accept manifestlistSchema) then
          or_refuse rewrite_error (rewriteManifestList imh l) (λ '(m, dgst), mret (serve m dgst))
        else mret (serve m dgst)
    | _, _ => mret (serve m dgst)
    end).

(** ** Writing *)

Definition maxManifestBodySize : Z := Z.shiftl 4 20.
(** One hour. *)
Definition manifestGCReviewWindow : Z := (3600 * 10 ^ 9)%Z.

(** [applyResourcePolicy]: the code of the refusal. *)
Definition applyResourcePolicy (imh : manifestHandler) (m : manifest) : option code :=
  let a := mh_app imh in
  let allowed class :=
    if negb (bool_decide (class ∈ a_classes a)) then Some ErrorCodeDenied
    else
      let here := filter (λ r, r.1 = mh_name imh) (a_resources a) in
      let classes := (λ r, if bool_decide (r.2 = "") then imageClass else r.2) <$> here in
      if bool_decide (class ∈ classes) then None
      else match here with [] => None | _ => Some ErrorCodeDenied end in
  match a_classes a, m with
  | [], _ => None
  | _, Schema2 m _ =>
      if bool_decide (d_MediaType (im_Config m) = schema2_MediaTypeImageConfig) then allowed imageClass
      else if bool_decide (d_MediaType (im_Config m) = schema2_MediaTypePluginConfig) then allowed "plugin"
      else Some ErrorCodeDenied
  | _, OCI m _ =>
      if bool_decide (d_MediaType (im_Config m) = v1_MediaTypeImageConfig) then allowed imageClass
      else Some ErrorCodeDenied
  | _, _ => None
  end.

Definition dbFindRepositoryBlob (dgst : digest) (repoPath : string) : H Blob :=
  r ← on_db (repositoryStore_FindByPath repoPath);
  match r with
  | None => fail (Dist (errors_New "source repository not found in database"))
  | Some r =>
      b ← on_db (repositoryStore_FindBlob r dgst);
      match b with
      | None => fail (Dist (errors_New "blob not found in database"))
      | Some b => mret b
      end
  end.

(** The loop that associates the layers. *)
Fixpoint associate_layers (dbManifest : Manifest) (repoPath : string) (layers : list descriptor) : H unit :=
  match layers with
  | [] => mret tt
  | reqLayer :: layers =>
      dbBlob ← dbFindRepositoryBlob (d_Digest reqLayer) repoPath;
      _ ← on_db (manifestStore_AssociateLayerBlob dbManifest dbBlob);
      associate_layers dbManifest repoPath layers
  end.
Definition with_id (m : Manifest) (id : Z) : Manifest :=
  {| mf_ID := id; mf_NamespaceID := mf_NamespaceID m; mf_RepositoryID := mf_RepositoryID m;
     mf_SchemaVersion := mf_SchemaVersion m; mf_MediaType := mf_MediaType m; mf_Digest := mf_Digest m;
     mf_Payload := mf_Payload m; mf_Configuration := mf_Configuration m |}.
Definition dbPutManifestOCIOrSchema2 (imh : manifestHandler) (now : Z) (m : Image) (payload : bytes) : H unit :=
  dbRepo ← on_db (repositoryStore_CreateOrFindByPath (mh_name imh));
  dbCfgBlob ← dbFindRepositoryBlob (d_Digest (im_Config m)) (rp_Path dbRepo);
  cfgPayload ← storage (BlobStore.Get bufs (blob_Digest dbCfgBlob));
  dbManifest ← on_db (repositoryStore_FindManifestByDigest (rp_NamespaceID dbRepo) (rp_ID dbRepo) (mh_Digest imh));
  match dbManifest with
  | Some _ => mret tt
  | None =>
      let row := {| mf_ID := 0; mf_NamespaceID := rp_NamespaceID dbRepo; mf_RepositoryID := rp_ID dbRepo;
                    mf_SchemaVersion := v_SchemaVersion (im_Versioned m); mf_MediaType := v_MediaType (im_Versioned m);
                    mf_Digest := mh_Digest imh; mf_Payload := payload;
                    mf_Configuration := Some {| cfg_MediaType := blob_MediaType dbCfgBlob;
                                                cfg_Digest := blob_Digest dbCfgBlob; cfg_Payload := cfgPayload |} |} in
      id ← on_db (manifestStore_Create now row);
      associate_layers (with_id row id) (rp_Path dbRepo) (im_Layers m)
  end.

(** The services of the validators on the database of the request. *)
Definition db_Exists (imh : manifestHandler) (dgst : digest) : H bool :=
  on_db (RepositoryManifestService_Exists (mh_name imh) dgst).
Definition db_Stat (imh : manifestHandler) (dgst : digest) : H unit :=
  _ ← on_db (RepositoryBlobService_Stat (mh_name imh) dgst); mret tt.
Definition dbPutManifestOCI (imh : manifestHandler) (now : Z) (m : Image) (payload : bytes) : H unit :=
  _ ← OCIValidator_Validate (db_Exists imh) (db_Stat imh) (a_isCache (mh_app imh)) (mh_urls imh) m;
  dbPutManifestOCIOrSchema2 imh now m payload.
Definition dbPutManifestSchema2 (imh : manifestHandler) (now : Z) (m : Image) (payload : bytes) : H unit :=
  _ ← Schema2Validator_Validate (db_Exists imh) (db_Stat imh) (a_isCache (mh_app imh)) (mh_urls imh) m;
  dbPutManifestOCIOrSchema2 imh now m payload.

Definition dbFindManifestListManifest (dbRepo : Repository) (dgst : digest) : H Manifest :=
  dbManifest ← on_db (repositoryStore_FindManifestByDigest (rp_NamespaceID dbRepo) (rp_ID dbRepo) dgst);
  match dbManifest with
  | None => fail (Dist (errors_New "manifest not found"))
  | Some m => mret m
  end.
Fixpoint find_list_manifests (dbRepo : Repository) (ds : list ManifestDescriptor) : H (list Manifest) :=
  match ds with
  | [] => mret []
  | desc :: ds =>
      m ← dbFindManifestListManifest dbRepo (d_Digest (md_Descriptor desc));
      mm ← find_list_manifests dbRepo ds;
      mret (m :: mm)
  end.
(** The loop that associates the manifests; one that is gone is reported as
    unknown. *)
Fixpoint associate_manifests (ml : Manifest) (mm : list Manifest) : GoM tx herr unit :=
  match mm with
  | [] => mret tt
  | m :: mm =>
      r ← attempt (stmt (manifestStore_AssociateManifest ml m));
      match r with
      | inl err =>
          if is_db err ErrRefManifestNotFound then fail (Verification [Dist (ErrManifestBlobUnknown (mf_Digest m))])
          else fail err
      | inr _ => associate_manifests ml mm
      end
  end.
Definition dbPutManifestList (imh : manifestHandler) (now : Z) (l : ManifestList) (payload : bytes) : H unit :=
  _ ← ManifestListValidator_Validate (db_Exists imh) (a_isCache (mh_app imh)) l;
  r ← on_db (repositoryStore_CreateOrFindByPath (mh_name imh));
  ml ← on_db (repositoryStore_FindManifestByDigest (rp_NamespaceID r) (rp_ID r) (mh_Digest imh));
  match ml with
  | Some _ => mret tt
  | None =>
      let mediaType := v_MediaType (ml_Versioned l) in
      let ml := {| mf_ID := 0; mf_NamespaceID := rp_NamespaceID r; mf_RepositoryID := rp_ID r;
                   mf_SchemaVersion := v_SchemaVersion (ml_Versioned l);
                   mf_MediaType := if bool_decide (mediaType = "") then v1_MediaTypeImageIndex else mediaType;
                   mf_Digest := mh_Digest imh; mf_Payload := payload; mf_Configuration := None |} in
      mm ← find_list_manifests r (default [] (ml_Manifests l));
      in_tx "creating database transaction" "failed to commit database transaction" (
        _ ← stmt (gcManifestTaskStore_FindAndLockNBefore (rp_NamespaceID r) (rp_ID r) (mf_ID <$> mm) (now + manifestGCReviewWindow));
        id ← stmt (manifestStore_Create now ml);
        associate_manifests (with_id ml id) mm)
  end.

Definition dbPutManifest (imh : manifestHandler) (now : Z) (m : manifest) (payload : bytes) : H unit :=
  match m with
  | Schema2 m _ => dbPutManifestSchema2 imh now m payload
  | OCI m _ => dbPutManifestOCI imh now m payload
  | List l _ => dbPutManifestList imh now l payload
  | Schema1 _ _ => fail (Coded ErrorCodeManifestInvalid)
  end.

Definition dbTagManifest (now : Z) (dgst : digest) (tagName path : string) : H unit :=
  dbRepo ← on_db (repositoryStore_FindByPath path);
  match dbRepo with
  | None => panic
  | Some dbRepo =>
      dbManifest ← on_db (repositoryStore_FindManifestByDigest (rp_NamespaceID dbRepo) (rp_ID dbRepo) dgst);
      match dbManifest with
      | None => fail (Dist (errors_New "manifest not found in database"))
      | Some dbManifest =>
          in_tx "failed to create database transaction" "committing database transaction" (
            _ ← stmt (gcManifestTaskStore_FindAndLockBefore (rp_NamespaceID dbRepo, rp_ID dbRepo, mf_ID dbManifest)
                        (now + manifestGCReviewWindow));
            stmt (tagStore_CreateOrUpdate now (rp_NamespaceID dbRepo) (rp_ID dbRepo) (mf_ID dbManifest) tagName))
      end
  end.

(** [appendPutError]: the codes of the errors. *)
Definition verification_code (err : herr) : code :=
  match direct err with
  | Some (ErrManifestBlobUnknown _) => ErrorCodeManifestBlobUnknown
  | Some ErrManifestUnverified => ErrorCodeManifestUnverified
  | Some (ErrDigest ErrDigestInvalidFormat) => ErrorCodeDigestInvalid
  | _ => FromUnknownError err
  end.
Definition ErrAccessDenied : error := errors_New "access denied".
Definition put_error {B} (err : herr) : reply B :=
  if is_error err ErrUnsupported then refuse ErrorCodeUnsupported
  else if is_error err ErrAccessDenied then refuse ErrorCodeDenied
  else if is_error err ErrSchemaV1Unsupported then refuse ErrorCodeManifestInvalid
  else match err with
       | Verification errs => Refused ((λ err, Some (verification_code err)) <$> errs)
       | _ => refuse (FromUnknownError err)
       end.

(** The tag in the database; a manifest that is gone is put again. *)
Definition tag_in_database (imh : manifestHandler) (now : Z) (m : manifest) (payload : bytes) (k : H (reply digest)) :
    H (reply digest) :=
  let tag := dbTagManifest now (mh_Digest imh) (mh_Tag imh) (mh_name imh) in
  r ← attempt tag;
  match r with
  | inr _ => k
  | inl err =>
      if is_db err ErrManifestNotFound then
        or_refuse (λ err, put_error (Wrapped "failed to recreate manifest in database" err)) (dbPutManifest imh now m payload) (λ _,
        or_refuse (λ err, unknown (Wrapped "failed to create tag in database after manifest recreate" err)) tag (λ _, k))
      else mret (unknown (Wrapped "failed to create tag in database" err))
  end.
Definition with_digest (imh : manifestHandler) (dgst : digest) : manifestHandler :=
  {| mh_app := mh_app imh; mh_urls := mh_urls imh; mh_name := mh_name imh; mh_Tag := mh_Tag imh; mh_Digest := dgst |}.
(** [PutManifest] on a body, none if it could not be copied. *)
Definition PutManifest (imh : manifestHandler) (now : Z) (contentType : string) (body : option bytes) : H (reply digest) :=
  match body with
  | None => mret (refuse ErrorCodeManifestInvalid)
  | Some jsonBuf =>
      if (maxManifestBodySize <? Z.of_nat (String.length jsonBuf))%Z then mret (refuse ErrorCodeManifestInvalid)
      else match UnmarshalManifest contentType jsonBuf with
      | None => mret (refuse ErrorCodeManifestInvalid)
      | Some (m, dgst) =>
          let a := mh_app imh in
          let hasTag := negb (bool_decide (mh_Tag imh = "")) in
          if negb (bool_decide (mh_Digest imh = "")) && negb (bool_decide (dgst = mh_Digest imh))
          then mret (refuse ErrorCodeDigestInvalid)
          else if bool_decide (mh_Digest imh = "") && negb hasTag then mret (refuse ErrorCodeTagInvalid)
          else
            let imh := with_digest imh dgst in
            match applyResourcePolicy imh m with
            | Some c => mret (refuse c)
            | None =>
                or_refuse put_error (if a_writeFSMetadata a then on_storage (Manifests.Put (manifests_of imh) m) else mret "") (λ _,
                or_refuse put_error (if a_useDatabase a then dbPutManifest imh now m jsonBuf else mret tt) (λ _,
                let created := mret (Answer 201 dgst) in
                if hasTag then
                  or_refuse (λ _, refuse ErrorCodeUnknown)
                    (if a_writeFSMetadata a then
                       storage (TagStore.Tag (mh_name imh) (mh_Tag imh)
                         {| BlobStore.MediaType := ""; BlobStore.Size := 0; BlobStore.desc_Digest := dgst |})
                     else mret tt) (λ _,
                  if a_useDatabase a then tag_in_database imh now m jsonBuf created else created)
                else created))
            end
      end
  end.

(** ** Deleting *)

Definition is_list_type (mediaType : string) : bool :=
  bool_decide (mediaType = MediaTypeManifestList ∨ mediaType = v1_MediaTypeImageIndex).
Definition dbDeleteManifest (now : Z) (repoPath : string) (d : digest) : H unit :=
  r ← on_db (repositoryStore_FindByPath repoPath);
  match r with
  | None => fail (Dist (errors_New "repository not found in database"))
  | Some r =>
      m ← on_db (repositoryStore_FindManifestByDigest (rp_NamespaceID r) (rp_ID r) d);
      match m with
      | None => fail (Db ErrManifestNotFound)
      | Some m =>
          in_tx "failed to create database transaction" "failed to commit database transaction" (
            _ ← (if is_list_type (mf_MediaType m) then
                   mm ← stmt (manifestStore_References m);
                   match mm with
                   | [] => mret tt
                   | _ =>
                       _ ← stmt (gcManifestTaskStore_FindAndLockNBefore (rp_NamespaceID r) (rp_ID r) (mf_ID <$> mm)
                                   (now + manifestGCReviewWindow));
                       mret tt
                   end
                 else mret tt);
            found ← stmt (repositoryStore_DeleteManifest now (rp_NamespaceID r) (rp_ID r) d);
            if (found : bool) then mret tt else fail (Db ErrManifestNotFound))
      end
  end.

(** [appendManifestDeleteError]. *)
Definition delete_code (err : herr) : code :=
  match unwrap err with
  | Dist (ErrDigest ErrDigestUnsupported) | Dist (ErrDigest ErrDigestInvalidFormat) => ErrorCodeDigestInvalid
  | Dist ErrBlobUnknown | Db ErrManifestNotFound => ErrorCodeManifestUnknown
  | Dist ErrUnsupported => ErrorCodeUnsupported
  | Db ErrManifestReferencedInList => ErrorCodeManifestReferencedInList
  | _ => FromUnknownError err
  end.
(** An error that is appended as it is. *)
Definition raw {B} (err : herr) : reply B := Refused [match err with Coded c => Some c | _ => None end].
Fixpoint untag_all (name : string) (tags : list string) : GoM St error unit :=
  match tags with
  | [] => mret tt
  | tag :: tags => _ ← TagStore.Untag name tag; untag_all name tags
  end.
Definition DeleteManifest (imh : manifestHandler) (now : Z) : H (reply unit) :=
  let a := mh_app imh in
  let refused err := refuse (delete_code err) in
  let database : H (reply unit) :=
    if a_useDatabase a then
      if negb (a_deleteEnabled a) then mret (refuse ErrorCodeUnsupported)
      else or_refuse refused (dbDeleteManifest now (mh_name imh) (mh_Digest imh)) (λ _, mret (Answer 202 tt))
    else mret (Answer 202 tt) in
  if a_writeFSMetadata a then
    or_refuse refused (on_storage (Manifests.Delete (manifests_of imh) (mh_Digest imh))) (λ _,
    or_refuse raw (storage (TagStore.Lookup (mh_name imh)
        {| BlobStore.MediaType := ""; BlobStore.Size := 0; BlobStore.desc_Digest := mh_Digest imh |})) (λ tags,
    or_refuse raw (storage (untag_all (mh_name imh) tags)) (λ _, database)))
  else database.

End handlers.
End ManifestHandlers.
