(* ===== verification/PushProps.v ===== *)
(** * Pushing and pulling images

    What the requests for manifests do to a metadata database that nothing else
    works on at the same time: which images are stored, what is then found, and
    what is refused. *)

From S2P Require Import Prelude GoStd Digest Driver FileSystem Paths ObjectStore BlobStore ErrCode Database Tracking Datastore Transactions Repositories RepositoryTree RepositoryQueries OnlineGCProps Registry Api Manifests Handlers ManifestHandlers.

Module PushProps.
Import ErrCode Database Tracking Datastore Transactions Repositories RepositoryTree RepositoryQueries OnlineGCProps Registry Api Manifests Handlers ManifestHandlers.

Lemma fmap_mjoin {A B C} (f : B → C) (g : A → list B) l : f <$> mjoin (g <$> l) = mjoin ((λ x, f <$> g x) <$> l).
Proof. induction l as [|x l IH]; [done|]. cbn. rewrite fmap_app. by f_equal. Qed.

Section push.
Context {GD : GoDigest} {GDL : GoDigestLaws} {MC : ManifestCodec} {Co : Collation} {St : Type} {Drv : StorageDriver St}.
Context (bufs : nat → nat).
Implicit Types (w : world St) (imh : manifestHandler).

Lemma or_refuse_Ret {A B} (e : herr → reply B) (m : GoM (world St) herr A) k w a w' :
  m w = (Ret a, w') → or_refuse e m k w = k a w'.
Proof. intros Hm. unfold or_refuse, mbind, gom_bind, attempt. by rewrite Hm. Qed.
Lemma or_refuse_Fail {A B} (e : herr → reply B) (m : GoM (world St) herr A) k w err w' :
  m w = (Fail err, w') → or_refuse e m k w = (Ret (e err), w').
Proof. intros Hm. unfold or_refuse, mbind, gom_bind, attempt. by rewrite Hm. Qed.

(** ** The blobs of a repository *)

Lemma find_by_path_run w p : calm_world w → on_db (repositoryStore_FindByPath p) w = (Ret (repository_by_path p (w_db w)), w).
Proof. apply on_db_query. Qed.

(** The blob that a repository links, by its digest. *)
Definition blob_row_of (d : digest) (b : blob_row) : Blob :=
  {| blob_MediaType := b_media_type b; blob_Digest := d; blob_Size := b_size b |}.
Definition linked (D : db) (r : Repository) (d : digest) : option Blob :=
  match NewDigest d with
  | Ret x => (λ y, blob_row_of d y.2) <$> linked_blob r x D
  | _ => None
  end.
Lemma find_blob_tx r d x D :
  NewDigest d = Ret x → repositoryStore_FindBlob r d (ok_tx D) = (Ret (linked D r d), ok_tx D).
Proof.
  intros Hx. unfold repositoryStore_FindBlob, newDigest, linked, mbind, gom_bind, lift. rewrite Hx. cbn.
  unfold linked_blob. case_bool_decide; [|done]. destruct (blobs D !! x) as [b|]; [|done]. cbn.
  unfold scanFullBlob. cbn [fst snd]. rewrite (Parse_NewDigest _ _ Hx). done.
Qed.
Lemma find_blob_run w r d x :
  calm_world w → NewDigest d = Ret x → on_db (repositoryStore_FindBlob r d) w = (Ret (linked (w_db w) r d), w).
Proof.
  intros Hw Hx. rewrite (on_db_run _ w (Ret (linked (w_db w) r d)) (w_db w)); [|done|by eapply find_blob_tx].
  cbn. by rewrite with_db_same.
Qed.
Lemma stat_run w imh r d x :
  calm_world w → repository_by_path (mh_name imh) (w_db w) = Some r → NewDigest d = Ret x →
  db_Stat imh d w =
    (match linked (w_db w) r d with Some _ => Ret tt | None => Fail (Db (StorageError ErrBlobUnknown)) end, w).
Proof.
  intros Hw Hr Hx. unfold db_Stat, mbind, gom_bind.
  assert (RepositoryBlobService_Stat (mh_name imh) d (ok_tx (w_db w)) =
    (match linked (w_db w) r d with
     | Some b => Ret {| BlobStore.MediaType := blob_MediaType b; BlobStore.Size := blob_Size b; BlobStore.desc_Digest := blob_Digest b |}
     | None => Fail (StorageError ErrBlobUnknown)
     end, ok_tx (w_db w))) as Hs.
  { unfold RepositoryBlobService_Stat, mbind, gom_bind.
    change (repositoryStore_FindByPath (mh_name imh) (ok_tx (w_db w))) with (Ret (E := dberror) (repository_by_path (mh_name imh) (w_db w)), ok_tx (w_db w)).
    rewrite Hr. erewrite find_blob_tx by done. by destruct (linked _ _ _). }
  rewrite (on_db_run _ _ _ _ Hw Hs), with_db_same by done. by destruct (linked _ _ _).
Qed.

(** ** Validation *)

(** A reference to content of the registry that is not a manifest. *)
Definition plain (d : descriptor) : Prop :=
  d_URLs d = [] ∧ d_MediaType d ≠ schema2_MediaTypeForeignLayer ∧ d_MediaType d ≠ schema2_MediaTypeManifest ∧
  d_MediaType d ≠ schema1_MediaTypeManifest ∧ d_MediaType d ≠ v1_MediaTypeImageManifest ∧ ∃ x, NewDigest (d_Digest d) = Ret x.

(** The references that the repository does not link, and their errors. *)
Definition missing (D : db) (r : Repository) (ds : list descriptor) : list descriptor :=
  filter (λ d, linked D r (d_Digest d) = None) ds.
Definition unknown_blob (d : descriptor) : herr := Dist (ErrManifestBlobUnknown (d_Digest d)).

(** A check of the validators on plain references. *)
Definition checks (imh : manifestHandler) (check : descriptor → GoM (world St) herr (option herr)) : Prop :=
  ∀ d w, plain d → check d w = stat_error (db_Stat imh) d w.
Lemma schema2_checks imh urls : checks imh (schema2_check (db_Exists imh) (db_Stat imh) urls).
Proof.
  intros d w (Hu & H1 & H2 & H3 & _ & _). unfold schema2_check, forward. rewrite Hu, !bool_decide_false by tauto. done.
Qed.
Lemma oci_checks imh urls : checks imh (oci_check (db_Exists imh) (db_Stat imh) urls).
Proof.
  intros d w (Hu & _ & _ & _ & H4 & _). unfold oci_check, forward. rewrite Hu. cbn [forallb negb].
  case_bool_decide; [done|]. by rewrite bool_decide_false.
Qed.

Lemma stat_error_run w imh r d :
  calm_world w → repository_by_path (mh_name imh) (w_db w) = Some r → plain d →
  stat_error (db_Stat imh) d w =
    (Ret (match linked (w_db w) r (d_Digest d) with Some _ => None | None => Some (Db (StorageError ErrBlobUnknown)) end), w).
Proof.
  intros Hw Hr (_ & _ & _ & _ & _ & x & Hx). unfold stat_error, mbind, gom_bind, attempt. erewrite stat_run by done.
  by destruct (linked _ _ _).
Qed.
Lemma check_all_run w imh r check ds : ∀ errs,
  calm_world w → repository_by_path (mh_name imh) (w_db w) = Some r → checks imh check → Forall plain ds →
  check_all check ds errs w = (Ret (errs ++ (unknown_blob <$> missing (w_db w) r ds)), w).
Proof.
  intros errs Hw Hr Hc Hds. revert errs. induction Hds as [|d ds Hd _ IH]; intros errs; cbn [check_all].
  { by rewrite app_nil_r. }
  erewrite bind_Ret; [|rewrite Hc by done; by erewrite stat_error_run]. rewrite IH. unfold missing. rewrite filter_cons.
  destruct (linked (w_db w) r (d_Digest d)) as [b|]; cbn [reported].
  - rewrite decide_False, app_nil_r by done. done.
  - rewrite decide_True, fmap_cons by done. cbn. by rewrite <-app_assoc.
Qed.
Lemma validate_run w imh r check m :
  calm_world w → repository_by_path (mh_name imh) (w_db w) = Some r → checks imh check →
  v_SchemaVersion (im_Versioned m) = 2%Z → Forall plain (image_References m) →
  image_Validate false check m w =
    (match missing (w_db w) r (image_References m) with
     | [] => Ret tt
     | ds => Fail (Verification (unknown_blob <$> ds))
     end, w).
Proof.
  intros Hw Hr Hc Hv Hds. unfold image_Validate. rewrite Hv. cbn [negb Z.eqb Pos.eqb].
  erewrite bind_Ret; [|by eapply check_all_run]. by destruct (missing _ _ _).
Qed.

(** ** What a push is *)

(** The registry stores its metadata in the database only, is not a cache, and
    has no policy for the classes of images. *)
Definition database_only (a : App) : Prop :=
  a_useDatabase a = true ∧ a_writeFSMetadata a = false ∧ a_isCache a = false ∧ a_classes a = [].
(** The request puts the image [m] by a tag, or by its digest. *)
Record pushes imh (contentType : string) (body : bytes) (m : Image) (dgst : digest) : Prop := {
  ps_app : database_only (mh_app imh);
  ps_size : (Z.of_nat (String.length body) ≤ maxManifestBodySize)%Z;
  ps_manifest : UnmarshalManifest contentType body = Some (Schema2 m body, dgst) ∨
                UnmarshalManifest contentType body = Some (OCI m body, dgst);
  ps_reference : mh_Digest imh = dgst ∧ dgst ≠ "" ∨ mh_Digest imh = "" ∧ mh_Tag imh ≠ "";
  ps_version : v_SchemaVersion (im_Versioned m) = 2%Z;
  ps_plain : Forall plain (image_References m);
}.

(** The request without its guards. *)
Lemma put_run imh now contentType body m dgst w :
  pushes imh contentType body m dgst → ∃ mfst,
    (mfst = Schema2 m body ∨ mfst = OCI m body) ∧
    PutManifest bufs imh now contentType (Some body) w =
      or_refuse put_error (dbPutManifest bufs (with_digest imh dgst) now mfst body) (λ _,
        if negb (bool_decide (mh_Tag imh = ""))
        then tag_in_database bufs (with_digest imh dgst) now mfst body (mret (Answer 201%Z dgst))
        else mret (Answer 201%Z dgst)) w.
Proof.
  intros [(Ha1 & Ha2 & Ha3 & Ha4) Hs Hm Href _ _]. unfold PutManifest, applyResourcePolicy.
  rewrite (proj2 (Z.ltb_ge _ _)) by done.
  assert ((negb (bool_decide (mh_Digest imh = "")) && negb (bool_decide (dgst = mh_Digest imh))) = false) as Hd.
  { destruct Href as [[-> _]|[-> _]]; [by rewrite (bool_decide_true (dgst = dgst)), andb_false_r|done]. }
  assert ((bool_decide (mh_Digest imh = "") && negb (negb (bool_decide (mh_Tag imh = "")))) = false) as Ht.
  { destruct Href as [[-> Hne]|[_ Hne]]; [by rewrite bool_decide_false|rewrite (bool_decide_false (mh_Tag imh = "")) by done].
    by rewrite andb_false_r. }
  destruct Hm as [-> | ->]; [exists (Schema2 m body)|exists (OCI m body)]; (split; [by auto|]);
    rewrite Hd, Ht; cbn [with_digest mh_app mh_name mh_Tag mh_Digest]; rewrite Ha4, Ha1, Ha2;
    (erewrite or_refuse_Ret by done); by destruct (bool_decide (mh_Tag imh = "")).
Qed.

(** ** What is refused *)

Lemma db_put_image imh now mfst m body :
  mfst = Schema2 m body ∨ mfst = OCI m body → a_isCache (mh_app imh) = false →
  ∃ check, checks imh check ∧
    dbPutManifest bufs imh now mfst body = (_ ← image_Validate false check m; dbPutManifestOCIOrSchema2 bufs imh now m body).
Proof.
  intros [-> | ->] Ha; cbn [dbPutManifest]; unfold dbPutManifestSchema2, dbPutManifestOCI; rewrite Ha; eexists.
  - by split; [apply schema2_checks|].
  - by split; [apply oci_checks|].
Qed.

Lemma stat_no_repository w imh d :
  calm_world w → repository_by_path (mh_name imh) (w_db w) = None →
  stat_error (db_Stat imh) d w = (Ret (Some (Db (Errorf "unable to find repository in database"))), w).
Proof.
  intros Hw Hr. unfold stat_error, db_Stat, mbind, gom_bind, attempt.
  rewrite (on_db_run _ w (Fail (Errorf "unable to find repository in database")) (w_db w)); [|done|].
  - cbn. by rewrite with_db_same.
  - unfold RepositoryBlobService_Stat, mbind, gom_bind.
    change (repositoryStore_FindByPath (mh_name imh) (ok_tx (w_db w))) with (Ret (E := dberror) (repository_by_path (mh_name imh) (w_db w)), ok_tx (w_db w)).
    by rewrite Hr.
Qed.
Lemma check_all_no_repository w imh check ds : ∀ errs,
  calm_world w → repository_by_path (mh_name imh) (w_db w) = None → checks imh check → Forall plain ds →
  check_all check ds errs w =
    (Ret (errs ++ mjoin ((λ d, [Db (Errorf "unable to find repository in database"); unknown_blob d]) <$> ds)), w).
Proof.
  intros errs Hw Hr Hc Hds. revert errs. induction Hds as [|d ds Hd _ IH]; intros errs; cbn [check_all].
  { by rewrite app_nil_r. }
  erewrite bind_Ret; [|rewrite Hc by done; by rewrite stat_no_repository]. rewrite IH. cbn. by rewrite <-app_assoc.
Qed.

(** The codes that a push is refused with when references are missing. *)
Definition missing_codes (D : db) (name : string) (ds : list descriptor) : list (option code) :=
  match repository_by_path name D with
  | Some r => (λ _, Some ErrorCodeManifestBlobUnknown) <$> missing D r ds
  | None => mjoin ((λ _, [Some ErrorCodeUnknown; Some ErrorCodeManifestBlobUnknown]) <$> ds)
  end.
Lemma put_error_verification {B} errs : put_error (B := B) (Verification errs) = Refused ((λ err, Some (verification_code err)) <$> errs).
Proof. done. Qed.

(** C6: In a registry that keeps its metadata in the database alone, a push of an
    image with plain references, of which the configuration or a layer is not
    linked to the repository, stores nothing.  It is answered with status 400 and
    one error for each of the missing blobs, in their order, if the repository
    exists; if it does not exist, with status 500.  A reference is plain when it
    has no URLs, is neither a foreign layer nor a manifest, and has a digest that
    the database can store. *)
Theorem push_missing_blobs imh now contentType body m dgst w :
  pushes imh contentType body m dgst → calm_world w →
  missing_codes (w_db w) (mh_name imh) (image_References m) ≠ [] →
  let reply := Refused (missing_codes (w_db w) (mh_name imh) (image_References m)) in
  PutManifest bufs imh now contentType (Some body) w = (Ret reply, w) ∧
  status reply = if repository_by_path (mh_name imh) (w_db w) is Some _ then 400%Z else 500%Z.
Proof.
  intros Hp Hw Hne. destruct (put_run imh now contentType body m dgst w Hp) as (mfst & Hm & ->). cbn zeta.
  destruct (db_put_image (with_digest imh dgst) now mfst m body Hm) as (check & Hc & ->); [apply Hp|].
  unfold missing_codes in *. destruct (repository_by_path (mh_name imh) (w_db w)) as [r|] eqn:Hr.
  - pose proof (validate_run w (with_digest imh dgst) r check m Hw Hr Hc (ps_version _ _ _ _ _ Hp) (ps_plain _ _ _ _ _ Hp)) as Hv.
    destruct (missing _ _ _) as [|d ds]; [done|]. split; [|done].
    rewrite (or_refuse_Fail _ _ _ _ _ _ (bind_Fail _ _ _ _ _ Hv)), put_error_verification, <-list_fmap_compose. done.
  - split; [|done]. erewrite or_refuse_Fail.
    2: { apply bind_Fail. unfold image_Validate. rewrite (ps_version _ _ _ _ _ Hp). cbn [negb Z.eqb Pos.eqb].
         erewrite bind_Ret; [|by eapply check_all_no_repository; [|exact Hr|..]; try apply Hp].
         reflexivity. }
    by rewrite put_error_verification, app_nil_l, fmap_mjoin.
Qed.

End push.
End PushProps.
