(* ===== verification/PushStore.v ===== *)
(** * Storing an image in the database

    The calls of the manifest and tag stores by which a push stores an image:
    the statements that insert the manifest, its layers and its tag succeed, and
    change nothing else of what the image consists of. *)

From S2P Require Import Prelude GoStd Digest Driver Database Tracking Datastore Transactions Repositories RepositoryTree RepositoryQueries OnlineGCProps Registry.

Module PushStore.
Import Database Tracking Datastore Transactions Repositories RepositoryTree RepositoryQueries OnlineGCProps Registry.

(** What the statements of a push leave as it is: the repositories, the blobs,
    their links and reviews, the media types and the lists. *)
Record frame (D D' : db) : Prop := {
  fr_namespaces : top_level_namespaces D' = top_level_namespaces D;
  fr_repositories : repositories D' = repositories D;
  fr_blobs : blobs D' = blobs D;
  fr_links : repository_blobs D' = repository_blobs D;
  fr_types : media_types D' = media_types D;
  fr_references : manifest_references D' = manifest_references D;
  fr_reviews : gc_blob_review_queue D' = gc_blob_review_queue D;
  fr_defaults : gc_review_after_defaults D' = gc_review_after_defaults D;
}.
Lemma frame_refl D : frame D D.
Proof. done. Qed.
Lemma frame_trans D1 D2 D3 : frame D1 D2 → frame D2 D3 → frame D1 D3.
Proof. intros [] []. split; congruence. Qed.

(** ** The statements *)

Lemma insert_manifest_run now n r m D :
  inv D → is_Some (repositories D !! (n, r)) →
  (∀ k m', manifests D !! k = Some m' → k.1 = (n, r) → m_digest m' ≠ m_digest m) →
  (∀ d, m_configuration_blob_digest m = Some d → is_Some (blobs D !! d)) →
  ∃ D', insert_manifest now n r m D = Ret (manifests_id_seq D, D') ∧ frame D D' ∧
    manifests D !! (n, r, manifests_id_seq D) = None ∧
    manifests D' = <[(n, r, manifests_id_seq D) := m]> (manifests D) ∧ layers D' = layers D ∧ tags D' = tags D.
Proof.
  intros H [x Hr] Hu Hc. unfold insert_manifest. rewrite bool_decide_false; cycle 1.
  { intros (k & m' & Hk & He & Hd). by eapply Hu. }
  rewrite bool_decide_false by (by rewrite Hr).
  assert (match m_configuration_blob_digest m with Some d => bool_decide (blobs D !! d = None) | None => false end = false) as ->.
  { destruct (m_configuration_blob_digest m) as [d|]; [|done]. apply bool_decide_eq_false. destruct (Hc d) as [? ->]; done. }
  set (i := manifests_id_seq D). assert (manifests D !! (n, r, i) = None) as Hfresh.
  { destruct (manifests D !! (n, r, i)) eqn:Hl; [|done]. apply (seq_manifest D H) in Hl. cbn in Hl. lia. }
  unfold gc_track_manifest_uploads. cbn [gc_manifest_review_queue set_manifests_id_seq set_manifests].
  assert (gc_manifest_review_queue D !! (n, r, i) = None) as ->.
  { apply eq_None_not_Some. intros [y Hy]%(fk_review D H). by rewrite Hfresh in Hy. }
  eexists. split; [reflexivity|]. unfold gc_track_configuration_blobs. by repeat case_match.
Qed.

(** A layer of the manifest [k] with the digest [d]. *)
Definition layer_of (D : db) (k : row_key) (d : dbdigest) : Prop :=
  ∃ j l, layers D !! (k.1, j) = Some l ∧ l_manifest_id l = k.2 ∧ l_digest l = d.

Lemma insert_layer_run n r i d D :
  inv D → is_Some (manifests D !! (n, r, i)) → is_Some (blobs D !! d) →
  ∃ D', insert_layer n r i d D = Ret (tt, D') ∧ frame D D' ∧ manifests D' = manifests D ∧ tags D' = tags D ∧
    ∀ k d', layer_of D' k d' ↔ layer_of D k d' ∨ k = (n, r, i) ∧ d' = d.
Proof.
  intros H [m Hm] [b Hb]. unfold insert_layer. case_bool_decide as He.
  { exists D. split_and!; [done..|]. intros k d'. split; [by left|]. intros [?|[-> ->]]; [done|].
    destruct He as ([nr j] & l & Hl & Hk & Hi & Hd). cbn in Hk. subst nr. by exists j, l. }
  rewrite Hm, Hb. set (j := layers_id_seq D). assert (∀ nr, layers D !! (nr, j) = None) as Hfresh.
  { intros nr. destruct (layers D !! (nr, j)) eqn:Hl; [|done]. apply (seq_layer D H) in Hl. cbn in Hl. lia. }
  eexists. split; [reflexivity|].
  assert (∀ D1, layers D1 = <[(n, r, j):={| l_manifest_id := i; l_digest := d |}]> (layers D) →
    ∀ k d', layer_of D1 k d' ↔ layer_of D k d' ∨ k = (n, r, i) ∧ d' = d) as Hl.
  { intros D1 HD1 [nr i'] d'. unfold layer_of. rewrite HD1. cbn [fst snd]. setoid_rewrite lookup_insert_Some. split.
    - intros (j' & l & [[[= <- <-] <-]|[_ Hl]] & Hi & Hd); cbn in *; [right; by subst|left; by exists j', l].
    - intros [(j' & l & Hl & Hi & Hd)|[[= -> ->] ->]].
      + exists j', l. split_and!; [|done..]. right. split; [|done]. intros [= <- <-]. by rewrite Hfresh in Hl.
      + exists j. eexists. split; [by left|]. done. }
  unfold gc_track_layer_blobs. cbn [gc_blobs_layers set_layers_id_seq set_layers].
  destruct (gc_blobs_layers D !! (d, j)); (split; [done|split; [done|split; [done|by apply Hl]]]).
Qed.

Lemma upsert_tag_run now n r i t D :
  inv D → too_long t = false → is_Some (manifests D !! (n, r, i)) →
  ∃ D', upsert_tag now n r i t D = Ret (tt, D') ∧ frame D D' ∧ manifests D' = manifests D ∧ layers D' = layers D ∧
    tags D' = <[(n, r, t) := i]> (tags D).
Proof.
  intros H Ht [m Hm]. unfold upsert_tag. rewrite Ht. destruct (tags D !! (n, r, t)) as [old|] eqn:Ho.
  - case_bool_decide as He; [subst; exists D; split_and!; try done; by rewrite insert_id|].
    rewrite Hm. unfold gc_track_switched_tags. cbn [manifests set_tags]. destruct (fk_tag D H _ _ Ho) as [m' Hm'].
    cbn in Hm'. rewrite Hm'. by eexists.
  - rewrite Hm. by eexists.
Qed.

(** ** The calls *)

Section calls.
Context {GD : GoDigest} {GDL : GoDigestLaws}.

Lemma mapMediaType_ok t D : t ∈ media_types D → mapMediaType t (ok_tx D) = (Ret tt, ok_tx D).
Proof.
  intros Ht. unfold mapMediaType. erewrite bind_Ret; [|by apply errorf_ok, exec_ok]. by rewrite bool_decide_true.
Qed.
(** A call that keeps the invariant keeps it. *)
Lemma keeps_ok {A} I (m : GoM tx dberror A) D o D' : keeps I m → I D → m (ok_tx D) = (o, ok_tx D') → I D'.
Proof. intros Hk HD Hm. specialize (Hk (ok_tx D) HD). unfold wp in Hk. by rewrite Hm in Hk. Qed.
Lemma keeps_ignored {A} I (m : GoM tx dberror A) : keeps I (ignore m) → keeps I m.
Proof.
  intros Hk t Ht. specialize (Hk t Ht). unfold ignore, wp, mbind, gom_bind in *. by destruct (m t) as [[a|e|] t'].
Qed.

(** The row of a manifest. *)
Definition manifest_row_of (m : Manifest) (x : dbdigest) (c : option dbdigest) : manifest_row :=
  {| m_schema_version := mf_SchemaVersion m; m_media_type := mf_MediaType m; m_digest := x; m_payload := mf_Payload m;
     m_configuration_media_type := cfg_MediaType <$> mf_Configuration m; m_configuration_blob_digest := c;
     m_configuration_payload := cfg_Payload <$> mf_Configuration m |}.

Lemma manifestStore_Create_ok now m cfg x c D :
  good D → mf_Configuration m = Some cfg → NewDigest (mf_Digest m) = Ret x → NewDigest (cfg_Digest cfg) = Ret c →
  mf_MediaType m ∈ media_types D → cfg_MediaType cfg ∈ media_types D → is_Some (blobs D !! c) →
  is_Some (repositories D !! (mf_NamespaceID m, mf_RepositoryID m)) →
  (∀ k m', manifests D !! k = Some m' → k.1 = (mf_NamespaceID m, mf_RepositoryID m) → m_digest m' ≠ x) →
  ∃ D' i, manifestStore_Create now m (ok_tx D) = (Ret i, ok_tx D') ∧ good D' ∧ frame D D' ∧
    let k := (mf_NamespaceID m, mf_RepositoryID m, i) in
    manifests D !! k = None ∧ manifests D' = <[k := manifest_row_of m x (Some c)]> (manifests D) ∧
    layers D' = layers D ∧ tags D' = tags D.
Proof.
  intros H Hcfg Hx Hc Ht Htc Hb Hr Hu.
  destruct (insert_manifest_run now (mf_NamespaceID m) (mf_RepositoryID m) (manifest_row_of m x (Some c)) D (proj1 H) Hr)
    as (D' & Hrun & Hf & Hn & Hm & Hl & Hts); [done|by intros d [= <-]|].
  assert (manifestStore_Create now m (ok_tx D) = (Ret (manifests_id_seq D), ok_tx D')) as Hcreate.
  { unfold manifestStore_Create. erewrite bind_Ret by by apply newDigest_ok. erewrite bind_Ret by by apply mapMediaType_ok.
    rewrite Hcfg. erewrite bind_Ret; cycle 1.
    { erewrite bind_Ret by by apply newDigest_ok. erewrite bind_Ret by by apply mapMediaType_ok. done. }
    apply errorf_ok, exec_ok. rewrite <-Hrun. unfold manifest_row_of. by rewrite Hcfg. }
  exists D', (manifests_id_seq D). split; [done|]. split; [|done].
  eapply (keeps_ok good); [|exact H|exact Hcreate]. apply keeps_ignored, (run_op_keeps (CreateManifest now m)).
Qed.

Lemma manifestStore_AssociateLayerBlob_ok m b x D :
  good D → NewDigest (blob_Digest b) = Ret x → blob_MediaType b ∈ media_types D →
  is_Some (manifests D !! (mf_NamespaceID m, mf_RepositoryID m, mf_ID m)) → is_Some (blobs D !! x) →
  ∃ D', manifestStore_AssociateLayerBlob m b (ok_tx D) = (Ret tt, ok_tx D') ∧ good D' ∧ frame D D' ∧
    manifests D' = manifests D ∧ tags D' = tags D ∧
    ∀ k d, layer_of D' k d ↔ layer_of D k d ∨ k = (mf_NamespaceID m, mf_RepositoryID m, mf_ID m) ∧ d = x.
Proof.
  intros H Hx Ht Hm Hb.
  destruct (insert_layer_run (mf_NamespaceID m) (mf_RepositoryID m) (mf_ID m) x D (proj1 H) Hm Hb) as (D' & Hrun & Hf & Hl).
  assert (manifestStore_AssociateLayerBlob m b (ok_tx D) = (Ret tt, ok_tx D')) as Hcall.
  { unfold manifestStore_AssociateLayerBlob. erewrite bind_Ret by by apply newDigest_ok.
    erewrite bind_Ret by by apply mapMediaType_ok. by apply errorf_ok, exec_ok. }
  exists D'. split; [done|]. split; [|done].
  eapply (keeps_ok good); [|exact H|exact Hcall]. apply (run_op_keeps (AssociateLayerBlob m b)).
Qed.

Lemma tagStore_CreateOrUpdate_ok now n r i t D :
  good D → too_long t = false → is_Some (manifests D !! (n, r, i)) →
  ∃ D', tagStore_CreateOrUpdate now n r i t (ok_tx D) = (Ret tt, ok_tx D') ∧ good D' ∧ frame D D' ∧
    manifests D' = manifests D ∧ layers D' = layers D ∧ tags D' = <[(n, r, t) := i]> (tags D).
Proof.
  intros H Ht Hm. destruct (upsert_tag_run now n r i t D (proj1 H) Ht Hm) as (D' & Hrun & Hf).
  assert (tagStore_CreateOrUpdate now n r i t (ok_tx D) = (Ret tt, ok_tx D')) as Hcall.
  { unfold tagStore_CreateOrUpdate, mbind, gom_bind, attempt. by rewrite (exec_ok _ _ _ _ Hrun). }
  exists D'. split; [done|]. split; [|done].
  eapply (keeps_ok good); [|exact H|exact Hcall]. apply (run_op_keeps (CreateOrUpdateTag now n r i t)).
Qed.

(** The repository of a path that exists is found, and nothing is added. *)
Lemma repositoryStore_CreateOrFindByPath_ok D r :
  good D → tree D → is_repository D r → too_long (rp_Path r) = false →
  ∃ D', repositoryStore_CreateOrFindByPath (rp_Path r) (ok_tx D) = (Ret r, ok_tx D') ∧ good D' ∧ tree D' ∧ frame D D' ∧
    manifests D' = manifests D ∧ layers D' = layers D ∧ tags D' = tags D.
Proof.
  intros H HT Hr Hl. destruct (path_split D r HT Hr) as (ws & Hg & Hne & Hp & _). rewrite Hp in *.
  destruct ws as [|w ws _] using rev_ind; [done|].
  destruct (does_run _ _ _ _ (repositoryStore_CreateOrFindByPath_does ws w D never HT Hg ltac:(congruence)))
    as (r' & D' & Hrun & Hgr & Hr' & Hp').
  assert (repositories D' = repositories D) as Hrepos.
  { apply (grown_full (head (ws ++ [w])) (prefixes (ws ++ [w]))); [done|]. intros p (us & vs & He & Hu & ->)%elem_of_prefixes.
    rewrite He in Hg, Hp. by eapply prefix_exists. }
  assert (r' = r) as -> by (apply (is_repository_path D); [done|unfold is_repository in *; by rewrite <-Hrepos|done|congruence]).
  exists D'. split; [done|]. pose proof (gr_content _ _ _ _ Hgr) as Hc. split_and!.
  - eapply (keeps_ok good); [|exact H|exact Hrun].
    apply keeps_ignored, (run_op_keeps (CreateOrFindRepositoryByPath (path_of (ws ++ [w])))).
  - apply Hgr.
  - split; [|done|by apply (f_equal blobs) in Hc|by apply (f_equal repository_blobs) in Hc|by apply (f_equal media_types) in Hc|
      by apply (f_equal manifest_references) in Hc|by apply (f_equal gc_blob_review_queue) in Hc|
      by apply (f_equal gc_review_after_defaults) in Hc].
    eapply grown_full_namespaces; [done|]. intros x Hx.
    destruct (is_repository_placed D r HT Hr) as (us & u & Hgu & Hpu & _ & Hh & _).
    exists (rp_NamespaceID r). rewrite Hh, <-Hx. f_equal.
    apply path_inj; [done|done|by destruct us|by destruct ws|congruence].
  - by apply (f_equal manifests) in Hc.
  - by apply (f_equal layers) in Hc.
  - by apply (f_equal tags) in Hc.
Qed.
End calls.

End PushStore.
