(* ===== verification/PushPull.v ===== *)
(** * An image that is pushed can be pulled

    The push of an image of which the blobs are there stores its manifest, its
    layers and its tag, and a pull then returns what was pushed. *)

From S2P Require Import Prelude GoStd Digest Driver FileSystem Paths ObjectStore BlobStore ErrCode Database Tracking Datastore Transactions Repositories RepositoryTree RepositoryQueries StoreOps OnlineGCProps Registry Rows Api Manifests Handlers ManifestHandlers PushProps PushStore.

Module PushPull.
Import ErrCode Database Tracking Datastore Transactions Repositories RepositoryTree RepositoryQueries StoreOps OnlineGCProps Registry Rows Api Manifests Handlers ManifestHandlers PushProps PushStore.

Section pushpull.
Context {GD : GoDigest} {GDL : GoDigestLaws} {MC : ManifestCodec} {Co : Collation} {St : Type} {Drv : StorageDriver St}.
Context (bufs : nat → nat).
Implicit Types (w : world St) (imh : manifestHandler).

(** ** Steps of a request *)

Lemma on_db_ok {A} (m : GoM tx dberror A) w a D' :
  calm_world w → m (ok_tx (w_db w)) = (Ret a, ok_tx D') → on_db m w = (Ret a, with_db D' w).
Proof. intros Hw Hm. by rewrite (on_db_run _ _ _ _ Hw Hm). Qed.
Lemma on_db_read {A} (m : GoM tx dberror A) w a :
  calm_world w → m (ok_tx (w_db w)) = (Ret a, ok_tx (w_db w)) → on_db m w = (Ret a, w).
Proof. intros Hw Hm. by rewrite (on_db_ok _ _ _ _ Hw Hm), with_db_same. Qed.
Lemma in_tx_ok {A} b c (m : GoM tx herr A) w a D' :
  calm_world w → m (ok_tx (w_db w)) = (Ret a, ok_tx D') → in_tx b c m w = (Ret a, with_db D' w).
Proof.
  intros Hw Hm. unfold in_tx. rewrite calm_interfere by done. destruct Hw as [-> _]. cbn.
  change {| tx_db := w_db w; tx_failed := false; tx_faults := [] |} with (ok_tx (w_db w)). by rewrite Hm.
Qed.
Lemma as_herr_ok {S E A} (f : E → herr) (m : GoM S E A) s a s' : m s = (Ret a, s') → as_herr f m s = (Ret a, s').
Proof. intros Hm. unfold as_herr. by rewrite Hm. Qed.

Lemma frame_by_path D D' p : frame D D' → repository_by_path p D' = repository_by_path p D.
Proof. intros Hf. unfold repository_by_path, all_repositories. by rewrite (fr_repositories _ _ Hf). Qed.
Lemma frame_linked D D' r d : frame D D' → linked D' r d = linked D r d.
Proof. intros Hf. unfold linked, linked_blob. by rewrite (fr_links _ _ Hf), (fr_blobs _ _ Hf). Qed.

Lemma linked_Some D r d b :
  linked D r d = Some b → blob_Digest b = d ∧ ∃ x, NewDigest d = Ret x ∧ is_Some (blobs D !! x).
Proof.
  unfold linked, linked_blob. destruct (NewDigest d) as [x|e|]; [|done..]. case_bool_decide; [|done].
  destruct (blobs D !! x) as [y|] eqn:Hy; [|done]. intros [= <-]. split; [done|]. exists x. by rewrite Hy.
Qed.
Lemma find_repository_blob_run w p r d b :
  calm_world w → repository_by_path p (w_db w) = Some r → linked (w_db w) r d = Some b →
  dbFindRepositoryBlob d p w = (Ret b, w).
Proof.
  intros Hw Hr Hb. destruct (linked_Some _ _ _ _ Hb) as (_ & x & Hx & _). unfold dbFindRepositoryBlob.
  erewrite bind_Ret by by apply find_by_path_run. rewrite Hr. erewrite bind_Ret by by eapply find_blob_run. by rewrite Hb.
Qed.

(** ** The layers *)

(** The blobs of the references of an image are linked, with known types. *)
Definition available (D : db) (r : Repository) (ds : list descriptor) : Prop :=
  Forall (λ d, ∃ b, linked D r (d_Digest d) = Some b ∧ blob_MediaType b ∈ media_types D) ds.
Lemma frame_available D D' r ds : frame D D' → available D r ds → available D' r ds.
Proof.
  intros Hf Ha. eapply Forall_impl; [exact Ha|]. intros d (b & Hb & Ht). exists b. by rewrite (frame_linked _ _ _ _ Hf), (fr_types _ _ Hf).
Qed.

Lemma associate_layers_run m p r ls : ∀ w,
  calm_world w → good (w_db w) → repository_by_path p (w_db w) = Some r → available (w_db w) r ls →
  is_Some (manifests (w_db w) !! (mf_NamespaceID m, mf_RepositoryID m, mf_ID m)) →
  ∃ D', associate_layers m p ls w = (Ret tt, with_db D' w) ∧ good D' ∧ frame (w_db w) D' ∧
    manifests D' = manifests (w_db w) ∧ tags D' = tags (w_db w) ∧
    ∀ k d, layer_of D' k d ↔ layer_of (w_db w) k d ∨
      k = (mf_NamespaceID m, mf_RepositoryID m, mf_ID m) ∧ ∃ l, l ∈ ls ∧ NewDigest (d_Digest l) = Ret d.
Proof.
  induction ls as [|l ls IH]; intros w Hw H Hr Ha Hm; cbn [associate_layers].
  { exists (w_db w). rewrite with_db_same by done. split_and!; [done..|]. intros k d. split; [by left|].
    intros [?|(_ & l & Hl & _)]; [done|set_solver]. }
  apply Forall_cons in Ha as [(b & Hb & Ht) Ha].
  erewrite bind_Ret by by eapply find_repository_blob_run.
  destruct (linked_Some _ _ _ _ Hb) as (Hbd & x & Hx & Hbx).
  destruct (manifestStore_AssociateLayerBlob_ok m b x (w_db w) H) as (D1 & Hrun & H1 & Hf1 & Hm1 & Ht1 & Hl1); [by rewrite Hbd|done..|].
  erewrite bind_Ret by by apply on_db_ok.
  destruct (IH (with_db D1 w)) as (D2 & Hrun2 & H2 & Hf2 & Hm2 & Ht2 & Hl2); cbn [w_db with_db set_db] in *.
  - by apply calm_with_db.
  - done.
  - by rewrite (frame_by_path _ _ _ Hf1).
  - by eapply frame_available.
  - by rewrite Hm1.
  - exists D2. split; [done|]. split; [done|]. split; [by eapply frame_trans|]. split; [congruence|]. split; [congruence|].
    intros k d. rewrite Hl2, Hl1. split.
    + intros [[?|[-> ->]]|(-> & l' & Hl' & Hd)]; [by left|right..]; (split; [done|]).
      * exists l. split; [left|done].
      * exists l'. split; [by right|done].
    + intros [?|(-> & l' & [->|Hl']%elem_of_cons & Hd)]; [by left; left| |].
      * left. right. rewrite Hx in Hd. by injection Hd.
      * right. split; [done|]. by exists l'.
Qed.

(** ** The manifest *)

Definition storage_Get (dgst : digest) : GoM (world St) herr bytes := on_storage (as_herr Dist (BlobStore.Get bufs dgst)).
Lemma storage_Get_run w dgst c :
  calm_world w → BlobStore.Get bufs dgst (w_st w) = (Ret c, w_st w) → storage_Get dgst w = (Ret c, w).
Proof.
  intros Hw Hc. unfold storage_Get, on_storage. rewrite calm_interfere by done. unfold as_herr. rewrite Hc. by destruct w.
Qed.

(** ** The push of an image *)

(** The repository has the blobs of the image, and no manifest with its digest
    yet; the types are known, and the configuration can be read. *)
Record complete (D : db) (s : St) (name : string) (m : Image) (dgst : digest) (r : Repository) (x : dbdigest) (p : bytes) :
    Prop := {
  cm_repository : repository_by_path name D = Some r;
  cm_name : too_long name = false;
  cm_blobs : available D r (image_References m);
  cm_type : v_MediaType (im_Versioned m) ∈ media_types D;
  cm_config : BlobStore.Get bufs (d_Digest (im_Config m)) s = (Ret p, s);
  cm_digest : NewDigest dgst = Ret x;
  cm_new : no_manifest D r x;
}.

(** The row of an image. *)
Record image_row (m : Image) (payload : bytes) (x : dbdigest) (p : bytes) (row : manifest_row) : Prop := {
  ir_digest : m_digest row = x;
  ir_version : m_schema_version row = v_SchemaVersion (im_Versioned m);
  ir_type : m_media_type row = v_MediaType (im_Versioned m);
  ir_payload : m_payload row = payload;
  ir_config : ∃ c, NewDigest (d_Digest (im_Config m)) = Ret c ∧ m_configuration_blob_digest row = Some c;
  ir_config_payload : m_configuration_payload row = Some p;
}.
Lemma image_row_readable m payload x p row dgst : NewDigest dgst = Ret x → image_row m payload x p row → readable dgst row.
Proof.
  intros Hx [<- _ _ _ (c & Hc & Hrc) Hp]. split; [done|]. rewrite Hrc, Hp. split; [|done].
  exists (d_Digest (im_Config m)). by apply Parse_NewDigest.
Qed.

(** The image is stored under a new key with exactly its layers, and what else
    the database holds of manifests is the same. *)
Record stored (D D' : db) (k : row_key) (row : manifest_row) (ls : list descriptor) : Prop := {
  sd_frame : frame D D';
  sd_new : manifests D !! k = None;
  sd_manifests : manifests D' = <[k := row]> (manifests D);
  sd_layers : ∀ d, layer_of D' k d ↔ ∃ l, l ∈ ls ∧ NewDigest (d_Digest l) = Ret d;
  sd_others : ∀ k' d, k' ≠ k → layer_of D' k' d ↔ layer_of D k' d;
}.
Lemma layer_of_manifest D k d : good D → layer_of D k d → is_Some (manifests D !! k).
Proof. intros [H _] (j & l & Hl & Hi & _). apply (fk_layer D H) in Hl as [Hm _]. cbn in Hm. rewrite Hi in Hm. by destruct k. Qed.

Lemma put_image_run imh now m payload r x p w :
  calm_world w → good (w_db w) → tree (w_db w) → complete (w_db w) (w_st w) (mh_name imh) m (mh_Digest imh) r x p →
  ∃ D' i row, dbPutManifestOCIOrSchema2 bufs imh now m payload w = (Ret tt, with_db D' w) ∧ good D' ∧
    stored (w_db w) D' (rp_NamespaceID r, rp_ID r, i) row (im_Layers m) ∧ tags D' = tags (w_db w) ∧ image_row m payload x p row.
Proof.
  intros Hw H HT [Hr Hn Hb Ht Hc Hx Hnew]. apply Forall_cons in Hb as [(b & Hb & Hbt) Hls].
  pose proof Hr as [Hir Hp]%by_path_Some; [|done].
  destruct (repositoryStore_CreateOrFindByPath_ok (w_db w) r) as (D1 & Hrun1 & H1 & HT1 & Hf1 & Hm1 & Hl1 & Ht1); [done..|by rewrite Hp|].
  set (w1 := with_db D1 w). assert (calm_world w1) as Hw1 by by apply calm_with_db.
  unfold dbPutManifestOCIOrSchema2. rewrite <-Hp in Hr |- *. erewrite bind_Ret by by apply on_db_ok.
  assert (repository_by_path (rp_Path r) D1 = Some r) as Hr1 by by rewrite (frame_by_path _ _ _ Hf1).
  assert (linked D1 r (d_Digest (im_Config m)) = Some b) as Hb1 by by rewrite (frame_linked _ _ _ _ Hf1).
  fold w1. erewrite bind_Ret by by eapply find_repository_blob_run.
  destruct (linked_Some _ _ _ _ Hb1) as (Hbd & c & Hcd & Hbc). rewrite Hbd.
  erewrite bind_Ret by by apply (storage_Get_run w1).
  erewrite bind_Ret by by apply on_db_read; [|eapply find_manifest_None; [done|unfold no_manifest; cbn; by rewrite Hm1]].
  cbn zeta.
  match goal with |- context [manifestStore_Create now ?y] => set (row := y) end.
  destruct (manifestStore_Create_ok now row _ x c D1 H1 eq_refl Hx Hcd) as (D2 & i & Hrun2 & H2 & Hf2 & Hk & Hm2 & Hl2 & Ht2).
  { by rewrite (fr_types _ _ Hf1). }
  { by rewrite (fr_types _ _ Hf1). }
  { done. }
  { cbn. rewrite (fr_repositories _ _ Hf1). by rewrite Hir. }
  { cbn. by rewrite Hm1. }
  erewrite bind_Ret by by apply on_db_ok. set (w2 := with_db D2 w1).
  destruct (associate_layers_run (with_id row i) (rp_Path r) r (im_Layers m) w2) as (D3 & Hrun3 & H3 & Hf3 & Hm3 & Ht3 & Hl3).
  { by apply calm_with_db. }
  { done. }
  { cbn. by rewrite (frame_by_path _ _ _ Hf2). }
  { cbn. by eapply frame_available, frame_available. }
  { cbn. rewrite Hm2. cbn. by rewrite lookup_insert_eq. }
  exists D3, i, (manifest_row_of row x (Some c)). split; [exact Hrun3|]. split; [done|].
  cbn in Hk, Hm2, Hm3, Hl3, Ht3, Hf3.
  split; [|split; [congruence|split; [done..|by exists c|done]]].
  assert (∀ k d, layer_of D2 k d ↔ layer_of (w_db w) k d) as Hl by (intros; unfold layer_of; by rewrite Hl2, Hl1).
  split; [by eapply frame_trans, frame_trans|by rewrite Hm1 in Hk|by rewrite Hm3, Hm2, Hm1|..].
  - intros d. rewrite Hl3, Hl. split; [|by right]. intros [Hd|[_ ?]]; [|done].
    apply layer_of_manifest in Hd; [|done]. rewrite Hm1 in Hk. rewrite Hk in Hd. by destruct Hd.
  - intros k' d Hne. rewrite Hl3, Hl. naive_solver.
Qed.

(** ** The tag *)

Lemma find_and_lock_ok k date D : ∃ t, gcManifestTaskStore_FindAndLockBefore k date (ok_tx D) = (Ret t, ok_tx D).
Proof. by eexists. Qed.
Lemma tag_run now dgst tag name r i row w :
  calm_world w → good (w_db w) → too_long tag = false → repository_by_path name (w_db w) = Some r →
  manifests (w_db w) !! (rp_NamespaceID r, rp_ID r, i) = Some row → readable dgst row →
  (∀ k m, manifests (w_db w) !! k = Some m → k.1 = (rp_NamespaceID r, rp_ID r) → m_digest m = m_digest row → k.2 = i) →
  ∃ D', dbTagManifest now dgst tag name w = (Ret tt, with_db D' w) ∧ good D' ∧ frame (w_db w) D' ∧
    manifests D' = manifests (w_db w) ∧ layers D' = layers (w_db w) ∧
    tags D' = <[(rp_NamespaceID r, rp_ID r, tag) := i]> (tags (w_db w)).
Proof.
  intros Hw H Ht Hr Hk Hrow Hu. destruct (find_manifest_Some (w_db w) r dgst i row Hk Hrow Hu) as (mf & Hfind & Hrd).
  destruct (tagStore_CreateOrUpdate_ok now (rp_NamespaceID r) (rp_ID r) i tag (w_db w) H Ht) as (D' & Hrun & HD'); [done|].
  exists D'. split; [|done]. unfold dbTagManifest. erewrite bind_Ret by by apply find_by_path_run. rewrite Hr.
  erewrite bind_Ret by by apply on_db_read. apply in_tx_ok; [done|].
  destruct (find_and_lock_ok (rp_NamespaceID r, rp_ID r, mf_ID mf) (now + manifestGCReviewWindow) (w_db w)) as [t Hlock].
  erewrite bind_Ret by by apply as_herr_ok. apply as_herr_ok. by rewrite (rd_ID _ _ _ _ Hrd).
Qed.

Lemma complete_missing D s name m dgst r x p : complete D s name m dgst r x p → missing D r (image_References m) = [].
Proof.
  intros Hc. unfold missing. induction (cm_blobs _ _ _ _ _ _ _ _ Hc) as [|d ds (b & Hb & _) _ IH]; [done|].
  by rewrite filter_cons_False by congruence.
Qed.
Lemma stored_unique D D' r i row ls x :
  stored D D' (rp_NamespaceID r, rp_ID r, i) row ls → no_manifest D r x → m_digest row = x →
  ∀ k m, manifests D' !! k = Some m → k.1 = (rp_NamespaceID r, rp_ID r) → m_digest m = m_digest row → k.2 = i.
Proof.
  intros Hs Hn <- k m. rewrite (sd_manifests _ _ _ _ _ Hs), lookup_insert_Some. intros [[<- _]|[_ Hm]] Hk Hd; [done|].
  by destruct (Hn _ _ Hm Hk).
Qed.

Lemma push_run imh now contentType body m dgst r x p w :
  pushes imh contentType body m dgst → calm_world w → reached (Drv := Drv) (w_db w) →
  complete (w_db w) (w_st w) (mh_name imh) m dgst r x p → too_long (mh_Tag imh) = false →
  ∃ D' i row,
    PutManifest bufs imh now contentType (Some body) w = (Ret (Answer 201 dgst), with_db D' w) ∧ good D' ∧
    stored (w_db w) D' (rp_NamespaceID r, rp_ID r, i) row (im_Layers m) ∧ image_row m body x p row ∧
    tags D' = (if decide (mh_Tag imh = "") then tags (w_db w)
               else <[(rp_NamespaceID r, rp_ID r, mh_Tag imh) := i]> (tags (w_db w))).
Proof.
  intros Hp Hw HD Hc Htag. pose proof (reached_good _ HD) as H. pose proof (reached_tree _ HD) as HT.
  pose proof (cm_repository _ _ _ _ _ _ _ _ Hc) as Hr.
  destruct (put_run bufs imh now contentType body m dgst w Hp) as (mfst & Hm & ->).
  destruct (db_put_image bufs (with_digest imh dgst) now mfst m body Hm) as (check & Hck & Hput); [apply Hp|].
  pose proof (validate_run w (with_digest imh dgst) r check m Hw Hr Hck (ps_version _ _ _ _ _ Hp) (ps_plain _ _ _ _ _ Hp)) as Hv.
  rewrite (complete_missing _ _ _ _ _ _ _ _ Hc) in Hv.
  destruct (put_image_run (with_digest imh dgst) now m body r x p w Hw H HT Hc) as (D1 & i & row & Hrun & H1 & Hs & Ht & Hrow).
  erewrite or_refuse_Ret by by rewrite Hput; erewrite bind_Ret.
  destruct (decide (mh_Tag imh = "")) as [He|Hne].
  { rewrite bool_decide_true by done. by exists D1, i, row. }
  rewrite bool_decide_false by done. cbn [negb].
  destruct (tag_run now dgst (mh_Tag imh) (mh_name imh) r i row (with_db D1 w)) as (D2 & Hrun2 & H2 & Hf & Hm2 & Hl2 & Ht2); cbn in *.
  - by apply calm_with_db.
  - done.
  - done.
  - by rewrite (frame_by_path _ _ _ (sd_frame _ _ _ _ _ Hs)).
  - by rewrite (sd_manifests _ _ _ _ _ Hs), lookup_insert_eq.
  - eapply image_row_readable; [apply Hc|done].
  - eapply stored_unique; [done|apply Hc|apply Hrow].
  - exists D2, i, row. split; [|split; [done|split; [|split; [done|by rewrite Ht2, Ht]]]].
    + unfold tag_in_database, mbind, gom_bind, attempt. cbn [with_digest mh_Digest mh_Tag mh_name]. by rewrite Hrun2.
    + destruct Hs as [Hf1 Hn Hm1 Hl1 Ho1].
      split; [by eapply frame_trans|done|congruence|..]; intros; unfold layer_of in *; rewrite Hl2; auto.
Qed.

(** C5: In a registry that keeps its metadata in the database alone, the first
    push of an image with a media type that the database knows, whose references
    are plain and linked to the repository and whose configuration can be read, is
    answered with status 201 and the digest of the image.  Its manifest is then
    stored with the payload that was sent, with its configuration and exactly its
    layers; the tag of the request, if there is one, points to it.  The storage,
    the namespaces, repositories, blobs, links, media types and lists, the other
    manifests, layers and tags, the reviews of blobs and the settings of reviews
    are as they were, and the invariant of the database holds, also of the tables
    in which the collector tracks references. *)
Theorem push_image imh now contentType body m dgst r x p w :
  pushes imh contentType body m dgst → calm_world w → reached (Drv := Drv) (w_db w) →
  complete (w_db w) (w_st w) (mh_name imh) m dgst r x p → too_long (mh_Tag imh) = false →
  ∃ D' i row,
    PutManifest bufs imh now contentType (Some body) w = (Ret (Answer 201 dgst), with_db D' w) ∧ good D' ∧
    stored (w_db w) D' (rp_NamespaceID r, rp_ID r, i) row (im_Layers m) ∧ image_row m body x p row ∧
    tags D' = (if decide (mh_Tag imh = "") then tags (w_db w)
               else <[(rp_NamespaceID r, rp_ID r, mh_Tag imh) := i]> (tags (w_db w))).
Proof.
  intros Hp Hw HD Hc Htag. destruct (push_run imh now contentType body m dgst r x p w Hp Hw HD Hc Htag) as (D' & i & row & Hrun).
  by exists D', i, row.
Qed.

End pushpull.
End PushPull.
