(* ===== verification/DeleteProps.v ===== *)
(** * Deleting manifests and tags

    What the requests that delete do to a metadata database that nothing else
    works on at the same time. *)

From S2P Require Import Prelude GoStd Digest Driver FileSystem Paths ObjectStore BlobStore ErrCode Database Tracking Datastore Transactions Repositories RepositoryTree RepositoryQueries StoreOps OnlineGCProps Registry Rows Api Manifests Handlers ManifestHandlers PushProps PushStore PushPull.

Module DeleteProps.
Import ErrCode Database Tracking Datastore Transactions Repositories RepositoryTree RepositoryQueries StoreOps OnlineGCProps Registry Rows Api Manifests Handlers ManifestHandlers PushProps PushStore PushPull.

Section delete.
Context {GD : GoDigest} {GDL : GoDigestLaws} {MC : ManifestCodec} {Co : Collation} {St : Type} {Drv : StorageDriver St}.
Implicit Types (w : world St) (imh : manifestHandler).

Lemma in_tx_failed {A} b c (m : GoM tx herr A) w e t :
  calm_world w → m (ok_tx (w_db w)) = (Fail e, t) → tx_faults t = [] → in_tx b c m w = (Fail e, w).
Proof.
  intros Hw Hm Hf. unfold in_tx. rewrite calm_interfere by done. pose proof Hw as [-> _]. cbn.
  change {| tx_db := w_db w; tx_failed := false; tx_faults := [] |} with (ok_tx (w_db w)). rewrite Hm, Hf.
  change (set_db (w_db w) [] w) with (with_db (w_db w) w). by rewrite with_db_same.
Qed.

Lemma references_ok D m : legible D → ∃ l, manifestStore_References m (ok_tx D) = (Ret l, ok_tx D).
Proof.
  intros Hl. unfold manifestStore_References. erewrite bind_Ret by by apply errorf_ok, exec_ok. unfold lift.
  destruct (scan_all_ok scanFullManifest (referenced_manifests (mf_NamespaceID m) (mf_RepositoryID m) (mf_ID m) D)) as (l & -> & _).
  - intros [k row] [_ Hk%elem_of_map_to_list]%list_elem_of_filter. by eapply legible_scan.
  - by exists l.
Qed.
Lemma find_and_lock_n_ok n r ids date D :
  ids ≠ [] → ∃ l, gcManifestTaskStore_FindAndLockNBefore n r ids date (ok_tx D) = (Ret l, ok_tx D).
Proof.
  intros Hne. unfold gcManifestTaskStore_FindAndLockNBefore. eexists.
  erewrite bind_Ret by (apply errorf_ok, exec_ok; by rewrite bool_decide_false). done.
Qed.

(** The locks that are taken before the manifest is deleted. *)
Lemma lock_references_ok now D m n r :
  legible D → ∃ a, (if is_list_type (mf_MediaType m) then
      mm ← as_herr Db (manifestStore_References m);
      match mm with
      | [] => mret tt
      | _ => _ ← as_herr Db (gcManifestTaskStore_FindAndLockNBefore n r (mf_ID <$> mm) (now + manifestGCReviewWindow)); mret tt
      end
    else mret tt) (ok_tx D) = (Ret a, ok_tx D).
Proof.
  intros Hl. exists tt. destruct (is_list_type _); [|done]. destruct (references_ok D m Hl) as [mm Hmm].
  erewrite bind_Ret by by apply as_herr_ok. destruct mm as [|m1 mm]; [done|].
  destruct (find_and_lock_n_ok n r (mf_ID <$> m1 :: mm) (now + manifestGCReviewWindow) D) as [l Hrun]; [done|].
  by erewrite bind_Ret by by apply as_herr_ok.
Qed.

(** ** Deleting a manifest *)

(** A list of the repository has the manifest. *)
Definition listed (D : db) (k : row_key) : Prop := ∃ p, (k.1, p, k.2) ∈ manifest_references D.

(** The manifest is gone with its tags, its layers and its list; the blobs that
    it used are queued for review; nothing else is deleted. *)
Record deleted (D : db) (k : row_key) (D' : db) : Prop := {
  dl_manifests : manifests D' = delete k (manifests D);
  dl_tags t i : tags D' !! t = Some i ↔ tags D !! t = Some i ∧ (t.1, i) ≠ k;
  dl_layers j l : layers D' !! j = Some l ↔ layers D !! j = Some l ∧ (j.1, l_manifest_id l) ≠ k;
  dl_references x : x ∈ manifest_references D' ↔ x ∈ manifest_references D ∧ x.1 ≠ k;
  dl_repositories : repositories D' = repositories D;
  dl_blobs : blobs D' = blobs D;
  dl_links : repository_blobs D' = repository_blobs D;
  dl_config m x : manifests D !! k = Some m → m_configuration_blob_digest m = Some x → is_Some (gc_blob_review_queue D' !! x);
  dl_reviews x : layer_of D k x → is_Some (gc_blob_review_queue D' !! x);
}.
Lemma delete_manifest_run now k m D :
  inv D → manifests D !! k = Some m →
  listed D k ∧ delete_manifest now k D = Fail (ForeignKeyViolation "manifest_references") ∨
  ¬ listed D k ∧ ∃ D', delete_manifest now k D = Ret (1, D') ∧ deleted D k D'.
Proof.
  intros H Hk. destruct (decide (set_Exists (λ x, (x.1.1, x.2) = k) (manifest_references D))) as [He|He].
  - left. split; [|by unfold delete_manifest; rewrite Hk, bool_decide_true].
    destruct He as ([[nr p] c] & Hx & <-). by exists p.
  - right. assert (¬ listed D k) as Hn by (intros [p Hp]; apply He; exists (k.1, p, k.2); split; [done|by destruct k]).
    split; [done|].
    destruct (delete_manifest_effect now k m D H Hk) as (ls & gl & ts & rs & gc & bq & mq & Hrun & Hls & _ & Hts & Hrs & _ & Hbq & _).
    { intros p Hp. apply Hn. by exists p. }
    eexists. split; [exact Hrun|]. split; try done.
    + intros m' x Hm' Hx. cbn. rewrite Hk in Hm'. injection Hm' as <-. apply Hbq. by auto.
    + intros x (j & l & Hl & Hi & Hx). cbn. apply Hbq. right. right. exists (k.1, j), l. cbn. rewrite Hi. by destruct k.
Qed.

Lemma delete_by_digest_run now r dgst x k D D' :
  NewDigest dgst = Ret x → manifest_by_digest (rp_NamespaceID r) (rp_ID r) x D = Some k → delete_manifest now k D = Ret (1, D') →
  repositoryStore_DeleteManifest now (rp_NamespaceID r) (rp_ID r) dgst (ok_tx D) = (Ret true, ok_tx D').
Proof.
  intros Hx Hk Hrun. unfold repositoryStore_DeleteManifest. erewrite bind_Ret by by apply newDigest_ok.
  erewrite bind_Ret; [|unfold wrap_err; rewrite (exec_ok _ D 1 D'); [reflexivity|]]; [done|].
  unfold delete_manifest_by_digest. by rewrite Hk.
Qed.
Lemma delete_by_digest_listed now r dgst x k D :
  NewDigest dgst = Ret x → manifest_by_digest (rp_NamespaceID r) (rp_ID r) x D = Some k →
  delete_manifest now k D = Fail (ForeignKeyViolation "manifest_references") →
  ∃ t, repositoryStore_DeleteManifest now (rp_NamespaceID r) (rp_ID r) dgst (ok_tx D) =
    (Fail (Wrap "deleting manifest" ErrManifestReferencedInList), t) ∧ tx_faults t = [].
Proof.
  intros Hx Hk Hrun. unfold repositoryStore_DeleteManifest. erewrite bind_Ret by by apply newDigest_ok.
  eexists. split; [apply bind_Fail; unfold wrap_err, exec, delete_manifest_by_digest; cbn; rewrite Hk, Hrun; reflexivity|done].
Qed.

Lemma db_delete_found now name dgst x r k w :
  calm_world w → reached (Drv := Drv) (w_db w) → NewDigest dgst = Ret x → repository_by_path name (w_db w) = Some r →
  manifest_by_digest (rp_NamespaceID r) (rp_ID r) x (w_db w) = Some k →
  listed (w_db w) k ∧
    dbDeleteManifest now name dgst w = (Fail (Db (Wrap "deleting manifest" ErrManifestReferencedInList)), w) ∨
  ¬ listed (w_db w) k ∧ ∃ D', dbDeleteManifest now name dgst w = (Ret tt, with_db D' w) ∧ deleted (w_db w) k D'.
Proof.
  intros Hw HD Hx Hr Hk. pose proof (reached_legible _ HD) as Hl.
  pose proof (find_by_digest_total (w_db w) r dgst x Hl Hx) as Hf. rewrite Hk in Hf. destruct Hf as (mf & row & Hfind & _ & Hrow & _).
  unfold dbDeleteManifest. erewrite bind_Ret by by apply find_by_path_run. rewrite Hr. erewrite bind_Ret by by apply on_db_read.
  destruct (lock_references_ok now (w_db w) mf (rp_NamespaceID r) (rp_ID r) Hl) as [u Hlock].
  destruct (delete_manifest_run now _ row (w_db w) (proj1 (reached_good _ HD)) Hrow) as [[Hli Hrun]|[Hn (D' & Hrun & HD')]].
  - left. split; [done|]. destruct (delete_by_digest_listed now r dgst x _ _ Hx Hk Hrun) as (t & Hdel & Ht).
    apply (in_tx_failed _ _ _ _ _ t); [done| |done]. rewrite (bind_Ret _ _ _ _ _ Hlock). apply bind_Fail. unfold as_herr. by rewrite Hdel.
  - right. split; [done|]. exists D'. split; [|done]. apply in_tx_ok; [done|]. rewrite (bind_Ret _ _ _ _ _ Hlock).
    by rewrite (bind_Ret _ _ _ _ _ (as_herr_ok Db _ _ _ _ (delete_by_digest_run now r dgst x _ _ D' Hx Hk Hrun))).
Qed.

(** C7: In a registry that keeps its metadata in the database alone and allows
    deletions, deleting a manifest by its digest is answered with status 409 while
    a list has the manifest, with 404 if the repository has no such manifest, and
    with 500 if there is no such repository; nothing is then changed.  Otherwise
    it is answered with 202: the manifest is gone with its tags, its layers and,
    if it is a list, its references, the blobs that it used are queued for review,
    and no other manifest, tag, layer, reference, repository, blob or link is
    deleted, nor is anything in the storage. *)
Theorem delete_manifest_request imh now x w :
  database_only (mh_app imh) → a_deleteEnabled (mh_app imh) = true → calm_world w → reached (Drv := Drv) (w_db w) →
  NewDigest (mh_Digest imh) = Ret x →
  match repository_by_path (mh_name imh) (w_db w) with
  | None => DeleteManifest imh now w = (Ret (refuse ErrorCodeUnknown), w)
  | Some r =>
      match manifest_by_digest (rp_NamespaceID r) (rp_ID r) x (w_db w) with
      | None => DeleteManifest imh now w = (Ret (refuse ErrorCodeManifestUnknown), w)
      | Some k =>
          listed (w_db w) k ∧ DeleteManifest imh now w = (Ret (refuse ErrorCodeManifestReferencedInList), w) ∨
          ¬ listed (w_db w) k ∧
            ∃ D', DeleteManifest imh now w = (Ret (Answer 202 tt), with_db D' w) ∧ deleted (w_db w) k D'
      end
  end.
Proof.
  intros (Hdb & Hfs & _) Hdel Hw HD Hx. unfold DeleteManifest. rewrite Hfs, Hdb, Hdel. cbn [negb].
  destruct (repository_by_path (mh_name imh) (w_db w)) as [r|] eqn:Hr; cycle 1.
  { rewrite (or_refuse_Fail _ _ _ _ (Dist (errors_New "repository not found in database")) w); [done|].
    unfold dbDeleteManifest. erewrite bind_Ret by by apply find_by_path_run. by rewrite Hr. }
  destruct (manifest_by_digest _ _ x (w_db w)) as [k|] eqn:Hk; cycle 1.
  { rewrite (or_refuse_Fail _ _ _ _ (Db ErrManifestNotFound) w); [done|].
    unfold dbDeleteManifest. erewrite bind_Ret by by apply find_by_path_run. rewrite Hr.
    erewrite bind_Ret; [|apply on_db_read; [done|by eapply find_manifest_None, by_digest_None]]. done. }
  destruct (db_delete_found now (mh_name imh) (mh_Digest imh) x r k w Hw HD Hx Hr Hk) as [[Hl Hrun]|[Hn (D' & Hrun & HD')]].
  - left. split; [done|]. by rewrite (or_refuse_Fail _ _ _ _ _ _ Hrun).
  - right. split; [done|]. exists D'. split; [|done]. by rewrite (or_refuse_Ret _ _ _ _ _ _ Hrun).
Qed.

End delete.
End DeleteProps.
