(* ===== verification/OnlineGCProgress.v ===== *)
(** * The online garbage collection collects what is dangling

    Runs of the workers that no fault hits: what each does, that they
    terminate, and the state in which they leave the database and the storage.
    And runs with faults: what a worker never removes. *)

From S2P Require Import Prelude GoStd Digest Driver FileSystem Paths ObjectStore BlobStore Vacuum Database Tracking Datastore Transactions OnlineGC OnlineGCSafety OnlineGCProps.

Module OnlineGCProgress.
Import Paths ObjectStore Database Tracking Datastore Transactions OnlineGC OnlineGCSafety OnlineGCProps.

(** ** The queues *)

(** A review that is due and not locked is not missed. *)
Lemma next_review_due {K} `{Countable K} now (locked : gset K) (q : gmap K review) k x :
  q !! k = Some x → (review_after x < now)%Z → k ∉ locked → is_Some (next_review now locked q).
Proof.
  intros Hk Hdue Hl. unfold next_review. destruct (filter _ (map_to_list q)) eqn:Hf; [|by eexists].
  exfalso. apply (not_elem_of_nil (k, x)). rewrite <-Hf, list_elem_of_filter, elem_of_map_to_list. done.
Qed.
Lemma next_review_None {K} `{Countable K} now (locked : gset K) (q : gmap K review) :
  next_review now locked q = None → ∀ k x, q !! k = Some x → (review_after x < now)%Z → k ∈ locked.
Proof.
  intros Hn k x Hk Hdue. destruct (decide (k ∈ locked)) as [?|Hl]; [done|].
  destruct (next_review_due now locked q k x Hk Hdue Hl) as [y Hy]. congruence.
Qed.

Section progress.
Context {GD : GoDigest} {GDL : GoDigestLaws} {St : Type} {Drv : StorageDriver St}.

Definition in_run (D D1 : db) (S : St) : run St := {| r_committed := D; r_tx := ok_tx D1; r_storage := S |}.

(** ** The blob worker *)

(** The database after the deletion of a blob that is not referenced. *)
Definition blob_deleted (D : db) (x : dbdigest) (D1 : db) : Prop :=
  D1 = D ∧ blobs D !! x = None ∨ delete_blob x D = Ret (1, D1).

Lemma deleteBlob_database_ok D S t x Q :
  NewDigest (bt_Digest t) = Ret x → ¬ referenced D x →
  (∀ D1, blob_deleted D x D1 → Q (Ret tt) (in_run D D1 S)) →
  wp (deleteBlob_database t) (in_run D D S) Q.
Proof.
  intros Hx Hnr HQ. apply references_blob_None in Hnr. unfold deleteBlob_database, blobStore_Delete.
  apply wp_bind, wp_attempt, wp_on_tx, wp_bind, (wp_newDigest_Ret _ x); [done|]. cbn. apply wp_bind, wp_wrap_err.
  destruct (delete_blob x D) as [[n D1]|e|] eqn:Hdel;
    unfold delete_blob in Hdel; (destruct (blobs D !! x) eqn:Hb; [rewrite Hnr in Hdel|]); simplify_eq.
  - eapply wp_exec_ok; [unfold delete_blob; by rewrite Hb, Hnr|]. cbn. apply HQ. right. unfold delete_blob. by rewrite Hb, Hnr.
  - eapply wp_exec_ok; [unfold delete_blob; by rewrite Hb|]. cbn. apply HQ. by left.
Qed.

Lemma deleteBlob_ok D S t x o S1 Q :
  NewDigest (bt_Digest t) = Ret x → ¬ referenced D x →
  Vacuum.RemoveBlob (bt_Digest t) S = (o, S1) → (o = Ret tt ∨ ∃ p n, o = Fail (PathNotFoundError p n)) →
  (∀ D1, blob_deleted D x D1 → Q (Ret tt) (in_run D D1 S1)) →
  wp (deleteBlob t) (in_run D D S) Q.
Proof.
  intros Hx Hnr Hrm Ho HQ. pose proof (deleteBlob_database_ok D S1 t x Q Hx Hnr HQ) as Hdb.
  unfold wp, deleteBlob, on_storage. cbn [r_storage in_run]. rewrite Hrm. destruct Ho as [->|(p & n & ->)]; [|exact Hdb].
  apply (wp_bind (attempt (on_tx (blobStore_FindByDigest (bt_Digest t)))) _ (in_run D D S1) Q).
  apply wp_attempt, wp_on_tx. unfold blobStore_FindByDigest.
  apply wp_bind, (wp_newDigest_Ret _ x); [done|]. cbn. apply wp_bind, wp_wrap_err, wp_query_ok. cbn.
  destruct (blobs D !! x) eqn:Hb; cbn.
  - apply wp_bind, (wp_lift_Ret _ (bt_Digest t)); [by apply Parse_NewDigest|]. exact Hdb.
  - apply HQ. by left.
Qed.

(** The end of a review. *)
Lemma blob_finish_ok D D1 S t x Q :
  NewDigest (bt_Digest t) = Ret x → is_Some (gc_blob_review_queue D1 !! x) →
  (∀ s', r_committed s' = set_gc_blob_review_queue (delete x (gc_blob_review_queue D1)) D1 → r_storage s' = S →
    Q (Ret true) s') →
  wp (_ ← on_tx (gcBlobTaskStore_Delete t); _ ← commit; mret true) (in_run D D1 S) Q.
Proof.
  intros Hx [r Hq] HQ. unfold gcBlobTaskStore_Delete.
  apply wp_bind, wp_on_tx, wp_bind, (wp_newDigest_Ret _ x); [done|]. cbn.
  apply wp_bind, wp_wrap_err. eapply wp_exec_ok; [unfold delete_blob_review; by rewrite Hq|]. cbn.
  by apply HQ.
Qed.

(** A due review of a blob is done, and the blob is removed if it is dangling. *)
Lemma blob_review_ok now locked D S x r d o S1 :
  inv D → next_review now locked (gc_blob_review_queue D) = Some (x, r) → Parse x = Ret d →
  Vacuum.RemoveBlob d S = (o, S1) → (o = Ret tt ∨ ∃ p n, o = Fail (PathNotFoundError p n)) →
  wp (blob_review now locked) (in_run D D S) (λ o s', o = Ret true ∧ reviewed D x (r_committed s') ∧
    (referenced D x ∧ r_storage s' = S ∨ ¬ referenced D x ∧ r_storage s' = S1)).
Proof.
  intros Hinv Hn Hp Hrm Ho. pose proof (NewDigest_Parse d x Hp) as Hx.
  pose proof (next_review_spec _ _ _ _ _ Hn) as (Hq & _). unfold blob_review, gcBlobTaskStore_Next.
  apply wp_bind, wp_on_tx, wp_bind, wp_wrap_err, wp_bind, wp_wrap_err, wp_query_ok. cbn. rewrite Hn.
  apply wp_bind, (wp_lift_Ret _ d); [done|]. cbn. unfold gcBlobTaskStore_IsDangling.
  apply wp_bind, wp_attempt, wp_on_tx, wp_bind, (wp_newDigest_Ret _ x); [done|].
  cbn. apply wp_bind, wp_wrap_err, wp_query_ok. cbn. apply wp_bind.
  destruct (blob_tracked x D) eqn:Htr; cbn [negb].
  - apply blob_tracked_spec in Htr; [|done]. apply (blob_finish_ok D D S _ x); [done|by eexists|].
    intros s' -> ->. split_and!; [done| |by left]. exists D. split_and!; [by left|by eexists|done].
  - assert (¬ referenced D x) as Hnr by (rewrite <-blob_tracked_spec by done; congruence).
    apply (deleteBlob_ok D S _ x o S1); [done..|]. intros D1 HD1. cbn.
    apply (blob_finish_ok D D1 S1 _ x); [done| |].
    { destruct HD1 as [[-> _]|Hdel]; [by eexists|]. apply delete_blob_frame in Hdel as (_ & _ & _ & _ & -> & _). by eexists. }
    intros s' -> ->. split_and!; [done| |by right]. exists D1. split_and!; [by right| |done].
    destruct HD1 as [[-> _]|Hdel]; [by eexists|]. apply delete_blob_frame in Hdel as (_ & _ & _ & _ & -> & _). by eexists.
Qed.

(** ** The manifest worker *)

(** The outcome of a review of the manifest [k]. *)
Definition manifest_reviewed (now : Z) (D : db) (k : row_key) (D' : db) : Prop :=
  in_use D k ∧ D' = set_gc_manifest_review_queue (delete k (gc_manifest_review_queue D)) D ∨
  ¬ in_use D k ∧ delete_manifest now k D = Ret (1, D').

(** A manifest that nothing uses can be deleted. *)
Lemma delete_manifest_ok now D k :
  inv D → is_Some (manifests D !! k) → ¬ in_use D k → ∃ D', delete_manifest now k D = Ret (1, D').
Proof.
  intros H [m Hk] Hnu. destruct (delete_manifest_effect now k m D H Hk) as (? & ? & ? & ? & ? & ? & ? & -> & _); [|by eexists].
  intros p Hp. apply Hnu. right. by eexists.
Qed.

Lemma manifest_review_ok now locked D S k r :
  inv D → next_review now locked (gc_manifest_review_queue D) = Some (k, r) →
  wp (manifest_review now locked) (in_run D D S)
    (λ o s', o = Ret true ∧ manifest_reviewed now D k (r_committed s') ∧ r_storage s' = S).
Proof.
  intros Hinv Hn. pose proof (next_review_spec _ _ _ _ _ Hn) as (Hq & _). unfold manifest_review, gcManifestTaskStore_Next.
  apply wp_bind, wp_on_tx, wp_bind, wp_wrap_err, wp_wrap_err, wp_query_ok. cbn. rewrite Hn. cbn.
  unfold gcManifestTaskStore_IsDangling.
  apply wp_bind, wp_attempt, wp_on_tx, wp_bind, wp_wrap_err, wp_query_ok. cbn. apply wp_bind.
  destruct (manifest_referenced k D) eqn:Hu; cbn [negb].
  - apply manifest_referenced_spec in Hu. unfold gcManifestTaskStore_Delete.
    apply wp_on_tx, wp_bind, wp_wrap_err. eapply wp_exec_ok; [unfold delete_manifest_review; cbn; by rewrite Hq|].
    cbn. unfold wp. cbn. split_and!; [done| |done]. by left.
  - assert (¬ in_use D k) as Hnu by (rewrite <-manifest_referenced_spec; congruence).
    destruct (delete_manifest_ok now D k) as [D' Hdel]; [done|apply (fk_review D Hinv); by eexists|done|].
    unfold deleteManifest, manifestStore_Delete. apply wp_bind, wp_attempt, wp_on_tx, wp_bind, wp_wrap_err.
    eapply wp_exec_ok; [exact Hdel|]. cbn. unfold wp. cbn. split_and!; [done| |done]. by right.
Qed.

Lemma manifest_run_ok now locked D (S : St) k r :
  inv D → next_review now locked (gc_manifest_review_queue D) = Some (k, r) →
  ∃ D', ManifestWorker_Run now locked [] (D, S) = (Ret true, (D', S)) ∧ manifest_reviewed now D k D'.
Proof.
  intros Hinv Hn. pose proof (manifest_review_ok now locked D S k r Hinv Hn) as Hwp. unfold wp, in_run, ok_tx in Hwp.
  unfold ManifestWorker_Run, Run, processTask, wrap_err. cbn [fst snd head tail].
  destruct (manifest_review now locked _) as [o1 r1]. cbn [fst snd] in Hwp. destruct Hwp as (-> & Hrev & HS).
  exists (r_committed r1). split; [|done]. cbn. by rewrite HS.
Qed.
Lemma manifest_run_idle now locked D (S : St) :
  next_review now locked (gc_manifest_review_queue D) = None →
  ManifestWorker_Run now locked [] (D, S) = (Ret false, (D, S)).
Proof.
  intros Hn. assert (wp (manifest_review now locked) (in_run D D S) (λ o s', (o, s') = (Ret false, in_run D D S))) as Hwp.
  { unfold manifest_review, gcManifestTaskStore_Next.
    apply wp_bind, wp_on_tx, wp_bind, wp_wrap_err, wp_wrap_err, wp_query_ok. cbn. by rewrite Hn. }
  unfold wp in Hwp. rewrite <-surjective_pairing in Hwp.
  unfold ManifestWorker_Run, Run, processTask, wrap_err. cbn [fst snd head tail]. unfold in_run, ok_tx in Hwp. by rewrite Hwp.
Qed.
Lemma blob_run_idle now locked D (S : St) :
  next_review now locked (gc_blob_review_queue D) = None →
  BlobWorker_Run now locked [] (D, S) = (Ret false, (D, S)).
Proof.
  intros Hn. assert (wp (blob_review now locked) (in_run D D S) (λ o s', (o, s') = (Ret false, in_run D D S))) as Hwp.
  { unfold blob_review, gcBlobTaskStore_Next.
    apply wp_bind, wp_on_tx, wp_bind, wp_wrap_err, wp_bind, wp_wrap_err, wp_query_ok. cbn. by rewrite Hn. }
  unfold wp in Hwp. rewrite <-surjective_pairing in Hwp.
  unfold BlobWorker_Run, Run, processTask, wrap_err. cbn [fst snd head tail]. unfold in_run, ok_tx in Hwp. by rewrite Hwp.
Qed.

End progress.

(** ** The storage *)

Section storage.
Context {GD : GoDigest} {GDL : GoDigestLaws}.
Context {St : Type} {Drv : StorageDriver St} {view : St → fs} {sinv : St → Prop} {ok : fpath → Prop}.
Context {L : DriverLaws Drv view sinv ok}.

Abbreviation rinv := (ObjectStore.rinv (view := view) (inv := sinv)).
Abbreviation obj S := (object (view S)).

(** The driver supports the path of the blob. *)
Definition storable (d : digest) : Prop := is_object (blobDataPathSpec d) = true ∧ ok (layout (blobPathSpec d)).

(** A state of the database and of the storage that the workers run on. *)
Record ready (s : db * St) : Prop := {
  ready_good : good s.1;
  ready_storage : rinv s.2;
  ready_content x d : known s.1 x → Parse x = Ret d → storable d;
}.

Lemma blob_run_ok now locked D S x r :
  ready (D, S) → next_review now locked (gc_blob_review_queue D) = Some (x, r) →
  ∃ d D' S', Parse x = Ret d ∧ BlobWorker_Run now locked [] (D, S) = (Ret true, (D', S')) ∧
    reviewed D x D' ∧ rinv S' ∧
    (referenced D x ∧ S' = S ∨ ¬ referenced D x ∧
      ∀ spec, is_object spec = true → obj S' spec = if decide (spec = blobDataPathSpec d) then None else obj S spec).
Proof.
  intros [[Hinv Hparse] Hr Hst] Hn. pose proof (next_review_spec _ _ _ _ _ Hn) as (Hq & _). cbn in *.
  assert (known D x) as Hk by (right; by eexists). destruct (Hparse x Hk) as [d Hp]. destruct (Hst x d Hk Hp) as [Ho Hok].
  destruct (Vacuum.RemoveBlob_spec S d Hr Ho Hok) as (o & S1 & Hrm & Hr1 & Ho1 & Hobj).
  pose proof (blob_review_ok now locked D S x r d o S1 Hinv Hn Hp Hrm Ho1) as Hwp. unfold wp, in_run, ok_tx in Hwp.
  unfold BlobWorker_Run, Run, processTask, wrap_err. cbn [fst snd head tail].
  destruct (blob_review now locked _) as [o1 r1]. cbn [fst snd] in Hwp. destruct Hwp as (-> & Hrev & HS).
  exists d, (r_committed r1), (r_storage r1). split_and!; [done..| |].
  - by destruct HS as [[_ ->]|[_ ->]].
  - destruct HS as [?|[? ->]]; [by left|by right].
Qed.

(** ** Sequences of runs *)

(** A run of a worker that reviewed something. *)
Definition productive (s s' : db * St) : Prop :=
  ∃ now, (∃ locked, BlobWorker_Run now locked [] s = (Ret true, s')) ∨
         (∃ locked, ManifestWorker_Run now locked [] s = (Ret true, s')).

(** A manifest that a tag keeps, directly or through lists. *)
Inductive live (D : db) : row_key → Prop :=
  | live_tag nr i t : tags D !! (nr, t) = Some i → live D (nr, i)
  | live_ref nr p c : live D (nr, p) → (nr, p, c) ∈ manifest_references D → live D (nr, c).

(** What runs without faults do to the database and the storage: they keep the
    tags and the live manifests with their layers, remove the content of the
    blobs they delete, and touch no other object. *)
Record collected (s s' : db * St) : Prop := {
  col_tags : tags s'.1 = tags s.1;
  col_live k : live s.1 k → live s'.1 k ∧ manifests s'.1 !! k = manifests s.1 !! k;
  col_layers k l : layers s.1 !! k = Some l → live s.1 (k.1, l_manifest_id l) → layers s'.1 !! k = Some l;
  col_blobs x b : blobs s'.1 !! x = Some b → blobs s.1 !! x = Some b;
  col_kept x d : Parse x = Ret d → is_Some (blobs s'.1 !! x) → is_object (blobDataPathSpec d) = true →
    obj s'.2 (blobDataPathSpec d) = obj s.2 (blobDataPathSpec d);
  col_removed x d : Parse x = Ret d → is_Some (blobs s.1 !! x) → blobs s'.1 !! x = None →
    obj s'.2 (blobDataPathSpec d) = None;
  col_objects spec : is_object spec = true → obj s'.2 spec = obj s.2 spec ∨ obj s'.2 spec = None;
  col_others spec : is_object spec = true → (∀ d, spec ≠ blobDataPathSpec d) → obj s'.2 spec = obj s.2 spec;
}.

Lemma collected_refl s : collected s s.
Proof. constructor; try by auto. intros x d _ [b Hb] Hn. congruence. Qed.
Lemma collected_trans s1 s2 s3 : ready s1 → collected s1 s2 → collected s2 s3 → collected s1 s3.
Proof.
  intros Hr H12 H23. constructor.
  - rewrite (col_tags _ _ H23). apply H12.
  - intros k [H2 Hm]%(col_live _ _ H12). apply (col_live _ _ H23) in H2 as [H3 ->]. done.
  - intros k l Hl Hk. eapply (col_layers _ _ H23), (col_live _ _ H12), Hk. by apply H12.
  - intros x b Hb. by apply H12, H23.
  - intros x d Hp [b Hb] Ho. etrans; [by eapply (col_kept _ _ H23)|].
    apply (col_kept _ _ H12 x d Hp); [|done]. exists b. by apply H23.
  - intros x d Hp Hb1 Hb3. destruct (blobs s2.1 !! x) as [b|] eqn:Hb2.
    + by apply (col_removed _ _ H23 x d).
    + destruct (ready_content _ Hr x d) as [Ho _]; [by left|done|].
      pose proof (col_removed _ _ H12 x d Hp Hb1 Hb2) as H2. destruct (col_objects _ _ H23 _ Ho) as [->|?]; done.
  - intros spec Ho. destruct (col_objects _ _ H23 _ Ho) as [->|?]; [by apply H12|by right].
  - intros spec Ho Hd. rewrite (col_others _ _ H23) by done. by apply H12.
Qed.

Lemma live_in_use D k : live D k → in_use D k.
Proof. intros [nr i t Ht|nr p c _ Hx]; [left; by exists t|right; by exists p]. Qed.
Lemma live_mono D D' k :
  tags D' = tags D → (∀ p c nr, live D (nr, p) → (nr, p, c) ∈ manifest_references D → (nr, p, c) ∈ manifest_references D') →
  live D k → live D' k.
Proof.
  intros Ht Hx. induction 1 as [nr i t Hk|nr p c Hp IH Hc]; [eapply live_tag; by rewrite Ht|].
  eapply live_ref; [done|]. by apply Hx.
Qed.

(** A run of the blob worker. *)
Lemma reviewed_collected D S x d D' S' :
  ready (D, S) → Parse x = Ret d → reviewed D x D' →
  (referenced D x ∧ S' = S ∨ ¬ referenced D x ∧
      ∀ spec, is_object spec = true → obj S' spec = if decide (spec = blobDataPathSpec d) then None else obj S spec) →
  collected (D, S) (D', S').
Proof.
  intros Hready Hp Hrev HS. apply reviewed_frame in Hrev as (Hm & Hl & Ht & Hx & _ & Hb).
  assert (∀ y e, Parse y = Ret e → e = d → y = x) as Hinj.
  { intros y e He ->. apply NewDigest_Parse in He, Hp. congruence. }
  assert (∀ k, live D k → live D' k) as Hlive by (intros k; apply live_mono; [done|by rewrite Hx]).
  constructor; cbn; try done.
  - intros k Hk. rewrite Hm. by auto.
  - intros k l Hk _. by rewrite Hl.
  - intros y b. destruct Hb as [[_ ->]|[_ ->]]; [done|]. by intros [_ ?]%lookup_delete_Some.
  - intros y e He Hy Ho. destruct HS as [[_ ->]|[Hn HS]]; [done|]. rewrite HS by done. case_decide as Heq; [|done].
    exfalso. injection Heq as Heq. rewrite (Hinj y e He Heq) in Hy.
    destruct Hb as [[? _]|[_ Hb]]; [done|]. rewrite Hb, lookup_delete_eq in Hy. by destruct Hy.
  - intros y e He [b Hy] Hny. destruct Hb as [[_ Hb]|[Hn Hb]]; rewrite Hb in Hny; [congruence|].
    apply lookup_delete_None in Hny as [Heq|?]; [|congruence]. subst y. destruct HS as [[? _]|[_ HS]]; [done|].
    destruct (ready_content _ Hready x e) as [Ho _]; [left; by eexists|done|]. rewrite HS, decide_True; congruence.
  - intros spec Ho. destruct HS as [[_ ->]|[_ HS]]; [by left|]. rewrite HS by done. case_decide; by auto.
  - intros spec Ho Hd. destruct HS as [[_ ->]|[_ HS]]; [done|]. rewrite HS by done. by rewrite decide_False.
Qed.

(** A run of the manifest worker. *)
Lemma manifest_reviewed_collected now D (S : St) k D' :
  ready (D, S) → manifest_reviewed now D k D' → is_Some (manifests D !! k) → collected (D, S) (D', S).
Proof.
  intros [[Hinv _] _ _] [[_ ->]|[Hnu Hdel]] [m Hk]; cbn in *.
  { assert (∀ k', live D k' → live (set_gc_manifest_review_queue (delete k (gc_manifest_review_queue D)) D) k') as Hlive
      by (intros k'; by apply live_mono).
    constructor; cbn; try by auto. intros x d _ [b Hb] Hn. congruence. }
  destruct (delete_manifest_effect now k m D Hinv Hk)
    as (ls & gl & ts & rs & gc & bq & mq & Hrun & Hls & _ & Hts & Hrs & _ & _ & _).
  { intros p Hp. apply Hnu. right. by eexists. }
  rewrite Hrun in Hdel. injection Hdel as <-. clear Hrun.
  assert (∀ k', live D k' → k' ≠ k) as Hne by (intros k' Hk' ->; by apply Hnu, live_in_use).
  assert (ts = tags D) as Htags.
  { apply map_eq. intros t. apply option_eq. intros i. rewrite Hts. split; [by intros [? _]|]. intros Ht. split; [done|].
    intros <-. apply Hnu. left. exists t.2. by destruct t. }
  assert (∀ k', live D k' → live (set_gc_blob_review_queue bq (set_gc_manifest_review_queue mq (set_gc_blobs_configurations gc
    (set_manifest_references rs (set_tags ts (set_gc_blobs_layers gl (set_layers ls
      (set_manifests (delete k (manifests D)) D)))))))) k') as Hlive.
  { intros k'. apply live_mono; [done|]. cbn. intros p c nr Hp Hx. apply Hrs. split; [done|]. by apply Hne. }
  constructor; cbn; try by auto.
  - intros k' Hk'. split; [by apply Hlive|]. by rewrite lookup_delete_ne by (symmetry; by apply Hne).
  - intros k' l Hl Hk'. apply Hls. split; [done|]. by apply Hne.
  - intros x d _ [b Hb] Hn. congruence.
Qed.

(** ** Termination *)

(** The measure of a run: manifests, then reviews of manifests, then reviews of
    blobs.  Deleting a manifest queues its blobs and the manifests it lists. *)
Definition smaller (D' D : db) : Prop :=
  size (manifests D') < size (manifests D) ∨
  size (manifests D') = size (manifests D) ∧
    (size (gc_manifest_review_queue D') < size (gc_manifest_review_queue D) ∨
     size (gc_manifest_review_queue D') = size (gc_manifest_review_queue D) ∧
       size (gc_blob_review_queue D') < size (gc_blob_review_queue D)).
Lemma smaller_wf : well_founded smaller.
Proof.
  enough (∀ a b c D, size (manifests D) = a → size (gc_manifest_review_queue D) = b → size (gc_blob_review_queue D) = c →
    Acc smaller D) as H by (intros D; by eapply H).
  induction a as [a IHa] using lt_wf_ind. induction b as [b IHb] using lt_wf_ind. induction c as [c IHc] using lt_wf_ind.
  intros D Ha Hb Hc. constructor. intros D' [Hlt|[Heq [Hlt|[Heq' Hlt]]]].
  - eapply IHa; [|done..]. lia.
  - eapply (IHb (size (gc_manifest_review_queue D'))); [lia|lia|done..].
  - eapply (IHc (size (gc_blob_review_queue D'))); lia.
Qed.

Lemma size_delete_lt {K} `{Countable K} {A} (m : gmap K A) k : is_Some (m !! k) → size (delete k m) < size m.
Proof.
  intros [x Hx]. rewrite <-(insert_delete_id m k x Hx) at 2. rewrite map_size_insert_None by apply lookup_delete_eq. lia.
Qed.

(** The effect of a run that reviewed something. *)
Definition step_effect (s s' : db * St) : Prop := ready s' ∧ collected s s' ∧ smaller s'.1 s.1.

Lemma blob_step now locked s x r :
  ready s → next_review now locked (gc_blob_review_queue s.1) = Some (x, r) →
  ∃ s', BlobWorker_Run now locked [] s = (Ret true, s') ∧ step_effect s s'.
Proof.
  destruct s as [D S]. intros Hr Hn. destruct (blob_run_ok now locked D S x r Hr Hn) as (d & D' & S' & Hp & Hrun & Hrev & HS' & Hobj).
  pose proof (reviewed_good _ _ _ (ready_good _ Hr) Hrev) as HD'. pose proof (reviewed_frame _ _ _ Hrev) as (Hm & _ & _ & _ & Hq & Hb).
  exists (D', S'). split; [done|]. split_and!.
  - constructor; cbn; [done..|]. intros y e Hy. apply (ready_content _ Hr). by eapply reviewed_known.
  - by eapply reviewed_collected.
  - cbn. right. rewrite Hm. split; [done|]. right. rewrite Hq.
    assert (gc_manifest_review_queue D' = gc_manifest_review_queue D) as ->.
    { destruct Hrev as (D1 & Hd & _ & ->). cbn. destruct Hd as [[_ ->]|[_ [[-> _]|Hdel]]]; [done..|].
      by apply delete_blob_frame in Hdel as (_ & _ & _ & _ & _ & -> & _). }
    split; [done|]. apply size_delete_lt. apply next_review_spec in Hn as (? & _). by eexists.
Qed.
Lemma manifest_step now locked s k r :
  ready s → next_review now locked (gc_manifest_review_queue s.1) = Some (k, r) →
  ∃ s', ManifestWorker_Run now locked [] s = (Ret true, s') ∧ step_effect s s'.
Proof.
  destruct s as [D S]. intros Hr Hn. pose proof (ready_good _ Hr) as HD. cbn in HD, Hn.
  destruct (manifest_run_ok now locked D S k r) as (D' & Hrun & Hrev); [apply HD|done|].
  apply next_review_spec in Hn as (Hq & _). assert (is_Some (manifests D !! k)) as Hk by (apply (fk_review D (proj1 HD)); by eexists).
  assert (manifest_effect now D D') as He.
  { right. exists k. destruct Hrev as [[? ?]|[? ?]]; [left; split_and!; [done|by eexists|done]|right; by eauto]. }
  exists (D', S). split; [done|]. split_and!.
  - constructor; cbn; [by eapply manifest_effect_good|apply Hr|]. intros y e Hy. apply (ready_content _ Hr).
    by eapply manifest_effect_known, Hy; [apply HD|].
  - by eapply manifest_reviewed_collected.
  - cbn. destruct Hrev as [[_ ->]|[Hnu Hdel]].
    + right. split; [done|]. left. cbn. apply size_delete_lt. by eexists.
    + left. destruct Hk as [m Hk]. destruct (delete_manifest_effect now k m D (proj1 HD) Hk) as (? & ? & ? & ? & ? & ? & ? & Hrun' & _).
      { intros p Hp. apply Hnu. right. by eexists. }
      rewrite Hrun' in Hdel. injection Hdel as <-. cbn. apply size_delete_lt. by eexists.
Qed.
Lemma productive_step s s' : ready s → productive s s' → step_effect s s'.
Proof.
  intros Hr (now & [[locked Hrun]|[locked Hrun]]).
  - destruct (next_review now locked (gc_blob_review_queue s.1)) as [[x r]|] eqn:Hn.
    + destruct (blob_step now locked s x r Hr Hn) as (s1 & Hrun1 & He). rewrite Hrun in Hrun1. by injection Hrun1 as <-.
    + destruct s as [D S]. by rewrite (blob_run_idle now locked D S Hn) in Hrun.
  - destruct (next_review now locked (gc_manifest_review_queue s.1)) as [[k r]|] eqn:Hn.
    + destruct (manifest_step now locked s k r Hr Hn) as (s1 & Hrun1 & He). rewrite Hrun in Hrun1. by injection Hrun1 as <-.
    + destruct s as [D S]. by rewrite (manifest_run_idle now locked D S Hn) in Hrun.
Qed.

(** A queue that is not empty has a review that some time makes due. *)
Lemma queue_due {K} `{Countable K} (q : gmap K review) :
  q ≠ ∅ → ∃ now k r, next_review now ∅ q = Some (k, r).
Proof.
  intros (k & x & Hk)%map_choose. destruct (next_review_due (review_after x + 1) ∅ q k x) as [[k' r] Hn]; [done|lia|set_solver|].
  by eauto.
Qed.

(** What is left when the queues are empty. *)
Definition clean (D : db) : Prop :=
  gc_blob_review_queue D = ∅ ∧ gc_manifest_review_queue D = ∅ ∧
  (∀ x, is_Some (blobs D !! x) → referenced D x) ∧ (∀ k, is_Some (manifests D !! k) → in_use D k).

Lemma clean_or_productive s : ready s → clean s.1 ∨ ∃ s', productive s s'.
Proof.
  intros Hr. destruct (decide (gc_blob_review_queue s.1 = ∅)) as [Hbq|(now & x & r & Hn)%queue_due]; cycle 1.
  { right. destruct (blob_step now ∅ s x r Hr Hn) as (s' & Hrun & _). exists s', now. by eauto. }
  destruct (decide (gc_manifest_review_queue s.1 = ∅)) as [Hmq|(now & k & r & Hn)%queue_due]; cycle 1.
  { right. destruct (manifest_step now ∅ s k r Hr Hn) as (s' & Hrun & _). exists s', now. by eauto. }
  left. pose proof (ready_good _ Hr) as [Hinv _]. split_and!; [done..| |].
  - intros x Hx. destruct (cover_blob _ Hinv x Hx) as [?|[? Hq]]; [done|]. by rewrite Hbq in Hq.
  - intros k Hk. destruct (cover_manifest _ Hinv k Hk) as [?|[? Hq]]; [done|]. by rewrite Hmq in Hq.
Qed.
Lemma runs_collected s s' : ready s → rtc productive s s' → ready s' ∧ collected s s'.
Proof.
  intros Hr Hrtc. induction Hrtc as [s|s1 s2 s3 Hstep _ IH]; [by split; [|apply collected_refl]|].
  destruct (productive_step _ _ Hr Hstep) as (Hr2 & Hc & _). destruct (IH Hr2) as [Hr3 Hc'].
  split; [done|]. by eapply collected_trans.
Qed.

(** ** Properties *)

(** C13: while nothing else writes, every sequence of runs that review something
    and that no fault hits is finite, at whatever times and with whatever
    reviews locked by others. *)
Theorem online_gc_terminates s : ready s → Acc (λ s2 s1, productive s1 s2) s.
Proof.
  destruct s as [D S]. revert S. induction (smaller_wf D) as [D _ IH]. intros S Hr. constructor. intros [D' S'] Hp.
  destruct (productive_step _ _ Hr Hp) as (Hr' & _ & Hlt). by apply IH.
Qed.

(** A blob that a manifest which a tag keeps has as its configuration or as a
    layer. *)
Definition used (D : db) (x : dbdigest) : Prop :=
  ∃ k, live D k ∧
    ((∃ m, manifests D !! k = Some m ∧ m_configuration_blob_digest m = Some x) ∨
     (∃ i l, layers D !! (k.1, i) = Some l ∧ l_manifest_id l = k.2 ∧ l_digest l = x)).
Lemma used_referenced D x : used D x → referenced D x.
Proof. intros (k & _ & [(m & Hm & Hc)|(i & l & Hl & _ & Hx)]); [right; by exists k, m|left; by exists (k.1, i), l]. Qed.
Lemma collected_used s s' x : collected s s' → used s.1 x → used s'.1 x.
Proof.
  intros Hc (k & Hk & Hx). destruct (col_live _ _ Hc k Hk) as [Hk' Hm]. exists k. split; [done|].
  destruct Hx as [(m & Hkm & Hd)|(i & l & Hl & Hi & Hd)]; [left; exists m; by rewrite Hm|right].
  exists i, l. split; [|done]. apply (col_layers _ _ Hc); [done|]. cbn. rewrite Hi. by destruct k.
Qed.
Lemma referenced_row D x : good D → referenced D x → is_Some (blobs D !! x).
Proof. intros [Hinv _] [(k & l & Hl & <-)|(k & m & Hm & Hd)]; [by apply (fk_layer _ Hinv) in Hl as [_ ?]|by eapply (fk_config _ Hinv)]. Qed.

(** The blobs that are used keep their rows and their content. *)
Lemma collected_keeps s s' x b :
  ready s → ready s' → collected s s' → used s.1 x → blobs s.1 !! x = Some b →
  blobs s'.1 !! x = Some b ∧ ∀ d, Parse x = Ret d → obj s'.2 (blobDataPathSpec d) = obj s.2 (blobDataPathSpec d).
Proof.
  intros Hr Hr' Hc Hu Hb. pose proof (referenced_row _ _ (ready_good _ Hr') (used_referenced _ _ (collected_used _ _ _ Hc Hu))) as [b' Hb'].
  pose proof (col_blobs _ _ Hc x b' Hb') as Hb2. split; [congruence|]. intros d Hd. apply (col_kept _ _ Hc x d Hd); [by eexists|].
  destruct (ready_content _ Hr x d) as [? _]; [left; by eexists|done|done].
Qed.

(** C12: some sequence of runs that no fault hits reaches a state in which no review
    is left, and every sequence that cannot go on ends in such a state: the blobs
    that are left are exactly the referenced ones, and every manifest that is left
    is tagged or listed; the tags and the manifests that they keep, directly or
    through lists, are the same, with their layers, and the blobs that these use
    keep their rows and their content; the content of the blobs that were deleted
    is gone from the storage, and no other object changed. *)
Theorem online_gc_converges s :
  ready s →
  (∃ s', rtc productive s s' ∧ clean s'.1) ∧
  ∀ s', rtc productive s s' → (∀ s'', ¬ productive s' s'') →
    clean s'.1 ∧ collected s s' ∧ (∀ x, is_Some (blobs s'.1 !! x) ↔ referenced s'.1 x) ∧
    (∀ x b, used s.1 x → blobs s.1 !! x = Some b →
      blobs s'.1 !! x = Some b ∧ ∀ d, Parse x = Ret d → obj s'.2 (blobDataPathSpec d) = obj s.2 (blobDataPathSpec d)).
Proof.
  intros Hr. split; cycle 1.
  { intros s' Hrtc Hstuck. destruct (runs_collected _ _ Hr Hrtc) as [Hr' Hc].
    assert (clean s'.1) as Hclean by (by destruct (clean_or_productive s' Hr') as [?|[s'' ?%Hstuck]]).
    split; [done|]. split; [done|]. split; [|intros x b; by apply collected_keeps].
    intros x. split; [apply Hclean|apply referenced_row, (ready_good _ Hr')]. }
  destruct s as [D S]. revert S Hr. induction (smaller_wf D) as [D _ IH]. intros S Hr.
  destruct (clean_or_productive _ Hr) as [?|[[D' S'] Hp]]; [by exists (D, S)|].
  destruct (productive_step _ _ Hr Hp) as (Hr' & _ & Hlt). destruct (IH D' Hlt S' Hr') as (s'' & Hrtc & Hclean).
  exists s''. split; [|done]. by eapply rtc_l.
Qed.

(** C14: a run of the blob worker that no fault hits takes a review that is due,
    not locked by others, and the earliest such; it ends that review, and
    removes the blob from the database and its content from the storage if no
    layer and no configuration references it.  Without such a review it does
    nothing. *)
Theorem blob_worker_run now locked D S :
  ready (D, S) →
  ((∀ x r, gc_blob_review_queue D !! x = Some r → (review_after r < now)%Z → x ∈ locked) ∧
     BlobWorker_Run now locked [] (D, S) = (Ret false, (D, S))) ∨
  ∃ x r d D' S',
    (gc_blob_review_queue D !! x = Some r ∧ (review_after r < now)%Z ∧ (x ∉ locked) ∧
     ∀ y r', gc_blob_review_queue D !! y = Some r' → (review_after r' < now)%Z → y ∉ locked →
       (review_after r ≤ review_after r')%Z) ∧
    BlobWorker_Run now locked [] (D, S) = (Ret true, (D', S')) ∧
    gc_blob_review_queue D' = delete x (gc_blob_review_queue D) ∧
    manifests D' = manifests D ∧ layers D' = layers D ∧ tags D' = tags D ∧ Parse x = Ret d ∧
    (referenced D x ∧ blobs D' = blobs D ∧ S' = S ∨
     ¬ referenced D x ∧ blobs D' = delete x (blobs D) ∧
       ∀ spec, is_object spec = true → obj S' spec = if decide (spec = blobDataPathSpec d) then None else obj S spec).
Proof.
  intros Hr. destruct (next_review now locked (gc_blob_review_queue D)) as [[x r]|] eqn:Hn; [right|left].
  - destruct (blob_run_ok now locked D S x r Hr Hn) as (d & D' & S' & Hp & Hrun & Hrev & _ & Hobj).
    apply reviewed_frame in Hrev as (Hm & Hl & Ht & _ & Hq & Hb). apply next_review_spec in Hn.
    exists x, r, d, D', S'. split_and!; [apply Hn..|done|done|done|done|done|done|].
    destruct Hobj as [[Href ->]|[Hnr Hobj]]; [left|right]; by destruct Hb as [[? ?]|[? ?]].
  - split; [by apply next_review_None|]. by apply blob_run_idle.
Qed.

(** C15: a run of the manifest worker that no fault hits takes a review that is
    due; it ends the review of a manifest that a tag or a list uses, and
    otherwise deletes the manifest with its layers, and queues the blobs of
    these, its configuration and the manifests it lists for review.  It keeps
    the storage, the tags, the blobs, and the other manifests. *)
Theorem manifest_worker_run now locked D (S : St) :
  good D →
  ((∀ k r, gc_manifest_review_queue D !! k = Some r → (review_after r < now)%Z → k ∈ locked) ∧
     ManifestWorker_Run now locked [] (D, S) = (Ret false, (D, S))) ∨
  ∃ k r m D',
    gc_manifest_review_queue D !! k = Some r ∧ (review_after r < now)%Z ∧ manifests D !! k = Some m ∧
    ManifestWorker_Run now locked [] (D, S) = (Ret true, (D', S)) ∧
    (in_use D k ∧ D' = set_gc_manifest_review_queue (delete k (gc_manifest_review_queue D)) D ∨
     ¬ in_use D k ∧ manifests D' = delete k (manifests D) ∧ blobs D' = blobs D ∧
       (∀ t i, tags D' !! t = Some i ↔ tags D !! t = Some i) ∧
       (∀ k' l, layers D' !! k' = Some l ↔ layers D !! k' = Some l ∧ (k'.1, l_manifest_id l) ≠ k) ∧
       (∀ x, is_Some (gc_blob_review_queue D' !! x) ↔ is_Some (gc_blob_review_queue D !! x) ∨
          m_configuration_blob_digest m = Some x ∨
          ∃ k' l, layers D !! k' = Some l ∧ (k'.1, l_manifest_id l) = k ∧ l_digest l = x) ∧
       (∀ k', is_Some (gc_manifest_review_queue D' !! k') ↔ k' ≠ k ∧ (is_Some (gc_manifest_review_queue D !! k') ∨
          (k.1, k.2, k'.2) ∈ manifest_references D ∧ k'.1 = k.1))).
Proof.
  intros [Hinv _]. destruct (next_review now locked (gc_manifest_review_queue D)) as [[k r]|] eqn:Hn; [right|left].
  - destruct (manifest_run_ok now locked D S k r Hinv Hn) as (D' & Hrun & Hrev). apply next_review_spec in Hn as (Hq & Hdue & _).
    destruct (fk_review D Hinv k) as [m Hk]; [by eexists|]. exists k, r, m, D'. split_and!; [done..|].
    destruct Hrev as [?|[Hnu Hdel]]; [by left|right]. split; [done|].
    destruct (delete_manifest_effect now k m D Hinv Hk)
      as (ls & gl & ts & rs & gc & bq & mq & Hrun' & Hls & _ & Hts & _ & _ & Hbq & Hmq).
    { intros p Hp. apply Hnu. right. by eexists. }
    rewrite Hrun' in Hdel. injection Hdel as <-. cbn. split_and!; [done..| |done|done|done].
    intros t i. rewrite Hts. split; [by intros [? _]|]. intros Ht. split; [done|].
    intros <-. apply Hnu. left. exists t.2. by destruct t.
  - split; [by apply next_review_None|]. by apply manifest_run_idle.
Qed.

(** What is removed from a storage that keeps the laws of drivers. *)
Lemma blob_removal_objects D S S' :
  ready (D, S) →
  S' = S ∨ (∃ x d, is_Some (gc_blob_review_queue D !! x) ∧ Parse x = Ret d ∧ ¬ referenced D x ∧ S' = (Vacuum.RemoveBlob d S).2) →
  ∀ spec, is_object spec = true → obj S' spec = obj S spec ∨
    ∃ x d, is_Some (gc_blob_review_queue D !! x) ∧ Parse x = Ret d ∧ ¬ referenced D x ∧ spec = blobDataPathSpec d.
Proof.
  intros Hr HS spec Ho. destruct HS as [->|(x & d & Hq & Hp & Hn & ->)]; [by left|].
  destruct (ready_content _ Hr x d) as [Hd Hok]; [by right|done|].
  destruct (Vacuum.RemoveBlob_spec S d (ready_storage _ Hr) Hd Hok) as (o1 & S1 & -> & _ & _ & Hobj). cbn.
  rewrite Hobj by done. case_decide; [right|by left]. by eauto 10.
Qed.
End storage.

(** ** Safety under faults *)

Section safety.
Context {GD : GoDigest} {GDL : GoDigestLaws} {St : Type} {Drv : StorageDriver St}.

(** C10: whatever statements fail, whatever the storage answers and whatever is
    locked, a run of the blob worker, taken without writes of others in between,
    changes no manifest, layer, tag or list, removes from the database only a
    blob that nothing references, and asks the storage for nothing but the removal
    of a queued blob that nothing references, so that a storage with the laws of
    drivers loses no other object; a run of the manifest worker leaves the storage
    as it is, and removes no manifest that is tagged or listed.  The driver may
    fail in any way. *)
Theorem workers_safe now blocked locked faults D (S : St) :
  good D →
  (let '(_, (D', S')) := BlobWorker_Run now blocked faults (D, S) in
   manifests D' = manifests D ∧ layers D' = layers D ∧ tags D' = tags D ∧
   manifest_references D' = manifest_references D ∧
   (∀ x, referenced D x → blobs D' !! x = blobs D !! x) ∧
   (S' = S ∨ ∃ x d, is_Some (gc_blob_review_queue D !! x) ∧ Parse x = Ret d ∧ ¬ referenced D x ∧ S' = (Vacuum.RemoveBlob d S).2) ∧
   (∀ view sinv ok (L : DriverLaws Drv view sinv ok), ready (view := view) (sinv := sinv) (ok := ok) (D, S) →
     ∀ spec, is_object spec = true → object (view S') spec = object (view S) spec ∨
       ∃ x d, is_Some (gc_blob_review_queue D !! x) ∧ Parse x = Ret d ∧ ¬ referenced D x ∧ spec = blobDataPathSpec d)) ∧
  (let '(_, (D', S')) := ManifestWorker_Run now locked faults (D, S) in
   S' = S ∧ blobs D' = blobs D ∧ (∀ k, in_use D k → manifests D' !! k = manifests D !! k)).
Proof.
  intros [Hinv _]. split.
  - destruct (BlobWorker_Run now blocked faults (D, S)) as [o [D' S']] eqn:Hrun.
    apply blob_run_effect in Hrun as [HS HD]; [|done]. cbn in HS, HD.
    assert (∀ view sinv ok (L : DriverLaws Drv view sinv ok), ready (view := view) (sinv := sinv) (ok := ok) (D, S) →
     ∀ spec, is_object spec = true → object (view S') spec = object (view S) spec ∨
       ∃ x d, is_Some (gc_blob_review_queue D !! x) ∧ Parse x = Ret d ∧ ¬ referenced D x ∧ spec = blobDataPathSpec d) as Hobj.
    { intros view sinv ok L Hr. by eapply blob_removal_objects. }
    destruct HD as [[->|[(d & x & _ & ->)|(k & x & _ & ->)]]|[x Hrev]]; [by split_and!..|].
    apply reviewed_frame in Hrev as (-> & -> & -> & -> & _ & Hb). split_and!; [done..| |done|done]. intros y Hy.
    destruct Hb as [[_ ->]|[Hn ->]]; [done|]. rewrite lookup_delete_ne; [done|]. by intros ->.
  - destruct (ManifestWorker_Run now locked faults (D, S)) as [o [D' S']] eqn:Hrun.
    apply manifest_run_effect in Hrun as [He HS]. cbn in He, HS. split; [done|].
    destruct He as [[->|[(d & x & _ & ->)|(k & x & _ & ->)]]|(k & [(_ & _ & ->)|(Hnu & n & Hdel)])]; [done..|].
    destruct (manifests D !! k) as [m|] eqn:Hk; cycle 1.
    { unfold delete_manifest in Hdel. rewrite Hk in Hdel. by injection Hdel as <- <-. }
    destruct (delete_manifest_effect now k m D Hinv Hk) as (? & ? & ? & ? & ? & ? & ? & Hrun' & _).
    { intros p Hp. apply Hnu. right. by eexists. }
    rewrite Hrun' in Hdel. injection Hdel as <- <-. cbn. split; [done|]. intros k' Hk'. rewrite lookup_delete_ne; [done|]. by intros ->.
Qed.
End safety.

(** ** Back-off *)

(** The durations of the retries that do not overflow. *)
Lemma backoff_table i :
  (0 ≤ i ≤ 30)%Z → i ≠ 25%Z → i ≠ 29%Z → exponentialBackoff i = Z.min (24 * hour) (5 * minute * 2 ^ i).
Proof.
  intros Hi H25 H29.
  assert (forallb (λ n, let i := Z.of_nat n in (i =? 25)%Z || (i =? 29)%Z ||
    (exponentialBackoff i =? Z.min (24 * hour) (5 * minute * 2 ^ i))%Z) (seq 0 31) = true) as Hall by (vm_compute; reflexivity).
  rewrite forallb_forall in Hall. specialize (Hall (Z.to_nat i)). rewrite in_seq in Hall. cbv zeta in Hall.
  rewrite Z2Nat.id, !orb_true_iff, !Z.eqb_eq in Hall by lia. destruct Hall as [[?|?]|?]; [lia|done..].
Qed.

(** C40: the delay of a review that failed [i] times doubles from five minutes up
    to a day, except for the counts 25 and 29, at which the product, which
    overflows from 25 on, is negative. *)
Theorem exponentialBackoff_doubles i :
  i ≠ 25%Z → i ≠ 29%Z →
  exponentialBackoff i = Z.min (24 * hour) (5 * minute * 2 ^ Z.max 0 i) ∧
  (5 * minute ≤ exponentialBackoff i ≤ 24 * hour)%Z.
Proof.
  intros H25 H29. assert (exponentialBackoff i = Z.min (24 * hour) (5 * minute * 2 ^ Z.max 0 i)) as Heq.
  { destruct (decide (i < 0)%Z) as [Hn|Hn].
    - unfold exponentialBackoff. rewrite (proj2 (Z.ltb_lt i 0)) by done. rewrite Z.max_l by lia. reflexivity.
    - rewrite Z.max_r by lia. destruct (decide (i ≤ 30)%Z) as [Hle|Hgt]; [by apply backoff_table; [lia|..]|].
      unfold exponentialBackoff. rewrite (proj2 (Z.ltb_ge i 0)) by lia.
      replace (i >? 30)%Z with true by (symmetry; apply Z.gtb_lt; lia).
      assert (2 ^ 30 ≤ 2 ^ i)%Z by (apply Z.pow_le_mono_r; lia). unfold hour, minute in *. lia. }
  split; [done|]. rewrite Heq. assert (1 ≤ 2 ^ Z.max 0 i)%Z by (pose proof (Z.pow_pos_nonneg 2 (Z.max 0 i)); lia).
  unfold hour, minute. lia.
Qed.

(** At these two the product overflows, and the review is moved to the past. *)
Theorem exponentialBackoff_overflows : (exponentialBackoff 25 < 0)%Z ∧ (exponentialBackoff 29 < 0)%Z.
Proof. by vm_compute. Qed.

(** ** Digests *)

Section digests.
Context {GD : GoDigest} {GDL : GoDigestLaws}.

(** A digest is stored in the database in one way only, and a string that
    can be read as a digest is the one that is stored for it. *)
Theorem digest_database_roundtrip d x : NewDigest d = Ret x ↔ Parse x = Ret d.
Proof. split; [apply Parse_NewDigest|apply NewDigest_Parse]. Qed.

End digests.

(** ** Failures *)

Section failures.
Context {GD : GoDigest} {GDL : GoDigestLaws} {St : Type} {Drv : StorageDriver St}.

(** After a statement of the transaction failed, a review cannot be postponed:
    the database refuses the update in the same transaction. *)
Theorem postpone_refused_after_failure (t : GCBlobTask) (s : run St) :
  tx_failed (r_tx s) = true →
  (∃ e, (blob_postponeTaskAndCommit t s).1 = Fail e) ∧ r_committed (blob_postponeTaskAndCommit t s).2 = r_committed s.
Proof.
  intros Hf. assert (wp (blob_postponeTaskAndCommit t) s (λ o s', (∃ e, o = Fail e) ∧ r_committed s' = r_committed s)) as Hwp;
    [|exact Hwp].
  unfold blob_postponeTaskAndCommit, gcBlobTaskStore_Postpone.
  apply wp_bind, wp_on_tx, wp_bind, wp_newDigest; [intros x _|intros e; cbn; by eauto]. cbn.
  apply wp_bind, wp_wrap_err. unfold wp, exec. rewrite Hf. cbn. by eauto.
Qed.

End failures.
End OnlineGCProgress.
