(* ===== verification/PullProps.v ===== *)
(** * What the garbage collector leaves of an image

    An image that was pushed can be pulled, its manifest and its blobs, however
    often the workers of the online garbage collector ran since. *)

From S2P Require Import Prelude GoStd Digest Driver FileSystem Paths ObjectStore BlobStore Vacuum ErrCode Database Tracking Datastore Transactions Repositories RepositoryTree OnlineGC OnlineGCSafety OnlineGCProps Registry Rows Api Manifests Handlers ManifestHandlers PushProps PushStore PushPull OnlineGCProgress.

Module PullProps.
Import Paths ObjectStore ErrCode Database Tracking Datastore Transactions Repositories RepositoryTree OnlineGC OnlineGCSafety OnlineGCProps Registry Rows Api Manifests Handlers ManifestHandlers PushProps PushStore PushPull OnlineGCProgress.

Section pull.
Context {GD : GoDigest} {GDL : GoDigestLaws} {MC : ManifestCodec} {Co : Collation}.
Context {St : Type} {Drv : StorageDriver St} {view : St → fs} {sinv : St → Prop} {ok : fpath → Prop}.
Context {L : DriverLaws Drv view sinv ok}.
Context (bufs : nat → nat).
Implicit Types (w : world St) (imh : manifestHandler).

Abbreviation rinv := (ObjectStore.rinv (view := view) (inv := sinv)).
Abbreviation ready := (OnlineGCProgress.ready (view := view) (sinv := sinv) (ok := ok)).
Abbreviation supported := (ObjectStore.supported (ok := ok)).
Abbreviation obj S := (object (view S)).

(** ** The workers *)

(** A run of a worker, whatever fails. *)
Inductive worker_run : db * St → db * St → Prop :=
  | run_blob_worker now locked faults s : worker_run s (BlobWorker_Run now locked faults s).2
  | run_manifest_worker now locked faults s : worker_run s (ManifestWorker_Run now locked faults s).2.

(** The blobs of a manifest. *)
Definition uses (D : db) (k : row_key) (x : dbdigest) : Prop :=
  layer_of D k x ∨ ∃ m, manifests D !! k = Some m ∧ m_configuration_blob_digest m = Some x.
Lemma uses_referenced D k x : uses D k x → referenced D x.
Proof. intros [(j & l & Hl & _ & Hd)|(m & Hm & Hd)]; [left; by exists (k.1, j), l|right; by exists k, m]. Qed.

(** What two states have in common of the image that a tag points to. *)
Record keeps_image (nr : Z * Z) (t : string) (i : Z) (s s' : db * St) : Prop := {
  ki_repositories : repositories s'.1 = repositories s.1;
  ki_tag : tags s'.1 !! (nr, t) = Some i;
  ki_manifest : manifests s'.1 !! (nr, i) = manifests s.1 !! (nr, i);
  ki_layers x : layer_of s'.1 (nr, i) x ↔ layer_of s.1 (nr, i) x;
  ki_blobs x : uses s.1 (nr, i) x → blobs s'.1 !! x = blobs s.1 !! x;
  ki_links n r x : uses s.1 (nr, i) x → (n, r, x) ∈ repository_blobs s'.1 ↔ (n, r, x) ∈ repository_blobs s.1;
  ki_content x d : uses s.1 (nr, i) x → Parse x = Ret d → obj s'.2 (blobDataPathSpec d) = obj s.2 (blobDataPathSpec d);
}.
Lemma keeps_image_uses nr t i s s' x : keeps_image nr t i s s' → uses s'.1 (nr, i) x ↔ uses s.1 (nr, i) x.
Proof. intros Hk. unfold uses. by rewrite (ki_layers _ _ _ _ _ Hk), (ki_manifest _ _ _ _ _ Hk). Qed.
Lemma keeps_image_refl nr t i s : tags s.1 !! (nr, t) = Some i → keeps_image nr t i s s.
Proof. done. Qed.
Lemma keeps_image_trans nr t i s1 s2 s3 : keeps_image nr t i s1 s2 → keeps_image nr t i s2 s3 → keeps_image nr t i s1 s3.
Proof.
  intros H12 H23. pose proof (λ x, proj2 (keeps_image_uses _ _ _ _ _ x H12)) as Hu. split.
  - rewrite (ki_repositories _ _ _ _ _ H23). apply H12.
  - apply H23.
  - rewrite (ki_manifest _ _ _ _ _ H23). apply H12.
  - intros x. rewrite (ki_layers _ _ _ _ _ H23). apply H12.
  - intros x Hx. rewrite (ki_blobs _ _ _ _ _ H23) by by apply Hu. by apply H12.
  - intros n r x Hx. rewrite (ki_links _ _ _ _ _ H23) by by apply Hu. by apply (ki_links _ _ _ _ _ H12).
  - intros x d Hx Hp. rewrite (ki_content _ _ _ _ _ H23 x) by first [done|by apply Hu]. by eapply H12.
Qed.

(** What is removed is the content of another digest. *)
Definition keeps_content (D : db) (S S' : St) : Prop :=
  ∀ x d, referenced D x → Parse x = Ret d → is_object (blobDataPathSpec d) = true →
    obj S' (blobDataPathSpec d) = obj S (blobDataPathSpec d).
Lemma referenced_storable D S x d : ready (D, S) → referenced D x → Parse x = Ret d → is_object (blobDataPathSpec d) = true.
Proof.
  intros Hr Hx Hp. destruct (ready_good _ Hr) as [H _]. cbn in H. eapply (ready_content _ Hr x); [|done]. left.
  destruct Hx as [(k & l & Hk & <-)|(k & m & Hk & Hd)]; [by apply (fk_layer D H) in Hk as [_ ?]|by eapply (fk_config D H)].
Qed.
Lemma removed_keeps_content D S x d :
  ready (D, S) → is_Some (gc_blob_review_queue D !! x) → Parse x = Ret d → ¬ referenced D x →
  rinv (Vacuum.RemoveBlob d S).2 ∧ keeps_content D S (Vacuum.RemoveBlob d S).2.
Proof.
  intros Hr Hq Hp Hn. destruct (ready_content _ Hr x d) as [Hd Hok]; [by right|done|].
  destruct (Vacuum.RemoveBlob_spec S d (ready_storage _ Hr) Hd Hok) as (o & S' & -> & Hr' & _ & Hobj). cbn. split; [done|].
  intros x' d' Hx' Hp' Ho. rewrite Hobj by done. rewrite decide_False; [done|]. intros [= ->]. apply Hn.
  apply NewDigest_Parse in Hp, Hp'. rewrite Hp in Hp'. by injection Hp' as ->.
Qed.

Lemma postponed_keeps_image nr t i D D' S S' :
  ready (D, S) → postponed D D' → keeps_content D S S' → tags D !! (nr, t) = Some i → keeps_image nr t i (D, S) (D', S').
Proof.
  intros Hr Hp HS Ht. assert (∀ x d, uses D (nr, i) x → Parse x = Ret d → obj S' (blobDataPathSpec d) = obj S (blobDataPathSpec d)).
  { intros x d Hx%uses_referenced Hd. apply (HS x); [done..|]. by apply (referenced_storable D S x). }
  by destruct Hp as [->|[(d & x & _ & ->)|(k & x & _ & ->)]].
Qed.
Lemma reviewed_keeps_image nr t i D x D' S S' :
  ready (D, S) → reviewed D x D' → keeps_content D S S' → tags D !! (nr, t) = Some i → keeps_image nr t i (D, S) (D', S').
Proof.
  intros Hr Hrev HS Ht. pose proof (reviewed_repos _ _ _ Hrev) as [= _ Hrepos _ _].
  pose proof (reviewed_frame _ _ _ Hrev) as (Hm & Hl & Htg & _ & _ & Hb). split; cbn [fst snd]; try done.
  - by rewrite Htg.
  - by rewrite Hm.
  - intros y. unfold layer_of. by rewrite Hl.
  - intros y Hy%uses_referenced. destruct Hb as [[_ ->]|[Hn ->]]; [done|]. rewrite lookup_delete_ne; [done|]. by intros ->.
  - intros n r y Hy%uses_referenced. destruct Hrev as (D1 & Hd & _ & ->). cbn.
    destruct Hd as [[_ ->]|[Hn [[-> _]|Hdel]]]; [done..|]. unfold delete_blob in Hdel.
    destruct (blobs D !! x); [|done]. destruct (references_blob x D); [done|]. injection Hdel as <-. cbn.
    rewrite elem_of_filter. cbn. naive_solver.
  - intros y d Hy%uses_referenced Hp. apply (HS y); [done..|]. by apply (referenced_storable D S y).
Qed.

Lemma manifest_effect_keeps_image nr t i now D D' S :
  ready (D, S) → manifest_effect now D D' → tags D !! (nr, t) = Some i → keeps_image nr t i (D, S) (D', S).
Proof.
  intros Hr He Ht. destruct (ready_good _ Hr) as [H _]. cbn in H. pose proof (manifest_effect_repos _ _ _ He) as [= _ Hrepos _ _].
  destruct He as [Hp|(k & [(_ & _ & ->)|(Hnu & n & Hdel)])]; [by eapply postponed_keeps_image|done|].
  destruct (manifests D !! k) as [m|] eqn:Hk; cycle 1.
  { unfold delete_manifest in Hdel. rewrite Hk in Hdel. by injection Hdel as <- <-. }
  destruct (delete_manifest_effect now k m D H Hk) as (ls & gl & ts & rs & gc & bq & mq & Hrun & Hls & _ & Hts & _).
  { intros p Hp. apply Hnu. right. by eexists. }
  assert (k ≠ (nr, i)) as Hne by (intros ->; apply Hnu; left; by exists t).
  rewrite Hrun in Hdel. injection Hdel as <- <-. split; cbn; try done.
  - by apply Hts.
  - by rewrite lookup_delete_ne.
  - intros x. unfold layer_of. cbn. setoid_rewrite Hls. cbn. split.
    + intros (j & l & [Hl _] & Hx). by exists j, l.
    + intros (j & l & Hl & Hi & Hd). exists j, l. split_and!; try done. by rewrite Hi.
Qed.

Lemma worker_run_keeps nr t i s s' :
  ready s → tags s.1 !! (nr, t) = Some i → worker_run s s' → ready s' ∧ keeps_image nr t i s s'.
Proof.
  intros Hr Ht Hrun. destruct Hrun as [now locked faults [D S]|now locked faults [D S]].
  - destruct (BlobWorker_Run _ _ _ _) as [o [D' S']] eqn:Hrun. cbn [snd].
    apply blob_run_effect in Hrun as [HS HD]; [|apply Hr]. cbn in HS, HD.
    assert (rinv S' ∧ keeps_content D S S') as [Hr' HS'].
    { destruct HS as [->|(x & d & Hq & Hp & Hn & ->)]; [split; [apply Hr|done]|by eapply removed_keeps_content]. }
    destruct HD as [HD|[x HD]]; (split; [split; cbn; [|done|]|]).
    + by eapply postponed_good, HD; apply Hr.
    + intros y e Hy. apply (ready_content _ Hr). by eapply postponed_known.
    + by eapply postponed_keeps_image.
    + by eapply reviewed_good, HD; apply Hr.
    + intros y e Hy. apply (ready_content _ Hr). by eapply reviewed_known.
    + by eapply reviewed_keeps_image.
  - destruct (ManifestWorker_Run _ _ _ _) as [o [D' S']] eqn:Hrun. cbn [snd].
    apply manifest_run_effect in Hrun as [HD HS]. cbn in HD, HS. subst S'. split; [split; cbn|].
    + by eapply manifest_effect_good, HD; apply Hr.
    + apply Hr.
    + intros y e Hy. apply (ready_content _ Hr). by eapply manifest_effect_known, Hy; [apply Hr|].
    + by eapply manifest_effect_keeps_image.
Qed.
Lemma worker_runs_keep nr t i s s' :
  ready s → tags s.1 !! (nr, t) = Some i → rtc worker_run s s' → ready s' ∧ keeps_image nr t i s s'.
Proof.
  intros Hr Ht Hrtc. induction Hrtc as [s|s1 s2 s3 Hrun _ IH]; [by split; [|apply keeps_image_refl]|].
  destruct (worker_run_keeps nr t i _ _ Hr Ht Hrun) as [Hr2 H12]. destruct IH as [Hr3 H23]; [done|apply H12|].
  split; [done|]. by eapply keeps_image_trans.
Qed.

(** ** Pulling a manifest *)

Lemma unmarshal_image contentType body mfst dgst :
  UnmarshalManifest contentType body = Some (mfst, dgst) →
  match mfst with
  | Schema2 m _ => schema2_UnmarshalJSON body = Some mfst ∧ v_MediaType (im_Versioned m) = schema2_MediaTypeManifest
  | OCI m _ =>
      oci_UnmarshalJSON body = Some mfst ∧
      (v_MediaType (im_Versioned m) = "" ∨ v_MediaType (im_Versioned m) = v1_MediaTypeImageManifest)
  | _ => True
  end.
Proof.
  unfold UnmarshalManifest. intros (t & _ & Hm)%bind_Some. revert Hm. unfold mappings.
  destruct (bool_decide _); [|destruct (bool_decide _); [|destruct (bool_decide _); [|destruct (bool_decide _)]]];
    unfold schema1Func, schema2Func, ocischemaFunc, manifestListFunc, imageIndexFunc, schema2_UnmarshalJSON, oci_UnmarshalJSON,
      list_UnmarshalJSON.
  - destruct (json_schema2 body) as [m|]; [|done]. cbn. case_bool_decide as Ht; [|done]. cbn. intros [= <- <-]. done.
  - destruct (json_oci body) as [m|]; [|done]. cbn. case_bool_decide as Ht; [|done]. cbn. intros [= <- <-]. done.
  - destruct (json_ManifestList body) as [l|]; [|done]. cbn. case_bool_decide; [|done]. by intros [= <- <-].
  - destruct (json_ManifestList body) as [l|]; [|done]. cbn. case_bool_decide; [|done]. by intros [= <- <-].
  - destruct (schema1_Canonical body) as [c|]; [|done]. by intros [= <- <-].
Qed.

(** The image was sent in the format [mfst], which has a type, and the client
    accepts the format. *)
Record pullable (contentType : string) (body : bytes) (m : Image) (dgst : digest) (accept : list string) : Prop := {
  pl_typed : v_MediaType (im_Versioned m) ≠ "";
  pl_format : UnmarshalManifest contentType body = Some (Schema2 m body, dgst) ∨
    UnmarshalManifest contentType body = Some (OCI m body, dgst) ∧ supports accept ociImageManifestSchema = true;
}.

Lemma pull_run imh accept contentType body m dgst r x p i row w :
  calm_world w → a_useDatabase (mh_app imh) = true → mh_Tag imh ≠ "" →
  pullable contentType body m dgst accept → v_SchemaVersion (im_Versioned m) = 2%Z →
  repository_by_path (mh_name imh) (w_db w) = Some r →
  tags (w_db w) !! (rp_NamespaceID r, rp_ID r, mh_Tag imh) = Some i →
  manifests (w_db w) !! (rp_NamespaceID r, rp_ID r, i) = Some row →
  NewDigest dgst = Ret x → image_row m body x p row →
  GetManifest bufs imh accept [] w =
    (Ret (Answer 200 {| ct_type := v_MediaType (im_Versioned m); ct_payload := body; ct_digest := dgst |}), w).
Proof.
  intros Hw Ha Htag [Htyped Hformat] Hv Hr Ht Hm Hx Hrow. unfold GetManifest, GetByTag. rewrite bool_decide_false, Ha by done.
  cbn [negb]. destruct (find_tagged_manifest (w_db w) r (mh_Tag imh) dgst i row Ht Hm) as (mf & Hfind & Hrd).
  { by eapply image_row_readable. }
  assert (∃ mfst, dbManifestGetter_GetByTag (mh_name imh) [] (mh_Tag imh) w = (Ret (mfst, dgst), w) ∧
    (mfst = Schema2 m body ∨ mfst = OCI m body ∧ supports accept ociImageManifestSchema = true ∧
      v_MediaType (im_Versioned m) = v1_MediaTypeImageManifest)) as (mfst & Hget & Hmfst).
  { unfold dbManifestGetter_GetByTag. erewrite bind_Ret by by apply find_by_path_run. rewrite Hr.
    erewrite bind_Ret by by apply on_db_read. cbn [etagMatch existsb].
    destruct Hrd as [_ -> -> -> ->], Hrow as [_ -> -> -> _ _]. unfold dbPayloadToManifest. rewrite Hv. cbn [Z.eqb Pos.eqb negb].
    destruct Hformat as [Hf|[Hf Hs]]; pose proof (unmarshal_image _ _ _ _ Hf) as [Hj Htype].
    - exists (Schema2 m body). rewrite Htype, Hj. by split; [|left].
    - destruct Htype as [Htype|Htype]; [done|]. exists (OCI m body). rewrite Htype, Hj. split; [done|]. by right. }
  erewrite or_refuse_Ret by done.
  destruct Hmfst as [->|(-> & Hs & ->)]; cbn [manifestType]; [done|]. by rewrite Hs.
Qed.

(** ** Pulling a blob *)

Lemma db_get_blob_run w name r d :
  calm_world w → good (w_db w) → repository_by_path name (w_db w) = Some r → is_Some (linked (w_db w) r d) →
  dbGetBlob name d w = (Ret tt, w).
Proof.
  intros Hw [_ Hp] Hr [b Hb]. unfold dbGetBlob. erewrite bind_Ret by by apply find_by_path_run. rewrite Hr.
  destruct (scan_all_ok scanFullBlob (linked_blobs r (w_db w))) as (l & Hl & _ & Hin).
  { intros [x y] [_ Hx%elem_of_map_to_list]%list_elem_of_filter. unfold scanFullBlob. cbn [fst snd].
    destruct (Hp x) as [e ->]; [by left|]. by eexists. }
  assert (repositoryStore_Blobs r (ok_tx (w_db w)) = (Ret l, ok_tx (w_db w))) as Hrun.
  { unfold repositoryStore_Blobs. erewrite bind_Ret by by apply errorf_ok, exec_ok. unfold lift. by rewrite Hl. }
  erewrite bind_Ret by by apply on_db_read. replace (existsb _ l) with true; [done|]. symmetry.
  apply existsb_exists. revert Hb. unfold linked, linked_blob. destruct (NewDigest d) as [x|e|] eqn:Hx; [|done..].
  case_bool_decide as Hlink; [|done]. destruct (blobs (w_db w) !! x) as [y|] eqn:Hy; [|done]. intros _.
  exists (blob_row_of d y). split; [|by apply bool_decide_eq_true]. apply list_elem_of_In, Hin. exists (x, y). split.
  - apply list_elem_of_filter. split; [done|]. by apply elem_of_map_to_list.
  - unfold scanFullBlob. cbn [fst snd]. by rewrite (Parse_NewDigest _ _ Hx).
Qed.

(** The answer with the content of a blob. *)
Definition blob_answer (d : digest) (c : bytes) : reply served :=
  Answer 200 (Content d "application/octet-stream" (Z.of_nat (String.length c)) c).
Lemma get_blob_run a w name r d c :
  calm_world w → good (w_db w) → rinv (w_st w) → supported (blobDataPathSpec d) →
  a_useDatabase a = true → a_writeFSMetadata a = false → a_redirect a = false →
  repository_by_path name (w_db w) = Some r → is_Some (linked (w_db w) r d) → obj (w_st w) (blobDataPathSpec d) = Some c →
  GetBlob a name d w = (Ret (blob_answer d c), w).
Proof.
  intros Hw H HS Hd Ha Hfs Hre Hr Hb Hc. unfold GetBlob. rewrite Ha.
  erewrite or_refuse_Ret by by eapply db_get_blob_run.
  assert (ServeBlob a (BlobStore.repository_Blobs name (a_deleteEnabled a)) d (w_st w) =
    (Ret (Content d "application/octet-stream" (Z.of_nat (String.length c)) c), w_st w)) as Hserve.
  { unfold ServeBlob, blobServer_ServeBlob. rewrite Hfs, Hre. erewrite bind_Ret by done.
    erewrite bind_Ret by (rewrite BlobStore.blobStatter_spec by done; by rewrite Hc).
    cbn [BlobStore.desc_Digest BlobStore.MediaType BlobStore.Size].
    erewrite bind_Ret by (apply BlobStore.path_of_spec; apply Hd). destruct (read_object (w_st w) _ c HS Hd Hc) as (rd & Hrd & Hall).
    erewrite bind_Ret by done. by erewrite bind_Ret. }
  rewrite (or_refuse_Ret _ _ _ _ (Content d "application/octet-stream" (Z.of_nat (String.length c)) c) w); [done|].
  unfold on_storage. rewrite calm_interfere by done. unfold as_herr. rewrite Hserve. by destruct w.
Qed.

(** ** Push, collect, pull *)

(** The references of a stored image are what its manifest uses. *)
Lemma stored_uses D D' k row m payload x p d :
  stored D D' k row (im_Layers m) → image_row m payload x p row → d ∈ image_References m →
  ∀ y, NewDigest (d_Digest d) = Ret y → uses D' k y.
Proof.
  intros Hs Hrow [->|Hd]%elem_of_cons y Hy.
  - right. exists row. rewrite (sd_manifests _ _ _ _ _ Hs), lookup_insert_eq. split; [done|].
    destruct (ir_config _ _ _ _ _ Hrow) as (c & Hc & ->). rewrite Hy in Hc. by injection Hc as ->.
  - left. apply (sd_layers _ _ _ _ _ Hs). by exists d.
Qed.
Lemma stored_ready D D' S k row ls : good D' → stored D D' k row ls → ready (D, S) → ready (D', S).
Proof.
  intros H Hs Hr. split; [done|apply Hr|]. intros x d Hx. apply (ready_content _ Hr). revert Hx. unfold known.
  cbn. by rewrite (fr_blobs _ _ (sd_frame _ _ _ _ _ Hs)), (fr_reviews _ _ (sd_frame _ _ _ _ _ Hs)).
Qed.
Lemma keeps_image_linked r t i s s' d y :
  keeps_image (rp_NamespaceID r, rp_ID r) t i s s' → NewDigest d = Ret y → uses s.1 (rp_NamespaceID r, rp_ID r, i) y →
  linked s'.1 r d = linked s.1 r d.
Proof.
  intros Hk Hy Hu. unfold linked, linked_blob. rewrite Hy, (ki_blobs _ _ _ _ _ Hk) by done.
  by rewrite (bool_decide_ext _ _ (ki_links _ _ _ _ _ Hk (rp_NamespaceID r) (rp_ID r) y Hu)).
Qed.

(** C4: An image that was pushed by a tag is pulled as it was pushed, however
    often the workers of the garbage collector ran in between and whatever of
    their statements failed: the tag answers with the payload and the digest of
    the push, and each blob of the image with the content that it had then.  This
    is for the first push of an image whose manifest names its media type and
    whose references are plain and linked to the repository, in a registry that
    keeps its metadata in the database alone and does not redirect to the
    storage. *)
Theorem push_gc_pull imh now contentType body m dgst r x p accept w :
  pushes imh contentType body m dgst → pullable contentType body m dgst accept → a_redirect (mh_app imh) = false →
  calm_world w → reached (Drv := Drv) (w_db w) → ready (w_db w, w_st w) →
  complete bufs (w_db w) (w_st w) (mh_name imh) m dgst r x p → mh_Tag imh ≠ "" → too_long (mh_Tag imh) = false →
  ∃ D', PutManifest bufs imh now contentType (Some body) w = (Ret (Answer 201 dgst), with_db D' w) ∧
    ∀ D'' S'', rtc worker_run (D', w_st w) (D'', S'') →
      let w' := {| w_db := D''; w_st := S''; w_faults := []; w_env := [] |} in
      GetManifest bufs imh accept [] w' =
        (Ret (Answer 200 {| ct_type := v_MediaType (im_Versioned m); ct_payload := body; ct_digest := dgst |}), w') ∧
      ∀ d c, d ∈ image_References m → supported (blobDataPathSpec (d_Digest d)) →
        obj (w_st w) (blobDataPathSpec (d_Digest d)) = Some c →
        GetBlob (mh_app imh) (mh_name imh) (d_Digest d) w' = (Ret (blob_answer (d_Digest d) c), w').
Proof.
  intros Hp Hpl Hre Hw HD Hready Hc Htag Hlong.
  destruct (push_run bufs imh now contentType body m dgst r x p w Hp Hw HD Hc Hlong) as (D' & i & row & Hput & H' & Hs & Hrow & Ht).
  rewrite decide_False in Ht by done. exists D'. split; [done|]. intros D'' S'' Hruns w'.
  destruct (worker_runs_keep (rp_NamespaceID r, rp_ID r) (mh_Tag imh) i (D', w_st w) (D'', S'')) as [Hr'' Hk];
    [by eapply stored_ready|cbn; by rewrite Ht, lookup_insert_eq|done|].
  assert (repository_by_path (mh_name imh) D'' = Some r) as Hr.
  { rewrite <-(cm_repository _ _ _ _ _ _ _ _ _ Hc). unfold repository_by_path, all_repositories.
    pose proof (ki_repositories _ _ _ _ _ Hk) as Hrs. cbn in Hrs. by rewrite Hrs, (fr_repositories _ _ (sd_frame _ _ _ _ _ Hs)). }
  destruct (ps_app _ _ _ _ _ Hp) as (Hdb & Hfs & _). split.
  - eapply (pull_run imh accept contentType body m dgst r x p i row w'); try done; [apply Hp|apply Hk| |apply Hc].
    cbn. pose proof (ki_manifest _ _ _ _ _ Hk) as Hm. cbn in Hm. by rewrite Hm, (sd_manifests _ _ _ _ _ Hs), lookup_insert_eq.
  - intros d c Hd Hsup Hobj. pose proof (cm_blobs _ _ _ _ _ _ _ _ _ Hc) as Hav. unfold available in Hav.
    rewrite Forall_forall in Hav. destruct (Hav d Hd) as (b & Hb & _).
    destruct (linked_Some _ _ _ _ Hb) as (_ & y & Hy & _). pose proof (stored_uses _ _ _ _ _ _ _ _ _ Hs Hrow Hd y Hy) as Hu.
    eapply (get_blob_run (mh_app imh) w' (mh_name imh) r); try done; [apply Hr''|apply Hr''|..]; cbn.
    + pose proof (keeps_image_linked _ _ _ _ _ _ _ Hk Hy Hu) as Hl. cbn in Hl.
      by rewrite Hl, (frame_linked _ _ _ _ (sd_frame _ _ _ _ _ Hs)), Hb.
    + pose proof (ki_content _ _ _ _ _ Hk y (d_Digest d) Hu) as Hl. cbn in Hl. rewrite Hl; [done|]. by apply Parse_NewDigest.
Qed.

End pull.
End PullProps.
