(* ===== verification/UploadDatabase.v ===== *)
(** * Uploads with the metadata database

    Models what registry/handlers/blobupload.go does in the metadata database:
    the blob of a completed upload is created and linked to its repository, and
    so is a blob that is mounted from another repository. *)

From S2P Require Import Prelude GoStd Digest GoText DigestSet Regexp Reference Driver FileSystem Paths ObjectStore FileReader BlobStore Upload UploadSpec Hmac ErrCode UploadHandler UploadProps Database Tracking Datastore Transactions Repositories RepositoryTree RepositoryQueries StoreOps OnlineGCProps Registry Rows Api Manifests Handlers ManifestHandlers PushProps PushStore PushPull.

Module UploadDatabase.
Import Hmac ErrCode Database Tracking Datastore Transactions Repositories RepositoryTree RepositoryQueries StoreOps OnlineGCProps Registry Rows Api Manifests Handlers ManifestHandlers PushProps PushStore PushPull.

(** ** The requests *)

Section handlers.
Context {GD : GoDigest} {GH : GoHash} {GT : GoToken} {Co : Collation} {St : Type} {D : StorageDriver St}.
Context (chunk : nat → nat) (bufsize : nat).
Abbreviation H := (GoM (world St) herr) (only parsing).
(** A request with an open upload. *)
Abbreviation HU := (GoM (world St * Upload.blobWriter (St := St)) herr) (only parsing).
Abbreviation stmt m := (as_herr Db m) (only parsing).

Definition dbMountBlob (fromRepoPath toRepoPath : string) (d : digest) : H unit :=
  b ← dbFindRepositoryBlob d fromRepoPath;
  destRepo ← on_db (repositoryStore_CreateOrFindByPath toRepoPath);
  on_db (repositoryStore_LinkBlob (rp_NamespaceID destRepo) (rp_ID destRepo) (blob_Digest b)).

Definition dbPutBlobUploadComplete (now : Z) (repoPath : string) (desc : BlobStore.Descriptor) : H unit :=
  in_tx "beginning database transaction" "committing database transaction" (
    b ← stmt (blobStore_CreateOrFind now
                {| blob_MediaType := BlobStore.MediaType desc; blob_Digest := BlobStore.desc_Digest desc;
                   blob_Size := BlobStore.Size desc |});
    r ← stmt (repositoryStore_CreateOrFindByPath repoPath);
    stmt (repositoryStore_LinkBlob (rp_NamespaceID r) (rp_ID r) (blob_Digest b))).

(** A method of the upload. *)
Definition upload_step {A} (m : GoM (St * Upload.blobWriter) error A) : HU A := λ '(w, bw),
  let w := interfere w in
  let '(o, (s, bw)) := m (w_st w, bw) in (omap_err Dist o, (set_st s w, bw)).
Definition failed (msg : string) (err : herr) : UploadHandler.response :=
  UploadHandler.errors [FromUnknownError (Wrapped msg err)].

(** The repository and the digest of a mount. *)
Definition createBlobMountOption (fromRepo mountDigest : string) : option (string * digest) :=
  match digest_Parse mountDigest with
  | (_, Some _) => None
  | (dgst, None) =>
      match Reference.WithName fromRepo with
      | Ret (Reference.Repository ref) =>
          match Reference.WithDigest ref None dgst with
          | Ret (Reference.CanonicalReference ref dgst) => Some (Reference.Name ref, dgst)
          | _ => None
          end
      | _ => None
      end
  end.
(** The option of [Create]: the mounted repository has the settings of this one. *)
Definition mount_option (h : UploadHandler.handler (St := St)) (fromRepo mountDigest : string) :
    option (BlobStore.linkedBlobStore (St := St) * digest * option BlobStore.Descriptor) :=
  if negb (bool_decide (mountDigest = "")) && negb (bool_decide (fromRepo = "")) then
    match createBlobMountOption fromRepo mountDigest with
    | Some (source, dgst) =>
        Some (BlobStore.repository_Blobs source (BlobStore.lbs_deleteEnabled (UploadHandler.h_blobs h)), dgst, None)
    | None => None
    end
  else None.
Definition StartBlobUpload (a : App) (h : UploadHandler.handler (St := St)) (fromRepo mountDigest uuid : string) (now : Z) :
    H UploadHandler.response :=
  let mount := mount_option h fromRepo mountDigest in
  let name := BlobStore.lbs_name (UploadHandler.h_blobs h) in
  r ← attempt (on_storage (as_herr Dist (Upload.Create (UploadHandler.h_blobs h) (UploadHandler.h_options h) mount uuid now)));
  match r with
  | inl err => mret (UploadHandler.errors [if equals err ErrUnsupported then ErrorCodeUnsupported else ErrorCodeUnknown])
  | inr (inl desc) =>
      match mount with
      | Some (source, _, _) =>
          if a_useDatabase a then
            r ← attempt (dbMountBlob (BlobStore.lbs_name source) name (BlobStore.desc_Digest desc));
            mret (match r with
                  | inl err => failed "failed to mount blob in database" err
                  | inr _ => UploadHandler.created desc
                  end)
          else mret (UploadHandler.created desc)
      | None => mret (UploadHandler.created desc)
      end
  | inr (inr upload) => on_storage (as_herr Dist (UploadHandler.with_upload upload (UploadHandler.respond h 202)))
  end.

Definition PutBlobUploadComplete (a : App) (h : UploadHandler.handler (St := St)) (now : Z) (rq : UploadHandler.request) :
    HU UploadHandler.response :=
  r ← upload_step (UploadHandler.completeUpload chunk bufsize rq);
  match r with
  | inl resp => mret resp
  | inr desc =>
      if a_useDatabase a then
        r ← attempt (on_fst (dbPutBlobUploadComplete now (BlobStore.lbs_name (UploadHandler.h_blobs h)) desc));
        mret (match r with
              | inl err => failed "failed to create blob in database" err
              | inr _ => UploadHandler.created desc
              end)
      else mret (UploadHandler.created desc)
  end.

(** A request for the upload [uuid]. *)
Definition dispatch (a : App) (h : UploadHandler.handler (St := St)) (now : Z) (m : UploadHandler.method)
    (rq : UploadHandler.request) : HU UploadHandler.response :=
  match m with
  | UploadHandler.PUT =>
      if UploadHandler.h_readOnly h then mret (UploadHandler.set_status 405 (UploadHandler.errors []))
      else PutBlobUploadComplete a h now rq
  | _ => upload_step (UploadHandler.dispatch chunk bufsize h m rq)
  end.
Definition serve (a : App) (h : UploadHandler.handler (St := St)) (now : Z) (uuid : string) (m : UploadHandler.method)
    (rq : UploadHandler.request) : H UploadHandler.response :=
  r ← on_storage (as_herr Dist (UploadHandler.ResumeBlobUpload h uuid rq));
  match r with
  | inl resp => mret resp
  | inr upload => λ w,
      let '(o, (w, _)) := (resp ← dispatch a h now m rq; _ ← attempt (upload_step Upload.Close); mret resp) (w, upload) in
      (o, w)
  end.

End handlers.

(** ** Requests that do not reach the database *)

Section storage_only.
Context {GD : GoDigest} {GH : GoHash} {GT : GoToken} {Co : Collation} {St : Type} {D : StorageDriver St}.
Context (chunk : nat → nat) (bufsize : nat).
Implicit Types (w : world St) (a : App) (h : UploadHandler.handler (St := St)).

Lemma on_storage_run {A} (m : GoM St error A) w o s :
  calm_world w → m (w_st w) = (o, s) → on_storage (as_herr Dist m) w = (omap_err Dist o, set_st s w).
Proof. intros Hw Hm. unfold on_storage, as_herr. rewrite calm_interfere by done. by rewrite Hm. Qed.
Lemma upload_step_run {A} (m : GoM (St * Upload.blobWriter) error A) w bw o s bw' :
  calm_world w → m (w_st w, bw) = (o, (s, bw')) → upload_step m (w, bw) = (omap_err Dist o, (set_st s w, bw')).
Proof. intros Hw Hm. unfold upload_step. rewrite calm_interfere by done. by rewrite Hm. Qed.
Lemma attempt_step_run {A} (m : GoM (St * Upload.blobWriter) error A) w bw o s bw' :
  calm_world w → attempt m (w_st w, bw) = (Ret o, (s, bw')) → ∃ o', attempt (upload_step m) (w, bw) = (Ret o', (set_st s w, bw')).
Proof.
  unfold attempt. intros Hw. destruct (m (w_st w, bw)) as [o1 [s1 bw1]] eqn:Hm. rewrite (upload_step_run _ _ _ _ _ _ Hw Hm).
  destruct o1; cbn; intros [= <- <- <-]; by eexists.
Qed.

(** A request that sends data, asks for the state or cancels is the one without
    a database, as are all of them when the registry runs without one. *)
Lemma dispatch_storage a h now m rq w bw :
  calm_world w → (m = UploadHandler.PUT → a_useDatabase a = false) →
  dispatch chunk bufsize a h now m rq (w, bw) = upload_step (UploadHandler.dispatch chunk bufsize h m rq) (w, bw).
Proof.
  intros Hw Hm. destruct m; try done. cbn [dispatch]. unfold UploadHandler.dispatch.
  destruct (UploadHandler.h_readOnly h).
  { unfold upload_step. rewrite calm_interfere by done. by destruct w. }
  unfold PutBlobUploadComplete, UploadHandler.PutBlobUploadComplete. rewrite Hm by done.
  unfold upload_step, mbind, gom_bind. rewrite calm_interfere by done.
  by destruct (UploadHandler.completeUpload _ _ _ _) as [[[]| |] [s bw']].
Qed.
Lemma serve_storage a h now id m rq w :
  calm_world w → (m = UploadHandler.PUT → a_useDatabase a = false) →
  serve chunk bufsize a h now id m rq w = on_storage (as_herr Dist (UploadHandler.serve chunk bufsize h id m rq)) w.
Proof.
  intros Hw Hm. unfold serve, UploadHandler.serve.
  destruct (UploadHandler.ResumeBlobUpload h id rq (w_st w)) as [o s1] eqn:Hr.
  pose proof (on_storage_run _ _ _ _ Hw Hr) as Hr'. assert (calm_world (set_st s1 w)) as Hw1 by done.
  unfold on_storage at 2, as_herr. rewrite calm_interfere by done.
  destruct o as [[resp|bw]|e|]; cbn in Hr'.
  - by rewrite (bind_Ret _ _ _ _ _ Hr), (bind_Ret _ _ _ _ _ Hr').
  - rewrite (bind_Ret _ _ _ _ _ Hr), (bind_Ret _ _ _ _ _ Hr'). unfold UploadHandler.with_upload, mbind, gom_bind.
    rewrite dispatch_storage by done. unfold upload_step at 1. rewrite calm_interfere by done. cbn [w_st set_st].
    destruct (UploadHandler.dispatch _ _ _ _ _ _) as [[resp|e|] [s2 bw2]]; cbn; [|done..].
    unfold attempt, upload_step. rewrite calm_interfere by done. cbn [w_st set_st].
    by destruct (Upload.Close (s2, bw2)) as [[[]|e|] [s3 bw3]].
  - by rewrite (bind_Fail _ _ _ _ _ Hr), (bind_Fail _ _ _ _ _ Hr').
  - by rewrite (bind_Panic _ _ _ _ Hr), (bind_Panic _ _ _ _ Hr').
Qed.
Lemma start_storage a h fromRepo mountDigest uuid now w :
  calm_world w → (is_Some (mount_option h fromRepo mountDigest) → a_useDatabase a = false) →
  StartBlobUpload a h fromRepo mountDigest uuid now w =
    on_storage (as_herr Dist (UploadHandler.StartBlobUpload h (mount_option h fromRepo mountDigest) uuid now)) w.
Proof.
  intros Hw. unfold StartBlobUpload, UploadHandler.StartBlobUpload. generalize (mount_option h fromRepo mountDigest). intros mount Hm.
  unfold on_storage, as_herr, mbind, gom_bind, attempt. rewrite calm_interfere by done.
  destruct (Upload.Create _ _ _ _ _ _) as [[[desc|bw]|e|] s]; cbn; [|by rewrite calm_interfere; [|done]|done..].
  destruct mount as [[[source d] stat]|]; [|done]. by rewrite Hm.
Qed.

End storage_only.

(** ** The database of an upload *)

Section database.
Context {GD : GoDigest} {GDL : GoDigestLaws} {Co : Collation} {St : Type} {Drv : StorageDriver St}.
Implicit Types (w : world St).

(** A blob of the repository [r] with the digest [x] is in the database, as it
    was or as it is uploaded, and nothing else of its content changed.  The new
    blob is given a review of the garbage collector; the review of a blob that
    was there stays as it is. *)
Record uploaded (now : Z) (D D' : db) (ws : list string) (r : Repository) (x : dbdigest) (b : blob_row) : Prop := {
  ul_good : good D';
  ul_tree : tree D';
  ul_repository : repository_by_path (path_of ws) D' = Some r;
  ul_repositories : repositories D ⊆ repositories D';
  ul_new k y : repositories D' !! k = Some y → repositories D !! k = Some y ∨ r_path y ∈ prefixes ws;
  ul_blobs : blobs D' = match blobs D !! x with Some _ => blobs D | None => <[x := b]> (blobs D) end;
  ul_links : repository_blobs D' = {[(rp_NamespaceID r, rp_ID r, x)]} ∪ repository_blobs D;
  ul_reviews : is_Some (blobs D !! x) → gc_blob_review_queue D' = gc_blob_review_queue D;
  ul_manifests : manifests D' = manifests D;
  ul_layers : layers D' = layers D;
  ul_tags : tags D' = tags D;
  ul_references : manifest_references D' = manifest_references D;
  ul_namespaces : top_level_namespaces D ⊆ top_level_namespaces D';
  ul_new_namespace i y : top_level_namespaces D' !! i = Some y → top_level_namespaces D !! i = Some y ∨ head ws = Some y;
  (** The other tables: a blob that is new is queued for review, and nothing else. *)
  ul_content : RepositoryTree.content D' = RepositoryTree.content (set_repository_blobs ({[(rp_NamespaceID r, rp_ID r, x)]} ∪ repository_blobs D)
    match blobs D !! x with
    | Some _ => D
    | None => queue_blob now "blob_upload" x (set_blobs (<[x := b]> (blobs D)) D)
    end);
}.

Lemma insert_blob_run now d b D :
  ∃ c D', insert_blob now d b D = Ret (c, D') ∧ c = bool_decide (blobs D !! d = None) ∧
    blobs D' = match blobs D !! d with Some _ => blobs D | None => <[d := b]> (blobs D) end ∧
    repository_blobs D' = repository_blobs D ∧ manifests D' = manifests D ∧ layers D' = layers D ∧ tags D' = tags D ∧
    manifest_references D' = manifest_references D ∧ media_types D' = media_types D ∧
    (is_Some (blobs D !! d) → gc_blob_review_queue D' = gc_blob_review_queue D).
Proof.
  unfold insert_blob. destruct (blobs D !! d) as [y|] eqn:Hy.
  - exists false, D. by rewrite bool_decide_false.
  - eexists true, _. split; [done|]. rewrite bool_decide_true by done. unfold gc_track_blob_uploads.
    repeat case_match; split_and!; try done; by intros [? ?].
Qed.

Lemma blobStore_CreateOrFind_ok now b x D :
  good D → tree D → NewDigest (blob_Digest b) = Ret x → blob_MediaType b ∈ media_types D →
  ∃ b' D', blobStore_CreateOrFind now b (ok_tx D) = (Ret b', ok_tx D') ∧ blob_Digest b' = blob_Digest b ∧ good D' ∧ tree D' ∧
    repositories D' = repositories D ∧
    ∃ c, insert_blob now x {| b_media_type := blob_MediaType b; b_size := blob_Size b |} D = Ret (c, D').
Proof.
  intros H HT Hx Ht. set (y := {| b_media_type := blob_MediaType b; b_size := blob_Size b |}).
  destruct (insert_blob_run now x y D) as (c & D' & Hi & Hc & Hb & _).
  assert (∃ b', blobStore_CreateOrFind now b (ok_tx D) = (Ret b', ok_tx D') ∧ blob_Digest b' = blob_Digest b) as (b' & Hrun & Hb').
  { unfold blobStore_CreateOrFind. erewrite bind_Ret by by apply newDigest_ok. erewrite bind_Ret by by apply mapMediaType_ok.
    erewrite bind_Ret by by apply errorf_ok, exec_ok. destruct c; [by exists b|]. symmetry in Hc. apply bool_decide_eq_false in Hc.
    unfold blobStore_FindByDigest. destruct (blobs D !! x) as [z|] eqn:Hz; [|done].
    set (found := {| blob_MediaType := b_media_type z; blob_Digest := blob_Digest b; blob_Size := b_size z |}).
    exists found. split; [|done]. rewrite (bind_Ret _ _ _ (Some found) (ok_tx D')); [done|].
    erewrite bind_Ret by by apply newDigest_ok. erewrite bind_Ret by by apply errorf_ok, exec_ok.
    rewrite Hb, Hz. unfold lift, mbind, gom_bind. by rewrite (Parse_NewDigest _ _ Hx). }
  exists b', D'. split; [done|]. split; [done|]. split_and!.
  - eapply (keeps_ok good); [|exact H|exact Hrun]. apply keeps_ignored, (run_op_keeps (CreateOrFindBlob now b)).
  - by eapply same_repos_tree, HT; eapply insert_blob_repos.
  - by pose proof (insert_blob_repos _ _ _ _ _ _ Hi) as [= _ -> _ _].
  - by exists c.
Qed.
Lemma insert_link_run n r d D :
  is_Some (repositories D !! (n, r)) → is_Some (blobs D !! d) →
  ∃ D', insert_repository_blob n r d D = Ret (tt, D') ∧ D' = set_repository_blobs ({[(n, r, d)]} ∪ repository_blobs D) D.
Proof.
  intros [y Hr] [b Hb]. unfold insert_repository_blob. case_bool_decide as Hl.
  - exists D. split; [done|]. replace ({[(n, r, d)]} ∪ repository_blobs D) with (repository_blobs D) by set_solver. by destruct D.
  - rewrite bool_decide_false by congruence. rewrite Hb. by eexists.
Qed.
Lemma repositoryStore_LinkBlob_ok r d x D :
  good D → tree D → is_repository D r → NewDigest d = Ret x → is_Some (blobs D !! x) →
  let D' := set_repository_blobs ({[(rp_NamespaceID r, rp_ID r, x)]} ∪ repository_blobs D) D in
  repositoryStore_LinkBlob (rp_NamespaceID r) (rp_ID r) d (ok_tx D) = (Ret tt, ok_tx D') ∧ good D' ∧ tree D'.
Proof.
  intros H HT Hr Hx Hb. destruct (insert_link_run (rp_NamespaceID r) (rp_ID r) x D) as (D' & Hi & HD'); [by eexists|done|].
  rewrite <-HD'. cbn zeta.
  assert (repositoryStore_LinkBlob (rp_NamespaceID r) (rp_ID r) d (ok_tx D) = (Ret tt, ok_tx D')) as Hrun.
  { unfold repositoryStore_LinkBlob. erewrite bind_Ret by by apply newDigest_ok. by apply errorf_ok, exec_ok. }
  split_and!; [done|..].
  - eapply (keeps_ok good); [|exact H|exact Hrun]. apply (run_op_keeps (LinkBlob (rp_NamespaceID r) (rp_ID r) d)).
  - by eapply same_repos_tree, HT; eapply insert_repository_blob_repos.
Qed.

Lemma complete_in_database now ws desc x w :
  calm_world w → good (w_db w) → tree (w_db w) → good_path ws → ws ≠ [] → too_long (path_of ws) = false →
  NewDigest (BlobStore.desc_Digest desc) = Ret x → BlobStore.MediaType desc ∈ media_types (w_db w) →
  ∃ D' r, dbPutBlobUploadComplete now (path_of ws) desc w = (Ret tt, with_db D' w) ∧
    uploaded now (w_db w) D' ws r x {| b_media_type := BlobStore.MediaType desc; b_size := BlobStore.Size desc |}.
Proof.
  intros Hw H HT Hg Hne Hl Hx Ht. destruct ws as [|v ws _] using rev_ind; [done|].
  set (b := {| blob_MediaType := BlobStore.MediaType desc; blob_Digest := BlobStore.desc_Digest desc; blob_Size := BlobStore.Size desc |}).
  destruct (blobStore_CreateOrFind_ok now b x (w_db w) H HT Hx Ht) as (b' & D1 & Hrun1 & Hb' & H1 & HT1 & Hrs1 & c & Hi).
  destruct (insert_blob_run now x {| b_media_type := blob_MediaType b; b_size := blob_Size b |} (w_db w))
    as (c' & D1' & Hi' & _ & Hb1 & Hlk1 & Hm1 & Hly1 & Htg1 & Hrf1 & Hmt1 & Hq1).
  rewrite Hi in Hi'. injection Hi' as <- <-. pose proof (insert_blob_repos _ _ _ _ _ _ Hi) as [= Hns1 _ _ _].
  destruct (does_run _ _ _ _ (repositoryStore_CreateOrFindByPath_does ws v D1 never HT1 Hg ltac:(congruence)))
    as (r & D2 & Hrun2 & Hgr & Hr & Hp).
  assert (good D2) as H2.
  { eapply (keeps_ok good); [|exact H1|exact Hrun2].
    apply keeps_ignored, (run_op_keeps (CreateOrFindRepositoryByPath (path_of (ws ++ [v])))). }
  pose proof (gr_content _ _ _ _ Hgr) as Hc.
  pose proof (f_equal blobs Hc) as Hb2. pose proof (f_equal repository_blobs Hc) as Hlk2. cbn in Hb2, Hlk2.
  destruct (repositoryStore_LinkBlob_ok r (blob_Digest b') x D2 H2 (gr_tree _ _ _ _ Hgr) Hr) as (Hrun3 & H3 & HT3).
  { by rewrite Hb'. }
  { rewrite Hb2, Hb1. destruct (blobs (w_db w) !! x) as [z|] eqn:Hz; [by rewrite Hz|by rewrite lookup_insert_eq]. }
  eexists _, r. split; [|split; [exact H3|exact HT3|..]]; cbn.
  - apply in_tx_ok; [done|]. erewrite bind_Ret by by apply as_herr_ok. erewrite bind_Ret by by apply as_herr_ok.
    by apply as_herr_ok.
  - by apply by_path_Some.
  - rewrite <-Hrs1. apply Hgr.
  - rewrite <-Hrs1. apply Hgr.
  - by rewrite Hb2.
  - by rewrite Hlk2, Hlk1.
  - intros Hz. pose proof (f_equal gc_blob_review_queue Hc) as Hq. cbn in Hq. rewrite Hq. by apply Hq1.
  - pose proof (f_equal manifests Hc) as Hq. cbn in Hq. congruence.
  - pose proof (f_equal layers Hc) as Hq. cbn in Hq. congruence.
  - pose proof (f_equal tags Hc) as Hq. cbn in Hq. congruence.
  - pose proof (f_equal manifest_references Hc) as Hq. cbn in Hq. congruence.
  - rewrite <-Hns1. apply Hgr.
  - rewrite <-Hns1. apply Hgr.
  - transitivity (RepositoryTree.content (set_repository_blobs ({[(rp_NamespaceID r, rp_ID r, x)]} ∪ repository_blobs D2) D1)).
    + apply (f_equal (set_repository_blobs ({[(rp_NamespaceID r, rp_ID r, x)]} ∪ repository_blobs D2))) in Hc. exact Hc.
    + rewrite Hlk2, Hlk1. do 2 f_equal. unfold insert_blob in Hi. by destruct (blobs (w_db w) !! x); injection Hi as <- <-.
Qed.
Lemma uploaded_linked now D D' ws r x b d : NewDigest d = Ret x → uploaded now D D' ws r x b → is_Some (linked D' r d).
Proof.
  intros Hx Hu. pose proof (ul_blobs _ _ _ _ _ _ _ Hu) as Hb. pose proof (ul_links _ _ _ _ _ _ _ Hu) as Hl. unfold linked, linked_blob. rewrite Hx, bool_decide_true by (rewrite Hl; set_solver).
  rewrite Hb. destruct (blobs D !! x) as [z|] eqn:Hz; [by rewrite Hz|by rewrite lookup_insert_eq].
Qed.

End database.
End UploadDatabase.
