(* ===== verification/UploadPull.v ===== *)
(** * What is uploaded can be pulled

    An upload with the metadata database, in any number of requests, leaves the
    blob in the storage and in the database, where a pull finds it. *)

From S2P Require Import Prelude GoStd Digest GoText DigestSet Regexp Reference Driver FileSystem Paths ObjectStore FileReader BlobStore Upload UploadSpec Hmac ErrCode UploadHandler UploadProps Database Tracking Datastore Transactions Repositories RepositoryTree RepositoryQueries StoreOps OnlineGCProps Registry Rows Api Handlers PushProps PushPull PullProps UploadDatabase.

Module UploadPull.
Import ErrCode GoText Hmac Paths ObjectStore Upload UploadSpec UploadHandler UploadProps.
Import Database Tracking Datastore Transactions Repositories RepositoryTree RepositoryQueries StoreOps OnlineGCProps Registry Rows Api Handlers PushProps PushPull PullProps UploadDatabase.

Section upload_pull.
Context {GD : GoDigest} {GDL : GoDigestLaws} {GH : GoHash} {GHL : GoHashLaws} {GT : GoToken} {GTL : GoTokenLaws} {Co : Collation}.
Context {St : Type} {Drv : StorageDriver St} {view : St → fs} {inv : St → Prop} {ok : fpath → Prop}.
Context {L : DriverLaws Drv view inv ok} {opened : St → drv_writer → fpath → bytes → wstate → Prop}.
Context {WL : WriterLaws Drv view inv ok opened}.
Context (chunk : nat → nat) (bufsize : nat).
Hypothesis Hchunk : ∀ k, 0 < k → 0 < chunk k ≤ k.
Hypothesis Hbufsize : 0 < bufsize.
Context (a : App) (h : UploadHandler.handler (St := St)) (ws : list string) (del : bool).
Hypothesis Hblobs : UploadHandler.h_blobs h = BlobStore.repository_Blobs (path_of ws) del.
Hypothesis Happ : a_useDatabase a = true ∧ a_writeFSMetadata a = false ∧ a_redirect a = false ∧ opt_mirrorFS (UploadHandler.h_options h) = false.
Implicit Types (w : world St).

Abbreviation rinv := (ObjectStore.rinv (view := view) (inv := inv)).
Abbreviation supported := (ObjectStore.supported (ok := ok)).
Abbreviation upload_paths := (UploadSpec.upload_paths (ok := ok)).
Abbreviation persisted := (UploadSpec.persisted (view := view) (inv := inv) (ok := ok)).
Abbreviation committed_objects := (UploadProps.committed_objects (view := view)).
Abbreviation blob_paths := (UploadProps.blob_paths (ok := ok)).
Abbreviation obj s := (object (view s)).
Abbreviation len b := (Z.of_nat (String.length b)).

(** The requests of an upload, each sent with the token of the response before
    it. *)
Fixpoint patches (now : Z) (id token : string) (rqs : list request) : GoM (world St) herr string :=
  match rqs with
  | [] => mret token
  | rq :: rqs => r ← serve chunk bufsize a h now id PATCH (with_token token rq); patches now id (rs_location r) rqs
  end.
Definition upload (id : string) (now : Z) (rqs : list request) (put : request) : GoM (world St) herr response :=
  r ← StartBlobUpload a h "" "" id now;
  token ← patches now id (rs_location r) rqs;
  serve chunk bufsize a h now id PUT (with_token token put).

Lemma patches_storage now id rqs : ∀ token w,
  calm_world w → patches now id token rqs w = on_storage (as_herr Dist (UploadProps.patches chunk bufsize h id token rqs)) w.
Proof.
  induction rqs as [|rq rqs IH]; intros token w Hw; cbn [patches UploadProps.patches].
  { unfold on_storage. rewrite calm_interfere by done. by destruct w. }
  unfold mbind at 1, gom_bind at 1. rewrite serve_storage by done. unfold on_storage, as_herr. rewrite calm_interfere by done.
  unfold mbind, gom_bind. destruct (UploadHandler.serve _ _ _ _ _ _ _) as [[r|e|] s]; [|done..]. cbn.
  rewrite IH by done. unfold on_storage, as_herr. by rewrite calm_interfere.
Qed.
Lemma send_storage now id rqs w token s :
  calm_world w → UploadProps.send chunk bufsize h id now rqs (w_st w) = (Ret token, s) →
  ∃ r s1, StartBlobUpload a h "" "" id now w = (Ret r, set_st s1 w) ∧
    patches now id (rs_location r) rqs (set_st s1 w) = (Ret token, set_st s w).
Proof.
  intros Hw. unfold UploadProps.send, mbind, gom_bind. destruct (UploadHandler.StartBlobUpload _ _ _ _ _) as [[r|e|] s1] eqn:Hs; try done.
  intros Hp. exists r, s1. rewrite start_storage by (done || by intros [? ?]). split; [by apply (on_storage_run _ _ _ _ Hw Hs)|].
  rewrite patches_storage by done. by rewrite (on_storage_run _ (set_st s1 w) (Ret token) s).
Qed.

(** The request that completes an upload. *)
Lemma serve_put_database w id now b rq x :
  let d := rq_digest rq in let c := b +:+ sent rq in
  calm_world w → good (w_db w) → tree (w_db w) → good_path ws → ws ≠ [] → too_long (path_of ws) = false →
  persisted (w_st w) (path_of ws) id b → token_for h (path_of ws) id (len b) rq → (len c < 2 ^ 63)%Z → h_readOnly h = false →
  delivered rq = true → digest_Validate d = None → matches d c → blob_paths (path_of ws) d c →
  NewDigest (digest_FromBytes c) = Ret x → BlobStore.MediaType (blob_descriptor c) ∈ media_types (w_db w) →
  ∃ D' r s', serve chunk bufsize a h now id PUT rq w = (Ret (created (blob_descriptor c)), with_db D' (set_st s' w)) ∧
    rinv s' ∧ committed_objects (w_st w) s' (path_of ws) id false d c ∧
    uploaded now (w_db w) D' ws r x {| b_media_type := BlobStore.MediaType (blob_descriptor c); b_size := len c |}.
Proof.
  intros d c Hw HD HT Hg Hne Hl Hp Ht Hlen Hro Hdel Hd Hm Hbp Hx Hmt. destruct Happ as (Hdb & _ & _ & Hmir).
  destruct (put_steps chunk bufsize Hchunk Hbufsize h (path_of ws) del Hblobs (w_st w) id b rq Hp Ht Hlen Hdel Hd Hm Hbp)
    as (bw & s1 & bw3 & s3 & Hres & Hcomp & Hclose & Hr3 & Hv3). rewrite Hmir in Hv3. fold c in Hcomp, Hv3.
  destruct (complete_in_database now ws (blob_descriptor c) x (set_st s3 w)) as (D' & r & Hrun & Hup); [done..|].
  exists D', r, s3. split_and!; try done. unfold serve.
  pose proof (on_storage_run _ _ _ _ Hw Hres) as Hres'. rewrite (bind_Ret _ _ _ _ _ Hres').
  assert (dispatch chunk bufsize a h now PUT rq (set_st s1 w, bw) = (Ret (created (blob_descriptor c)), (with_db D' (set_st s3 w), bw3))) as Hdisp.
  { cbn [dispatch]. rewrite Hro. unfold PutBlobUploadComplete.
    pose proof (upload_step_run _ (set_st s1 w) bw _ _ _ ltac:(done) Hcomp) as Hstep.
    change (set_st s3 (set_st s1 w)) with (set_st s3 w) in Hstep. rewrite (bind_Ret _ _ _ _ _ Hstep), Hdb.
    rewrite (bind_Ret _ _ _ (inr tt) (with_db D' (set_st s3 w), bw3)); [done|].
    unfold attempt, on_fst. cbn [fst snd]. rewrite Hblobs. cbn [BlobStore.lbs_name BlobStore.repository_Blobs]. by rewrite Hrun. }
  rewrite (bind_Ret _ _ _ _ _ Hdisp).
  destruct (attempt_step_run Upload.Close (with_db D' (set_st s3 w)) bw3 _ _ _ (calm_with_db D' (set_st s3 w) Hw) Hclose) as (o' & Hclose').
  by rewrite (bind_Ret _ _ _ _ _ Hclose').
Qed.

(** C8: What is uploaded to a registry that keeps its metadata in the database
    alone, without mirroring it to the storage, and does not redirect to the
    storage is what is pulled.  For every way in which a content is cut into
    requests and reads, the upload is answered with 201; the content is in the
    storage, without a trace of the upload, and the other objects are as they
    were; the database has the blob, linked to the repository of the path, which
    is created with its namespace and its parents if there was none, and a blob
    that is new is queued for review, while every other row of the database is as
    it was; and the blob that is then requested is the content. *)
Theorem upload_then_pull id now rqs put x w :
  let d := rq_digest put in let b := UploadProps.content rqs put in
  calm_world w → reached (Drv := Drv) (w_db w) → good_path ws → ws ≠ [] → too_long (path_of ws) = false →
  "application/octet-stream" ∈ media_types (w_db w) → NewDigest (digest_FromBytes b) = Ret x →
  rinv (w_st w) → upload_paths (path_of ws) id → formattable now = true → packs h (path_of ws) id → h_readOnly h = false →
  (∀ o, is_object (state (path_of ws) id o) = true → obj (w_st w) (state (path_of ws) id o) = None) →
  forallb octet_stream rqs = true → forallb delivered (put :: rqs) = true → (len b < 2 ^ 63)%Z →
  digest_Validate d = None → matches d b → blob_paths (path_of ws) d b → no_clash (view := view) (w_st w) b →
  ∃ D' r s', let w' := with_db D' (set_st s' w) in
    upload id now rqs put w = (Ret (created (blob_descriptor b)), w') ∧
    (∀ spec, is_object spec = true → obj s' spec =
       if of_upload (path_of ws) id spec then None
       else if decide (spec = blobDataPathSpec (digest_FromBytes b)) then Some b else obj (w_st w) spec) ∧
    uploaded now (w_db w) D' ws r x {| b_media_type := "application/octet-stream"; b_size := len b |} ∧
    GetBlob a (path_of ws) (digest_FromBytes b) w' = (Ret (blob_answer (digest_FromBytes b) b), w').
Proof.
  intros d b Hw HD Hg Hne Hl Hmt Hx Hr Hp Hf Hpk Hro Hfresh Hct Hdel Hlen Hd Hm Hbp Hnc.
  apply andb_true_iff in Hdel as [Hdelp Hdel]. set (b0 := joined (sent <$> rqs)) in *.
  assert (len b0 < 2 ^ 63)%Z as Hlen0 by (unfold b, UploadProps.content in Hlen; rewrite str_length_app in Hlen; fold b0 in Hlen; lia).
  destruct (send_spec chunk bufsize Hchunk Hbufsize h (path_of ws) del Hblobs (w_st w) id now rqs) as (s2 & tok & Hsend & Hp2 & Ht2 & Ho); [done..|].
  fold b0 in Hp2, Ht2. destruct (send_storage now id rqs w tok s2 Hw Hsend) as (resp & s1 & Hstart & Hpat).
  destruct (serve_put_database (set_st s2 w) id now b0 (with_token tok put) x) as (D' & r & s3 & Hput & Hr3 & Hv3 & Hup);
    try done; [by apply reached_good|by apply reached_tree|by apply Ht2|].
  change (b0 +:+ sent (with_token tok put)) with b in Hput, Hv3, Hup. change (rq_digest (with_token tok put)) with d in Hv3.
  assert (∀ spec, is_object spec = true → obj s3 spec =
       if of_upload (path_of ws) id spec then None
       else if decide (spec = blobDataPathSpec (digest_FromBytes b)) then Some b else obj (w_st w) spec) as Hv.
  { intros spec Hs. rewrite Hv3 by done. destruct (of_upload (path_of ws) id spec) eqn:Hu; [done|]. cbn [w_st set_st].
    rewrite !Ho by (done || apply Hbp). case_decide; [|by rewrite decide_False by naive_solver].
    destruct (obj (w_st w) (blobDataPathSpec (digest_FromBytes b))) as [y|] eqn:Hy; [by rewrite (Hnc y Hy)|done]. }
  destruct Happ as (Hdb & Hfs & Hre & _). exists D', r, s3. cbn zeta. split_and!; [|done|exact Hup|].
  - unfold upload. rewrite (bind_Ret _ _ _ _ _ Hstart), (bind_Ret _ _ _ _ _ Hpat). exact Hput.
  - eapply get_blob_run; try done; [by apply calm_with_db|apply Hup|apply Hbp|apply Hup|by eapply uploaded_linked|]. cbn.
    rewrite Hv by apply Hbp. cbn [of_upload]. by rewrite decide_True.
Qed.

End upload_pull.
(** ** Mounts *)

Section mounts.
Context {GD : GoDigest} {GDL : GoDigestLaws} {GH : GoHash} {GT : GoToken} {Co : Collation}.
Context {St : Type} {Drv : StorageDriver St} {view : St → fs} {inv : St → Prop} {ok : fpath → Prop}.
Context {L : DriverLaws Drv view inv ok}.
Implicit Types (w : world St).

(** A mount looks for the link of the blob in the storage, whether or not the
    registry runs with the database.  Where there is none, as in a registry that
    does not write the metadata of the file system, the request starts an
    upload, also when the database has the blob in the source repository. *)
Theorem mount_needs_link a (h : handler (St := St)) fromRepo mountDigest source d uuid now w :
  calm_world w → ObjectStore.rinv (view := view) (inv := inv) (w_st w) →
  createBlobMountOption fromRepo mountDigest = Some (source, d) →
  ObjectStore.supported (ok := ok) (layerLinkPathSpec source d) →
  object (view (w_st w)) (layerLinkPathSpec source d) = None →
  StartBlobUpload a h fromRepo mountDigest uuid now w = StartBlobUpload a h "" "" uuid now w.
Proof.
  intros Hw Hr Hm Hs Hn. assert (Create (h_blobs h) (h_options h) (mount_option h fromRepo mountDigest) uuid now (w_st w) =
    Create (h_blobs h) (h_options h) None uuid now (w_st w)) as Hc.
  { unfold mount_option. destruct (_ && _); [|done]. rewrite Hm.
    unfold Create. erewrite bind_Ret; [by erewrite bind_Ret|]. unfold BlobStore.lbs_mount, mbind, gom_bind, attempt.
    rewrite BlobStore.Blobs_Stat. by rewrite (BlobStore.stat_unlinked (w_st w) [layerLinkPathSpec] source d) by (done || by apply Forall_singleton). }
  unfold StartBlobUpload, on_storage, as_herr, mbind, gom_bind, attempt. change (mount_option h "" "") with (@None (BlobStore.linkedBlobStore (St := St) * digest * option BlobStore.Descriptor)).
  rewrite calm_interfere, Hc by done.
  destruct (Create (h_blobs h) (h_options h) None uuid now (w_st w)) as [[[desc|bw]|e|] s] eqn:Hcr; [|done..]. exfalso.
  revert Hcr. unfold Create, mbind, gom_bind. cbn [mret gom_ret]. by repeat case_match.
Qed.

End mounts.
End UploadPull.
