(* ===== verification/SampleOnlineGC.v ===== *)
(** * The online garbage collection of a concrete registry

    The storage of Sample.v with a metadata database for it: the inputs on
    which the theorems of the online garbage collection are evaluated, and an
    interleaving of a worker with the API that loses the content of a layer. *)

From S2P Require Import Prelude GoStd Digest Driver FileSystem InMemory InMemoryFS Paths ObjectStore BlobStore Vacuum Database Tracking Datastore Transactions OnlineGC OnlineGCSafety OnlineGCProps OnlineGCProgress Sample.

Module SampleOnlineGC.
Import Paths ObjectStore Database Tracking Datastore Transactions OnlineGC OnlineGCProps OnlineGCProgress Sample.

Definition layer_blob (d : digest) : Blob := {| blob_MediaType := "application/vnd.docker.image.rootfs.diff.tar.gzip"; blob_Digest := d; blob_Size := 5 |}.
Definition image (i : Z) (d : digest) : Manifest :=
  {| mf_ID := i; mf_NamespaceID := 1; mf_RepositoryID := 2; mf_SchemaVersion := 2;
     mf_MediaType := "application/vnd.docker.distribution.manifest.v2+json"; mf_Digest := d; mf_Payload := "{}";
     mf_Configuration := None |}.

(** A repository with a tagged and an untagged image, each with a layer. *)
Definition push : list store_op :=
  [CreateOrFindRepositoryByPath repo; CreateBlob 0 (layer_blob layer); CreateBlob 0 (layer_blob garbage);
   CreateManifest 0 (image 1 dgst); AssociateLayerBlob (image 1 dgst) (layer_blob layer);
   CreateOrUpdateTag 0 1 2 1 "latest";
   CreateManifest 0 (image 2 old); AssociateLayerBlob (image 2 old) (layer_blob garbage)].
Definition begun : tx := {| tx_db := migrated; tx_failed := false; tx_faults := [] |}.
Definition pushed : tx := (run_ops push begun).2.
Definition database : db := tx_db pushed.

Definition late : Z := (3 * day)%Z.

Lemma pushed_run : run_ops push begun = (Ret tt, pushed).
Proof.
  rewrite (surjective_pairing (run_ops push begun)). fold pushed.
  assert ((run_ops push begun).1 = Ret tt) as -> by (vm_compute; reflexivity). reflexivity.
Qed.
Lemma pushed_reachable : reachable (St := state) database.
Proof.
  exists registry, registry. apply rtc_once. exact (step_transaction push [] migrated registry pushed pushed_run).
Qed.

(** The digests of a database. *)
Definition digests (D : db) : list dbdigest :=
  (map_to_list (blobs D)).*1 ++ (map_to_list (gc_blob_review_queue D)).*1.
Definition storableb (x : dbdigest) : bool :=
  match Parse x with
  | Ret d => is_object (blobDataPathSpec d) && InMemoryFS.okb (layout (blobPathSpec d))
  | _ => true
  end.
Lemma digests_known D x : known D x → x ∈ digests D.
Proof.
  unfold digests. rewrite elem_of_app. intros [[b Hb]|[r Hr]]; [left|right]; apply list_elem_of_fmap.
  - exists (x, b). by rewrite elem_of_map_to_list.
  - exists (x, r). by rewrite elem_of_map_to_list.
Qed.

Abbreviation ready := (OnlineGCProgress.ready (view := view) (sinv := inv) (ok := ok)).

Lemma database_ready : ready (database, registry).
Proof.
  split.
  - eapply reachable_good, pushed_reachable.
  - apply registry_rinv.
  - intros x d Hx%digests_known Hp.
    assert (forallb storableb (digests database) = true) as Hall by (vm_compute; reflexivity).
    rewrite forallb_forall in Hall. specialize (Hall x (proj1 (list_elem_of_In _ _) Hx)). unfold storableb in Hall. rewrite Hp in Hall.
    apply andb_true_iff in Hall as [Ho Hok]. split; [done|]. by apply sample_ok.
Qed.

(** ** Witnesses *)

(** A digest as the database stores it. *)
Definition row (d : digest) : dbdigest := match NewDigest d with Ret x => x | _ => "" end.

Lemma online_gc_invariant_witness :
  blob_tracked (row layer) database = true ∧ referenced database (row layer).
Proof.
  destruct (OnlineGCProps.online_gc_invariant (St := state) database) as (H & _).
  - apply pushed_reachable.
  - split; [vm_compute; reflexivity|]. apply H. vm_compute. reflexivity.
Defined.

Lemma online_gc_terminates_witness : Acc (λ s2 s1, productive s1 s2) (database, registry).
Proof. apply (OnlineGCProgress.online_gc_terminates (view := view) (sinv := inv) (ok := ok)). apply database_ready. Defined.

Lemma online_gc_converges_witness : ∃ s', rtc productive (database, registry) s' ∧ clean s'.1.
Proof. apply (OnlineGCProgress.online_gc_converges (view := view) (sinv := inv) (ok := ok)). apply database_ready. Defined.

Lemma garbage_queued : gc_blob_review_queue database !! row garbage = Some {| review_after := day; review_count := 0 |}.
Proof. vm_compute. reflexivity. Qed.
Lemma old_queued : gc_manifest_review_queue database !! (1, 2, 2)%Z = Some {| review_after := day; review_count := 0 |}.
Proof. vm_compute. reflexivity. Qed.

Lemma blob_worker_run_witness :
  ∃ D' S', BlobWorker_Run late ∅ [] (database, registry) = (Ret true, (D', S')) ∧ tags D' = tags database.
Proof.
  destruct (OnlineGCProgress.blob_worker_run (view := view) (sinv := inv) (ok := ok) late ∅ database registry)
    as [[Hdue _]|(x & r & d & D' & S' & _ & Hrun & _ & _ & _ & Ht & _)].
  - apply database_ready.
  - exfalso. apply (not_elem_of_empty (C := gset dbdigest) (row garbage)).
    apply (Hdue _ _ garbage_queued). reflexivity.
  - exists D', S'. split; [exact Hrun|exact Ht].
Defined.

Lemma manifest_worker_run_witness :
  ∃ D', ManifestWorker_Run late ∅ [] (database, registry) = (Ret true, (D', registry)).
Proof.
  destruct (OnlineGCProgress.manifest_worker_run late ∅ database registry) as [[Hdue _]|(k & r & m & D' & _ & _ & _ & Hrun & _)].
  - apply database_ready.
  - exfalso. apply (not_elem_of_empty (C := gset row_key) (1, 2, 2)%Z).
    apply (Hdue _ _ old_queued). reflexivity.
  - exists D'. exact Hrun.
Defined.

Lemma workers_safe_witness :
  let '(_, (D', _)) := BlobWorker_Run late ∅ [None; Some ConnectionError] (database, registry) in
  layers D' = layers database.
Proof.
  destruct (OnlineGCProgress.workers_safe late ∅ ∅ [None; Some ConnectionError] database registry) as [H _].
  - apply database_ready.
  - destruct (BlobWorker_Run _ _ _ _) as [o [D' S']]. apply H.
Defined.

Lemma exponentialBackoff_doubles_witness : (exponentialBackoff 3 = 40 * minute)%Z.
Proof.
  destruct (OnlineGCProgress.exponentialBackoff_doubles 3) as [H _]; [discriminate..|]. rewrite H. reflexivity.
Defined.

Lemma digest_database_roundtrip_witness : Parse (row layer) = Ret layer.
Proof. apply (OnlineGCProgress.digest_database_roundtrip layer). vm_compute. reflexivity. Defined.

(** ** A race with the API

    A worker finds the blob of a layer dangling; the API commits a manifest
    with that layer before the worker deletes the blob.  The worker removes the
    content from the storage, the database refuses the deletion of the row, and
    the layer is left without content. *)

Definition unlinked : db := tx_db (run_ops [CreateOrFindRepositoryByPath repo; CreateBlob 0 (layer_blob layer)] begun).2.
Definition task : GCBlobTask := {| bt_ReviewAfter := day; bt_ReviewCount := 0; bt_Digest := layer |}.
Definition linked : db := tx_db (run_ops [CreateManifest 0 (image 1 dgst);
  AssociateLayerBlob (image 1 dgst) (layer_blob layer); CreateOrUpdateTag 0 1 2 1 "latest"] (ok_tx unlinked)).2.

Theorem blob_worker_race :
  (gcBlobTaskStore_IsDangling task (ok_tx unlinked)).1 = Ret true ∧
  let '(o, s) := deleteBlob task (in_run linked linked registry) in
  (∀ a, o ≠ Ret a) ∧
  bool_decide (map_Exists (λ _ l, l_digest l = row layer) (layers (r_committed s))) = true ∧
  object (view registry) (blobDataPathSpec layer) = Some "layer" ∧
  object (view (r_storage s)) (blobDataPathSpec layer) = None.
Proof. vm_compute. done. Qed.

End SampleOnlineGC.
