(* ===== verification/SampleUpload.v ===== *)
(** * A concrete upload

    The in-memory driver, the concrete digests and a concrete hash and token,
    on which the theorems about uploads are evaluated. *)

From stdpp Require Import countable.
From S2P Require Import Prelude GoStd Digest GoText Driver FileSystem InMemory InMemoryFS Paths ObjectStore FileReader BlobStore Sample Upload UploadSpec Hmac ErrCode UploadHandler UploadProps.

Module SampleUpload.
Import ErrCode GoText Paths ObjectStore BlobStore Upload UploadSpec Hmac ErrCode UploadHandler UploadProps Sample.
#[export] Existing Instance InMemoryFS.inmemory_writer_laws.

(** ** A hash *)

(** The state of the hash is what was written to it. *)
Definition sample_AlgFromBytes (alg : string) (b : bytes) : digest :=
  alg +:+ ":" +:+ sample_hash (default 0 (sample_size alg) / 2) b.
#[export] Instance go_hash : GoHash := {|
  hash := string;
  hash_New := "";
  hash_Write h b := h +:+ b;
  hash_Digest h := digest_FromBytes h;
  hash_Binary := true;
  hash_MarshalBinary h := Ret h;
  hash_UnmarshalBinary b := Ret b;
  digest_Canonical := "sha256";
  digest_AlgFromBytes := sample_AlgFromBytes;
  digest_Verified d b :=
    match digest_Validate d with
    | None => Ret (bool_decide (d = sample_AlgFromBytes (digest_Algorithm d) b))
    | Some _ => Panic
    end;
|}.
#[export] Instance go_hash_laws : GoHashLaws.
Proof.
  split; cbn -[sample_hash].
  - intros h. apply str_app_nil_r.
  - intros h a b. by rewrite str_app_assoc.
  - done.
  - done.
  - intros h. by exists h.
  - done.
  - intros d b ->. done.
Qed.

(** ** A token *)

Fixpoint bits (p : positive) : string :=
  match p with
  | xH => ""
  | xO p => String "0" (bits p)
  | xI p => String "1" (bits p)
  end.
Fixpoint unbits (s : string) : positive :=
  match s with
  | "" => xH
  | String c s => if bool_decide (c = "0"%char) then xO (unbits s) else xI (unbits s)
  end.
Lemma unbits_bits p : unbits (bits p) = p.
Proof. induction p as [p IH|p IH|]; cbn; by rewrite ?IH. Qed.

Fixpoint fill (n : nat) (s : string) : string :=
  match n, s with
  | 0, _ => ""
  | S n, "" => String "." (fill n "")
  | S n, String c s => String c (fill n s)
  end.
Lemma fill_length n s : String.length (fill n s) = n.
Proof. revert s. induction n as [|n IH]; intros [|c s]; cbn; by rewrite ?IH. Qed.

#[export] Instance go_token : GoToken := {|
  mac secret m := fill 32 (secret +:+ m);
  json_Marshal st := Ret (bits (encode (st_Name st, st_UUID st, st_Offset st, st_StartedAt st)));
  json_Unmarshal b :=
    match decode (A := string * string * Z * Z) (unbits b) with
    | Some (n, u, o, t) => Ret {| st_Name := n; st_UUID := u; st_Offset := o; st_StartedAt := t |}
    | None => Fail (errors_New "json")
    end;
|}.
#[export] Instance go_token_laws : GoTokenLaws.
Proof.
  split.
  - intros secret m. apply fill_length.
  - intros [n u o t] m [= <-]. cbn. by rewrite unbits_bits, decode_encode.
Qed.

(** ** An upload *)

Definition id : string := "b1946ac9-2492-4d23-b4ba-3b1b2a8d6b1f".
Definition now : Z := (1636900000 * 10 ^ 9)%Z.
Definition config : handler (St := InMemory.state) :=
  {| h_blobs := repository_Blobs repo true; h_options := {| opt_resumableDigestEnabled := true; opt_mirrorFS := true |};
     h_secret := "secret"; h_readOnly := false |}.
Definition body (reads : list bytes) (d token : string) : request :=
  {| rq_state := token; rq_digest := d; rq_ContentType := ""; rq_ContentLength := -1; rq_reads := reads; rq_err := None;
     rq_disconnected := false |}.
(** Reads of up to three bytes. *)
Definition chunk (k : nat) : nat := Nat.min k 3.
Lemma chunk_ok k : 0 < k → 0 < chunk k ≤ k.
Proof. unfold chunk. lia. Qed.

Lemma state_supported o : supported (UploadSpec.state repo id o).
Proof.
  split; [reflexivity|]. rewrite state_layout. assert (InMemoryFS.ok (states_dir repo id)) as (_ & Hg & Hn).
  { apply InMemoryFS.okb_ok. vm_compute. reflexivity. }
  split_and!.
  - by destruct (states_dir repo id).
  - apply Forall_app. split; [done|]. constructor; [|constructor]. apply safe_good, safe_offset.
  - apply InMemoryFS.nostutter_snoc; [done|]. change (last (states_dir repo id)) with (Some "sha256"). intros [= Ho].
    by apply letter_not_pretty in Ho.
Qed.
Lemma paths : UploadSpec.upload_paths (ok := ok) repo id.
Proof.
  split.
  - apply supportedb_spec. vm_compute. reflexivity.
  - apply supportedb_spec. vm_compute. reflexivity.
  - intros o _. apply state_supported.
  - apply InMemoryFS.okb_ok. vm_compute. reflexivity.
  - apply InMemoryFS.okb_ok. vm_compute. reflexivity.
Qed.
Lemma config_packs : packs config repo id.
Proof. intros off t. by eexists. Qed.

Definition text : bytes := "hello world".
Lemma text_paths : blob_paths (ok := ok) repo (digest_FromBytes text) text.
Proof. split_and!; apply supportedb_spec; vm_compute; reflexivity. Qed.

Lemma upload_stores_content_witness :
  let rqs := [body ["he"; "l"] "" ""; body ["lo"] "" ""] in
  let put := body [" wor"; "ld"] (digest_FromBytes text) "" in
  ∃ s', upload chunk 5 config id now rqs put registry = (Ret (created (blob_descriptor text)), s') ∧
    lbs_Get (λ _, 512) (repository_Blobs repo true) (digest_FromBytes text) s' = (Ret text, s').
Proof.
  destruct (upload_stores_content chunk 5 chunk_ok ltac:(lia) config repo true eq_refl (λ _, 512) registry id now
    [body ["he"; "l"] "" ""; body ["lo"] "" ""] (body [" wor"; "ld"] (digest_FromBytes text) "")) as (s' & H1 & _ & _ & H2).
  - intros _. lia.
  - exact registry_rinv.
  - exact paths.
  - vm_compute. reflexivity.
  - exact config_packs.
  - reflexivity.
  - reflexivity.
  - intros o Ho. by rewrite registry_object by done.
  - vm_compute. reflexivity.
  - vm_compute. reflexivity.
  - vm_compute. reflexivity.
  - vm_compute. reflexivity.
  - vm_compute. reflexivity.
  - exact text_paths.
  - intros x Hx. rewrite registry_object in Hx by (vm_compute; reflexivity). vm_compute in Hx. discriminate Hx.
  - exists s'. split; [exact H1|]. rewrite bool_decide_true in H2 by (vm_compute; discriminate). exact H2.
Defined.

(** ** Other requests *)

(** The registry with an upload that has received six bytes. *)
Definition sofar : bytes := "hello ".
Definition uploading : list (pathSpec * bytes) :=
  objects ++ [(uploadDataPathSpec repo id, sofar); (uploadStartedAtPathSpec repo id, Format now)].
Definition started : InMemory.state := put_all uploading (InMemory.New 0).
Lemma started_object spec : is_object spec = true → object (view started) spec = lookup_all uploading spec.
Proof. apply put_all_New. vm_compute. reflexivity. Qed.
Lemma started_persisted : UploadSpec.persisted (view := view) (inv := inv) (ok := ok) started repo id sofar.
Proof.
  split.
  - apply put_all_New. vm_compute. reflexivity.
  - exact paths.
  - rewrite started_object by (vm_compute; reflexivity). vm_compute. reflexivity.
  - exists (Format now), now. rewrite started_object by (vm_compute; reflexivity). split; vm_compute; reflexivity.
  - intros o c Ho Hc. rewrite started_object in Hc by done. discriminate Hc.
Qed.

Definition token (off : Z) : string :=
  match packUploadState (h_secret config) {| st_Name := repo; st_UUID := id; st_Offset := off; st_StartedAt := now |} with
  | Ret t => t
  | _ => ""
  end.
Lemma token_unpacks off :
  unpackUploadState (h_secret config) (token off) =
    Ret {| st_Name := repo; st_UUID := id; st_Offset := off; st_StartedAt := now |}.
Proof. apply unpack_pack. reflexivity. Qed.
Lemma token_accepted off reads d : token_for config repo id off (body reads d (token off)).
Proof. exists now. exact (token_unpacks off). Qed.

Lemma upload_token_authentic_witness : unpackUploadState "secret" (token 6) =
  Ret {| st_Name := repo; st_UUID := id; st_Offset := 6; st_StartedAt := now |}.
Proof.
  apply (proj1 (upload_token_authentic "secret" (token 6))). reflexivity.
Defined.

(** The in-memory driver refuses to cancel a writer that is closed. *)
Lemma in_memory_refuses : refuses_closed (D := InMemory.driver) (inv := inv) (opened := InMemoryFS.opened).
Proof. intros s w ks b _ Ho. exact (InMemoryFS.canceled_closed s w ks b Ho). Qed.

Lemma upload_wrong_digest_witness :
  ∃ s', serve chunk 5 config id PUT (body ["wor"; "ld"] dgst (token 6)) started = (Ret (errors [ErrorCodeDigestInvalid]), s') ∧
    object (view s') (blobDataPathSpec (digest_FromBytes text)) = None ∧
    UploadSpec.persisted (view := view) (inv := inv) (ok := ok) s' repo id text.
Proof.
  destruct (upload_wrong_digest chunk 5 chunk_ok ltac:(lia) config repo true eq_refl started id sofar
    (body ["wor"; "ld"] dgst (token 6))) as (s' & H1 & H2 & _ & H3).
  - exact started_persisted.
  - apply token_accepted.
  - vm_compute. reflexivity.
  - reflexivity.
  - reflexivity.
  - vm_compute. reflexivity.
  - unfold matches. vm_compute. discriminate.
  - exists s'. split; [exact H1|]. split; [|exact (H3 in_memory_refuses)]. rewrite H2 by (vm_compute; reflexivity).
    rewrite started_object by (vm_compute; reflexivity). vm_compute. reflexivity.
Defined.

Lemma upload_stale_token_witness :
  ∃ s', serve chunk 5 config id PATCH (body ["world"] "" (token 3)) started = (Ret (errors [ErrorCodeBlobUploadInvalid]), s') ∧
    UploadSpec.persisted (view := view) (inv := inv) (ok := ok) s' repo id sofar.
Proof.
  destruct (upload_stale_token chunk 5 config repo true eq_refl started id sofar PATCH
    (body ["world"] "" (token 3))) as (s' & H1 & _ & _ & H2 & _).
  - exact started_persisted.
  - intros st. cbn [rq_state body]. rewrite token_unpacks. intros [= <-]. right. right. discriminate.
  - cbn [rq_state body]. rewrite token_unpacks. discriminate.
  - exists s'. split; [exact H1|exact (H2 in_memory_refuses)].
Defined.

Lemma upload_cancel_witness :
  ∃ resp s', serve chunk 5 config id DELETE (body [] "" (token 6)) started = (Ret resp, s') ∧ rs_status resp = Some 204%Z ∧
    serve chunk 5 config id GET (body [] "" (token 6)) s' = (Ret (errors [ErrorCodeBlobUploadUnknown]), s').
Proof.
  destruct (upload_cancel chunk 5 config repo true eq_refl started id sofar
    (body [] "" (token 6))) as (resp & s' & H1 & H2 & _ & _ & _ & _ & _ & H3).
  - exact started_persisted.
  - apply token_accepted.
  - reflexivity.
  - exists resp, s'. split; [exact H1|]. split; [exact H2|]. apply (H3 GET _ now 6%Z). apply token_unpacks.
Defined.

(** The deferred Close of a canceled upload stores the state of the hash again,
    in the directory that was just removed. *)
Example cancel_leaves_hash_state :
  let s' := (serve chunk 5 config id DELETE (body [] "" (token 6)) started).2 in
  object (view s') (uploadStartedAtPathSpec repo id) = None ∧ is_Some (object (view s') (UploadSpec.state repo id 0)).
Proof. vm_compute. split; [reflexivity|by eexists]. Qed.

(** ** The file reader *)

Lemma file_reader_refines_cursor_witness :
  let ops := [FileReader.ORead 5; FileReader.OSeek (-2) FileReader.SeekEnd; FileReader.ORead 5] in
  let ks := layout (uploadDataPathSpec repo id) in
  ∃ fr, FileReader.run_rops chunk ops (started, FileReader.newFileReader (abspath ks) 6) =
    ([FileReader.ABytes "hel" None; FileReader.AOffset 4 None; FileReader.ABytes "o " (Some FileReader.EOF)], (started, fr)).
Proof.
  apply (FileReader.file_reader_refines_cursor chunk chunk_ok started (layout (uploadDataPathSpec repo id)) sofar).
  - apply started_persisted.
  - apply paths.
  - vm_compute. reflexivity.
  - reflexivity.
Defined.
End SampleUpload.
