(* ===== verification/SampleRequests.v ===== *)
(** * Requests on a concrete registry

    The storage of Sample.v with a metadata database into which an image is
    pushed: the inputs on which the theorems of the requests are evaluated, and
    requests that are answered with an error. *)

From S2P Require Import Prelude GoStd Digest DigestSet Driver FileSystem InMemory InMemoryFS Paths ObjectStore BlobStore ErrCode Database Tracking Datastore Transactions Repositories RepositoryTree RepositoryQueries StoreOps OnlineGC OnlineGCProps OnlineGCProgress Registry Rows RepositoryProps Api Manifests Handlers ManifestHandlers CatalogProps PushProps PushStore PushPull DeleteProps PullProps Sample SampleOnlineGC.

Module SampleRequests.
Import Paths ObjectStore ErrCode Database Tracking Datastore Transactions Repositories RepositoryTree StoreOps OnlineGCProps Registry Api Manifests Handlers ManifestHandlers CatalogProps PushProps PushStore PushPull Sample SampleOnlineGC.

(** ** The parameters *)

(** The order of the bytes, which is the collation "C". *)
#[local] Instance bytes_collation : Collation := {|
  coll_le x y := str_le x y = true;
  coll_le_dec x y := decide (str_le x y = true);
|}.
#[local] Instance bytes_collation_laws : CollationLaws.
Proof.
  split.
  - intros x y z. apply str_le_trans.
  - intros x y. destruct (str_le x y) eqn:Hxy; [by left|right]. by apply str_le_total.
  - intros x y. apply str_le_antisym.
Qed.

Definition reference (t : string) (d : digest) : descriptor := {| d_MediaType := t; d_Size := 5; d_Digest := d; d_URLs := [] |}.
Definition config_type : string := "application/vnd.docker.container.image.v1+json".
Definition layer_type : string := "application/vnd.docker.image.rootfs.diff.tar.gzip".
(** An image with the configuration [dgst] and one layer. *)
Definition alpine : Image :=
  {| im_Versioned := {| v_SchemaVersion := 2; v_MediaType := schema2_MediaTypeManifest |};
     im_Config := reference config_type dgst; im_Layers := [reference layer_type layer] |}.
(** The same image with a layer that is found elsewhere, before the other. *)
Definition windows : Image :=
  {| im_Versioned := im_Versioned alpine; im_Config := im_Config alpine;
     im_Layers := {| d_MediaType := schema2_MediaTypeForeignLayer; d_Size := 5; d_Digest := garbage; d_URLs := ["https://a/b"] |} :: im_Layers alpine |}.
Definition body : bytes := "manifest".
Definition image_digest : digest := digest_FromBytes body.
(** An index with the image, without the media type, which is optional. *)
Definition index : ManifestList :=
  {| ml_Versioned := {| v_SchemaVersion := 2; v_MediaType := "" |};
     ml_Manifests := Some [{| md_Descriptor := reference schema2_MediaTypeManifest image_digest; md_Architecture := "amd64"; md_OS := "linux" |}] |}.
(** A decoder that knows these manifests. *)
Definition index_body : bytes := "index".
Definition foreign_body : bytes := "foreign".
#[local] Instance codec : ManifestCodec := {|
  json_Versioned b := Some (im_Versioned alpine);
  json_schema2 b := if bool_decide (b = body) then Some alpine else if bool_decide (b = foreign_body) then Some windows else None;
  json_oci b := None;
  json_ManifestList b := if bool_decide (b = index_body) then Some index else None;
  schema1_Canonical b := None;
  mime_ParseMediaType t := Some t;
  url_Parse u := Some ("https", "");
|}.

(** ** The registry *)

Definition application : App :=
  {| a_useDatabase := true; a_writeFSMetadata := false; a_isCache := false; a_deleteEnabled := true; a_redirect := false;
     a_classes := []; a_resources := [] |}.
Definition blob_of (t : string) (d : digest) : Blob := {| blob_MediaType := t; blob_Digest := d; blob_Size := 5 |}.
Definition uploaded : list store_op :=
  [CreateOrFindRepositoryByPath repo; CreateOrFindBlob 0 (blob_of config_type dgst); LinkBlob 1 2 dgst;
   CreateOrFindBlob 0 (blob_of layer_type layer); LinkBlob 1 2 layer].
Definition before : db := tx_db (run_ops uploaded begun).2.
Definition at_rest (D : db) : world state := {| w_db := D; w_st := registry; w_faults := []; w_env := [] |}.

Lemma before_reached : reached (Drv := InMemory.driver) before.
Proof.
  apply (reached_calls migrated uploaded []); [exact (reached_migrated registry)|].
  repeat constructor. exists ["library"; "alpine"]. by repeat constructor.
Qed.
Lemma database_reached : reached (Drv := InMemory.driver) database.
Proof.
  apply (reached_calls migrated push []); [exact (reached_migrated registry)|].
  repeat constructor. exists ["library"; "alpine"]. by repeat constructor.
Qed.

(** The repository of the sample. *)
Definition alpine_repo : Repository :=
  default {| rp_ID := 0; rp_NamespaceID := 0; rp_Name := ""; rp_Path := ""; rp_ParentID := None |} (repository_by_path repo before).
Lemma repo_found : repository_by_path repo before = Some alpine_repo.
Proof. vm_compute. reflexivity. Qed.

Lemma repo_found_later : repository_by_path repo database = Some alpine_repo.
Proof. vm_compute. reflexivity. Qed.

Lemma rows_decode_witness : ∃ ms, manifestStore_FindAll (ok_tx database) = (Ret ms, ok_tx database) ∧ length ms = size (manifests database).
Proof.
  destruct (Rows.rows_decode (Drv := InMemory.driver) database database_reached) as (_ & (ms & Hrun & Hlen & _) & _).
  exists ms. split; [exact Hrun|exact Hlen].
Defined.
Lemma recursive_queries_witness :
  ∃ rs, repositoryStore_FindAncestorsOf (rp_ID alpine_repo) (ok_tx before) = (Ret (Some rs), ok_tx before) ∧ NoDup rs.
Proof.
  destruct (RepositoryProps.recursive_queries (Drv := InMemory.driver) before alpine_repo) as [_ (rs & Hrun & Hrs & _)].
  - apply before_reached.
  - vm_compute. reflexivity.
  - exists rs. split; [exact Hrun|exact Hrs].
Defined.
Lemma repositories_form_a_tree_witness : last (Split slash (rp_Path alpine_repo)) = Some (rp_Name alpine_repo).
Proof.
  destruct (RepositoryProps.repositories_form_a_tree (Drv := InMemory.driver) before alpine_repo) as (_ & Hl & _).
  - apply before_reached.
  - vm_compute. reflexivity.
  - exact Hl.
Defined.
Lemma create_or_find_by_path_witness :
  ∃ r D', repositoryStore_CreateOrFindByPath "library/alpine/edge" (ok_tx before) = (Ret r, ok_tx D') ∧
    RepositoryTree.content D' = RepositoryTree.content before.
Proof.
  destruct (RepositoryProps.create_or_find_by_path (Drv := InMemory.driver) before ["library"; "alpine"; "edge"])
    as (r & D' & Hrun & _ & _ & _ & Hc & _).
  - apply before_reached.
  - repeat constructor.
  - discriminate.
  - vm_compute. reflexivity.
  - exists r, D'. split; [exact Hrun|exact Hc].
Defined.

Lemma catalog_pages_witness :
  ∃ ps, follow 3 (GetCatalog 0 application) "1" "" (at_rest database) = (Ret ps, at_rest database) ∧ NoDup ps.
Proof.
  destruct (CatalogProps.catalog_pages (Drv := InMemory.driver) 0 application (at_rest database) "1" "") as (ps & Hrun & _ & Hnd & _).
  - reflexivity.
  - apply database_reached.
  - split; reflexivity.
  - exists ps. split; [|exact Hnd]. apply Hrun. vm_compute. lia.
Defined.
Lemma tag_pages_witness :
  ∃ ts, follow 2 (GetTags application repo) "1" "" (at_rest database) = (Ret ts, at_rest database) ∧ NoDup ts.
Proof.
  pose proof (CatalogProps.tag_pages (Drv := InMemory.driver) application (at_rest database) repo "1" "" eq_refl
    (conj eq_refl eq_refl)) as H.
  cbn [w_db at_rest] in H. rewrite repo_found_later in H. destruct H as (ts & Hrun & _ & Hnd & _).
  exists ts. split; [|exact Hnd]. apply Hrun. cbn [w_db at_rest]. apply Nat.eq_le_incl. vm_compute. reflexivity.
Defined.

(** ** Push and pull *)

Definition handler (tag : string) (d : digest) : manifestHandler :=
  {| mh_app := application; mh_urls := {| Allow := None; Deny := None |}; mh_name := repo; mh_Tag := tag; mh_Digest := d |}.

Lemma sample_pushes : pushes (handler "v1" "") schema2_MediaTypeManifest body alpine image_digest.
Proof.
  split.
  - repeat split.
  - vm_compute. discriminate.
  - left. vm_compute. reflexivity.
  - right. split; [reflexivity|discriminate].
  - reflexivity.
  - repeat constructor; try (vm_compute; discriminate); eexists; vm_compute; reflexivity.
Qed.
Lemma sample_get : BlobStore.Get (λ _, 512) dgst registry = (Ret blob, registry).
Proof.
  rewrite BlobStore.blob_Get_spec; [|intros _; lia|apply registry_rinv|apply supportedb_spec; vm_compute; reflexivity].
  rewrite registry_object by (vm_compute; reflexivity).
  replace (lookup_all objects (blobDataPathSpec dgst)) with (Some blob) by (vm_compute; reflexivity).
  rewrite bool_decide_true; [reflexivity|]. vm_compute. discriminate.
Qed.
Lemma sample_complete :
  complete (λ _, 512) before registry repo alpine image_digest alpine_repo (row image_digest) blob.
Proof.
  split.
  - apply repo_found.
  - vm_compute. reflexivity.
  - apply Forall_cons. split; [|apply Forall_cons; split; [|by apply Forall_nil]];
      (eexists; split; [vm_compute; reflexivity|vm_compute; reflexivity]).
  - vm_compute. reflexivity.
  - apply sample_get.
  - vm_compute. reflexivity.
  - intros k m. replace (manifests before) with (∅ : gmap row_key manifest_row) by (vm_compute; reflexivity).
    rewrite lookup_empty. discriminate.
Qed.

Lemma push_missing_blobs_witness :
  PutManifest (λ _, 512) (handler "v1" "") 0 schema2_MediaTypeManifest (Some body) (at_rest database) =
    (Ret (Refused [Some ErrorCodeManifestBlobUnknown; Some ErrorCodeManifestBlobUnknown]), at_rest database).
Proof.
  pose proof (PushProps.push_missing_blobs (Drv := InMemory.driver) (λ _, 512) (handler "v1" "") 0 schema2_MediaTypeManifest body alpine
    image_digest (at_rest database) sample_pushes (conj eq_refl eq_refl)) as H.
  replace (missing_codes (w_db (at_rest database)) (mh_name (handler "v1" "")) (image_References alpine))
    with [Some ErrorCodeManifestBlobUnknown; Some ErrorCodeManifestBlobUnknown] in H by (vm_compute; reflexivity).
  destruct H as [Hrun _]; [discriminate|exact Hrun].
Defined.
Lemma push_image_witness :
  ∃ D', PutManifest (λ _, 512) (handler "v1" "") 0 schema2_MediaTypeManifest (Some body) (at_rest before) =
    (Ret (Answer 201 image_digest), with_db D' (at_rest before)).
Proof.
  destruct (PushPull.push_image (λ _, 512) (handler "v1" "") 0 schema2_MediaTypeManifest body alpine image_digest alpine_repo
    (row image_digest) blob (at_rest before)) as (D' & i & x & Hrun & _).
  - apply sample_pushes.
  - split; reflexivity.
  - apply before_reached.
  - apply sample_complete.
  - vm_compute. reflexivity.
  - exists D'. exact Hrun.
Defined.

(** The paths of the digests of a database are supported. *)
Lemma storable_ready D :
  reached (Drv := InMemory.driver) D → forallb storableb (digests D) = true → ready (D, registry).
Proof.
  intros HD Hall. split.
  - by apply reached_good.
  - apply registry_rinv.
  - intros x d Hx%digests_known Hp. rewrite forallb_forall in Hall. specialize (Hall x (proj1 (list_elem_of_In _ _) Hx)).
    unfold storableb in Hall. rewrite Hp in Hall. apply andb_true_iff in Hall as [Ho Hok]. split; [done|]. by apply sample_ok.
Qed.
Lemma push_gc_pull_witness :
  ∃ D', PutManifest (λ _, 512) (handler "v1" "") 0 schema2_MediaTypeManifest (Some body) (at_rest before) =
      (Ret (Answer 201 image_digest), with_db D' (at_rest before)) ∧
    GetManifest (λ _, 512) (handler "v1" "") [] [] (at_rest D') =
      (Ret (Answer 200 {| ct_type := schema2_MediaTypeManifest; ct_payload := body; ct_digest := image_digest |}), at_rest D').
Proof.
  destruct (PullProps.push_gc_pull (view := view) (sinv := inv) (ok := ok) (λ _, 512) (handler "v1" "") 0 schema2_MediaTypeManifest body
    alpine image_digest alpine_repo (row image_digest) blob [] (at_rest before)) as (D' & Hrun & Hpull).
  - apply sample_pushes.
  - split; [discriminate|]. left. vm_compute. reflexivity.
  - reflexivity.
  - split; reflexivity.
  - apply before_reached.
  - apply storable_ready; [apply before_reached|]. vm_compute. reflexivity.
  - apply sample_complete.
  - discriminate.
  - vm_compute. reflexivity.
  - exists D'. split; [exact Hrun|]. apply (Hpull D' registry). apply rtc_refl.
Defined.
Lemma delete_manifest_request_witness :
  ∃ D', DeleteManifest (handler "" dgst) 0 (at_rest database) = (Ret (Answer 202 tt), with_db D' (at_rest database)).
Proof.
  pose proof (DeleteProps.delete_manifest_request (Drv := InMemory.driver) (handler "" dgst) 0 (row dgst) (at_rest database)) as H.
  specialize (H ltac:(repeat split) eq_refl (conj eq_refl eq_refl) database_reached ltac:(vm_compute; reflexivity)).
  cbn [w_db at_rest mh_name handler] in H. rewrite repo_found_later in H.
  replace (manifest_by_digest (rp_NamespaceID alpine_repo) (rp_ID alpine_repo) (row dgst) database) with (Some (1, 2, 1)%Z) in H
    by (vm_compute; reflexivity).
  destruct H as [[[p Hp] _]|[_ (D' & Hrun & _)]].
  - replace (manifest_references database) with (∅ : gset reference_row) in Hp by (vm_compute; reflexivity).
    exfalso. exact (not_elem_of_empty (C := gset reference_row) _ Hp).
  - exists D'. exact Hrun.
Defined.

(** ** A push that stores half an image

    A manifest with a layer that is found elsewhere passes the validation; the
    request stores the manifest, fails at that layer, and is answered with status
    500.  The second request finds the manifest and is answered with 201,
    although no layer was stored: the blobs of the layers are not referenced. *)

Definition put_foreign : GoM (world state) herr (reply digest) :=
  PutManifest (λ _, 512) (handler "v1" "") 0 schema2_MediaTypeManifest (Some foreign_body).
Definition reply_status (o : outcome herr (reply digest)) : Z := match o with Ret r => status r | _ => 0 end.
Lemma foreign_layers_lost :
  let '(o1, w1) := put_foreign (at_rest before) in
  let '(o2, w2) := put_foreign w1 in
  reply_status o1 = 500%Z ∧ reply_status o2 = 201%Z ∧ size (manifests (w_db w2)) = 1 ∧ size (tags (w_db w2)) = 1 ∧
  layers (w_db w2) = ∅.
Proof. vm_compute. repeat split. Qed.

(** ** An index that cannot be pulled

    An index without a media type is accepted and stored, but a request for it
    is answered with status 400, as for a manifest of schema 1. *)

Definition put_index : GoM (world state) herr (reply digest) :=
  PutManifest (λ _, 512) (handler "v2" "") 0 v1_MediaTypeImageIndex (Some index_body).
Lemma index_not_served :
  let '(_, w1) := PutManifest (λ _, 512) (handler "v1" "") 0 schema2_MediaTypeManifest (Some body) (at_rest before) in
  let '(o2, w2) := put_index w1 in
  reply_status o2 = 201%Z ∧
  (GetManifest (λ _, 512) (handler "v2" "") [v1_MediaTypeImageIndex] [] w2).1 = Ret (refuse ErrorCodeManifestInvalid).
Proof. vm_compute. split; reflexivity. Qed.

End SampleRequests.
