(* ===== verification/SampleUploadDatabase.v ===== *)
(** * A concrete upload with the database

    The upload of SampleUpload.v to a registry whose database has just been
    migrated: the inputs on which the theorems about uploads with the database
    are evaluated. *)

From S2P Require Import Prelude GoStd Digest GoText DigestSet Regexp Reference Driver FileSystem InMemory InMemoryFS Paths ObjectStore BlobStore Upload UploadSpec Hmac ErrCode UploadHandler UploadProps Database Tracking Datastore Transactions Repositories RepositoryTree StoreOps Registry Api Handlers PullProps UploadDatabase UploadPull Sample SampleOnlineGC SampleUpload SampleRequests.

Module SampleUploadDatabase.
Import Paths ObjectStore Upload UploadSpec UploadHandler UploadProps Sample SampleUpload.
Import Database Datastore RepositoryTree Registry Api Handlers UploadDatabase.
#[local] Existing Instance SampleRequests.bytes_collation.

(** The metadata is in the database only. *)
Definition database_config : handler (St := InMemory.state) :=
  {| h_blobs := h_blobs config; h_options := {| opt_resumableDigestEnabled := true; opt_mirrorFS := false |};
     h_secret := h_secret config; h_readOnly := h_readOnly config |}.
Definition start : world InMemory.state := SampleRequests.at_rest migrated.

Definition rqs : list request := [body ["he"; "l"] "" ""; body ["lo"] "" ""].
Definition put : request := body [" wor"; "ld"] (digest_FromBytes text) "".
Lemma content_text : UploadProps.content rqs put = text.
Proof. reflexivity. Qed.
Lemma repo_path : path_of ["library"; "alpine"] = repo.
Proof. reflexivity. Qed.
Lemma text_new : no_clash (view := view) registry text.
Proof.
  intros x Hx. rewrite registry_object in Hx by (vm_compute; reflexivity). vm_compute in Hx. discriminate Hx.
Qed.

Lemma upload_then_pull_witness :
  ∃ w', UploadPull.upload chunk 5 SampleRequests.application database_config id now rqs put start =
      (Ret (created (blob_descriptor text)), w') ∧
    GetBlob SampleRequests.application repo (digest_FromBytes text) w' = (Ret (PullProps.blob_answer (digest_FromBytes text) text), w').
Proof.
  destruct (UploadPull.upload_then_pull (view := view) (inv := inv) (ok := ok) chunk 5 chunk_ok ltac:(lia) SampleRequests.application database_config
    ["library"; "alpine"] true eq_refl ltac:(repeat split) id now rqs put (SampleOnlineGC.row (digest_FromBytes text)) start) as (D' & r & s' & H1 & _ & _ & H2).
  - split; reflexivity.
  - exact (reached_migrated registry).
  - by repeat constructor.
  - discriminate.
  - vm_compute. reflexivity.
  - apply (bool_decide_unpack _). vm_compute. exact I.
  - vm_compute. reflexivity.
  - exact registry_rinv.
  - rewrite repo_path. exact paths.
  - vm_compute. reflexivity.
  - rewrite repo_path. exact config_packs.
  - reflexivity.
  - intros o Ho. cbn [w_st start SampleRequests.at_rest]. by rewrite registry_object by done.
  - vm_compute. reflexivity.
  - vm_compute. reflexivity.
  - vm_compute. reflexivity.
  - vm_compute. reflexivity.
  - vm_compute. reflexivity.
  - rewrite content_text, repo_path. exact text_paths.
  - rewrite content_text. exact text_new.
  - exists (with_db D' (set_st s' start)). rewrite content_text, repo_path in H2. rewrite content_text in H1. split; [exact H1|exact H2].
Defined.

Lemma mount_needs_link_witness :
  StartBlobUpload SampleRequests.application database_config "other" layer id now start =
  StartBlobUpload SampleRequests.application database_config "" "" id now start.
Proof.
  apply (UploadPull.mount_needs_link (view := view) (inv := inv) (ok := ok)) with (source := "other") (d := layer).
  - split; reflexivity.
  - exact registry_rinv.
  - vm_compute. reflexivity.
  - apply supportedb_spec. vm_compute. reflexivity.
  - cbn [w_st start SampleRequests.at_rest]. rewrite registry_object by (vm_compute; reflexivity). vm_compute. reflexivity.
Defined.

End SampleUploadDatabase.
