(* ===== verification/SampleReference.v ===== *)
(** * Concrete references

    References on which the theorems about the grammar are evaluated, and names
    whose familiar forms are other names. *)

From S2P Require Import Prelude GoStd Digest DigestSet Regexp Reference ReferenceProps.

Module SampleReference.
Import Regexp Reference ReferenceProps.

(** The strings of the samples are ASCII. *)
#[local] Instance sample_unicode : Unicode := {| unicode_ToLower s := s |}.

Definition sample_digest : digest := digest_FromBytes "layer".
Definition local_alpine : repository := {| domain := "localhost:5000"; path := "library/alpine" |}.

Lemma parse_iff_witness :
  well_formed (FullReference local_alpine "v3.14" sample_digest) ∧
  String (FullReference local_alpine "v3.14" sample_digest) = "localhost:5000/library/alpine:v3.14@" +:+ sample_digest.
Proof. apply (parse_iff ("localhost:5000/library/alpine:v3.14@" +:+ sample_digest)). vm_compute. reflexivity. Defined.

Definition ubuntu : Reference := TaggedReference {| domain := "docker.io"; path := "library/ubuntu" |} "20.04".
Lemma normalized_canonical_witness : ParseNamed (String ubuntu) = Ret ubuntu.
Proof. apply (normalized_canonical "ubuntu:20.04" ubuntu). vm_compute. reflexivity. Defined.
Lemma familiar_roundtrip_witness : ParseNormalizedNamed (FamiliarString ubuntu) = Ret ubuntu.
Proof.
  apply (familiar_roundtrip "index.docker.io/library/ubuntu:20.04" ubuntu).
  - vm_compute. reflexivity.
  - intros _. vm_compute. reflexivity.
Defined.

(** The familiar form of a name in the default domain whose first component
    looks like a host is the name of another registry; that of an official image
    with 64 hexadecimal digits is not a name. *)
Lemma familiar_other_registry :
  let r := Repository {| domain := "docker.io"; path := "localhost/alpine" |} in
  ParseNormalizedNamed (String r) = Ret r ∧ FamiliarString r = "localhost/alpine" ∧
  ParseNormalizedNamed (FamiliarString r) = Ret (Repository {| domain := "localhost"; path := "alpine" |}).
Proof. vm_compute. repeat split. Qed.

End SampleReference.
