(* ===== verification/SampleListener.v ===== *)
(** * A concrete repository with notifications

    A repository that holds blobs by their digests, and a sink that accepts every
    event: the inputs on which the theorems about events are evaluated. *)

From S2P Require Import Prelude GoStd Digest DigestSet Regexp Reference Driver FileSystem Paths ObjectStore BlobStore ErrCode Database Datastore Api Manifests Listener Sample SampleRequests.

Module SampleListener.
Import Manifests Listener.
#[local] Existing Instance SampleRequests.codec.

Definition notified : Reference.repository := {| Reference.domain := ""; Reference.path := "library/alpine" |}.
Definition blob_desc (d : digest) : descriptor := {| d_MediaType := "application/octet-stream"; d_Size := 5; d_Digest := d; d_URLs := [] |}.
Definition layer : digest := digest_FromBytes "layer".

(** The state is the list of the digests of the blobs. *)
Abbreviation store := (list digest).
Definition blobs : BlobStore (S := store) (E := string) := {|
  Stat d := λ s, (if bool_decide (d ∈ s) then Ret (blob_desc d) else Fail "unknown", s);
  b_Get d := λ s, (if bool_decide (d ∈ s) then Ret "layer" else Fail "unknown", s);
  Open d := λ s, (if bool_decide (d ∈ s) then Ret "layer" else Fail "unknown", s);
  ServeBlob d := λ s, (if bool_decide (d ∈ s) then Ret () else Fail "unknown", s);
  b_Put _ p := λ s, (Ret (blob_desc (digest_FromBytes p)), digest_FromBytes p :: s);
  Create := λ s, (Fail "mounted", layer :: s);
  Resume _ := fail "unknown";
  b_Delete d := λ s, (if bool_decide (d ∈ s) then Ret () else Fail "unknown", filter (.≠ d) s);
|}.
Definition manifests : ManifestService (S := store) (E := string) :=
  {| m_Delete _ := fail "unknown"; m_Get _ _ := fail "unknown"; m_Put _ _ := fail "unsupported" |}.
Definition tags : TagService (S := store) (E := string) := {| Untag _ := mret () |}.
Definition remover : RepositoryRemover (S := store) (E := string) := {| Remove _ := modify (λ _, []) |}.
Definition mounted (e : string) : option (descriptor * Reference.repository) :=
  if bool_decide (e = "mounted") then Some (blob_desc layer, notified) else None.

Definition sample_bridge : bridge :=
  {| includeReferences := false; actor := "ci"; source := {| s_Addr := "registry:5000"; s_InstanceID := "1" |};
     request := {| r_ID := "7"; r_Addr := "10.0.0.1"; r_Host := "registry"; r_Method := "PUT"; r_UserAgent := "docker" |} |}.


End SampleListener.
