(* ===== verification/SampleAuth.v ===== *)
(** * A concrete token

    An issuer whose key the registry trusts, a token that it signed, and requests
    with that token: the inputs on which the theorems about authorization are
    evaluated. *)

From S2P Require Import Prelude GoStd Digest DigestSet Regexp Reference Driver Hmac ErrCode TokenAuth Authorization.

Module SampleAuth.
Import Auth TokenAuth ErrCode Authorization.

(** A key is its identifier, and signs by its name. *)
Definition claims : ClaimSet :=
  {| Issuer := "issuer"; Subject := "alice"; Audience := "registry"; Expiration := 1000; NotBefore := 100; IssuedAt := 100; JWTID := "1";
     Access := [Some {| ra_Type := "repository"; ra_Class := ""; ra_Name := "library/alpine"; Actions := ["pull"; "push"] |};
                Some {| ra_Type := "registry"; ra_Class := ""; ra_Name := "catalog"; Actions := ["*"] |}] |}.
Definition header : Header := {| h_Type := "JWT"; SigningAlg := "RS256"; TokenAuth.KeyID := "key"; X5c := []; RawJWK := None |}.
#[local] Instance sample_crypto : TokenCrypto := {|
  json_Header b := if bool_decide (b = "header") then Some header else None;
  json_ClaimSet b := if bool_decide (b = "claims") then Some claims else None;
  PublicKey := string;
  key_KeyID k := k;
  key_Verify k raw alg sig := bool_decide (sig = k +:+ "+" +:+ raw);
  UnmarshalPublicKeyJWK b := None;
  jwk_x5c k := None;
  Certificate := string;
  ParseCertificate b := Some b;
  cert_Verify now leaf ins roots := bool_decide (leaf ∈ roots);
  cert_PublicKey c := Some c;
|}.
Definition key : PublicKey := "key".
#[local] Instance sample_unicode : Reference.Unicode := {| Reference.unicode_ToLower s := s |}.

Definition controller_ : accessController :=
  {| realm := "https://auth"; autoRedirect := false; issuer := "issuer"; service := "registry"; rootCerts := ["key"]; trustedKeys := {["key" := "key"]} |}.
Lemma controller_made : newAccessController "https://auth" false "issuer" "registry" ["key" : Certificate] = Some controller_.
Proof. reflexivity. Qed.
Definition raw : string := joseBase64UrlEncode "header" +:+ "." +:+ joseBase64UrlEncode "claims".
Definition token : Token := {| Raw := raw; t_Header := header; Claims := claims; Signature := "key+" +:+ raw |}.
Definition authorization : string := "Bearer " +:+ compactRaw token.
Definition at_ : Z := (500 * 10 ^ 9)%Z.

Lemma token_split : Split " " authorization = ["Bearer"; compactRaw token].
Proof. vm_compute. reflexivity. Qed.
Lemma token_parsed : NewToken (compactRaw token) = Ret token.
Proof. vm_compute. reflexivity. Qed.
Lemma token_valid : valid at_ controller_ token key.
Proof. constructor; vm_compute; reflexivity || discriminate. Qed.

Lemma token_authorized_witness :
  trusted at_ controller_ key ∧
  ∃ rs, Authorized at_ controller_ authorization [repository_access "library/alpine" "push"] = Ret ("alice", rs).
Proof.
  destruct (token_authorized at_ controller_ authorization [repository_access "library/alpine" "push"]) as (Hiff & Hkey & _).
  split.
  - apply (Hkey token); [|exact token_valid]. exact (newAccessController_keyed _ _ _ _ _ _ controller_made).
  - exists (token_resources token). apply Hiff. exists "Bearer", (compactRaw token), token, key.
    split; [split; [exact token_split|reflexivity]|]. split; [exact token_parsed|]. split; [exact token_valid|]. split_and!; try reflexivity.
    + apply token_accessSet_ok. eexists. reflexivity.
    + apply Forall_cons. split; [|by apply Forall_nil]. split; [reflexivity|]. eexists. split; [apply list_elem_of_here|]. split_and!; [reflexivity..|].
      right. apply list_elem_of_further, list_elem_of_here.
Defined.

Definition plain_config : config := {| Database_Enabled := true; Migration_Enabled := true; Migration_DisableMirrorFS := false |}.
Definition new_repository : answers :=
  {| provider := true; repository := Ret (); validator := true; Exists := Ret false; migration_provider := true;
     migration_repository := Ret (); middleware := true |}.
Definition push : request := {| route := Some RouteNameManifest; method := "PUT"; getName := "library/alpine"; from := "" |}.
Definition pushed : context :=
  {| who := Some {| user := "alice"; resources := token_resources token |}; useDatabase := true; writeFSMetadata := true; migrating := true; Errors := [] |}.
Lemma push_dispatched : dispatcher plain_config (Some (token_controller at_ controller_ authorization)) new_repository push = Ret pushed.
Proof. vm_compute. reflexivity. Qed.

Lemma request_granted_witness :
  (∃ t, carries at_ controller_ authorization t ∧ grants t (repository_access "library/alpine" "push")) ∧
  ∃ d, dispatcher plain_config (Some (token_controller at_ controller_ "Basic YTpi")) new_repository push = Fail d ∧ status d = 401%Z.
Proof.
  split.
  - destruct (request_granted plain_config at_ controller_ authorization new_repository push) as [H _].
    destruct (H _ push_dispatched) as (t & Hc & _ & Hg & _). exists t. split; [exact Hc|]. apply Hg; [discriminate|reflexivity].
  - destruct (request_granted plain_config at_ controller_ "Basic YTpi" new_repository push) as [_ H].
    apply (H ErrTokenRequired). vm_compute. reflexivity.
Defined.

Lemma request_routed_witness : useDatabase pushed = true ∧ migrating pushed = true.
Proof.
  destruct (request_routed plain_config _ new_repository push pushed push_dispatched) as (Hdb & _ & _ & Hm & _); [reflexivity|discriminate|].
  assert (useDatabase pushed = true) as H by (apply Hdb; split; [reflexivity|intros _; reflexivity]). split; [exact H|]. apply Hm. split; [exact H|reflexivity].
Defined.

End SampleAuth.
